(* ===== verification/_CoqProject ===== *)
-Q . S2P
Prelude.v
JsNumber.v
Shared.v
Prices.v
Fees.v
Lightning.v
PaymentFlow.v
LightningBuilder.v
OnChainBuilder.v
LedgerEntry.v
TxMetadata.v
LedgerTx.v
TxHistory.v
Limits.v
Invoices.v
OnChainTx.v
Utils.v
World.v
LedgerBook.v
LedgerService.v
Pages.v
Services.v
Repositories.v
WalletInvoices.v
Money.v
Accounts.v
AccountUpdates.v
AccountLimits.v
FlowBuilder.v
SendLightning.v
SendIntraledger.v
PayInvoice.v
FeeProbe.v
PendingPayments.v
ReceiveLightning.v
OnChainService.v
OnChainFlow.v
SendOnChain.v
OnChainReceive.v
EventStream.v
BriaEvents.v
BriaBooks.v
