(* ===== verification/Prelude.v ===== *)
(** * Galoy core API: a verification development

    Galoy is a custodial bitcoin bank: users hold a BTC and a USD wallet, pay and receive over
    Lightning, on chain and between each other, and a dealer wallet takes the other side of
    conversions.  This library models the payment core of the API server, [src/core/api/src],
    and proves that amounts, fees, limits and ledger entries are what the code means them to be.

    ** The program and the files

    A payment is built in stages by a payment flow builder (domain/payments), which resolves
    sender and recipient, converts amounts between the currencies and computes fees; the flow is
    checked against the sender's balance and the account's limits, and recorded in a double-entry
    ledger (services/ledger) kept by the medici library.  Incoming payments go through the
    wallet invoices and address receivers to the same ledger.  Recorded transactions are read back
    for the history shown to users.  The files follow that order.

    - [Prelude] (this file): results with early return, truthiness, tactics, hint databases,
      lemmas on integers and lists.
    - [JsNumber]: JavaScript numbers as binary64 floats ([spec_float] of the Standard Library) with
      the operations the code uses, [toFixed], [parseInt]; exactness on safe integers.
    - [Shared]: domain/shared: errors, currencies, amounts, checked conversions from numbers, the
      amount calculator.
    - [Prices]: domain/payments/price-ratio.ts and domain/fiat: price ratios and display amounts.
    - [Fees]: domain/payments/ln-fees.ts, withdrawal and deposit fees, the imbalance calculator, fee
      reimbursement.
    - [Lightning]: domain/bitcoin/lightning: invoice decoding, final hops, expirations.
    - [PaymentFlow]: domain/payments/payment-flow.ts and the route validator.
    - [LightningBuilder], [OnChainBuilder]: the two payment flow builders, Modules [LPFB] and [OPFB]
      with one record per stage and one definition per method; Modules [Built] and [OnChainBuilt]
      hold the relation of the states that the chain of stages can reach, and its invariant.
    - [LedgerEntry]: services/ledger/domain: the entries that the recording functions build.
      The medici entry is the class [MediciEntry] with its laws [MediciLaws].
    - [TxMetadata]: services/ledger/facade/tx-metadata.ts.
    - [LedgerTx]: ledger transactions and domain/ledger/ln-payment-state.ts, with the history of a
      payment as the step relation [payment_step], which is a specification of what is recorded and
      not a translation.
    - [TxHistory]: services/ledger/translate.ts, domain/wallets/settlement-amounts.ts and
      tx-history.ts.
    - [Limits]: the volumes of services/ledger/facade/volume.ts and the checks of domain/accounts.
    - [Invoices]: domain/wallet-invoices and the on-chain address receiver.
    - [OnChainTx]: domain/bitcoin/onchain filters, pending balances and rebalancing.
    - [Utils]: the polling loop, the parallel workers and the set difference of utils/index.ts; the
      workers are a step relation over the shared iterator.
    - [World]: the collections of the database and the outside, the [IO] programs over them, and
      their weakest preconditions [wp].
    - [LedgerBook]: services/ledger/facade, helpers.ts, send.ts, caching.ts and schema.ts over the
      stored transactions: recording, reverts, settling, states.  The medici book is the class
      [MediciBook] with its laws [MediciBookLaws].
    - [LedgerService]: the metadata lookups, queries and payout functions of services/ledger.
    - [Pages]: services/ledger/paginated-ledger.ts and the queries that use it.
    - [Services]: services/lock and app/prices, over the redlock clients ([Redlock]) and the price
      services and cache ([PriceServices]); the Lightning node is the class [ILightningService].
    - [Repositories]: the payment flows, Lightning payments, wallets, accounts and users of
      services/mongoose; [WalletInvoices]: its invoices, with the checks of their schema.
    - [Money]: what a program keeps and what it moves: relations kept by programs that read ([Reads]) or
      write to other collections ([Frame]), changes of the accounts ([moved]), and the recording
      functions in these terms.
    - [Accounts]: the checked types of domain/accounts, the account repository with its unique keys, the use
      cases of app/accounts that change only an account, and the wallet guard of servers/middlewares.
    - [AccountUpdates]: those that reach further: the display currency with the currencies of app/prices, the
      deletion of an account and the upgrade of a device account, with the users of services/mongoose.
    - [AccountLimits]: the volume queries over the stored ledger and app/accounts/account-limit.ts.
    - [FlowBuilder]: the Lightning flow builder given the wallets, invoices and prices of the bank, and
      app/payments/helpers.ts.
    - [SendLightning]: app/payments/send-lightning.ts under the lock of the sender's wallet and
      reimburse-fee.ts; [PayInvoice]: the rest of it, from the request to the answer.
    - [SendIntraledger]: app/payments/send-intraledger.ts.
    - [FeeProbe]: app/payments/get-protocol-fee.ts.
    - [PendingPayments]: app/payments/update-pending-payments.ts, reimburse-failed-usd.ts and
      translations.ts.
    - [ReceiveLightning]: app/wallets/update-single-pending-invoice.ts,
      decline-single-pending-invoice.ts and the handler of one invoice.
    - [OnChainService]: the calls of services/bria over the gRPC client ([BriaClient]).
    - [OnChainFlow]: the on-chain flow builder given the wallets and prices of the bank; [SendOnChain]:
      app/payments/send-on-chain.ts and app/wallets/get-on-chain-fee.ts.
    - [OnChainReceive]: services/rate-limit, the addresses of a wallet, and the pending and settled
      deposits of app/wallets, with their repositories.
    - [EventStream]: utils/grpc-stream-client: the delays, the listeners and the stream with its timer.
    - [BriaEvents]: the events of Bria: their translation (services/bria/event-handler.ts), their handlers
      (servers/event-handlers/bria.ts) with payouts and cold storage (app/on-chain,
      services/ledger/admin.ts), and the subscription as a step function over its inputs;
      [BriaBooks]: what all the events do to the books.

    ** How the code is translated

    A [number] is a float and a [bigint] an integer of [Z] whose division truncates; dates are
    milliseconds.  A function returning [A | Error] returns a [result]; [instanceof Error] with an
    early return is its bind; an exception that is not caught is the error [JsThrow].  Objects
    made by closures are records of what the closures capture.  Promises are values: the modelled
    functions await one call after the other.  Code that is given its price functions as arguments is
    written for any kind of call ([Calls] of [Shared]): a direct one, for the theorems on amounts, and
    one that asks a service ([Async] of [World]).  A function that uses the database is an [IO] program
    of the world: every access may throw, at the choice of the outside, and what was written before
    an error stays written.  A call that the code does not wait for is run in its place.  Objects
    used as maps are finite maps.  A call to code outside the repository (medici, the Lightning node, the dealer, the database, the
    currency data of Intl, the clock, randomness, the values of the yaml configuration) is an
    argument; what is relied on is a class of laws, such as [ConversionLaws], or a hypothesis.
    Span attributes and logs are left out.

    ** What the theorems show

    - Ledger ([LedgerEntry]): every committed entry of a payment between users, a payment out, a
      receipt or a fee reconciliation balances in each currency, and the accounts involved change by
      the amounts given.
    - Stored books ([LedgerBook], [LedgerService]): the same of the stored documents, for every
      database fault: a recording either stores a balanced journal or leaves the ledger alone, a
      revert undoes its journal, a payment is settled at most once, a payout's transaction id that
      is delivered again changes nothing, a wallet's balance is that of its documents; the
      metadata of several ids is that of each id.
    - Pages and repositories ([Pages], [Repositories]): the pages together are the wallets'
      transactions, each once; a stored payment flow is read back as it was but for one flag; a
      flow that was sent and is pending is not dropped for its age, and a lookup answers with a flow that
      has not expired at the time it reads.
    - Payments ([SendLightning], [PendingPayments]): for every answer of the node and every fault
      of the database, the books stay balanced and the sender is charged the payment and the fee
      that was used, or nothing once it is reverted; an update moves the money of a pending
      payment as the node's answer asks for, and at most once.
    - Requests ([PayInvoice], [SendIntraledger], [FeeProbe]): from the arguments of the user to the
      answer, an invoice of another user or a wallet is paid the amount of the flow that is built, from
      the sender to that wallet and within the limits at the price and the volumes that are read, or nothing
      moves; an invoice that this wallet
      paid is not paid again; a payment whose fee was estimated finds the estimated flow.
    - Receipts ([WalletInvoices], [ReceiveLightning]): a stored invoice is found again as it was; for
      every answer and every fault, nothing is credited unless the node holds the payment, the
      recipient gets what the node received (in the BTC wallet of the same account, where the dealer finds it
      worth no cent), and an invoice is credited at most once.
    - On-chain payments ([SendOnChain]): for every answer of Bria and every fault, the sender is charged
      the payment and its fees and a payout is asked for, or what was taken is given back; an address of
      the bank is paid inside it; the amounts in the two currencies are those of the dealer's answers.
    - On-chain deposits ([OnChainReceive]): a deposit is credited at most once, to the wallet of its address
      and less the deposit fee; listing it as pending moves nothing; an address is stored with its
      wallet once, and no wallet loses one.
    - Events of Bria ([BriaEvents], [BriaBooks], [EventStream]): whatever events are delivered, in whatever order and
      however often, every journal stays balanced; an event is stored as passed only after its handler succeeded, and one that
      failed is asked for again; the fee of a payout is reconciled once; where no event
      arrives while a listener runs, no event is passed before it was handled, but for those whose listener threw; the delays between the
      calls are the Fibonacci series up to its limit.
    - Loops ([Utils]): polling ends within its retries; the parallel workers end, and each item is
      processed once.
    - Lightning flows ([LightningBuilder]): for every flow that a builder can make, no payment to
      the sender's own wallet, no fee inside the bank, a verified fee limit outside it, an amount
      that is the requested one, a consistent recipient, and dollar fees that follow the route.
    - On-chain flows ([OnChainBuilder]): a send-all payment takes exactly the proposed amount, amounts
      are above dust, and the fee is split into the miner's and the bank's part.
    - Visibility ([TxMetadata], [TxHistory]): the payer's memo stays with the payer; the amounts,
      status and memo shown are those recorded.
    - Payment state ([LedgerTx]): the state found from a bundle of transactions is the state of
      the history that made it, in any order of reading.
    - Limits ([AccountLimits]): each check allows a payment exactly if the last day's volume plus its
      amount is within the limit, or the database fails.
    - Accounts ([Accounts], [AccountUpdates]): whichever of the updates of app/accounts are made and whatever
      fails, no two accounts have the same username or user, a username once set stays and no status is
      taken back; a resolver runs only for a wallet of
      the account that asks.
    - Receiving ([Invoices], [OnChainTx]): what is credited and the fee add up to what was
      received; pending balances are the sums of their transactions.
    - Amounts, prices and fees ([Shared], [Prices], [Fees], [Lightning], [PaymentFlow]): rounding,
      round trips of conversions, fee bounds, decoding of invoices, the balance check.
    - Some theorems describe behaviour that looks unintended: [Limits.negative_volume_counted],
      [TxHistory.translate_vout], the second part of [OnChainTx.balanceByWallet_sum],
      [LedgerService.mismatch_never_reported], [Pages.before_replaces_after],
      [Services.cent_ratio_labelled_btc], [Services.PriceExamples.lower_case_not_cached],
      [ReceiveLightning.ReceiveExamples.declined_invoice_marked_paid],
      [Accounts.AccountExamples.lock_lost_to_contact],
      [SendIntraledger.IntraledgerExamples.limits_not_atomic],
      [PayInvoice.PayExamples.paid_twice_by_two_payers],
      [BriaEvents.SubscriptionExamples.concurrent_failures_skip_event], [failed_call_skips_event] and
      [throw_skips_event] beside it,
      [BriaBooks.EventExamples.rebalance_recorded_twice],
      [EventStream.StreamExamples.removes_another_listener] and the lost flag of
      [Repositories.paymentFlow_stored].

    ** Bounds and fuel

    Theorems that go through floats assume integers below 2^53, where floats are exact; the
    checked conversions enforce smaller maxima on user input.  Fuel is used in the printing of
    numbers ([trim_zeros], [shortest_digits] of [JsNumber]), bounded by the number of digits, on
    which no theorem depends; in [Utils.delayWhile], one more than the retries, and in
    [Pages.pages], one more than the documents, both proved to be enough.  All other recursion is structural.

    ** What is not modelled

    The rest of the application flows (LNURL sends of app/payments, new invoices of app/wallets), the
    creation of accounts, the other uses of the users, the pages of invoices, the admin queries, the clients of LND, of the
    price, identity and notification services, the builder of a stream, the GraphQL layer, servers,
    migrations, the Rust services and the front ends.  A use case runs without others in between, except
    where an example orders the steps of two of them, and in the subscription to the events of Bria. *)

From stdpp Require Export base tactics list gmap strings option numbers pretty.
From Stdlib Require Export ZArith Lia.
From Stdlib Require Import Sorted.

#[export] Set Warnings "-notation-overridden,-clear-no-such-hyp".

Declare Scope ts_scope.
Delimit Scope ts_scope with ts.
Global Open Scope Z_scope.

(** ** Results

    A TypeScript function of type [A | Error] returns either a value or an
    error object; callers test [x instanceof Error] and return early.  This is
    the error monad; stdpp's [x ← e; k] is the early return. *)
Inductive result (E A : Type) : Type :=
| Ok (a : A)
| Err (e : E).
Arguments Ok {E A} a.
Arguments Err {E A} e.

#[export] Instance result_ret E : MRet (result E) := fun A a => Ok a.
#[export] Instance result_bind E : MBind (result E) :=
  fun A B f r => match r with Ok a => f a | Err e => Err e end.
#[export] Instance result_fmap E : FMap (result E) :=
  fun A B f r => match r with Ok a => Ok (f a) | Err e => Err e end.

#[export] Instance result_eq_dec `{EqDecision E, EqDecision A} : EqDecision (result E A).
Proof. solve_decision. Defined.

Definition is_ok {E A} (r : result E A) : bool :=
  match r with Ok _ => true | Err _ => false end.

(** A guard [if (c) return new E()] followed by the rest of the function. *)
Definition fail_if {E} (c : bool) (e : E) : result E unit :=
  if c then Err e else Ok tt.

(** [traverse f xs] runs a fallible loop body over a list and stops at the first error. *)
Fixpoint traverse {E A B} (f : A -> result E B) (xs : list A) : result E (list B) :=
  match xs with
  | [] => Ok []
  | x :: xs => y ← f x; ys ← traverse f xs; Ok (y :: ys)
  end.

Section ResultLaws.
  Context {E A B : Type}.
  Implicit Types (r : result E A) (f : A -> result E B).

Lemma bind_Ok r f b : (r ≫= f) = Ok b ↔ ∃ a, r = Ok a ∧ f a = Ok b.
  Proof. destruct r; cbn; naive_solver. Qed.

Lemma bind_Err r f e : (r ≫= f) = Err e ↔ r = Err e ∨ ∃ a, r = Ok a ∧ f a = Err e.
  Proof. destruct r; cbn; naive_solver. Qed.

Lemma fmap_Ok r (g : A -> B) b : (g <$> r) = Ok b ↔ ∃ a, r = Ok a ∧ b = g a.
  Proof. destruct r; cbn; naive_solver. Qed.
End ResultLaws.

Lemma fail_if_Ok {E} c (e : E) u : fail_if c e = Ok u ↔ c = false.
Proof. destruct c, u; cbn; naive_solver. Qed.

Lemma fail_if_Err {E} c (e e' : E) : fail_if c e = Err e' ↔ c = true ∧ e = e'.
Proof. destruct c; cbn; naive_solver. Qed.

Lemma traverse_Ok_length {E A B} (f : A -> result E B) xs ys :
  traverse f xs = Ok ys -> length ys = length xs.
Proof.
  revert ys; induction xs as [|x xs IH]; intros ys; cbn; [naive_solver|].
  rewrite bind_Ok. intros (y & _ & H). apply bind_Ok in H as (zs & Hz & [= <-]).
  cbn. by rewrite (IH zs).
Qed.

(** ** JavaScript truthiness

    [if (x)], [x || y], [!!x] test truthiness: [undefined], [null], [0], [0n],
    [NaN] and the empty string are falsy, every object is truthy. *)
Class Truthy (A : Type) := truthy : A -> bool.
#[export] Instance truthy_bigint : Truthy Z := fun z => negb (z =? 0).
#[export] Instance truthy_string : Truthy string := fun s => bool_decide (s ≠ ""%string).
#[export] Instance truthy_bool : Truthy bool := fun b => b.
#[export] Instance truthy_option `{Truthy A} : Truthy (option A) :=
  fun o => match o with Some a => truthy a | None => false end.

(** [x || d] for an optional [x]. *)
Definition js_or `{Truthy A} (o : option A) (d : A) : A :=
  match o with Some a => if truthy a then a else d | None => d end.

(** [x || y] for two optional values. *)
Definition js_or_opt `{Truthy A} (o p : option A) : option A :=
  if truthy o then o else p.

(** ** Proof automation *)
Create HintDb galoy discriminated.
Create Rewrite HintDb galoy_run.
Create Rewrite HintDb zbool.

#[export] Hint Rewrite @bind_Ok @bind_Err @fmap_Ok @fail_if_Ok @fail_if_Err : galoy_run.
#[export] Hint Rewrite Z.eqb_eq Z.eqb_neq Z.ltb_lt Z.ltb_ge Z.leb_le Z.leb_gt
  andb_true_iff andb_false_iff orb_true_iff orb_false_iff negb_true_iff negb_false_iff : zbool.

(** Turn the boolean comparisons of the context into propositions. *)
Ltac zbool := autorewrite with zbool in *.

(** One step of decomposing a hypothesis saying that a fallible program returned. *)
Ltac result_step :=
  match goal with
  | H : Ok _ = Ok _ |- _ => injection H as H
  | H : Err _ = Err _ |- _ => injection H as H
  | H : Ok _ = Err _ |- _ => discriminate H
  | H : Err _ = Ok _ |- _ => discriminate H
  | H : mbind _ _ = Ok _ |- _ =>
      let a := fresh "a" in let Ha := fresh "Ha" in
      apply bind_Ok in H as (a & Ha & H)
  | H : fmap _ _ = Ok _ |- _ =>
      let a := fresh "a" in let Ha := fresh "Ha" in
      apply fmap_Ok in H as (a & Ha & H)
  | H : fail_if _ _ = Ok _ |- _ => apply fail_if_Ok in H
  | H : fail_if _ _ = Err _ |- _ => apply fail_if_Err in H as [H ?]
  | H : (if ?b then Err _ else _) = Ok _ |- _ => destruct b eqn:?; [discriminate H|]
  | H : (if ?b then _ else Err _) = Ok _ |- _ => destruct b eqn:?; [|discriminate H]
  | H : context [match ?x with _ => _ end] |- _ =>
      match type of H with _ = Ok _ => destruct x eqn:?; try discriminate H end
  end.

(** Decompose every successful run of the context. *)
Ltac result_inv := repeat result_step; simplify_eq/=.

(** Case analysis on every conditional of the goal. *)
Ltac split_ifs := repeat case_match; simplify_eq/=.

(** ** Integer lemmas shared by the amount, fee and ratio components *)

Lemma quot_rem_pos (a b : Z) : 0 <= a -> 0 < b ->
  a = b * Z.quot a b + Z.rem a b ∧ 0 <= Z.rem a b < b ∧ 0 <= Z.quot a b.
Proof.
  intros Ha Hb. pose proof (Z.quot_rem' a b). pose proof (Z.rem_bound_pos a b Ha Hb).
  pose proof (Z.quot_pos a b Ha Hb). lia.
Qed.

Lemma quot_unique_pos (a b q r : Z) :
  0 <= a -> 0 <= r < b -> a = b * q + r -> Z.quot a b = q ∧ Z.rem a b = r.
Proof.
  intros Ha Hr He. split; symmetry; [eapply Z.quot_unique | eapply Z.rem_unique]; eauto.
Qed.

Lemma quot_mono_l (a a' b : Z) : 0 < b -> 0 <= a <= a' -> Z.quot a b <= Z.quot a' b.
Proof. intros. apply Z.quot_le_mono; lia. Qed.

(** Sums of a list of integers. *)
Definition sumZ (xs : list Z) : Z := foldr Z.add 0 xs.

Lemma sumZ_app xs ys : sumZ (xs ++ ys) = sumZ xs + sumZ ys.
Proof. induction xs; cbn; [done|]. unfold sumZ in *. lia. Qed.

Lemma filter_all {A} (P : A -> Prop) `{∀ x, Decision (P x)} l : Forall P l -> filter P l = l.
Proof. induction 1; [done|]. rewrite filter_cons_True by done. by f_equal. Qed.

Lemma filter_none {A} (P : A -> Prop) `{∀ x, Decision (P x)} l :
  Forall (fun x => ¬ P x) l -> filter P l = [].
Proof. induction 1; [done|]. by rewrite filter_cons_False. Qed.

Lemma StronglySorted_filter {A} (R : A -> A -> Prop) (P : A -> Prop) `{∀ x, Decision (P x)} l :
  StronglySorted R l -> StronglySorted R (filter P l).
Proof.
  induction 1 as [|x l Hs IH Hx]; [constructor|]. rewrite filter_cons. case_decide; [|done].
  constructor; [done|]. apply Forall_forall. intros y [_ Hy]%list_elem_of_filter.
  exact (proj1 (Forall_forall _ _) Hx y Hy).
Qed.

Lemma Forall_sub_filter {A} (P Q : A -> Prop) `{∀ x, Decision (Q x)} l :
  Forall P l -> Forall P (filter Q l).
Proof.
  intros HP. apply Forall_forall. intros x [_ Hin]%list_elem_of_filter.
  by apply (proj1 (Forall_forall _ _) HP).
Qed.
