(* ===== verification/JsNumber.v ===== *)
(** * JavaScript numbers

    The source's [number] is an IEEE-754 binary64 value and its [bigint] an
    unbounded integer.  A [bigint] is a [Z]; a [number] is a [spec_float] of the
    standard library's executable specification of binary64 ([SpecFloat], 53
    bits of precision, exponents below 1024), so NaN, the infinities, the two
    zeros and rounding are all present.  The file defines the operations of the
    language that the source applies to numbers (arithmetic, comparison with
    numbers and with bigints, [Math.floor]/[ceil]/[round], [Number(bigint)],
    [BigInt(number)], truthiness) and proves that on safe integers, those below
    [2^53] in absolute value, they are the integer operations. *)

From S2P Require Import Prelude.
From Corelib Require Import SpecFloat.
From Stdlib Require Import Ascii.

Definition number : Type := spec_float.

Definition prec : Z := 53.
Definition emax : Z := 1024.

#[export] Instance number_eq_dec : EqDecision number.
Proof. solve_decision. Defined.

(** ** Conversions *)

(** [Number(n)] for a bigint [n]: round to nearest, ties to even. *)
Definition Number (z : Z) : number := binary_normalize prec emax z 0 false.

(** The signed integer [m * 2^e] of a finite number whose exponent is not negative. *)
Definition signed (s : bool) (m : positive) : Z := cond_Zopp s (Zpos m).

(** [BigInt(x)]: [None] stands for the RangeError thrown on a fraction, NaN or an infinity. *)
Definition BigInt (x : number) : option Z :=
  match x with
  | S754_zero _ => Some 0
  | S754_finite s m e =>
      if 0 <=? e then Some (signed s m * 2 ^ e)
      else if Zpos m mod 2 ^ (- e) =? 0 then Some (signed s m / 2 ^ (- e))
      else None
  | S754_infinity _ | S754_nan => None
  end.

(** [Number.isInteger(x)] *)
Definition isInteger (x : number) : bool :=
  match BigInt x with Some _ => true | None => false end.

(** ** Arithmetic *)
Definition num_add : number -> number -> number := SFadd prec emax.
Definition num_sub : number -> number -> number := SFsub prec emax.
Definition num_mul : number -> number -> number := SFmul prec emax.
Definition num_div : number -> number -> number := SFdiv prec emax.
Definition num_neg : number -> number := SFopp.

(** [Math.abs] *)
Definition Math_abs : number -> number := SFabs.

(** [Math.floor], [Math.ceil], [Math.round]: the integral value below, above, or
    nearest (ties towards plus infinity); a zero result keeps the argument's sign. *)
Definition Math_floor (x : number) : number :=
  match x with
  | S754_finite s m e =>
      if 0 <=? e then x else binary_normalize prec emax (signed s m / 2 ^ (- e)) 0 s
  | _ => x
  end.

Definition Math_ceil (x : number) : number :=
  match x with
  | S754_finite s m e =>
      if 0 <=? e then x else binary_normalize prec emax (- (- signed s m / 2 ^ (- e))) 0 s
  | _ => x
  end.

Definition Math_round (x : number) : number :=
  match x with
  | S754_finite s m e =>
      if 0 <=? e then x
      else binary_normalize prec emax ((2 * signed s m + 2 ^ (- e)) / 2 ^ (1 - e)) 0 s
  | _ => x
  end.

(** ** Comparison *)

(** [x === y], [x < y], [x <= y] on numbers; all false on NaN, and +0 === -0. *)
Definition num_eqb : number -> number -> bool := SFeqb.
Definition num_ltb : number -> number -> bool := SFltb.
Definition num_leb : number -> number -> bool := SFleb.

(** A number against a bigint: the language compares the exact mathematical values. *)
Definition cmp_bigint (x : number) (z : Z) : option comparison :=
  match x with
  | S754_nan => None
  | S754_infinity s => Some (if s then Lt else Gt)
  | S754_zero _ => Some (0 ?= z)
  | S754_finite s m e =>
      Some (if 0 <=? e then signed s m * 2 ^ e ?= z else signed s m ?= z * 2 ^ (- e))
  end.

(** [x > z] and [x < z] for a number [x] and a bigint [z]. *)
Definition num_gtb_bigint (x : number) (z : Z) : bool :=
  match cmp_bigint x z with Some Gt => true | _ => false end.
Definition num_ltb_bigint (x : number) (z : Z) : bool :=
  match cmp_bigint x z with Some Lt => true | _ => false end.

#[export] Instance truthy_number : Truthy number :=
  fun x => match x with S754_zero _ | S754_nan => false | _ => true end.

(** ** Exactness on safe integers *)

Definition safe_integer (z : Z) : Prop := Z.abs z < 2 ^ 53.

Lemma digits2_pos_bounds (p : positive) :
  2 ^ (Zpos (digits2_pos p) - 1) <= Zpos p < 2 ^ Zpos (digits2_pos p).
Proof.
  induction p as [p IH | p IH |]; cbn [digits2_pos]; try (cbn; lia).
  all: rewrite Pos2Z.inj_succ; replace (Z.succ (Zpos (digits2_pos p)) - 1)
         with (Z.succ (Zpos (digits2_pos p) - 1)) by lia.
  all: rewrite !Z.pow_succ_r by lia; lia.
Qed.

Lemma digits2_pos_unique (p : positive) (d : Z) :
  2 ^ (d - 1) <= Zpos p < 2 ^ d -> 0 < d -> Zpos (digits2_pos p) = d.
Proof.
  intros [Hlo Hhi] Hd. pose proof (digits2_pos_bounds p) as [Blo Bhi].
  assert (d - 1 < Zpos (digits2_pos p)) by (apply (Z.pow_lt_mono_r_iff 2); lia).
  assert (Zpos (digits2_pos p) - 1 < d) by (apply (Z.pow_lt_mono_r_iff 2); lia).
  lia.
Qed.

Lemma iter_xO (p d : positive) : Zpos (Pos.iter xO p d) = Zpos p * 2 ^ Zpos d.
Proof.
  induction d as [|d IH] using Pos.peano_ind; [cbn; lia|].
  rewrite Pos.iter_succ, Pos2Z.inj_succ, Z.pow_succ_r, Pos2Z.inj_xO, IH by lia. ring.
Qed.

Lemma iter_pos_succ {A} (f : A -> A) (p : positive) (x : A) :
  SpecFloat.iter_pos f (Pos.succ p) x = f (SpecFloat.iter_pos f p x).
Proof.
  assert (C : forall p x, SpecFloat.iter_pos f p (f x) = f (SpecFloat.iter_pos f p x)).
  { clear. induction p as [p IH|p IH|]; intros x; cbn; rewrite ?IH; reflexivity. }
  revert x; induction p as [p IH|p IH|]; intros x; [| |reflexivity].
  - change (Pos.succ p~1) with (Pos.succ p)~0%positive.
    cbn [SpecFloat.iter_pos]. by rewrite !IH, !C.
  - change (Pos.succ p~0) with p~1%positive. cbn [SpecFloat.iter_pos]. by rewrite !C.
Qed.

Lemma shr_1_exact (m : Z) : shr_1 (Build_shr_record (2 * m) false false) = Build_shr_record m false false.
Proof. destruct m; reflexivity. Qed.

Lemma iter_shr_1_exact (p : positive) (m : Z) :
  SpecFloat.iter_pos shr_1 p (Build_shr_record (m * 2 ^ Zpos p) false false) = Build_shr_record m false false.
Proof.
  revert m; induction p as [|p IH] using Pos.peano_ind; intros m.
  - cbn [SpecFloat.iter_pos]. replace (m * 2 ^ 1) with (2 * m) by lia. apply shr_1_exact.
  - rewrite iter_pos_succ, Pos2Z.inj_succ, Z.pow_succ_r by lia.
    replace (m * (2 * 2 ^ Zpos p)) with ((2 * m) * 2 ^ Zpos p) by ring.
    rewrite IH. apply shr_1_exact.
Qed.

Lemma binary_round_aux_exact (s : bool) (n q : positive) (k : Z) :
  let d := Zpos (digits2_pos n) in
  d <= 53 -> 0 <= k ->
  Zpos q = Zpos n * 2 ^ k -> 53 - d <= k ->
  binary_round_aux prec emax s (Zpos q) (- k) loc_Exact
  = S754_finite s (Z.to_pos (Zpos n * 2 ^ (53 - d))) (d - 53).
Proof.
  intros d Hd Hk Hq Hle.
  pose proof (digits2_pos_bounds n) as B; fold d in B.
  assert (Hd0 : 0 < d) by (subst d; lia).
  assert (Dq : Zpos (digits2_pos q) = d + k).
  { apply digits2_pos_unique; [|lia]. rewrite Hq.
    replace (d + k - 1) with ((d - 1) + k) by lia. rewrite !Z.pow_add_r by lia.
    pose proof (Z.pow_pos_nonneg 2 k ltac:(lia) Hk). nia. }
  set (m := Zpos n * 2 ^ (53 - d)).
  assert (Hm : 0 < m) by (subst m; pose proof (Z.pow_pos_nonneg 2 (53 - d)); lia).
  assert (Dm : Zpos (digits2_pos (Z.to_pos m)) = 53).
  { apply digits2_pos_unique; [|lia]. rewrite Z2Pos.id by lia. subst m.
    pose proof (Z.pow_pos_nonneg 2 (53 - d)).
    assert (2 ^ (53 - 1) = 2 ^ (d - 1) * 2 ^ (53 - d)) by (rewrite <- Z.pow_add_r by lia; f_equal; lia).
    assert (2 ^ 53 = 2 ^ d * 2 ^ (53 - d)) by (rewrite <- Z.pow_add_r by lia; f_equal; lia).
    nia. }
  assert (Hshr : shr_fexp prec emax (Zpos q) (- k) loc_Exact = (Build_shr_record m false false, d - 53)).
  { unfold shr_fexp, shr_record_of_loc, Zdigits2. rewrite Dq.
    unfold fexp, emin, prec, emax.
    replace (Z.max (d + k + - k - 53) (3 - 1024 - 53) - - k) with (k - (53 - d)) by lia.
    destruct (k - (53 - d)) as [|p|p] eqn:E; cbn [shr]; [| |lia].
    - f_equal; [f_equal; subst m; rewrite Hq; do 2 f_equal; lia | lia].
    - f_equal; [|lia]. rewrite Hq.
      replace (Zpos n * 2 ^ k) with (m * 2 ^ Zpos p); [apply iter_shr_1_exact|].
      subst m. rewrite <- Z.mul_assoc, <- Z.pow_add_r by lia. do 2 f_equal; lia. }
  unfold binary_round_aux. rewrite Hshr. cbn [shr_m loc_of_shr_record round_nearest_even].
  unfold shr_fexp, shr_record_of_loc, Zdigits2.
  destruct m as [|mp|mp] eqn:Em; [lia| |lia].
  cbn [Z.to_pos] in *. rewrite Dm. unfold fexp, emin, prec, emax.
  replace (Z.max (53 + (d - 53) - 53) (3 - 1024 - 53) - (d - 53)) with 0 by lia.
  cbn [shr shr_m]. destruct (Z.leb_spec (d - 53) (1024 - 53)); [reflexivity | lia].
Qed.

Lemma binary_round_exact (s : bool) (n q : positive) (k : Z) :
  let d := Zpos (digits2_pos n) in
  d <= 53 -> 0 <= k -> Zpos q = Zpos n * 2 ^ k ->
  binary_round prec emax s q (- k)
  = S754_finite s (Z.to_pos (Zpos n * 2 ^ (53 - d))) (d - 53).
Proof.
  intros d Hd Hk Hq.
  pose proof (digits2_pos_bounds n) as B; fold d in B.
  assert (Hd0 : 0 < d) by (subst d; lia).
  assert (Dq : Zpos (digits2_pos q) = d + k).
  { apply digits2_pos_unique; [|lia]. rewrite Hq.
    replace (d + k - 1) with ((d - 1) + k) by lia. rewrite !Z.pow_add_r by lia.
    pose proof (Z.pow_pos_nonneg 2 k ltac:(lia) Hk). nia. }
  unfold binary_round, shl_align. rewrite Dq. unfold fexp, emin.
  replace (Z.max (d + k + - k - prec) (3 - emax - prec)) with (d - 53) by (unfold prec, emax; lia).
  destruct (d - 53 - - k) as [|p|p] eqn:E.
  - apply binary_round_aux_exact; fold d; lia.
  - apply binary_round_aux_exact; fold d; lia.
  - replace (d - 53) with (- (53 - d)) at 1 by lia.
    apply binary_round_aux_exact; fold d; try lia.
    rewrite iter_xO, Hq, <- Z.mul_assoc, <- Z.pow_add_r by lia. do 2 f_equal; lia.
Qed.

Lemma digits2_pos_safe (n : positive) : Zpos n < 2 ^ 53 -> Zpos (digits2_pos n) <= 53.
Proof.
  intros H. pose proof (digits2_pos_bounds n) as [B _].
  assert (Zpos (digits2_pos n) - 1 < 53); [|lia].
  apply (Z.pow_lt_mono_r_iff 2); lia.
Qed.

(** The canonical form of a safe positive integer: a 53-bit mantissa. *)
Definition canon (s : bool) (n : positive) : number :=
  S754_finite s (Z.to_pos (Zpos n * 2 ^ (53 - Zpos (digits2_pos n)))) (Zpos (digits2_pos n) - 53).

Lemma binary_normalize_scaled (z k : Z) (s : bool) :
  safe_integer z -> z <> 0 -> 0 <= k ->
  binary_normalize prec emax (z * 2 ^ k) (- k) s = Number z.
Proof.
  unfold safe_integer, Number. intros Hz Hnz Hk.
  pose proof (Z.pow_pos_nonneg 2 k ltac:(lia) Hk).
  destruct z as [|n|n]; [done| |].
  - destruct (Zpos n * 2 ^ k) as [|q|q] eqn:E; [lia| |lia]. cbn [binary_normalize].
    rewrite (binary_round_exact _ n q k) by (try apply digits2_pos_safe; lia).
    symmetry. apply (binary_round_exact false n n 0); [apply digits2_pos_safe|..]; lia.
  - destruct (Zneg n * 2 ^ k) as [|q|q] eqn:E; [lia|lia|]. cbn [binary_normalize].
    rewrite (binary_round_exact _ n q k) by (try apply digits2_pos_safe; lia).
    symmetry. apply (binary_round_exact true n n 0); [apply digits2_pos_safe|..]; lia.
Qed.

Lemma Number_pos n : Zpos n < 2 ^ 53 -> Number (Zpos n) = canon false n.
Proof. intros. apply (binary_round_exact false n n 0); [apply digits2_pos_safe|..]; lia. Qed.

Lemma Number_neg n : Zpos n < 2 ^ 53 -> Number (Zneg n) = canon true n.
Proof. intros. apply (binary_round_exact true n n 0); [apply digits2_pos_safe|..]; lia. Qed.

(** Every nonzero safe integer is a finite number [±m * 2^-k] with [±m = z * 2^k]
    and a mantissa of 53 bits. *)
Lemma Number_finite (z : Z) : safe_integer z -> z <> 0 ->
  ∃ m k, 0 <= k ∧ Number z = S754_finite (z <? 0) m (- k) ∧
         signed (z <? 0) m = z * 2 ^ k ∧ 2 ^ 52 <= Zpos m < 2 ^ 53.
Proof.
  unfold safe_integer. intros Hz Hnz.
  assert (Hcan : ∀ n, Zpos n < 2 ^ 53 -> let d := Zpos (digits2_pos n) in
            0 <= 53 - d ∧ Zpos (Z.to_pos (Zpos n * 2 ^ (53 - d))) = Zpos n * 2 ^ (53 - d)
            ∧ 2 ^ 52 <= Zpos n * 2 ^ (53 - d) < 2 ^ 53).
  { intros n Hn d. pose proof (digits2_pos_safe n Hn). fold d in H.
    pose proof (digits2_pos_bounds n) as B; fold d in B.
    pose proof (Z.pow_pos_nonneg 2 (53 - d) ltac:(lia) ltac:(lia)).
    assert (2 ^ 52 = 2 ^ (d - 1) * 2 ^ (53 - d)) by (rewrite <- Z.pow_add_r by (subst d; lia); f_equal; lia).
    assert (2 ^ 53 = 2 ^ d * 2 ^ (53 - d)) by (rewrite <- Z.pow_add_r by (subst d; lia); f_equal; lia).
    split_and!; [lia|rewrite Z2Pos.id; nia|nia|nia]. }
  destruct z as [|n|n]; [done|..].
  - destruct (Hcan n ltac:(lia)) as (H1 & H2 & H3).
    eexists _, (53 - Zpos (digits2_pos n)).
    rewrite Number_pos by lia. unfold canon. split_and!; [lia| |cbn; exact H2|lia|lia].
    change (Zpos n <? 0) with false. f_equal; lia.
  - destruct (Hcan n ltac:(lia)) as (H1 & H2 & H3).
    eexists _, (53 - Zpos (digits2_pos n)).
    rewrite Number_neg by lia. unfold canon. change (Zneg n <? 0) with true.
    split_and!; [lia|f_equal; lia|cbn [signed cond_Zopp]; lia|lia|lia].
Qed.

Lemma Number_0 : Number 0 = S754_zero false.
Proof. reflexivity. Qed.

(** [BigInt(Number(z))] is [z]. *)
Lemma BigInt_Number (z : Z) : safe_integer z -> BigInt (Number z) = Some z.
Proof.
  intros Hz. destruct (decide (z = 0)) as [->|Hnz]; [done|].
  destruct (Number_finite z Hz Hnz) as (m & k & Hk & -> & Hm & _). unfold BigInt.
  pose proof (Z.pow_pos_nonneg 2 k ltac:(lia) Hk) as Hp.
  destruct (Z.leb_spec 0 (- k)) as [H0|H0].
  - assert (k = 0) as -> by lia. rewrite Hm. f_equal. change (- 0) with 0. lia.
  - rewrite Z.opp_involutive, Hm, Z.div_mul by lia.
    assert (Zpos m mod 2 ^ k = 0) as ->; [|done].
    assert (Zpos m = Z.abs z * 2 ^ k) as ->; [|by apply Z.mod_mul; lia].
    unfold signed, cond_Zopp in Hm. destruct (Z.ltb_spec z 0); nia.
Qed.

Lemma isInteger_Number (z : Z) : safe_integer z -> isInteger (Number z) = true.
Proof. intros. unfold isInteger. by rewrite BigInt_Number. Qed.

Lemma Number_inj (a b : Z) : safe_integer a -> safe_integer b -> Number a = Number b -> a = b.
Proof. intros Ha Hb H. apply (f_equal BigInt) in H. rewrite !BigInt_Number in H by done. congruence. Qed.

Lemma truthy_Number (z : Z) : safe_integer z -> truthy (Number z) = truthy z.
Proof.
  intros Hz. unfold truthy at 2, truthy_bigint. destruct (Z.eqb_spec z 0) as [->|Hnz]; [done|].
  by destruct (Number_finite z Hz Hnz) as (m & k & Hk & -> & _).
Qed.

(** Aligning a number on a smaller exponent multiplies its mantissa. *)
Lemma shl_align_value (m : positive) (k j : Z) : k <= j ->
  Zpos (fst (shl_align m (- k) (- j))) = Zpos m * 2 ^ (j - k).
Proof.
  intros H. unfold shl_align. destruct (- j - - k) as [|p|p] eqn:E; cbn [fst].
  - replace (j - k) with 0 by lia. lia.
  - lia.
  - rewrite iter_xO. do 2 f_equal. lia.
Qed.

Lemma signed_align (s : bool) (m : positive) (z k j : Z) : 0 <= k <= j ->
  signed s m = z * 2 ^ k ->
  cond_Zopp s (Zpos (fst (shl_align m (- k) (- j)))) = z * 2 ^ j.
Proof.
  intros Hkj Hz. rewrite shl_align_value by lia.
  replace (z * 2 ^ j) with (z * 2 ^ k * 2 ^ (j - k)); [rewrite <- Hz|].
  - unfold signed, cond_Zopp. destruct s; ring.
  - rewrite <- Z.mul_assoc, <- Z.pow_add_r by lia. do 2 f_equal; lia.
Qed.

Lemma binary_normalize_sum (z k : Z) : safe_integer z -> 0 <= k ->
  binary_normalize prec emax (z * 2 ^ k) (- k) false = Number z.
Proof.
  intros Hz Hk. destruct (decide (z = 0)) as [->|]; [done|].
  by apply binary_normalize_scaled.
Qed.

Lemma num_add_Number (a b : Z) :
  safe_integer a -> safe_integer b -> safe_integer (a + b) ->
  num_add (Number a) (Number b) = Number (a + b).
Proof.
  intros Ha Hb Hab.
  destruct (decide (a = 0)) as [->|Na]; destruct (decide (b = 0)) as [->|Nb]; [done|..].
  - rewrite Z.add_0_l. destruct (Number_finite b Hb Nb) as (m & k & Hk & -> & _); done.
  - rewrite Z.add_0_r. destruct (Number_finite a Ha Na) as (m & k & Hk & -> & _); done.
  - destruct (Number_finite a Ha Na) as (m & k & Hk & -> & Hm & _).
    destruct (Number_finite b Hb Nb) as (m' & k' & Hk' & -> & Hm' & _).
    unfold num_add, SFadd. replace (Z.min (- k) (- k')) with (- Z.max k k') by lia.
    rewrite (signed_align _ m a k), (signed_align _ m' b k') by (done || lia).
    rewrite <- Z.mul_add_distr_r. apply binary_normalize_sum; [done|lia].
Qed.

Lemma num_neg_Number (a : Z) : safe_integer a -> a <> 0 -> num_neg (Number a) = Number (- a).
Proof.
  unfold safe_integer. intros Ha Na. destruct a as [|n|n]; [done|..].
  - change (- Zpos n) with (Zneg n). by rewrite Number_pos, Number_neg by lia.
  - change (- Zneg n) with (Zpos n). by rewrite Number_pos, Number_neg by lia.
Qed.

Lemma num_sub_Number (a b : Z) :
  safe_integer a -> safe_integer b -> safe_integer (a - b) ->
  num_sub (Number a) (Number b) = Number (a - b).
Proof.
  intros Ha Hb Hab.
  destruct (decide (a = 0)) as [->|Na]; destruct (decide (b = 0)) as [->|Nb]; [done|..].
  - rewrite Z.sub_0_l, <- (num_neg_Number b) by done.
    destruct (Number_finite b Hb Nb) as (m & k & Hk & -> & _); done.
  - rewrite Z.sub_0_r. destruct (Number_finite a Ha Na) as (m & k & Hk & -> & _); done.
  - destruct (Number_finite a Ha Na) as (m & k & Hk & -> & Hm & _).
    destruct (Number_finite b Hb Nb) as (m' & k' & Hk' & -> & Hm' & _).
    unfold num_sub, SFsub. replace (Z.min (- k) (- k')) with (- Z.max k k') by lia.
    rewrite (signed_align _ m a k), (signed_align _ m' b k') by (done || lia).
    rewrite <- Z.mul_sub_distr_r. apply binary_normalize_sum; [done|lia].
Qed.

(** Rounding an integer does nothing. *)
Lemma Math_floor_Number (z : Z) : safe_integer z -> Math_floor (Number z) = Number z.
Proof.
  intros Hz. destruct (decide (z = 0)) as [->|Nz]; [done|].
  destruct (Number_finite z Hz Nz) as (m & k & Hk & E & Hm & _). rewrite E at 1. cbn [Math_floor].
  pose proof (Z.pow_pos_nonneg 2 k ltac:(lia) Hk).
  destruct (Z.leb_spec 0 (- k)); [done|].
  rewrite Z.opp_involutive, Hm, Z.div_mul by lia.
  pose proof (binary_normalize_scaled z 0 (z <? 0) Hz Nz ltac:(lia)) as R.
  by rewrite Z.mul_1_r in R.
Qed.

Lemma Math_ceil_Number (z : Z) : safe_integer z -> Math_ceil (Number z) = Number z.
Proof.
  intros Hz. destruct (decide (z = 0)) as [->|Nz]; [done|].
  destruct (Number_finite z Hz Nz) as (m & k & Hk & E & Hm & _). rewrite E at 1. cbn [Math_ceil].
  pose proof (Z.pow_pos_nonneg 2 k ltac:(lia) Hk).
  destruct (Z.leb_spec 0 (- k)); [done|].
  rewrite Z.opp_involutive, Hm, <- Z.mul_opp_l, Z.div_mul, Z.opp_involutive by lia.
  pose proof (binary_normalize_scaled z 0 (z <? 0) Hz Nz ltac:(lia)) as R.
  by rewrite Z.mul_1_r in R.
Qed.

Lemma Math_round_Number (z : Z) : safe_integer z -> Math_round (Number z) = Number z.
Proof.
  intros Hz. destruct (decide (z = 0)) as [->|Nz]; [done|].
  destruct (Number_finite z Hz Nz) as (m & k & Hk & E & Hm & _). rewrite E at 1. cbn [Math_round].
  pose proof (Z.pow_pos_nonneg 2 k ltac:(lia) Hk).
  destruct (Z.leb_spec 0 (- k)); [done|].
  replace (1 - - k) with (k + 1) by lia. rewrite Z.opp_involutive, Hm, Z.pow_add_r by lia.
  replace ((2 * (z * 2 ^ k) + 2 ^ k) / (2 ^ k * 2 ^ 1)) with z.
  - pose proof (binary_normalize_scaled z 0 (z <? 0) Hz Nz ltac:(lia)) as R.
    by rewrite Z.mul_1_r in R.
  - apply Z.div_unique with (2 ^ k); lia.
Qed.

Lemma cmp_bigint_Number (a z : Z) : safe_integer a -> cmp_bigint (Number a) z = Some (a ?= z).
Proof.
  intros Ha. destruct (decide (a = 0)) as [->|Na]; [done|].
  destruct (Number_finite a Ha Na) as (m & k & Hk & -> & Hm & _). cbn [cmp_bigint]. f_equal.
  pose proof (Z.pow_pos_nonneg 2 k ltac:(lia) Hk).
  destruct (Z.leb_spec 0 (- k)).
  - assert (k = 0) as -> by lia. rewrite Hm. f_equal. lia.
  - rewrite Z.opp_involutive, Hm. symmetry. apply Zmult_compare_compat_r. lia.
Qed.

(** A number that converts to the integer [z] compares with bigints as [z] does. *)
Lemma cmp_bigint_BigInt (x : number) (n z : Z) : BigInt x = Some n -> cmp_bigint x z = Some (n ?= z).
Proof.
  destruct x as [s|s| |s m e]; cbn; try naive_solver.
  destruct (Z.leb_spec 0 e); [naive_solver|].
  destruct (Z.eqb_spec (Zpos m mod 2 ^ (- e)) 0) as [Hmod|]; [|done]. intros [= <-]. f_equal.
  pose proof (Z.pow_pos_nonneg 2 (- e) ltac:(lia) ltac:(lia)).
  assert (signed s m = signed s m / 2 ^ (- e) * 2 ^ (- e)) as E.
  { apply Z.mod_divide in Hmod as [q Hq]; [|lia].
    unfold signed, cond_Zopp. rewrite Hq. destruct s.
    - by rewrite <- Z.mul_opp_l, Z.div_mul by lia.
    - by rewrite Z.div_mul by lia. }
  rewrite E at 1. symmetry. apply Zmult_compare_compat_r. lia.
Qed.

Lemma canonical_lt (a b k k' : Z) (m m' : positive) :
  0 <= k -> 0 <= k' -> k' < k ->
  Zpos m = a * 2 ^ k -> Zpos m' = b * 2 ^ k' ->
  Zpos m < 2 ^ 53 -> 2 ^ 52 <= Zpos m' -> a < b.
Proof.
  intros Hk Hk' Hlt Hm Hm' B B'.
  assert (2 ^ k = 2 ^ k' * 2 ^ (k - k')) as E by (rewrite <- Z.pow_add_r by lia; f_equal; lia).
  assert (2 ^ 1 <= 2 ^ (k - k')) by (apply Z.pow_le_mono_r; lia).
  pose proof (Z.pow_pos_nonneg 2 k' ltac:(lia) Hk').
  assert (a * 2 ^ k < 2 * (b * 2 ^ k')) as F by lia.
  destruct (Z.lt_ge_cases a b) as [|Hge]; [done|]. exfalso.
  assert (0 < b) by nia. rewrite E in F.
  assert (b * (2 ^ k' * 2 ^ 1) <= a * (2 ^ k' * 2 ^ (k - k'))); [|lia].
  apply Z.mul_le_mono_nonneg; nia.
Qed.

Lemma SFcompare_pos (a b k k' : Z) (m m' : positive) :
  0 <= k -> 0 <= k' ->
  Zpos m = a * 2 ^ k -> Zpos m' = b * 2 ^ k' ->
  2 ^ 52 <= Zpos m < 2 ^ 53 -> 2 ^ 52 <= Zpos m' < 2 ^ 53 ->
  match - k ?= - k' with Lt => Lt | Gt => Gt | Eq => Pos.compare_cont Eq m m' end = (a ?= b).
Proof.
  intros Hk Hk' Hm Hm' B B'. destruct (Z.compare_spec (- k) (- k')) as [E|E|E].
  - assert (k' = k) as -> by lia. change (Pos.compare_cont Eq m m') with (Zpos m ?= Zpos m').
    pose proof (Z.pow_pos_nonneg 2 k ltac:(lia) Hk).
    rewrite Hm, Hm'. symmetry. apply Zmult_compare_compat_r. lia.
  - symmetry. apply Z.compare_lt_iff. by eapply (canonical_lt a b k k' m m'); try lia.
  - symmetry. apply Z.compare_gt_iff. by eapply (canonical_lt b a k' k m' m); try lia.
Qed.

(** Comparing safe integers as numbers is comparing them as integers. *)
Lemma SFcompare_Number (a b : Z) : safe_integer a -> safe_integer b ->
  SFcompare (Number a) (Number b) = Some (a ?= b).
Proof.
  intros Ha Hb.
  destruct (decide (a = 0)) as [->|Na]; destruct (decide (b = 0)) as [->|Nb]; [done|..].
  - destruct (Number_finite b Hb Nb) as (m & k & Hk & -> & _).
    unfold SFcompare, Number. cbn [binary_normalize]. f_equal. symmetry.
    destruct (Z.ltb_spec b 0); [apply Z.compare_gt_iff | apply Z.compare_lt_iff]; lia.
  - destruct (Number_finite a Ha Na) as (m & k & Hk & -> & _).
    unfold SFcompare, Number. cbn [binary_normalize]. f_equal. symmetry.
    destruct (Z.ltb_spec a 0); [apply Z.compare_lt_iff | apply Z.compare_gt_iff]; lia.
  - destruct (Number_finite a Ha Na) as (m & k & Hk & -> & Hm & B).
    destruct (Number_finite b Hb Nb) as (m' & k' & Hk' & -> & Hm' & B').
    unfold SFcompare. f_equal. unfold signed, cond_Zopp in *.
    destruct (Z.ltb_spec a 0), (Z.ltb_spec b 0).
    + rewrite <- (Z.compare_opp b a), <- (SFcompare_pos (- b) (- a) k' k m' m) by lia.
      rewrite (Z.compare_antisym (- k')), <- Pos.compare_antisym.
      by destruct (- k' ?= - k).
    + symmetry. apply Z.compare_lt_iff. lia.
    + symmetry. apply Z.compare_gt_iff. lia.
    + apply SFcompare_pos; lia.
Qed.

Lemma num_ltb_Number (a b : Z) : safe_integer a -> safe_integer b ->
  num_ltb (Number a) (Number b) = (a <? b).
Proof. intros. unfold num_ltb, SFltb. rewrite SFcompare_Number by done. unfold Z.ltb. by case_match. Qed.

Lemma num_leb_Number (a b : Z) : safe_integer a -> safe_integer b ->
  num_leb (Number a) (Number b) = (a <=? b).
Proof. intros. unfold num_leb, SFleb. rewrite SFcompare_Number by done. unfold Z.leb. by case_match. Qed.

Lemma num_eqb_Number (a b : Z) : safe_integer a -> safe_integer b ->
  num_eqb (Number a) (Number b) = (a =? b).
Proof.
  intros. unfold num_eqb, SFeqb. rewrite SFcompare_Number, Z.eqb_compare by done. by case_match.
Qed.

#[export] Hint Resolve BigInt_Number : galoy.

(** ** Binary64 values

    The numbers of the language are the [spec_float]s with a canonical mantissa
    and an exponent in range. *)
Definition valid (x : number) : Prop := valid_binary prec emax x = true.

Lemma valid_finite s m e : valid (S754_finite s m e) ->
  Zpos (digits2_pos m) <= 53 ∧ -1074 <= e ∧ (Zpos (digits2_pos m) = 53 ∨ e = -1074).
Proof.
  unfold valid, valid_binary, bounded, canonical_mantissa, fexp, emin, prec, emax.
  zbool. lia.
Qed.

Lemma valid_Number (z : Z) : safe_integer z -> valid (Number z).
Proof.
  intros Hz. destruct (decide (z = 0)) as [->|Hnz]; [done|].
  destruct (Number_finite z Hz Hnz) as (m & k & Hk & -> & Hm & Hb).
  assert (Hd : Zpos (digits2_pos m) = 53) by (apply digits2_pos_unique; lia).
  assert (k < 53).
  { destruct (Z.ltb_spec k 53) as [|Hge]; [done|]. assert (2 ^ 53 <= 2 ^ k) by (apply Z.pow_le_mono_r; lia).
    unfold signed, cond_Zopp in Hm. destruct (Z.ltb_spec z 0); nia. }
  unfold valid, valid_binary, bounded, canonical_mantissa, fexp, emin, prec, emax. rewrite Hd.
  apply andb_true_iff. split; [apply Z.eqb_eq|apply Z.leb_le]; lia.
Qed.

Lemma canon_unique s n m k :
  0 <= k -> Zpos m = Zpos n * 2 ^ k -> Zpos (digits2_pos m) = 53 ->
  S754_finite s m (- k) = canon s n.
Proof.
  intros Hk Hm Hd. unfold canon.
  pose proof (digits2_pos_bounds n) as B. pose proof (Z.pow_pos_nonneg 2 k ltac:(lia) Hk).
  assert (Zpos (digits2_pos m) = Zpos (digits2_pos n) + k) as Hdm.
  { apply digits2_pos_unique; [|lia]. rewrite Hm.
    replace (Zpos (digits2_pos n) + k - 1) with ((Zpos (digits2_pos n) - 1) + k) by lia.
    rewrite !Z.pow_add_r by lia. nia. }
  replace (53 - Zpos (digits2_pos n)) with k by lia. rewrite <- Hm. cbn [Z.to_pos]. f_equal. lia.
Qed.

(** A value that converts to a nonzero safe integer is that integer's number. *)
Lemma Number_BigInt (x : number) (z : Z) :
  valid x -> BigInt x = Some z -> safe_integer z -> z <> 0 -> x = Number z.
Proof.
  intros Hv HB Hs Hz. destruct x as [s|s| |s m e]; cbn [BigInt] in HB; try naive_solver.
  apply valid_finite in Hv as (Hd & He & Hor).
  assert (∀ n k, e = - k -> 0 <= k -> Zpos m = Zpos n * 2 ^ k ->
            Zpos (digits2_pos m) = 53 -> z = signed s n -> S754_finite s m e = Number z) as main.
  { intros n k -> Hk Hm Hd' ->. rewrite (canon_unique s n m k) by done.
    unfold safe_integer, signed, cond_Zopp in *. destruct s.
    - symmetry. apply (Number_neg n). lia.
    - symmetry. apply (Number_pos n). lia. }
  pose proof (digits2_pos_bounds m) as Bm. unfold safe_integer, signed in *.
  destruct (Z.leb_spec 0 e).
  - simplify_eq. apply (main m 0); [|lia..|].
    + destruct Hor as [Hor|]; [|lia]. rewrite Hor in Bm.
      destruct (decide (e = 0)); [lia|]. exfalso.
      assert (2 ^ 1 <= 2 ^ e) by (apply Z.pow_le_mono_r; lia).
      unfold cond_Zopp in Hs. destruct s; nia.
    + destruct Hor as [Hor|]; [|lia]. rewrite Hor in Bm.
      destruct (decide (e = 0)) as [->|]; [lia|]. exfalso.
      assert (2 ^ 1 <= 2 ^ e) by (apply Z.pow_le_mono_r; lia).
      unfold cond_Zopp in Hs. destruct s; nia.
  - destruct (Z.eqb_spec (Zpos m mod 2 ^ (- e)) 0) as [Hmod|]; [|done]. simplify_eq.
    pose proof (Z.pow_pos_nonneg 2 (- e) ltac:(lia) ltac:(lia)).
    apply Z.mod_divide in Hmod as [q Hq]; [|lia].
    destruct q as [|n|n]; [lia| |lia].
    apply (main n (- e)); [lia|lia|done| |].
    + destruct Hor as [|Hor]; [done|]. exfalso. rewrite Hor in Hq.
      assert (2 ^ Zpos (digits2_pos m) <= 2 ^ 53) by (apply Z.pow_le_mono_r; lia).
      assert (2 ^ 53 < 2 ^ (- -1074)) by reflexivity. nia.
    + unfold cond_Zopp. rewrite Hq. destruct s.
      * by rewrite <- Z.mul_opp_l, Z.div_mul by lia.
      * by rewrite Z.div_mul by lia.
Qed.

Lemma num_eqb_refl x : x ≠ S754_nan -> num_eqb x x = true.
Proof.
  destruct x as [s|s| |s m e]; try done; try by destruct s.
  intros _. unfold num_eqb, SFeqb, SFcompare. rewrite Z.compare_refl.
  change (Pos.compare_cont Eq m m) with (m ?= m)%positive. rewrite Pos.compare_refl. by destruct s.
Qed.

Lemma num_eqb_finite_r x s m e : num_eqb x (S754_finite s m e) = true -> x = S754_finite s m e.
Proof.
  unfold num_eqb, SFeqb, SFcompare.
  destruct x as [s'|s'| |s' m' e']; [by destruct s|by destruct s'|done|].
  change (Pos.compare_cont Eq m' m) with (m' ?= m)%positive.
  destruct s', s; try done; destruct (Z.compare_spec e' e); try done; subst;
    destruct (Pos.compare_spec m' m); by subst.
Qed.

Lemma num_eqb_inv x y : num_eqb x y = true -> x = y ∨ ∃ s s', x = S754_zero s ∧ y = S754_zero s'.
Proof.
  destruct y as [s'|s'| |s' m' e']; try (intros H%num_eqb_finite_r; by left).
  all: unfold num_eqb, SFeqb, SFcompare; destruct x as [s|s| |s m e]; try done; try (destruct s; done).
  all: try (right; by eexists _, _); destruct s'; try done; destruct s; try done; by left.
Qed.

Lemma num_eqb_sym x y : num_eqb x y = true -> num_eqb y x = true.
Proof.
  intros E. assert (x ≠ S754_nan) by (by intros ->). apply num_eqb_inv in E as [->|(s & s' & -> & ->)]; [by apply num_eqb_refl|done].
Qed.

Lemma num_eqb_trans x y z : num_eqb x y = true -> num_eqb y z = true -> num_eqb x z = true.
Proof.
  intros E E'. apply num_eqb_inv in E as [->|(s & s' & -> & ->)]; [done|].
  apply num_eqb_inv in E' as [<-|(s1 & s2 & _ & ->)]; done.
Qed.

(** [Math.floor(x) == x] holds exactly on the integers and the infinities. *)
Lemma floor_eqb (x : number) : valid x ->
  num_eqb (Math_floor x) x = match x with S754_nan => false | S754_infinity _ => true | _ => isInteger x end.
Proof.
  intros Hv. destruct x as [s|s| |s m e]; [by destruct s|by destruct s|done|].
  cbn [Math_floor]. destruct (Z.leb_spec 0 e) as [He|He].
  - rewrite num_eqb_refl by done. unfold isInteger, BigInt. rewrite (proj2 (Z.leb_le 0 e) He). done.
  - set (x := S754_finite s m e). set (q := signed s m / 2 ^ (- e)).
    assert (safe_integer q) as Hq.
    { pose proof (valid_finite s m e Hv) as (Hd & _). pose proof (digits2_pos_bounds m) as [_ B].
      assert (2 ^ Zpos (digits2_pos m) <= 2 ^ 53) by (apply Z.pow_le_mono_r; lia).
      pose proof (Z.pow_pos_nonneg 2 (- e) ltac:(lia) ltac:(lia)).
      assert (2 ^ 1 <= 2 ^ (- e)) by (apply Z.pow_le_mono_r; lia).
      pose proof (Z.mul_div_le (signed s m) (2 ^ (- e)) ltac:(lia)) as D1.
      pose proof (Z.mul_succ_div_gt (signed s m) (2 ^ (- e)) ltac:(lia)) as D2.
      fold q in D1, D2. unfold safe_integer, signed, cond_Zopp in *. destruct s; nia. }
    destruct (isInteger x) eqn:Hi.
    + unfold isInteger in Hi. destruct (BigInt x) as [z|] eqn:HB; [|done].
      assert (z = q) as ->.
      { unfold x, BigInt in HB. rewrite (proj2 (Z.leb_gt 0 e)) in HB by lia. by case_match; simplify_eq. }
      destruct (decide (q = 0)) as [Hz|Hz].
      * exfalso. pose proof (cmp_bigint_BigInt x q 0 HB) as C. rewrite Hz in C.
        unfold x, cmp_bigint in C. rewrite (proj2 (Z.leb_gt 0 e)) in C by lia.
        injection C as C. apply Z.compare_eq_iff in C. unfold signed, cond_Zopp in C. destruct s; lia.
      * rewrite (Number_BigInt x q Hv HB Hq Hz) at 1.
        pose proof (binary_normalize_scaled q 0 s Hq Hz ltac:(lia)) as R.
        rewrite Z.mul_1_r in R. change (- 0) with 0 in R. rewrite R.
        apply num_eqb_refl. by destruct (Number_finite q Hq Hz) as (? & ? & ? & -> & _).
    + apply not_true_is_false. intros He'. apply num_eqb_finite_r in He'.
      destruct (decide (q = 0)) as [Hz|Hz]; [by rewrite Hz in He'|].
      pose proof (binary_normalize_scaled q 0 s Hq Hz ltac:(lia)) as R.
      rewrite Z.mul_1_r in R. change (- 0) with 0 in R. rewrite R in He'. fold x in He'.
      rewrite <- He', isInteger_Number in Hi; done.
Qed.

(** ** Formatting *)

Definition pad_left (width : nat) (s : string) : string :=
  (String.concat "" (replicate (width - String.length s) "0") ++ s)%string.

(** The magnitude of a finite number scaled by [10^f], a half rounded up. *)
Definition scaled_magnitude (f : nat) (m : positive) (e : Z) : Z :=
  if 0 <=? e then Zpos m * 2 ^ e * 10 ^ Z.of_nat f
  else (2 * Zpos m * 10 ^ Z.of_nat f + 2 ^ (- e)) / 2 ^ (1 - e).

Definition decimal_length (v : Z) : nat := String.length (pretty v).

Fixpoint trim_zeros (fuel : nat) (n : Z) : Z :=
  match fuel with
  | O => n
  | S fuel => if (n mod 10 =? 0) && negb (n =? 0) then trim_zeros fuel (n / 10) else n
  end.

(** The fewest significant digits that read back as the number [v], an integer. *)
Fixpoint shortest_digits (fuel k : nat) (v : Z) : Z :=
  let p := 10 ^ Z.of_nat (decimal_length v - k) in
  let lo := v / p in
  let hi := lo + 1 in
  match fuel with
  | O => lo * p
  | S fuel =>
      let lo_ok := num_eqb (Number (lo * p)) (Number v) in
      let hi_ok := num_eqb (Number (hi * p)) (Number v) in
      if lo_ok && (negb hi_ok || (2 * (v - lo * p) <=? p)) then lo * p
      else if hi_ok then hi * p
      else shortest_digits fuel (S k) v
  end.

(** [Number.prototype.toString] of an integer that is at least [10^21]. *)
Definition exponential_string (v : Z) : string :=
  let d := shortest_digits 17 1 v in
  let digits := pretty (trim_zeros (decimal_length d) d) in
  let exponent := pretty (Z.of_nat (decimal_length d) - 1) in
  match digits with
  | String c EmptyString => (String c "e+" ++ exponent)%string
  | String c rest => (String c ("." ++ rest ++ "e+" ++ exponent))%string
  | EmptyString => digits
  end.

(** [x.toFixed(f)] *)
Definition toFixed (f : nat) (x : number) : string :=
  let fixed n :=
    match f with
    | O => pretty n
    | S _ =>
        let s := pad_left (S f) (pretty n) in
        let k := (String.length s - f)%nat in
        (String.substring 0 k s ++ "." ++ String.substring k f s)%string
    end in
  match x with
  | S754_nan => "NaN"
  | S754_infinity s => if s then "-Infinity" else "Infinity"
  | S754_zero _ => fixed 0
  | S754_finite s m e =>
      let magnitude :=
        if (0 <=? e) && (10 ^ 21 <=? Zpos m * 2 ^ e)
        then exponential_string (Zpos m * 2 ^ e)
        else fixed (scaled_magnitude f m e) in
      if s then ("-" ++ magnitude)%string else magnitude
  end.

(** ** Parsing *)

Definition is_space (c : Ascii.ascii) : bool :=
  let n := Ascii.nat_of_ascii c in
  bool_decide (n = 32 ∨ 9 <= n <= 13)%nat.

Definition digit_value (c : Ascii.ascii) : option Z :=
  let n := Z.of_nat (Ascii.nat_of_ascii c) in
  if (48 <=? n) && (n <=? 57) then Some (n - 48) else None.

Fixpoint trim_start (s : string) : string :=
  match s with
  | String c s' => if is_space c then trim_start s' else s
  | EmptyString => s
  end.

(** The longest prefix of decimal digits, read after the digits whose value is [acc]. *)
Fixpoint digits_prefix (acc : option Z) (s : string) : option Z :=
  match s with
  | String c s' =>
      match digit_value c with
      | Some d => digits_prefix (Some (10 * default 0 acc + d)) s'
      | None => acc
      end
  | EmptyString => acc
  end.

(** [parseInt(s, 10)] *)
Definition parseInt (s : string) : number :=
  let s := trim_start s in
  let '(neg, s) :=
    match s with
    | String "-"%char s' => (true, s')
    | String "+"%char s' => (false, s')
    | _ => (false, s)
    end in
  match digits_prefix None s with
  | None => S754_nan
  | Some z => if neg then num_neg (Number z) else Number z
  end.
