(* ===== verification/Shared.v ===== *)
(** * Errors, amounts and the amount calculator

    Models [core/api/src/domain/shared] ([primitives.ts], [errors.ts], [safe.ts],
    [amount.ts], [calculator.ts]) and the error classes of the other domain
    folders.  An error object is a constructor of [ApplicationError] that carries
    the values its message is formatted from, where a caller can tell them apart;
    the class hierarchy is [is_ValidationError].  An amount is a record of a
    currency and a bigint. *)

From S2P Require Import Prelude JsNumber.

(** ** Identifiers and enumerations *)
Abbreviation WalletId := string (only parsing).
Abbreviation AccountId := string (only parsing).
Abbreviation UserId := string (only parsing).
Abbreviation Username := string (only parsing).
Abbreviation Pubkey := string (only parsing).
Abbreviation PaymentHash := string (only parsing).
Abbreviation IntraLedgerHash := string (only parsing).
Abbreviation OnChainAddress := string (only parsing).
Abbreviation DisplayCurrency := string (only parsing).
(** A [Date] is its [getTime()], integral milliseconds. *)
Abbreviation Date := Z (only parsing).

Inductive WalletCurrency := Usd | Btc.

#[export] Instance WalletCurrency_eq_dec : EqDecision WalletCurrency.
Proof. solve_decision. Defined.

Inductive SettlementMethod := SettleIntraLedger | SettleOnChain | SettleLightning.
Inductive PaymentInitiationMethod := InitIntraLedger | InitOnChain | InitLightning.

#[export] Instance SettlementMethod_eq_dec : EqDecision SettlementMethod.
Proof. solve_decision. Defined.
#[export] Instance PaymentInitiationMethod_eq_dec : EqDecision PaymentInitiationMethod.
Proof. solve_decision. Defined.

(** The limits of requests, which name the subclasses of [RateLimiterExceededError]. *)
Inductive RateLimitPrefixKey :=
| requestCodeAttemptPerEmail
| requestCodeAttemptPerPhoneNumber
| requestCodeAttemptPerIp
| loginAttemptPerLoginIdentifier
| failedLoginAttemptPerIp
| invoiceCreate
| invoiceCreateForRecipient
| onChainAddressCreate
| deviceAccountCreate
| requestCodeAttemptPerAppcheckJti
| addQuizAttemptPerIp
| addQuizAttemptPerPhone.

(** ** Errors *)
Inductive ApplicationError :=
(* domain/shared/errors.ts *)
| BigIntFloatConversionError (num : number)
| BtcAmountTooLargeError
| UsdAmountTooLargeError
| InvalidBtcPaymentAmountError
| InvalidUsdPaymentAmountError
(* domain/payments/errors.ts *)
| InvalidZeroAmountPriceRatioInputError
| SubOneCentSatAmountForUsdSelfSendError
| LnPaymentRequestNonZeroAmountRequiredError
| LnPaymentRequestZeroAmountRequiredError
| LnPaymentRequestInTransitError
| LnHashPresentInIntraLedgerFlowError
| IntraLedgerHashPresentInLnFlowError
| InvalidLightningPaymentFlowBuilderStateError (msg : string)
| InvalidLightningPaymentFlowStateError
| InvalidOnChainPaymentFlowBuilderStateError (msg : string)
| NonLnPaymentTransactionForPaymentFlowError
| MissingPropsInTransactionForPaymentFlowError
(* domain/errors.ts *)
| SelfPaymentError
| AlreadyPaidError (paymentHash : string)
| LessThanDustThresholdError (dustThreshold : number)
| AmountLessThanFeeError (received : Z)
| InsufficientBalanceError (total balance : Z)
(* [InsufficientBalanceError] of a wallet that is empty *)
| NoBalanceLeftError
| InvalidOnChainAddress
| InvalidCurrencyForWalletError
| InvalidWalletId (walletId : string)
| InactiveAccountError (accountId : string)
| BadAmountForRouteError (amount rawTokens : number)
| WithdrawalLimitsExceededError (msg : string)
| IntraledgerLimitsExceededError (msg : string)
| TradeIntraAccountLimitsExceededError (msg : string)
| MultipleCurrenciesForSingleCurrencyOperationError
| InvalidLedgerTransactionStateError
| InvalidLedgerExternalId (externalId : string)
| CouldNotFindWalletInvoiceError
| CouldNotFindWalletFromIdError
| CouldNotFindWalletFromOnChainAddressError
| CouldNotFindWalletFromOnChainAddressesError
| CouldNotFindWalletOnChainPendingReceiveError
| CouldNotListWalletsFromAccountIdError (accountId : string)
| CouldNotFindWalletFromAccountIdAndCurrencyError (currency : WalletCurrency)
| CouldNotFindBtcWalletForAccountError (accountId : string)
| CouldNotFindAccountFromIdError (accountId : string)
| CouldNotFindAccountFromUsernameError (username : string)
| CouldNotFindUserFromIdError
| CouldNotFindLightningPaymentFlowError
| CouldNotUpdateLightningPaymentFlowError
| NoExpiredLightningPaymentFlowsError
| CouldNotFindLnPaymentFromHashError (paymentHash : string)
| NoTransactionToUpdateError (what : string)
| CouldNotFindError (what : string)
| BadInputsForFindError
| MultipleWalletsFoundForAccountIdAndCurrency (currency : WalletCurrency)
| WalletInvoiceMissingLnInvoiceError
| DuplicateKeyForPersistError
| DuplicateLedgerExternalIdError
| PersistError (msg : string)
| RepositoryError (msg : string)
| InconsistentDataError (msg : string)
| MismatchedCurrencyForWalletError
| InvalidNonHodlInvoiceError (paymentHash : string)
| InvalidUsdCents
| NonIntegerError
| InvalidPaginatedQueryArgsError
| InvalidSatoshiAmountError
| InvalidCurrencyBaseAmountError
| InvalidDisplayCurrencyError
| InvalidNegativeAmountError
| InvalidUsername (username : string)
| InvalidContactAlias (alias : string)
| InvalidUserId (userId : string)
| InvalidAccountLevelError
| InvalidAccountStatusError (status : string)
| InvalidWithdrawFeeError
| InvalidCoordinatesError
| InvalidBusinessTitleLengthError
| ContactNotExistentError
| NoContactForUsernameError
| CouldNotFindAccountFromKratosIdError (userId : string)
(* domain/accounts/errors.ts *)
| UsernameNotAvailableError
| UsernameIsImmutableError
| InvalidAccountError
| InvalidAccountIdError (accountId : string)
| InvalidWalletForAccountError
(* domain/wallet-invoices/errors.ts *)
| SubOneCentSatAmountForUsdReceiveError (sats : Z)
| InvalidWalletInvoiceBuilderStateError
(* domain/ledger/errors.ts *)
| FeeDifferenceError
| InvalidLnPaymentTxnsBundleError (msg : string)
| NoTransactionToSettleError
| NoTransactionToUpdateStateError
| MultiplePendingPaymentsForHashError
| MissingExpectedDisplayAmountsForTransactionError
| InvalidTxMetadataFetchedError
| CouldNotFindTransactionError
| CouldNotFindTransactionMetadataError
| LedgerServiceError (msg : string)
| UnknownLedgerError (msg : string)
(* domain/lock/errors.ts *)
| ResourceExpiredLockServiceError
| ResourceAttemptsRedlockServiceError
| ResourceAttemptsTimelockServiceError
| UnknownLockServiceError (msg : string)
(* domain/bitcoin/lightning/errors.ts *)
| MaxFeeTooLargeForRoutelessPaymentError (maxFeeBtcAmount calculatedMaxFeeBtcAmount : Z)
| InvoiceNotFoundError
| LnPaymentPendingError
| LnAlreadyPaidError
| LookupPaymentTimedOutError
| LightningServiceError (msg : string)
| LnInvoiceMissingPaymentSecretError
| InvalidChecksumForLnInvoiceError
| UnknownLnInvoiceDecodeError (msg : string)
(* domain/bitcoin/onchain/errors.ts *)
| OnChainAddressAlreadyCreatedForRequestIdError
| OnChainAddressNotFoundError
| PayoutNotFoundError
| PayoutDestinationBlocked
| UnknownOnChainServiceError (msg : string)
(* services/bria/errors.ts *)
| EventAugmentationMissingError
| NoPayloadFoundError
| ExpectedUtxoDetectedPayloadNotFoundError
| ExpectedUtxoDroppedPayloadNotFoundError
| ExpectedUtxoSettledPayloadNotFoundError
| ExpectedPayoutSubmittedPayloadNotFoundError
| ExpectedPayoutCommittedPayloadNotFoundError
| ExpectedPayoutBroadcastPayloadNotFoundError
| ExpectedPayoutSettledPayloadNotFoundError
| ExpectedPayoutCancelledPayloadNotFoundError
| ExpectedAddressInfoMissingInEventError
(* domain/rate-limit/errors.ts; the subclass for a limit, or the class itself *)
| RateLimiterExceededError (limit : option RateLimitPrefixKey)
| UnknownRateLimitServiceError (msg : string)
(* domain/dealer-price/errors.ts *)
| DealerPriceServiceError (msg : string)
(* domain/price/errors.ts *)
| PriceNotAvailableError
| PriceCurrenciesNotAvailableError
| NoConnectionToPriceServiceError (msg : string)
| UnknownPriceServiceError (msg : string)
| InvalidPriceCurrencyError
(* domain/accounts/errors.ts, domain/authentication/errors.ts, services/kratos/errors.ts *)
| InvalidAccountForDeletionError
| AccountHasPositiveBalanceError (walletId : string) (balance : number) (accountId : string) (* the parts of its message *)
| UnknownKratosError (msg : string)
(* domain/errors.ts *)
| CouldNotFindMerchantFromUsernameError (username : string)
(* an exception thrown and not caught on the way *)
| JsThrow (msg : string).

Abbreviation Result A := (result ApplicationError A).

(** How a function that may fail is called: directly, or as a promise that is awaited. *)
Class Calls (F : Type -> Type) := {
  calls_bind :: MBind F;
  returns : ∀ {A}, Result A -> F A;
  handle : ∀ {A B}, F A -> (Result A -> F B) -> F B;
}.
#[export] Instance Calls_Result : Calls (result ApplicationError) :=
  { calls_bind := result_bind _; returns A r := r; handle A B r k := k r }.

(** Reduces direct calls. *)
Ltac direct_calls := cbn [calls_bind Calls_Result returns handle] in *.

(** [err instanceof ValidationError] *)
Definition is_ValidationError (e : ApplicationError) : bool :=
  match e with
  | BigIntFloatConversionError _ => false
  | CouldNotFindWalletInvoiceError | CouldNotFindWalletFromIdError
  | CouldNotFindWalletFromOnChainAddressError | CouldNotFindWalletFromOnChainAddressesError
  | CouldNotFindWalletOnChainPendingReceiveError
  | CouldNotListWalletsFromAccountIdError _ | CouldNotFindWalletFromAccountIdAndCurrencyError _
  | CouldNotFindBtcWalletForAccountError _ | CouldNotFindAccountFromIdError _
  | CouldNotFindAccountFromUsernameError _ | CouldNotFindUserFromIdError | CouldNotFindMerchantFromUsernameError _
  | CouldNotFindLightningPaymentFlowError | CouldNotUpdateLightningPaymentFlowError
  | NoExpiredLightningPaymentFlowsError | CouldNotFindLnPaymentFromHashError _
  | CouldNotFindAccountFromKratosIdError _ | NoTransactionToUpdateError _ | CouldNotFindError _ => false
  | BadInputsForFindError | MultipleWalletsFoundForAccountIdAndCurrency _
  | WalletInvoiceMissingLnInvoiceError | DuplicateKeyForPersistError | DuplicateLedgerExternalIdError
  | PersistError _ | RepositoryError _ | InconsistentDataError _ => false
  | InvalidNegativeAmountError | ContactNotExistentError => false
  | UsernameNotAvailableError | UsernameIsImmutableError | InvalidAccountError | InvalidAccountIdError _
  | InvalidWalletForAccountError => false
  | FeeDifferenceError | InvalidLnPaymentTxnsBundleError _
  | NoTransactionToSettleError | NoTransactionToUpdateStateError
  | MultiplePendingPaymentsForHashError | MissingExpectedDisplayAmountsForTransactionError
  | InvalidTxMetadataFetchedError | CouldNotFindTransactionError
  | CouldNotFindTransactionMetadataError | LedgerServiceError _ | UnknownLedgerError _ => false
  | ResourceExpiredLockServiceError | ResourceAttemptsRedlockServiceError
  | ResourceAttemptsTimelockServiceError | UnknownLockServiceError _ => false
  | InvoiceNotFoundError | LnPaymentPendingError | LnAlreadyPaidError | LookupPaymentTimedOutError
  | MaxFeeTooLargeForRoutelessPaymentError _ _ | LightningServiceError _ => false
  | LnInvoiceMissingPaymentSecretError | InvalidChecksumForLnInvoiceError
  | UnknownLnInvoiceDecodeError _ => false
  | OnChainAddressAlreadyCreatedForRequestIdError | OnChainAddressNotFoundError | PayoutNotFoundError
  | PayoutDestinationBlocked | UnknownOnChainServiceError _ => false
  | EventAugmentationMissingError | NoPayloadFoundError
  | ExpectedUtxoDetectedPayloadNotFoundError | ExpectedUtxoDroppedPayloadNotFoundError
  | ExpectedUtxoSettledPayloadNotFoundError | ExpectedPayoutSubmittedPayloadNotFoundError
  | ExpectedPayoutCommittedPayloadNotFoundError | ExpectedPayoutBroadcastPayloadNotFoundError
  | ExpectedPayoutSettledPayloadNotFoundError | ExpectedPayoutCancelledPayloadNotFoundError
  | ExpectedAddressInfoMissingInEventError | RateLimiterExceededError _ | UnknownRateLimitServiceError _ => false
  | DealerPriceServiceError _ | PriceNotAvailableError => false
  | JsThrow _ => false
  | _ => true
  end.

(** [err instanceof CouldNotFindError] *)
Definition is_CouldNotFindError (e : ApplicationError) : bool :=
  match e with
  | CouldNotFindWalletInvoiceError | CouldNotFindWalletFromIdError
  | CouldNotFindWalletFromOnChainAddressError | CouldNotFindWalletFromOnChainAddressesError
  | CouldNotFindWalletOnChainPendingReceiveError
  | CouldNotListWalletsFromAccountIdError _ | CouldNotFindWalletFromAccountIdAndCurrencyError _
  | CouldNotFindBtcWalletForAccountError _ | CouldNotFindAccountFromIdError _
  | CouldNotFindAccountFromUsernameError _ | CouldNotFindUserFromIdError | CouldNotFindMerchantFromUsernameError _
  | CouldNotFindLightningPaymentFlowError | CouldNotUpdateLightningPaymentFlowError
  | NoExpiredLightningPaymentFlowsError | CouldNotFindLnPaymentFromHashError _
  | CouldNotFindAccountFromKratosIdError _ | NoTransactionToUpdateError _ | CouldNotFindError _ => true
  | _ => false
  end.

(** [err instanceof LockServiceError] *)
Definition is_LockServiceError (e : ApplicationError) : bool :=
  match e with
  | ResourceExpiredLockServiceError | ResourceAttemptsRedlockServiceError
  | ResourceAttemptsTimelockServiceError | UnknownLockServiceError _ => true
  | _ => false
  end.

(** [err instanceof InvalidZeroAmountPriceRatioInputError] *)
Definition is_InvalidZeroAmountPriceRatioInputError (e : ApplicationError) : bool :=
  match e with InvalidZeroAmountPriceRatioInputError => true | _ => false end.

(** ** Amounts *)
Record Amount := mkAmount { currency : WalletCurrency; amount : Z }.

#[export] Instance Amount_eq_dec : EqDecision Amount.
Proof. solve_decision. Defined.

#[export] Instance truthy_Amount : Truthy Amount := fun _ => true.

Definition ZERO_SATS : Amount := {| currency := Btc; amount := 0 |}.
Definition ZERO_CENTS : Amount := {| currency := Usd; amount := 0 |}.
Definition ONE_SAT : Amount := {| currency := Btc; amount := 1 |}.
Definition ONE_CENT : Amount := {| currency := Usd; amount := 1 |}.

Record BankFee := mkBankFee { usdBankFee : Amount; btcBankFee : Amount }.
Definition ZERO_BANK_FEE : BankFee := {| usdBankFee := ZERO_CENTS; btcBankFee := ZERO_SATS |}.

(** 100_000 BTC *)
Definition MAX_SATS : Amount := {| currency := Btc; amount := 10000000000000 |}.
Definition MAX_CENTS : Amount := {| currency := Usd; amount := 10000000000000 |}.

(** [PaymentAmountInAllCurrencies] *)
Record AmountPair := mkPair { btc : Amount; usd : Amount }.

Record WalletDescriptor := mkWallet {
  w_id : WalletId;
  w_currency : WalletCurrency;
  w_accountId : AccountId;
}.

#[export] Instance WalletDescriptor_eq_dec : EqDecision WalletDescriptor.
Proof. solve_decision. Defined.

(** [AccountWalletDescriptors]: one wallet of each currency. *)
Record AccountWalletDescriptors := mkAccountWallets { BTC : WalletDescriptor; USD : WalletDescriptor }.

(** [descriptors[currency]] *)
Definition wallet_for (ds : AccountWalletDescriptors) (c : WalletCurrency) : WalletDescriptor :=
  match c with Btc => BTC ds | Usd => USD ds end.

Definition BtcPaymentAmount (sats : Z) : Amount := {| currency := Btc; amount := sats |}.
Definition UsdPaymentAmount (cents : Z) : Amount := {| currency := Usd; amount := cents |}.

(** [safe.ts]: [BigInt] throws a RangeError on every number that is not an integer. *)
Definition safeBigInt (num : number) : Result Z :=
  match BigInt num with
  | Some z => Ok z
  | None => Err (BigIntFloatConversionError num)
  end.

Definition paymentAmountFromNumber (amount : number) (currency : WalletCurrency) : Result Amount :=
  safeAmount ← safeBigInt amount;
  Ok {| amount := safeAmount; currency := currency |}.

Definition balanceAmountFromNumber (amount : number) (currency : WalletCurrency) : Result Amount :=
  safeAmount ← safeBigInt amount;
  Ok {| amount := safeAmount; currency := currency |}.

(** [null] is [None]. *)
Definition checkedToBtcPaymentAmount (amount : option number) : Result Amount :=
  match amount with
  | None => Err InvalidBtcPaymentAmountError
  | Some amount =>
      if num_gtb_bigint amount MAX_SATS.(Shared.amount) then Err BtcAmountTooLargeError
      else if negb (num_eqb (Math_floor amount) amount) then Err InvalidBtcPaymentAmountError
      else if negb (truthy amount && num_ltb (Number 0) amount) then Err InvalidBtcPaymentAmountError
      else paymentAmountFromNumber amount Btc
  end.

Definition checkedToUsdPaymentAmount (amount : option number) : Result Amount :=
  match amount with
  | None => Err InvalidUsdPaymentAmountError
  | Some amount =>
      if num_gtb_bigint amount MAX_CENTS.(Shared.amount) then Err UsdAmountTooLargeError
      else if negb (num_eqb (Math_floor amount) amount) then Err InvalidUsdPaymentAmountError
      else if negb (truthy amount && num_ltb (Number 0) amount) then Err InvalidUsdPaymentAmountError
      else paymentAmountFromNumber amount Usd
  end.

(** ** The amount calculator ([calculator.ts])

    Bigint division truncates towards zero ([Z.quot], [Z.rem]).  The divisor is
    [10_000n] or a component of a price ratio; the ratio constructor rejects
    zero, so the RangeError of a division by [0n] is never raised. *)
Module AmountCalculator.

Definition add (a b : Amount) : Amount :=
  {| currency := a.(currency); amount := a.(amount) + b.(amount) |}.

Definition sub (a b : Amount) : Amount :=
  {| currency := a.(currency); amount := a.(amount) - b.(amount) |}.

Definition divRound (a : Amount) (b : Z) : Amount :=
  let quotient := Z.quot a.(amount) b in
  let roundDownBound := Z.quot b 2 in
  let mod_ := Z.rem a.(amount) b in
  if roundDownBound <? mod_
  then {| amount := quotient + 1; currency := a.(currency) |}
  else {| amount := quotient; currency := a.(currency) |}.

Definition divFloor (a : Amount) (b : Z) : Amount :=
  let quotient := Z.quot a.(amount) b in
  {| amount := quotient; currency := a.(currency) |}.

Definition divCeil (a : Amount) (b : Z) : Amount :=
  let quotient := Z.quot a.(amount) b in
  let mod_ := Z.rem a.(amount) b in
  if 0 <? mod_
  then {| amount := quotient + 1; currency := a.(currency) |}
  else {| amount := quotient; currency := a.(currency) |}.

Definition mul (a : Amount) (multiplier : Z) : Amount :=
  {| currency := a.(currency); amount := a.(amount) * multiplier |}.

Definition mulBasisPoints (a : Amount) (basisPoints : Z) : Amount :=
  divRound {| amount := a.(amount) * basisPoints; currency := a.(currency) |} 10000.

(** [min(...args)] and [max(...args)]: [reduce] starts from the first argument. *)
Definition min (a : Amount) (rest : list Amount) : Amount :=
  fold_left (fun m v => if v.(amount) <? m.(amount) then v else m) rest a.

Definition max (a : Amount) (rest : list Amount) : Amount :=
  fold_left (fun m v => if m.(amount) <? v.(amount) then v else m) rest a.

End AmountCalculator.

(** ** Amounts from numbers *)

Lemma safe_MAX n : 0 <= n <= 10000000000000 -> safe_integer n.
Proof. unfold safe_integer. lia. Qed.

#[export] Hint Resolve safe_MAX : galoy.

Lemma safeBigInt_Number z : safe_integer z -> safeBigInt (Number z) = Ok z.
Proof. intros Hz. unfold safeBigInt. by rewrite BigInt_Number. Qed.

Lemma paymentAmountFromNumber_Number z c : safe_integer z ->
  paymentAmountFromNumber (Number z) c = Ok {| amount := z; currency := c |}.
Proof. intros Hz. unfold paymentAmountFromNumber. by rewrite safeBigInt_Number. Qed.

(** The sign of a finite number that converts to a bigint. *)
Lemma BigInt_sign s m e n :
  BigInt (SpecFloat.S754_finite s m e) = Some n -> (0 <? n) = negb s.
Proof.
  cbn. intros H. assert (Hs : n ≠ 0 ∧ Z.sgn n = Z.sgn (signed s m)); cycle 1.
  { destruct s; cbn in *; [apply Z.ltb_ge | apply Z.ltb_lt]; lia. }
  assert (signed s m ≠ 0) by (unfold signed; destruct s; cbn; lia).
  destruct (0 <=? e) eqn:He; [|destruct (_ =? 0) eqn:Hm]; simplify_eq; zbool.
  - pose proof (Z.pow_pos_nonneg 2 e ltac:(lia) ltac:(lia)). rewrite Z.sgn_mul. nia.
  - pose proof (Z.pow_pos_nonneg 2 (- e) ltac:(lia) ltac:(lia)) as Hp.
    apply Z.mod_divide in Hm as [q Hq]; [|lia].
    assert (Hd : signed s m = SpecFloat.cond_Zopp s q * 2 ^ (- e)) by (unfold signed; destruct s; cbn in *; lia).
    rewrite Hd, Z.div_mul, Z.sgn_mul by lia. nia.
Qed.

(** What the guards of [checkedTo...PaymentAmount] test, on a number that
    converts to a bigint and on one that does not. *)
Lemma guards_integer x n max : valid x -> BigInt x = Some n ->
  num_gtb_bigint x max = (max <? n) ∧
  num_eqb (Math_floor x) x = true ∧
  (truthy x && num_ltb (Number 0) x) = (0 <? n).
Proof.
  intros Hv Hx. split_and!.
  - unfold num_gtb_bigint. rewrite (cmp_bigint_BigInt x n max Hx).
    unfold Z.ltb. rewrite (Z.compare_antisym n max). by destruct (n ?= max).
  - rewrite floor_eqb by done. unfold isInteger. rewrite Hx. by destruct x.
  - rewrite Number_0. destruct x as [s|s| |s m e]; cbn in Hx; simplify_eq; [done|].
    rewrite (BigInt_sign s m e n) by done. by destruct s.
Qed.

Lemma guards_fraction x max : valid x -> BigInt x = None ->
  num_gtb_bigint x max = true ∨ num_eqb (Math_floor x) x = false ∨
  (truthy x && num_ltb (Number 0) x) = false.
Proof.
  intros Hv Hx. rewrite floor_eqb by done. unfold isInteger. rewrite Hx, Number_0.
  destruct x as [|[]| |]; cbn in *; naive_solver.
Qed.

(** The guards and the conversion that [checkedToBtcPaymentAmount] and
    [checkedToUsdPaymentAmount] share. *)
Lemma checked_conversion x max eTooLarge eInvalid c :
  valid x -> is_ValidationError eTooLarge = true -> is_ValidationError eInvalid = true ->
  let r := if num_gtb_bigint x max then Err eTooLarge
           else if negb (num_eqb (Math_floor x) x) then Err eInvalid
           else if negb (truthy x && num_ltb (Number 0) x) then Err eInvalid
           else paymentAmountFromNumber x c in
  (∀ a, r = Ok a ↔ ∃ n, BigInt x = Some n ∧ 0 < n <= max ∧ a = {| currency := c; amount := n |}) ∧
  (∀ e, r = Err e -> is_ValidationError e = true).
Proof.
  intros Hx H1 H2 r. subst r. unfold paymentAmountFromNumber, safeBigInt.
  destruct (BigInt x) as [n|] eqn:E.
  - destruct (guards_integer x n max Hx E) as (-> & -> & ->).
    destruct (max <? n) eqn:E1, (0 <? n) eqn:E2; cbn; zbool; split; intros ?;
      (split || intros); simplify_eq; eauto; naive_solver lia.
  - destruct (guards_fraction x max Hx E) as [-> | [-> | ->]]; repeat case_match; naive_solver.
Qed.

(** ** Rounding *)

(** The remainder test of [divRound] rounds to the nearest integer and a tie down. *)
Lemma divRound_nearest a b : 0 <= a.(amount) -> 0 < b ->
  2 * a.(amount) - b <= 2 * b * (AmountCalculator.divRound a b).(amount) < 2 * a.(amount) + b.
Proof.
  intros Ha Hb. pose proof (quot_rem_pos _ _ Ha Hb) as (? & ? & ?).
  pose proof (quot_rem_pos b 2 ltac:(lia) ltac:(lia)) as (? & ? & ?).
  unfold AmountCalculator.divRound. destruct (_ <? _) eqn:E; cbn; zbool; nia.
Qed.

Lemma nearest_unique a b q q' : 0 < b ->
  2 * a - b <= 2 * b * q < 2 * a + b -> 2 * a - b <= 2 * b * q' < 2 * a + b -> q = q'.
Proof. nia. Qed.

Lemma divRound_eq a b q : 0 <= a.(amount) -> 0 < b ->
  (AmountCalculator.divRound a b).(amount) = q
  ↔ 2 * a.(amount) - b <= 2 * b * q < 2 * a.(amount) + b.
Proof.
  intros Ha Hb. pose proof (divRound_nearest a b Ha Hb). split; [by intros <-|].
  intros. by apply (nearest_unique a.(amount) b).
Qed.

Lemma divRound_nonneg a b : 0 <= a.(amount) -> 0 < b -> 0 <= (AmountCalculator.divRound a b).(amount).
Proof. intros Ha Hb. pose proof (divRound_nearest a b Ha Hb). nia. Qed.

Lemma divRound_mono a a' b : 0 <= a.(amount) <= a'.(amount) -> 0 < b ->
  (AmountCalculator.divRound a b).(amount) <= (AmountCalculator.divRound a' b).(amount).
Proof.
  intros Ha Hb. pose proof (divRound_nearest a b ltac:(lia) Hb).
  pose proof (divRound_nearest a' b ltac:(lia) Hb). nia.
Qed.

Lemma divRound_currency a b : (AmountCalculator.divRound a b).(currency) = a.(currency).
Proof. unfold AmountCalculator.divRound. by case_match. Qed.

Lemma divFloor_bounds a b : 0 <= a.(amount) -> 0 < b ->
  b * (AmountCalculator.divFloor a b).(amount) <= a.(amount)
  < b * ((AmountCalculator.divFloor a b).(amount) + 1).
Proof. intros Ha Hb. cbn. pose proof (quot_rem_pos _ _ Ha Hb). nia. Qed.

Lemma divCeil_bounds a b : 0 <= a.(amount) -> 0 < b ->
  b * ((AmountCalculator.divCeil a b).(amount) - 1) < a.(amount)
  <= b * (AmountCalculator.divCeil a b).(amount).
Proof.
  intros Ha Hb. pose proof (quot_rem_pos _ _ Ha Hb).
  unfold AmountCalculator.divCeil. destruct (_ <? _) eqn:E; cbn; zbool; nia.
Qed.

(** [min] and [max] return one of their arguments, a least and a greatest one. *)
Lemma min_cons a b rest :
  AmountCalculator.min a (b :: rest) =
  AmountCalculator.min (if b.(amount) <? a.(amount) then b else a) rest.
Proof. done. Qed.

Lemma max_cons a b rest :
  AmountCalculator.max a (b :: rest) =
  AmountCalculator.max (if a.(amount) <? b.(amount) then b else a) rest.
Proof. done. Qed.

Lemma min_spec a rest :
  AmountCalculator.min a rest ∈ a :: rest ∧
  Forall (fun v => (AmountCalculator.min a rest).(amount) <= v.(amount)) (a :: rest).
Proof.
  revert a; induction rest as [|b rest IH]; intros a; [cbn; split; [set_solver|auto using Z.le_refl]|].
  rewrite min_cons. destruct (_ <? _) eqn:E; zbool.
  - destruct (IH b) as [Hin [Hx Hall]%Forall_cons]. split; [set_solver|]. repeat constructor; done || lia.
  - destruct (IH a) as [Hin [Hx Hall]%Forall_cons]. split; [set_solver|]. repeat constructor; done || lia.
Qed.

Lemma max_spec a rest :
  AmountCalculator.max a rest ∈ a :: rest ∧
  Forall (fun v => v.(amount) <= (AmountCalculator.max a rest).(amount)) (a :: rest).
Proof.
  revert a; induction rest as [|b rest IH]; intros a; [cbn; split; [set_solver|auto using Z.le_refl]|].
  rewrite max_cons. destruct (_ <? _) eqn:E; zbool.
  - destruct (IH b) as [Hin [Hx Hall]%Forall_cons]. split; [set_solver|]. repeat constructor; done || lia.
  - destruct (IH a) as [Hin [Hx Hall]%Forall_cons]. split; [set_solver|]. repeat constructor; done || lia.
Qed.

(** [min] and [max] of two amounts. *)
Lemma min2_amount a b : (AmountCalculator.min a [b]).(amount) = Z.min a.(amount) b.(amount).
Proof. cbn. destruct (_ <? _) eqn:E; zbool; lia. Qed.

Lemma max2_amount a b : (AmountCalculator.max a [b]).(amount) = Z.max a.(amount) b.(amount).
Proof. cbn. destruct (_ <? _) eqn:E; zbool; lia. Qed.

(** ** Properties *)

(** A number becomes a payment amount exactly if it is integral and from 1 to the
    maximum of the currency ([MAX_SATS], [MAX_CENTS]), and then keeps its value as a bigint;
    every refusal is a [ValidationError], so the unchecked [BigInt] conversion behind the guards
    never fails. *)
Theorem checkedToPaymentAmount_spec (x : number) (Hx : valid x) :
  ((∀ a, checkedToBtcPaymentAmount (Some x) = Ok a ↔
      ∃ n, BigInt x = Some n ∧ 0 < n <= MAX_SATS.(amount) ∧ a = BtcPaymentAmount n) ∧
   (∀ e, checkedToBtcPaymentAmount (Some x) = Err e -> is_ValidationError e = true)) ∧
  ((∀ a, checkedToUsdPaymentAmount (Some x) = Ok a ↔
      ∃ n, BigInt x = Some n ∧ 0 < n <= MAX_CENTS.(amount) ∧ a = UsdPaymentAmount n) ∧
   (∀ e, checkedToUsdPaymentAmount (Some x) = Err e -> is_ValidationError e = true)).
Proof. split; by apply checked_conversion. Qed.

Lemma checkedToPaymentAmount_spec_witness :
  checkedToBtcPaymentAmount (Some (Number 21000000)) = Ok (BtcPaymentAmount 21000000).
Proof.
  apply (proj1 (checkedToPaymentAmount_spec (Number 21000000) eq_refl)).
  exists 21000000. vm_compute. intuition congruence.
Defined.

(** [divRound] of a non-negative amount by a positive bigint is the integer
    nearest to the exact quotient, a tie rounded down, and nothing else; the
    currency is kept. *)
Theorem divRound_spec (a : Amount) (b q : Z) (Ha : 0 <= a.(amount)) (Hb : 0 < b) :
  AmountCalculator.divRound a b = {| currency := a.(currency); amount := q |}
  ↔ 2 * a.(amount) - b <= 2 * b * q < 2 * a.(amount) + b.
Proof.
  rewrite <- divRound_eq by done. split; [by intros ->|].
  intros <-. rewrite <- (divRound_currency a b). by destruct (AmountCalculator.divRound a b).
Qed.

Lemma divRound_spec_witness : AmountCalculator.divRound (BtcPaymentAmount 25) 10 = BtcPaymentAmount 2.
Proof. apply (divRound_spec (BtcPaymentAmount 25) 10 2); cbn; lia. Defined.
