(* ===== verification/Prices.v ===== *)
(** * Price ratios and display amounts

    Models [domain/payments/price-ratio.ts] and [domain/fiat].  A ratio object is
    the pair of values its closures capture; its methods are functions of the
    record.  The [Intl] currency data and [RATIO_PRECISION] of the configuration
    are parameters. *)

From S2P Require Import Prelude JsNumber Shared.

(** ** Ratios of a wallet amount to another unit *)
Module PriceRatio.

Record t := mk { other : Z; walletAmount : Amount }.

Definition make (other : Z) (walletAmount : Amount) : Result t :=
  if (other =? 0) || (walletAmount.(amount) =? 0)
  then Err InvalidZeroAmountPriceRatioInputError
  else Ok {| other := other; walletAmount := walletAmount |}.

Definition convertFromOther (r : t) (otherToConvert : Z) : Amount :=
  let currency := r.(walletAmount).(currency) in
  if otherToConvert =? 0 then {| amount := 0; currency := currency |}
  else
    let amount :=
      (AmountCalculator.divRound
         {| amount := otherToConvert * r.(walletAmount).(amount); currency := currency |}
         r.(other)).(amount) in
    {| amount := js_or (Some amount) 1; currency := currency |}.

Definition convertFromWallet (r : t) (walletAmountToConvert : Amount) : Z :=
  if walletAmountToConvert.(amount) =? 0 then 0
  else
    let amount :=
      (AmountCalculator.divRound
         {| amount := walletAmountToConvert.(amount) * r.(other);
            currency := r.(walletAmount).(currency) |}
         r.(walletAmount).(amount)).(amount) in
    js_or (Some amount) 1.

Definition convertFromWalletToFloor (r : t) (walletAmountToConvert : Amount) : Z :=
  (AmountCalculator.divFloor
     {| amount := walletAmountToConvert.(amount) * r.(other);
        currency := r.(walletAmount).(currency) |}
     r.(walletAmount).(amount)).(amount).

Definition convertFromWalletToCeil (r : t) (walletAmountToConvert : Amount) : Z :=
  (AmountCalculator.divCeil
     {| amount := walletAmountToConvert.(amount) * r.(other);
        currency := r.(walletAmount).(currency) |}
     r.(walletAmount).(amount)).(amount).

Definition otherUnitPerWalletUnit (r : t) : number :=
  num_div (Number r.(other)) (Number r.(walletAmount).(amount)).

End PriceRatio.

(** ** The ratio between the two wallet currencies *)
Module WalletPriceRatio.

Definition t := PriceRatio.t.

Definition make (usd btc : Amount) : Result t :=
  PriceRatio.make usd.(amount) btc.

Definition convertFromUsd (r : t) (usdWalletAmount : Amount) : Amount :=
  PriceRatio.convertFromOther r usdWalletAmount.(amount).

Definition convertFromBtc (r : t) (btcWalletAmount : Amount) : Amount :=
  {| amount := PriceRatio.convertFromWallet r btcWalletAmount; currency := Usd |}.

Definition convertFromBtcToFloor (r : t) (btcWalletAmount : Amount) : Amount :=
  {| amount := PriceRatio.convertFromWalletToFloor r btcWalletAmount; currency := Usd |}.

Definition convertFromBtcToCeil (r : t) (btcWalletAmount : Amount) : Amount :=
  {| amount := PriceRatio.convertFromWalletToCeil r btcWalletAmount; currency := Usd |}.

Definition usdPerSat (r : t) : number := PriceRatio.otherUnitPerWalletUnit r.

End WalletPriceRatio.

(** ** Display amounts *)

(** [Intl.NumberFormat("en-US", { style: "currency", currency }).resolvedOptions()
    .minimumFractionDigits]; [None] where the constructor throws a RangeError. *)
Class Intl := minimumFractionDigits : DisplayCurrency -> option Z.

Record DisplayAmount := mkDisplay {
  amountInMinor : Z;
  displayCurrency : DisplayCurrency;
  displayInMajor : string;
}.

(** [WalletMinorUnitDisplayPrice] *)
Record DisplayPrice := mkDisplayPrice {
  dp_base : Z;
  dp_offset : Z;
  dp_displayCurrency : DisplayCurrency;
  dp_walletCurrency : WalletCurrency;
}.

Definition SAT_PRICE_PRECISION_OFFSET : Z := 12.
Definition USD_PRICE_PRECISION_OFFSET : Z := 6.
Definition UsdDisplayCurrency : DisplayCurrency := "USD".

(** A wallet currency used as a display currency ([currency as D]). *)
Definition currency_code (c : WalletCurrency) : DisplayCurrency :=
  match c with Usd => "USD" | Btc => "BTC" end.

Section Display.
Context `{Intl}.

Definition getCurrencyMajorExponent (currency : DisplayCurrency) : nat :=
  match minimumFractionDigits currency with
  | Some 0 => 0
  | Some 1 => 1
  | Some 3 => 3
  | Some 4 => 4
  | _ => 2
  end.

Definition displayMinorToMajor (amountInMinor : Z) (displayMajorExponent : nat) : string :=
  toFixed displayMajorExponent
    (num_div (Number amountInMinor) (Number (10 ^ Z.of_nat displayMajorExponent))).

Definition toDisplayAmount (amountInMinor : Z) (currency : DisplayCurrency) : DisplayAmount :=
  let displayMajorExponent := getCurrencyMajorExponent currency in
  let displayInMajor :=
    toFixed displayMajorExponent
      (num_div (Number amountInMinor) (Number (10 ^ Z.of_nat displayMajorExponent))) in
  {| amountInMinor := amountInMinor; displayCurrency := currency; displayInMajor := displayInMajor |}.

Definition toDisplayBaseAmount (displayAmount : DisplayAmount) : number :=
  Number displayAmount.(amountInMinor).

Definition displayAmountFromNumber (amount : number) (currency : DisplayCurrency) : Result DisplayAmount :=
  amountInMinor ← safeBigInt (Math_round amount);
  let displayMajorExponent := getCurrencyMajorExponent currency in
  Ok {| amountInMinor := amountInMinor; displayCurrency := currency;
        displayInMajor := displayMinorToMajor amountInMinor displayMajorExponent |}.

Definition displayAmountFromWalletAmount (walletAmount : Amount) : DisplayAmount :=
  let amountInMinor := walletAmount.(amount) in
  let displayMajorExponent := getCurrencyMajorExponent (currency_code walletAmount.(currency)) in
  {| amountInMinor := amountInMinor; displayCurrency := currency_code walletAmount.(currency);
     displayInMajor := displayMinorToMajor amountInMinor displayMajorExponent |}.

(** [BigInt] throws where the price is not finite. *)
Definition priceAmountFromNumber (priceInMinorUnit : number) (displayCurrency : DisplayCurrency)
    (walletCurrency : WalletCurrency) : Result DisplayPrice :=
  let offset := if decide (walletCurrency = Btc) then SAT_PRICE_PRECISION_OFFSET
                else USD_PRICE_PRECISION_OFFSET in
  match BigInt (Math_floor (num_mul priceInMinorUnit (Number (10 ^ offset)))) with
  | None => Err (JsThrow "RangeError")
  | Some base =>
      Ok {| dp_base := base; dp_offset := offset;
            dp_displayCurrency := displayCurrency; dp_walletCurrency := walletCurrency |}
  end.

End Display.

Module DisplayPriceRatio.
Section DisplayPriceRatio.
Context `{Intl}.

Record t := mk {
  priceRatio : PriceRatio.t;
  displayCurrency : DisplayCurrency;
  walletCurrency : WalletCurrency;
}.

Definition make (displayAmount : DisplayAmount) (walletAmount : Amount) : Result t :=
  priceRatio ← PriceRatio.make displayAmount.(amountInMinor) walletAmount;
  Ok {| priceRatio := priceRatio; displayCurrency := displayAmount.(Prices.displayCurrency);
        walletCurrency := walletAmount.(currency) |}.

Definition convertFromDisplayMinorUnit (r : t) (displayAmount : DisplayAmount) : Amount :=
  PriceRatio.convertFromOther r.(priceRatio) displayAmount.(amountInMinor).

Definition convertFromWallet (r : t) (walletAmountToConvert : Amount) : DisplayAmount :=
  toDisplayAmount (PriceRatio.convertFromWallet r.(priceRatio) walletAmountToConvert)
    r.(displayCurrency).

Definition convertFromWalletToFloor (r : t) (walletAmountToConvert : Amount) : DisplayAmount :=
  toDisplayAmount (PriceRatio.convertFromWalletToFloor r.(priceRatio) walletAmountToConvert)
    r.(displayCurrency).

Definition convertFromWalletToCeil (r : t) (walletAmountToConvert : Amount) : DisplayAmount :=
  toDisplayAmount (PriceRatio.convertFromWalletToCeil r.(priceRatio) walletAmountToConvert)
    r.(displayCurrency).

Definition displayMinorUnitPerWalletUnit (r : t) : number :=
  PriceRatio.otherUnitPerWalletUnit r.(priceRatio).

End DisplayPriceRatio.
End DisplayPriceRatio.

(** ** Ratios from a floating-point price *)
Section FromRatio.
Context `{Intl} (RATIO_PRECISION : number).

Definition toWalletPriceRatio (ratio : number) : Result WalletPriceRatio.t :=
  let precision := RATIO_PRECISION in
  amount ← safeBigInt (Math_floor (num_mul ratio precision));
  let usd := {| amount := amount; currency := Usd |} in
  match BigInt precision with
  | None => Err (JsThrow "RangeError")
  | Some p => WalletPriceRatio.make usd {| amount := p; currency := Btc |}
  end.

Definition toDisplayPriceRatio (ratio : number) (displayCurrency : DisplayCurrency)
    (walletCurrency : WalletCurrency) : Result DisplayPriceRatio.t :=
  let precision := RATIO_PRECISION in
  amountInMinor ← safeBigInt (Math_floor (num_mul ratio precision));
  let displayAmount := toDisplayAmount amountInMinor displayCurrency in
  match BigInt precision with
  | None => Err (JsThrow "RangeError")
  | Some p => DisplayPriceRatio.make displayAmount {| amount := p; currency := walletCurrency |}
  end.

Definition priceAmountFromDisplayPriceRatio (r : DisplayPriceRatio.t) : Result DisplayPrice :=
  priceAmountFromNumber (DisplayPriceRatio.displayMinorUnitPerWalletUnit r)
    r.(DisplayPriceRatio.displayCurrency) r.(DisplayPriceRatio.walletCurrency).

End FromRatio.

(** ** [DisplayAmountsConverter] *)
Record AmountsAndFees := mkAmountsAndFees {
  aaf_btcPaymentAmount : Amount;
  aaf_usdPaymentAmount : Amount;
  aaf_btcProtocolAndBankFee : Amount;
  aaf_usdProtocolAndBankFee : Amount;
}.

Record DisplayAmounts := mkDisplayAmounts {
  da_displayAmount : DisplayAmount;
  da_displayFee : DisplayAmount;
  da_displayCurrency : DisplayCurrency;
  da_displayPrice : DisplayPrice;
}.

Module DisplayAmountsConverter.
Section Convert.
Context `{Intl}.

Definition convert (displayPriceRatio : DisplayPriceRatio.t) (args : AmountsAndFees)
    : Result DisplayAmounts :=
  let displayCurrency := displayPriceRatio.(DisplayPriceRatio.displayCurrency) in
  let is_usd := bool_decide (displayCurrency = UsdDisplayCurrency) in
  let displayAmount :=
    if is_usd then displayAmountFromWalletAmount args.(aaf_usdPaymentAmount)
    else DisplayPriceRatio.convertFromWallet displayPriceRatio args.(aaf_btcPaymentAmount) in
  let displayFee :=
    if is_usd then displayAmountFromWalletAmount args.(aaf_usdProtocolAndBankFee)
    else DisplayPriceRatio.convertFromWalletToCeil displayPriceRatio args.(aaf_btcProtocolAndBankFee) in
  displayPrice ← priceAmountFromDisplayPriceRatio displayPriceRatio;
  Ok {| da_displayAmount := displayAmount; da_displayFee := displayFee;
        da_displayCurrency := displayCurrency; da_displayPrice := displayPrice |}.

End Convert.
End DisplayAmountsConverter.

(** ** Lemmas *)

Definition positive_ratio (r : PriceRatio.t) : Prop :=
  0 < r.(PriceRatio.other) ∧ 0 < r.(PriceRatio.walletAmount).(amount).

(** A ratio of a BTC wallet amount, as [WalletPriceRatio] makes it. *)
Definition wallet_ratio (r : WalletPriceRatio.t) : Prop :=
  positive_ratio r ∧ r.(PriceRatio.walletAmount).(currency) = Btc.

(** An answer with which no ratio can be made of satoshis, as they are worth less than a cent. *)
Definition worth_nothing (answer : Result Amount) : Prop :=
  match answer with Ok usd => usd.(amount) = 0 | Err e => e = InvalidZeroAmountPriceRatioInputError end.

Lemma wallet_ratio_zero usd btc e : WalletPriceRatio.make usd btc = Err e -> btc.(amount) ≠ 0 -> worth_nothing (Ok usd).
Proof.
  unfold WalletPriceRatio.make, PriceRatio.make, worth_nothing. intros E Hb. destruct (Z.eqb_spec usd.(amount) 0); [done|].
  by rewrite (proj2 (Z.eqb_neq btc.(amount) 0)) in E.
Qed.

Lemma wallet_ratio_made usd btc r : WalletPriceRatio.make usd btc = Ok r -> r = PriceRatio.mk usd.(amount) btc.
Proof. unfold WalletPriceRatio.make, PriceRatio.make. by case_match; intros [= <-]. Qed.

Lemma make_wallet_ratio usd btc r :
  0 <= usd.(amount) -> 0 <= btc.(amount) -> btc.(currency) = Btc ->
  WalletPriceRatio.make usd btc = Ok r ->
  wallet_ratio r ∧ r.(PriceRatio.other) = usd.(amount) ∧ r.(PriceRatio.walletAmount) = btc.
Proof.
  unfold WalletPriceRatio.make, PriceRatio.make, wallet_ratio, positive_ratio.
  intros. result_inv. zbool. split_and!; try done; cbn; lia.
Qed.

(** The amount both rounding conversions return: at least one, and the nearest
    integer to [a / b] where that is positive. *)
Lemma round_or_one (a b : Z) c : 0 < a -> 0 < b ->
  let q := js_or (Some (AmountCalculator.divRound {| amount := a; currency := c |} b).(amount)) 1 in
  1 <= q ∧ 2 * a - b <= 2 * b * q ∧ (2 * b * q < 2 * a + b ∨ q = 1 ∧ 2 * a <= b).
Proof.
  intros Ha Hb q. subst q. cbn [js_or].
  pose proof (divRound_nearest {| amount := a; currency := c |} b ltac:(cbn; lia) Hb) as Hn.
  cbn [amount] in Hn.
  destruct (truthy _) eqn:E; unfold truthy, truthy_bigint in E; zbool; nia.
Qed.

Section Conversions.
Context (r : WalletPriceRatio.t) (Hr : positive_ratio r).
Local Abbreviation usd := (r.(PriceRatio.other)).
Local Abbreviation btc := (r.(PriceRatio.walletAmount).(amount)).

Lemma convertFromWallet_0 a : a.(amount) = 0 -> PriceRatio.convertFromWallet r a = 0.
Proof. intros Ha. unfold PriceRatio.convertFromWallet. by rewrite Ha. Qed.

Lemma convertFromWallet_pos a : 0 < a.(amount) ->
  let q := PriceRatio.convertFromWallet r a in
  1 <= q ∧ 2 * (a.(amount) * usd) - btc <= 2 * btc * q ∧
  (2 * btc * q < 2 * (a.(amount) * usd) + btc ∨ q = 1 ∧ 2 * (a.(amount) * usd) <= btc).
Proof.
  intros Ha. destruct Hr. unfold PriceRatio.convertFromWallet.
  rewrite (proj2 (Z.eqb_neq _ _)) by lia. apply round_or_one; nia.
Qed.

Lemma convertFromOther_pos x : 0 < x ->
  let q := (PriceRatio.convertFromOther r x).(amount) in
  1 <= q ∧ 2 * (x * btc) - usd <= 2 * usd * q ∧
  (2 * usd * q < 2 * (x * btc) + usd ∨ q = 1 ∧ 2 * (x * btc) <= usd).
Proof.
  intros Ha. destruct Hr. unfold PriceRatio.convertFromOther.
  rewrite (proj2 (Z.eqb_neq _ _)) by lia. apply round_or_one; nia.
Qed.

Lemma convertFromWallet_nonneg a : 0 <= a.(amount) -> 0 <= PriceRatio.convertFromWallet r a.
Proof.
  intros Ha. destruct (decide (a.(amount) = 0)); [by rewrite convertFromWallet_0|].
  pose proof (convertFromWallet_pos a ltac:(lia)) as [? _]. lia.
Qed.

Lemma convertFromWalletToFloor_bounds a : 0 <= a.(amount) ->
  let q := PriceRatio.convertFromWalletToFloor r a in
  0 <= q ∧ btc * q <= a.(amount) * usd < btc * (q + 1).
Proof.
  intros Ha. destruct Hr.
  pose proof (divFloor_bounds {| amount := a.(amount) * usd; currency := Btc |} btc) as H1.
  cbn in *. nia.
Qed.

Lemma convertFromWalletToCeil_bounds a : 0 <= a.(amount) ->
  let q := PriceRatio.convertFromWalletToCeil r a in
  0 <= q ∧ btc * (q - 1) < a.(amount) * usd <= btc * q.
Proof.
  intros Ha. destruct Hr.
  pose proof (divCeil_bounds {| amount := a.(amount) * usd; currency := Btc |} btc) as H'.
  assert (Hc : PriceRatio.convertFromWalletToCeil r a =
    (AmountCalculator.divCeil {| amount := a.(amount) * usd; currency := Btc |} btc).(amount)).
  { unfold PriceRatio.convertFromWalletToCeil, AmountCalculator.divCeil; cbn; by destruct (_ <? _). }
  cbn zeta. rewrite Hc. cbn [amount] in H'. nia.
Qed.

Lemma convertFromOther_0 : (PriceRatio.convertFromOther r 0).(amount) = 0.
Proof. done. Qed.

Lemma convertFromOther_nonneg x : 0 <= x -> 0 <= (PriceRatio.convertFromOther r x).(amount).
Proof.
  intros Ha. destruct (decide (x = 0)) as [->|]; [done|].
  pose proof (convertFromOther_pos x ltac:(lia)) as [? _]. lia.
Qed.

Lemma convertFromOther_neg x : x < 0 -> (PriceRatio.convertFromOther r x).(amount) <= 1.
Proof.
  intros Hx. destruct Hr. unfold PriceRatio.convertFromOther. rewrite (proj2 (Z.eqb_neq _ _)) by lia. cbn [amount].
  unfold AmountCalculator.divRound. cbn [amount currency].
  pose proof (Z.rem_nonpos (x * btc) usd ltac:(lia) ltac:(nia)) as Hm. pose proof (Z.quot_opp_l (- (x * btc)) usd ltac:(lia)) as Hq.
  pose proof (Z.quot_pos (- (x * btc)) usd ltac:(nia) ltac:(lia)). pose proof (Z.quot_pos usd 2 ltac:(lia) ltac:(lia)).
  rewrite Z.opp_involutive in Hq. destruct (Z.ltb_spec (Z.quot usd 2) (Z.rem (x * btc) usd)); [lia|]. cbn [amount].
  unfold js_or. case_match; lia.
Qed.

Lemma convertFromOther_currency x :
  (PriceRatio.convertFromOther r x).(currency) = r.(PriceRatio.walletAmount).(currency).
Proof. unfold PriceRatio.convertFromOther. by case_match. Qed.

Lemma convertFromWallet_mono a b : 0 <= a.(amount) <= b.(amount) ->
  PriceRatio.convertFromWallet r a <= PriceRatio.convertFromWallet r b.
Proof.
  intros Hab. destruct Hr.
  destruct (decide (a.(amount) = 0)) as [E|E].
  { rewrite (convertFromWallet_0 a) by done. apply convertFromWallet_nonneg. lia. }
  pose proof (convertFromWallet_pos a ltac:(lia)) as (? & ? & Ha).
  pose proof (convertFromWallet_pos b ltac:(lia)) as (? & ? & Hb).
  assert (a.(amount) * usd <= b.(amount) * usd) by nia.
  destruct Ha as [Ha|[Ha ?]]; [nia|lia].
Qed.

Lemma convertFromOther_mono x y : 0 <= x <= y ->
  (PriceRatio.convertFromOther r x).(amount) <= (PriceRatio.convertFromOther r y).(amount).
Proof.
  intros Hab. destruct Hr.
  destruct (decide (x = 0)) as [->|E]; [apply convertFromOther_nonneg; lia|].
  pose proof (convertFromOther_pos x ltac:(lia)) as (? & ? & Ha).
  pose proof (convertFromOther_pos y ltac:(lia)) as (? & ? & Hb).
  assert (x * btc <= y * btc) by nia.
  destruct Ha as [Ha|[Ha ?]]; [nia|lia].
Qed.

End Conversions.

#[export] Hint Resolve convertFromWallet_nonneg convertFromOther_nonneg : galoy.

(** ** Properties *)

(** A wallet price ratio is refused exactly when one of its amounts is zero, so no
    conversion of a ratio object divides by zero. *)
Theorem WalletPriceRatio_make_spec (usd btc : Amount) :
  (WalletPriceRatio.make usd btc = Err InvalidZeroAmountPriceRatioInputError
     ↔ usd.(amount) = 0 ∨ btc.(amount) = 0) ∧
  (∀ r, WalletPriceRatio.make usd btc = Ok r ->
     r.(PriceRatio.other) ≠ 0 ∧ r.(PriceRatio.walletAmount).(amount) ≠ 0).
Proof.
  unfold WalletPriceRatio.make, PriceRatio.make.
  destruct (usd.(amount) =? 0) eqn:E1, (btc.(amount) =? 0) eqn:E2; zbool; cbn; naive_solver.
Qed.

(** A ratio converts its own two reference amounts into each other exactly: the
    payment amounts a builder derives a ratio from are fixed points of it. *)
Theorem ratio_fixed_point (usd btc : Amount) r
    (Hu : 0 < usd.(amount)) (Hb : 0 < btc.(amount))
    (Hcu : usd.(currency) = Usd) (Hr : WalletPriceRatio.make usd btc = Ok r) :
  WalletPriceRatio.convertFromBtc r btc = usd ∧ WalletPriceRatio.convertFromUsd r usd = btc ∧
  WalletPriceRatio.convertFromBtcToFloor r btc = usd ∧ WalletPriceRatio.convertFromBtcToCeil r btc = usd.
Proof.
  unfold WalletPriceRatio.make, PriceRatio.make in Hr. result_inv. destruct usd as [cu u], btc as [cb b].
  unfold WalletPriceRatio.convertFromBtc, WalletPriceRatio.convertFromUsd,
    WalletPriceRatio.convertFromBtcToFloor, WalletPriceRatio.convertFromBtcToCeil,
    PriceRatio.convertFromWallet, PriceRatio.convertFromOther,
    PriceRatio.convertFromWalletToFloor, PriceRatio.convertFromWalletToCeil,
    AmountCalculator.divCeil, AmountCalculator.divRound, AmountCalculator.divFloor.
  cbn in *. subst cu.
  rewrite (Z.mul_comm b u), Z.quot_mul, Z.rem_mul by lia.
  rewrite (Z.mul_comm u b), Z.quot_mul, Z.rem_mul by lia.
  rewrite !(proj2 (Z.eqb_neq _ _)) by lia.
  rewrite !(proj2 (Z.ltb_ge _ 0)) by (apply Z.quot_pos; lia).
  cbn. unfold truthy, truthy_bigint. rewrite !(proj2 (Z.eqb_neq _ 0)) by lia. done.
Qed.

Lemma ratio_fixed_point_witness : ∃ r,
  WalletPriceRatio.make (UsdPaymentAmount 3) (BtcPaymentAmount 10007) = Ok r ∧
  WalletPriceRatio.convertFromBtc r (BtcPaymentAmount 10007) = UsdPaymentAmount 3.
Proof.
  eexists. split; [reflexivity|].
  apply (ratio_fixed_point (UsdPaymentAmount 3) (BtcPaymentAmount 10007)); reflexivity.
Defined.

(** For a positive ratio and a positive BTC amount the three conversions to cents
    bracket each other: floor, rounded and ceiling values differ by at most one in
    total, the floor does not exceed the exact quotient, the ceiling is not below
    it, and the rounded and ceiling values are at least one cent. *)
Theorem convertFromBtc_bracket (r : WalletPriceRatio.t) (a : Amount)
    (Hr : positive_ratio r) (Ha : 0 < a.(amount)) :
  let floor := (WalletPriceRatio.convertFromBtcToFloor r a).(amount) in
  let rounded := (WalletPriceRatio.convertFromBtc r a).(amount) in
  let ceil := (WalletPriceRatio.convertFromBtcToCeil r a).(amount) in
  let usd := r.(PriceRatio.other) in
  let btc := r.(PriceRatio.walletAmount).(amount) in
  0 <= floor <= rounded ∧ 1 <= rounded <= ceil ∧ ceil <= floor + 1 ∧
  btc * floor <= a.(amount) * usd <= btc * ceil.
Proof.
  cbn zeta. pose proof (convertFromWalletToFloor_bounds r Hr a ltac:(lia)).
  pose proof (convertFromWalletToCeil_bounds r Hr a ltac:(lia)).
  pose proof (convertFromWallet_pos r Hr a Ha) as (? & ? & Hq).
  cbn zeta in *. destruct Hr as [Hu Hb].
  unfold WalletPriceRatio.convertFromBtcToFloor, WalletPriceRatio.convertFromBtc,
    WalletPriceRatio.convertFromBtcToCeil. cbn [amount].
  assert (0 < a.(amount) * r.(PriceRatio.other)) by nia.
  destruct Hq as [|[]]; split_and!; nia.
Qed.

Lemma convertFromBtc_bracket_witness :
  let r := {| PriceRatio.other := 30; PriceRatio.walletAmount := BtcPaymentAmount 1000 |} in
  (WalletPriceRatio.convertFromBtcToCeil r (BtcPaymentAmount 50)).(amount)
  <= (WalletPriceRatio.convertFromBtcToFloor r (BtcPaymentAmount 50)).(amount) + 1.
Proof.
  apply (convertFromBtc_bracket {| PriceRatio.other := 30;
           PriceRatio.walletAmount := BtcPaymentAmount 1000 |} (BtcPaymentAmount 50));
    cbn; [split|]; cbn; lia.
Defined.

(** Converting sats to cents and back loses at most half a sat plus half a cent's
    worth of sats, or one cent's worth where the amount rounds up to one cent. *)
Theorem convert_round_trip (r : WalletPriceRatio.t) (a : Amount)
    (Hr : positive_ratio r) (Ha : 0 < a.(amount)) :
  let back := WalletPriceRatio.convertFromUsd r (WalletPriceRatio.convertFromBtc r a) in
  let usd := r.(PriceRatio.other) in
  let btc := r.(PriceRatio.walletAmount).(amount) in
  2 * usd * Z.abs (back.(amount) - a.(amount)) <= btc + usd ∨
  (WalletPriceRatio.convertFromBtc r a = ONE_CENT ∧ 2 * a.(amount) * usd <= btc ∧
   2 * usd * (back.(amount) - a.(amount)) < 2 * btc + usd).
Proof.
  cbn zeta. unfold WalletPriceRatio.convertFromUsd, WalletPriceRatio.convertFromBtc, ONE_CENT.
  pose proof (convertFromWallet_pos r Hr a Ha) as (H1 & H2 & H3). cbn zeta in *.
  set (u := PriceRatio.convertFromWallet r a) in *. cbn [amount].
  pose proof (convertFromOther_pos r Hr u ltac:(lia)) as (H4 & H5 & H6). cbn zeta in *.
  set (b := (PriceRatio.convertFromOther r u).(amount)) in *. destruct Hr as [Hu Hb].
  set (U := r.(PriceRatio.other)) in *. set (B := r.(PriceRatio.walletAmount).(amount)) in *.
  set (n := a.(amount)) in *.
  assert (Hn : U <= n * U) by nia. assert (HBu : B <= u * B) by nia.
  destruct H3 as [H3|[H3 H3']], H6 as [H6|[H6 H6']].
  - left. replace (2 * U * Z.abs (b - n)) with (Z.abs (2 * U * b - 2 * (n * U))) by nia. lia.
  - exfalso. nia.
  - right. split_and!; [by rewrite H3|lia|nia].
  - exfalso. nia.
Qed.

Lemma convert_round_trip_witness :
  let r := {| PriceRatio.other := 30; PriceRatio.walletAmount := BtcPaymentAmount 1000 |} in
  WalletPriceRatio.convertFromUsd r (WalletPriceRatio.convertFromBtc r (BtcPaymentAmount 5050))
    = BtcPaymentAmount 5033.
Proof.
  assert (H := convert_round_trip {| PriceRatio.other := 30;
           PriceRatio.walletAmount := BtcPaymentAmount 1000 |} (BtcPaymentAmount 5050)).
  destruct H; cbn; [split|..]; cbn; try lia; reflexivity.
Defined.
