(* ===== verification/Fees.v ===== *)
(** * Fee calculators

    Models [domain/payments/ln-fees.ts], [domain/wallets/withdrawal-fee-calculator.ts],
    [domain/wallets/deposit-fee-calculator.ts], [domain/ledger/imbalance-calculator.ts]
    and [domain/ledger/fee-reimbursement.ts]. *)

From S2P Require Import Prelude JsNumber Shared Prices.

(** Routing fees are capped at 0.5 percent. *)
Definition FEECAP_BASIS_POINTS : Z := 50.

Definition toSats (amount : Z) : number := Number amount.
Definition toCents (amount : Z) : number := Number amount.

(** ** Lightning fees *)

(** The parts of LND's [RawRoute] that the code reads. *)
Record RawRoute := mkRawRoute {
  route_total_mtokens : option string;
  route_safe_fee : number;
}.

Module LnFees.

Definition maxProtocolAndBankFee (amt : Amount) : Amount :=
  if amt.(amount) =? 0 then amt
  else
    let maxFee := AmountCalculator.mulBasisPoints amt FEECAP_BASIS_POINTS in
    {| amount := if maxFee.(amount) =? 0 then 1 else maxFee.(amount); currency := amt.(currency) |}.

Definition intraLedgerFees : AmountPair := {| btc := ZERO_SATS; usd := ZERO_CENTS |}.

Definition verifyMaxFee (maxFeeAmount btcPaymentAmount usdPaymentAmount : Amount)
    (priceRatio : WalletPriceRatio.t) (senderWalletCurrency : WalletCurrency)
    (isFromNoAmountInvoice : bool) : Result bool :=
  let btcCalculatedMaxFeeAmount := maxProtocolAndBankFee btcPaymentAmount in
  let calculatedMaxFeeAmount :=
    match senderWalletCurrency with
    | Usd =>
        let maxFeeInUsd := maxProtocolAndBankFee usdPaymentAmount in
        let usdCalculatedMaxFeeAmount := WalletPriceRatio.convertFromUsd priceRatio maxFeeInUsd in
        if negb isFromNoAmountInvoice then
          if usdCalculatedMaxFeeAmount.(amount) <? btcCalculatedMaxFeeAmount.(amount)
          then btcCalculatedMaxFeeAmount else usdCalculatedMaxFeeAmount
        else usdCalculatedMaxFeeAmount
    | Btc => btcCalculatedMaxFeeAmount
    end in
  let calculatedMinFeeAmount := WalletPriceRatio.convertFromUsd priceRatio ONE_CENT in
  if (bool_decide (senderWalletCurrency = Btc) ||
      (calculatedMinFeeAmount.(amount) <? maxFeeAmount.(amount))) &&
     (calculatedMaxFeeAmount.(amount) <? maxFeeAmount.(amount))
  then Err (MaxFeeTooLargeForRoutelessPaymentError maxFeeAmount.(amount) calculatedMaxFeeAmount.(amount))
  else Ok true.

Definition feeFromRawRoute (rawRoute : RawRoute) : Result Amount :=
  paymentAmountFromNumber (Math_ceil rawRoute.(route_safe_fee)) Btc.

End LnFees.

(** ** On-chain withdrawal fees *)
Module OnChainFees.

Record config := mkConfig { thresholdImbalance : Amount; feeRatioAsBasisPoints : Z }.

Record fees := mkFees { totalFee : Amount; bankFee : Amount }.

Definition withdrawalFee (cfg : config) (minerFee amt minBankFee imbalance : Amount) : fees :=
  let amountWithImbalanceCalcs :=
    {| amount := imbalance.(amount) - cfg.(thresholdImbalance).(amount) + amt.(amount);
       currency := amt.(currency) |} in
  let baseAmount :=
    AmountCalculator.max (AmountCalculator.min amountWithImbalanceCalcs [amt]) [ZERO_SATS] in
  let bankFee :=
    AmountCalculator.max minBankFee
      [AmountCalculator.mulBasisPoints baseAmount cfg.(feeRatioAsBasisPoints)] in
  {| totalFee := AmountCalculator.add bankFee minerFee; bankFee := bankFee |}.

Definition intraLedgerFees : AmountPair := {| btc := ZERO_SATS; usd := ZERO_CENTS |}.

End OnChainFees.

(** ** Deposit fees *)
Module DepositFeeCalculator.

Definition onChainDepositFee (amt minBankFee minBankFeeThreshold : Amount) (ratio : Z) : Amount :=
  if amt.(amount) <? minBankFeeThreshold.(amount) then minBankFee
  else if ratio =? 0 then ZERO_SATS
  else AmountCalculator.mulBasisPoints amt ratio.

Definition lnDepositFee : Amount := ZERO_SATS.

End DepositFeeCalculator.

(** ** The swap-out imbalance of a wallet *)
Inductive WithdrawalFeePriceMethod := flat | proportionalOnImbalance.

#[export] Instance WithdrawalFeePriceMethod_eq_dec : EqDecision WithdrawalFeePriceMethod.
Proof. solve_decision. Defined.

Module ImbalanceCalculator.

Definition MS_PER_HOUR : Z := 60 * 60 * 1000.
Definition MS_PER_DAY : Z := 24 * MS_PER_HOUR.

(** [NewGetVolumeAmountSinceFn]: a wallet and the date from which to count. *)
Definition VolumeFn (F : Type -> Type) := WalletDescriptor -> Date -> F Amount.

Record config (F : Type -> Type) := mkConfig {
  method : WithdrawalFeePriceMethod;
  netInVolumeAmountLightningFn : VolumeFn F;
  netInVolumeAmountOnChainFn : VolumeFn F;
  sinceDaysAgo : Z;
}.
Arguments method {F}.
Arguments netInVolumeAmountLightningFn {F}.
Arguments netInVolumeAmountOnChainFn {F}.
Arguments sinceDaysAgo {F}.

Section Calculator.
Context {F : Type -> Type} `{Calls F}.

Definition getNetInboundFlow (netInVolumeAmountFn : VolumeFn F) (wallet : WalletDescriptor)
    (since : Date) : F number :=
  volumeAmount ← netInVolumeAmountFn wallet since;
  returns (Ok (if decide (wallet.(w_currency) = Btc) then toSats volumeAmount.(amount)
               else toCents volumeAmount.(amount))).

Definition getSwapOutImbalanceAmount (cfg : config F) (now : Date) (wallet : WalletDescriptor)
    : F Amount :=
  let since := now - cfg.(sinceDaysAgo) * MS_PER_DAY in
  if decide (cfg.(method) = flat) then returns (paymentAmountFromNumber (Number 0) wallet.(w_currency))
  else
    lnNetInbound ← getNetInboundFlow cfg.(netInVolumeAmountLightningFn) wallet since;
    onChainNetInbound ← getNetInboundFlow cfg.(netInVolumeAmountOnChainFn) wallet since;
    returns (paymentAmountFromNumber (num_sub lnNetInbound onChainNetInbound) wallet.(w_currency)).

End Calculator.

End ImbalanceCalculator.

(** ** Reimbursing a prepaid routing fee *)
Module FeeReimbursement.

Definition getReimbursement (prepaidFeeAmount : AmountPair) (priceRatio : WalletPriceRatio.t)
    (actualFee : Amount) : Result AmountPair :=
  let feeDifferenceBtc := prepaidFeeAmount.(btc).(amount) - actualFee.(amount) in
  if feeDifferenceBtc <? 0 then Err FeeDifferenceError
  else
    let feeDifferenceBtcAmount := {| amount := feeDifferenceBtc; currency := Btc |} in
    let feeDifferenceUsdAmount :=
      if actualFee.(amount) =? 0
      then WalletPriceRatio.convertFromBtc priceRatio feeDifferenceBtcAmount
      else WalletPriceRatio.convertFromBtcToFloor priceRatio feeDifferenceBtcAmount in
    Ok {| btc := feeDifferenceBtcAmount; usd := feeDifferenceUsdAmount |}.

End FeeReimbursement.

(** ** Lemmas *)

Lemma mulBasisPoints_nearest a bp : 0 <= a.(amount) -> 0 <= bp ->
  2 * (a.(amount) * bp) - 10000 <= 20000 * (AmountCalculator.mulBasisPoints a bp).(amount)
  < 2 * (a.(amount) * bp) + 10000.
Proof.
  intros Ha Hb.
  apply (divRound_nearest {| amount := a.(amount) * bp; currency := a.(currency) |} 10000);
    cbn; nia.
Qed.

Lemma maxFee_0 a : a.(amount) = 0 -> LnFees.maxProtocolAndBankFee a = a.
Proof. intros Ha. unfold LnFees.maxProtocolAndBankFee. by rewrite Ha. Qed.

(** The fee cap of a positive amount: half a percent, rounded, and at least one. *)
Lemma maxFee_bounds a : 0 < a.(amount) ->
  let fee := (LnFees.maxProtocolAndBankFee a).(amount) in
  1 <= fee <= a.(amount) ∧ a.(amount) - 100 <= 200 * fee ∧ (200 * fee < a.(amount) + 100 ∨ fee = 1).
Proof.
  intros Ha. pose proof (mulBasisPoints_nearest a 50 ltac:(lia) ltac:(lia)) as Hn.
  unfold LnFees.maxProtocolAndBankFee, FEECAP_BASIS_POINTS.
  rewrite (proj2 (Z.eqb_neq _ _)) by lia. cbn [amount]. destruct (_ =? 0) eqn:E; zbool; lia.
Qed.

Lemma maxFee_nonneg a : 0 <= a.(amount) -> 0 <= (LnFees.maxProtocolAndBankFee a).(amount).
Proof.
  intros Ha. destruct (decide (a.(amount) = 0)) as [E|E]; [by rewrite maxFee_0, E|].
  pose proof (maxFee_bounds a ltac:(lia)) as [? _]. lia.
Qed.

Lemma maxFee_currency a : (LnFees.maxProtocolAndBankFee a).(currency) = a.(currency).
Proof. unfold LnFees.maxProtocolAndBankFee. by case_match. Qed.

(** What [verifyMaxFee] accepts. *)
Lemma verifyMaxFee_Ok fee b u r c noAmount :
  LnFees.verifyMaxFee fee b u r c noAmount = Ok true ↔
  match c with
  | Btc => fee.(amount) <= (LnFees.maxProtocolAndBankFee b).(amount)
  | Usd =>
      fee.(amount) <= (WalletPriceRatio.convertFromUsd r ONE_CENT).(amount) ∨
      fee.(amount) <= (WalletPriceRatio.convertFromUsd r (LnFees.maxProtocolAndBankFee u)).(amount) ∨
      noAmount = false ∧ fee.(amount) <= (LnFees.maxProtocolAndBankFee b).(amount)
  end.
Proof.
  unfold LnFees.verifyMaxFee. destruct c, noAmount; cbn;
    repeat match goal with |- context [?a <? ?b] => destruct (Z.ltb_spec a b); cbn end;
    split; intros Hv; simplify_eq; try done; naive_solver lia.
Qed.

#[export] Hint Resolve maxFee_nonneg : galoy.

(** ** Properties *)

(** The Lightning fee cap of a positive amount is half a percent of it rounded to
    the nearest unit, a tie down, except that it is never below one unit; it never
    exceeds the amount and keeps its currency.  The cap of zero is zero. *)
Theorem maxProtocolAndBankFee_spec (a : Amount) (Ha : 0 <= a.(amount)) :
  let fee := LnFees.maxProtocolAndBankFee a in
  fee.(currency) = a.(currency) ∧ 0 <= fee.(amount) <= a.(amount) ∧
  (a.(amount) = 0 -> fee.(amount) = 0) ∧
  (0 < a.(amount) <= 100 -> fee.(amount) = 1) ∧
  (100 < a.(amount) -> a.(amount) - 100 <= 200 * fee.(amount) < a.(amount) + 100).
Proof.
  cbn zeta. rewrite maxFee_currency. pose proof (maxFee_0 a).
  destruct (decide (a.(amount) = 0)) as [E|E].
  - rewrite H by done. split_and!; done || lia.
  - pose proof (maxFee_bounds a ltac:(lia)) as (? & ? & [?|?]); split_and!; done || lia.
Qed.

Lemma maxProtocolAndBankFee_spec_witness :
  LnFees.maxProtocolAndBankFee (BtcPaymentAmount 0) = BtcPaymentAmount 0 ∧
  0 <= (LnFees.maxProtocolAndBankFee (BtcPaymentAmount 12345)).(amount) <= 12345.
Proof.
  split; [reflexivity|]. apply (maxProtocolAndBankFee_spec (BtcPaymentAmount 12345)). cbn; lia.
Defined.

(** The bank fee of an on-chain withdrawal is the larger of the account's minimum and
    the basis points, rounded to nearest, of the part of the amount that raises the
    swap-out imbalance above the threshold; the total fee adds the miner fee. *)
Theorem withdrawalFee_spec (cfg : OnChainFees.config) (minerFee amt minBankFee imbalance : Amount)
    (Hamt : 0 <= amt.(amount)) (Hbp : 0 <= cfg.(OnChainFees.feeRatioAsBasisPoints)) :
  let bp := cfg.(OnChainFees.feeRatioAsBasisPoints) in
  let excess := imbalance.(amount) + amt.(amount) - cfg.(OnChainFees.thresholdImbalance).(amount) in
  let base := Z.max 0 (Z.min excess amt.(amount)) in
  let fees := OnChainFees.withdrawalFee cfg minerFee amt minBankFee imbalance in
  fees.(OnChainFees.totalFee).(amount) = fees.(OnChainFees.bankFee).(amount) + minerFee.(amount) ∧
  ∃ prop, 2 * (base * bp) - 10000 <= 20000 * prop < 2 * (base * bp) + 10000 ∧
    fees.(OnChainFees.bankFee).(amount) = Z.max minBankFee.(amount) prop.
Proof.
  cbn zeta. unfold OnChainFees.withdrawalFee. cbn [OnChainFees.totalFee OnChainFees.bankFee].
  split; [done|]. rewrite max2_amount. eexists. split; [|done].
  set (b := AmountCalculator.max _ [ZERO_SATS]).
  assert (Hb : b.(amount) = Z.max 0 (Z.min (imbalance.(amount) + amt.(amount) -
    cfg.(OnChainFees.thresholdImbalance).(amount)) amt.(amount))).
  { subst b. rewrite max2_amount, min2_amount. cbn. lia. }
  rewrite <- Hb. apply mulBasisPoints_nearest; lia.
Qed.

Lemma withdrawalFee_spec_witness :
  let cfg := {| OnChainFees.thresholdImbalance := BtcPaymentAmount 1000;
                OnChainFees.feeRatioAsBasisPoints := 50 |} in
  (OnChainFees.withdrawalFee cfg (BtcPaymentAmount 7) (BtcPaymentAmount 50000)
     (BtcPaymentAmount 20) (BtcPaymentAmount 900)).(OnChainFees.totalFee).(amount) = 249 + 7.
Proof.
  refine (eq_trans (proj1 (withdrawalFee_spec {| OnChainFees.thresholdImbalance := BtcPaymentAmount 1000;
      OnChainFees.feeRatioAsBasisPoints := 50 |} (BtcPaymentAmount 7) (BtcPaymentAmount 50000)
      (BtcPaymentAmount 20) (BtcPaymentAmount 900) _ _)) _); [cbn; lia..|reflexivity].
Defined.

(** An on-chain deposit fee never exceeds the deposit, when the configured ratio is at
    most 100 percent and the minimum fee does not exceed the deposits it is charged on. *)
Theorem onChainDepositFee_bounds (amt minBankFee threshold : Amount) (ratio : Z)
    (Hamt : 0 <= amt.(amount)) (Hratio : 0 <= ratio <= 10000)
    (Hmin : 0 <= minBankFee.(amount) <= amt.(amount)) :
  let fee := (DepositFeeCalculator.onChainDepositFee amt minBankFee threshold ratio).(amount) in
  0 <= fee <= amt.(amount) ∧
  (amt.(amount) < threshold.(amount) -> fee = minBankFee.(amount)) ∧
  (threshold.(amount) <= amt.(amount) ->
     2 * (amt.(amount) * ratio) - 10000 <= 20000 * fee < 2 * (amt.(amount) * ratio) + 10000).
Proof.
  cbn zeta. unfold DepositFeeCalculator.onChainDepositFee.
  pose proof (mulBasisPoints_nearest amt ratio ltac:(lia) ltac:(lia)).
  destruct (Z.ltb_spec amt.(amount) threshold.(amount)); [split_and!; lia|].
  destruct (Z.eqb_spec ratio 0) as [->|]; [cbn [amount ZERO_SATS]; split_and!; lia|].
  assert (0 <= amt.(amount) * ratio <= amt.(amount) * 10000) by nia. split_and!; lia.
Qed.

Lemma onChainDepositFee_bounds_witness :
  0 <= (DepositFeeCalculator.onChainDepositFee (BtcPaymentAmount 1000000) (BtcPaymentAmount 3000)
     (BtcPaymentAmount 1000000) 30).(amount) <= 1000000.
Proof.
  apply (onChainDepositFee_bounds (BtcPaymentAmount 1000000) (BtcPaymentAmount 3000)
    (BtcPaymentAmount 1000000) 30); cbn; lia.
Defined.

Lemma getReimbursement_ok (prepaid : AmountPair) (r : WalletPriceRatio.t) (actualFee : Amount) p :
  positive_ratio r -> 0 <= actualFee.(amount) ->
  FeeReimbursement.getReimbursement prepaid r actualFee = Ok p ->
  p.(btc).(currency) = Btc ∧ p.(usd).(currency) = Usd ∧ 0 <= p.(btc).(amount) ∧
  p.(btc).(amount) + actualFee.(amount) = prepaid.(btc).(amount) ∧
  0 <= p.(usd).(amount) <= (WalletPriceRatio.convertFromBtcToCeil r prepaid.(btc)).(amount).
Proof.
  unfold FeeReimbursement.getReimbursement. intros Hr Hfee.
  destruct (Z.ltb_spec (prepaid.(btc).(amount) - actualFee.(amount)) 0); [done|].
  intros [= <-]. cbn [btc usd amount currency].
  split_and!; [done|by destruct (_ =? _)|lia|lia|..]; set (d := {| currency := Btc; amount := _ |});
  pose proof (convertFromWalletToCeil_bounds r Hr prepaid.(btc) ltac:(lia)) as (? & ? & ?);
  pose proof (convertFromWalletToFloor_bounds r Hr d ltac:(subst d; cbn; lia)) as (? & ? & ?);
  unfold WalletPriceRatio.convertFromBtc, WalletPriceRatio.convertFromBtcToFloor,
    WalletPriceRatio.convertFromBtcToCeil; destruct Hr as [Hu Hb];
  (destruct (Z.eqb_spec actualFee.(amount) 0) as [E|E]; cbn [amount];
  [ assert (Hd : d.(amount) = prepaid.(btc).(amount)) by (subst d; cbn; lia);
    destruct (decide (d.(amount) = 0)) as [Hz|Hz]; [rewrite convertFromWallet_0 by done; lia|];
    pose proof (convertFromWallet_pos r (conj Hu Hb) d ltac:(subst d; cbn in *; lia)) as (? & ? & Hq);
    rewrite Hd in *; destruct Hq as [|[]]; nia
  | assert (d.(amount) * r.(PriceRatio.other) <= prepaid.(btc).(amount) * r.(PriceRatio.other))
      by (subst d; cbn in *; nia); nia ]).
Qed.

(** A fee reimbursement is refused exactly when the actual fee exceeds the prepaid one;
    otherwise the BTC part is exactly the unspent fee, and the USD part never exceeds
    the prepaid fee's value in cents rounded up. *)
Theorem getReimbursement_spec (prepaid : AmountPair) (r : WalletPriceRatio.t) (actualFee : Amount)
    (Hr : positive_ratio r) (Hfee : 0 <= actualFee.(amount)) :
  (FeeReimbursement.getReimbursement prepaid r actualFee = Err FeeDifferenceError
     ↔ prepaid.(btc).(amount) < actualFee.(amount)) ∧
  (∀ p, FeeReimbursement.getReimbursement prepaid r actualFee = Ok p ->
     p.(btc).(amount) + actualFee.(amount) = prepaid.(btc).(amount) ∧
     0 <= p.(usd).(amount) <= (WalletPriceRatio.convertFromBtcToCeil r prepaid.(btc)).(amount)).
Proof.
  split; [|intros p Hp; by apply getReimbursement_ok in Hp as (_ & _ & _ & ? & ?)].
  unfold FeeReimbursement.getReimbursement.
  destruct (Z.ltb_spec (prepaid.(btc).(amount) - actualFee.(amount)) 0); split; intros; by try lia.
Qed.

Lemma getReimbursement_spec_witness :
  let r := {| PriceRatio.other := 30; PriceRatio.walletAmount := BtcPaymentAmount 1000 |} in
  let prepaid := {| btc := BtcPaymentAmount 100; usd := UsdPaymentAmount 3 |} in
  FeeReimbursement.getReimbursement prepaid r (BtcPaymentAmount 101) = Err FeeDifferenceError.
Proof.
  cbn zeta. apply (getReimbursement_spec {| btc := BtcPaymentAmount 100; usd := UsdPaymentAmount 3 |}
    {| PriceRatio.other := 30; PriceRatio.walletAmount := BtcPaymentAmount 1000 |});
    cbn; [split|..]; cbn; lia.
Defined.

(** With the proportional method, the swap-out imbalance is exactly the net Lightning
    inflow minus the net on-chain inflow of the look-back window, although it is computed
    through floating-point numbers, as long as the volumes stay below 2^53. *)
Theorem getSwapOutImbalanceAmount_exact (cfg : ImbalanceCalculator.config (result ApplicationError)) (now : Date)
    (wallet : WalletDescriptor) (ln onChain : Amount)
    (Hm : cfg.(ImbalanceCalculator.method) ≠ flat)
    (Hln : cfg.(ImbalanceCalculator.netInVolumeAmountLightningFn) wallet
             (now - cfg.(ImbalanceCalculator.sinceDaysAgo) * 86400000) = Ok ln)
    (Hoc : cfg.(ImbalanceCalculator.netInVolumeAmountOnChainFn) wallet
             (now - cfg.(ImbalanceCalculator.sinceDaysAgo) * 86400000) = Ok onChain)
    (Hs : safe_integer ln.(amount) ∧ safe_integer onChain.(amount) ∧
          safe_integer (ln.(amount) - onChain.(amount))) :
  ImbalanceCalculator.getSwapOutImbalanceAmount cfg now wallet
  = Ok {| currency := wallet.(w_currency); amount := ln.(amount) - onChain.(amount) |}.
Proof.
  destruct Hs as (? & ? & ?).
  unfold ImbalanceCalculator.getSwapOutImbalanceAmount, ImbalanceCalculator.getNetInboundFlow.
  change ImbalanceCalculator.MS_PER_DAY with 86400000.
  rewrite decide_False by done. direct_calls. rewrite Hln, Hoc. cbn. unfold toSats, toCents.
  assert (Hif : ∀ (P : Prop) `{Decision P} (x : number), (if decide P then x else x) = x)
    by (intros; by case_decide).
  rewrite !Hif. by rewrite num_sub_Number, paymentAmountFromNumber_Number by done.
Qed.

Lemma getSwapOutImbalanceAmount_exact_witness :
  let wallet := {| w_id := "w"; w_currency := Btc; w_accountId := "a" |} in
  let cfg : ImbalanceCalculator.config (result ApplicationError) :=
             {| ImbalanceCalculator.method := proportionalOnImbalance;
                ImbalanceCalculator.netInVolumeAmountLightningFn _ _ := Ok (BtcPaymentAmount 500);
                ImbalanceCalculator.netInVolumeAmountOnChainFn _ _ := Ok (BtcPaymentAmount 700);
                ImbalanceCalculator.sinceDaysAgo := 30 |} in
  ImbalanceCalculator.getSwapOutImbalanceAmount cfg 0 wallet = Ok (BtcPaymentAmount (-200)).
Proof.
  cbn zeta.
  apply (getSwapOutImbalanceAmount_exact
    {| ImbalanceCalculator.method := proportionalOnImbalance;
       ImbalanceCalculator.netInVolumeAmountLightningFn _ _ := Ok (BtcPaymentAmount 500);
       ImbalanceCalculator.netInVolumeAmountOnChainFn _ _ := Ok (BtcPaymentAmount 700);
       ImbalanceCalculator.sinceDaysAgo := 30 |} 0
    {| w_id := "w"; w_currency := Btc; w_accountId := "a" |}
    (BtcPaymentAmount 500) (BtcPaymentAmount 700)); try reflexivity; [discriminate|].
  split_and!; reflexivity.
Defined.
