(* ===== verification/Lightning.v ===== *)
(** * Lightning invoices

    Models [domain/bitcoin/lightning]: the decoding of a BOLT11 payment request, the
    route hints the fee-probe configuration is matched against, and the expiration
    of an invoice.  The parser of the [invoices] package is a parameter. *)

From S2P Require Import Prelude JsNumber Shared Fees.

Abbreviation ChanId := string (only parsing).
Abbreviation EncodedPaymentRequest := string (only parsing).

Record Hop := mkHop {
  baseFeeMTokens : option string;
  channel : option ChanId;
  hop_cltvDelta : option number;
  feeRate : option number;
  nodePubkey : Pubkey;
}.

Record LnInvoiceFeature := mkFeature { bit : Z; isRequired : bool; feature_type : string }.

Record LnInvoice := mkLnInvoice {
  destination : Pubkey;
  inv_paymentHash : PaymentHash;
  paymentRequest : EncodedPaymentRequest;
  paymentSecret : string;
  milliSatsAmount : number;
  inv_amount : option number;
  paymentAmount : option Amount;
  description : string;
  cltvDelta : option number;
  routeHints : list (list Hop);
  features : list LnInvoiceFeature;
  expiresAt : Date;
  isExpired : bool;
}.

(** [new Set(xs)] read back as an array: the first occurrences, in insertion order. *)
Fixpoint js_set_from (seen : list string) (xs : list string) : list string :=
  match xs with
  | [] => []
  | x :: xs =>
      if decide (x ∈ seen) then js_set_from seen xs else x :: js_set_from (x :: seen) xs
  end.

Definition js_set (xs : list string) : list string := js_set_from [] xs.

(** [utils.ModifiedSet] *)
Definition ModifiedSet_intersect (a b : list string) : list string :=
  filter (fun i => i ∈ b) a.

(** [route[i].nodePubkey]: reading a property of [undefined] throws. *)
Definition route_hop (route : list Hop) (i : Z) : Result Hop :=
  match (if 0 <=? i then route !! Z.to_nat i else None) with
  | Some hop => Ok hop
  | None => Err (JsThrow "TypeError")
  end.

Definition parseFinalHopsFromInvoice (invoice : LnInvoice) : Result (list Pubkey) :=
  pubkeys ← traverse (fun route =>
    let lastIdx := Z.of_nat (length route) - 1 in
    let penUltIndex := if 1 <? Z.of_nat (length route) then lastIdx - 1 else lastIdx in
    lastHop ← route_hop route penUltIndex;
    Ok lastHop.(nodePubkey)) invoice.(routeHints);
  Ok (js_set pubkeys).

Definition parseFinalChanIdFromInvoice (invoice : LnInvoice) : Result (list ChanId) :=
  chanIds ← traverse (fun route =>
    let lastIdx := Z.of_nat (length route) - 1 in
    lastHop ← route_hop route lastIdx;
    Ok lastHop.(channel)) invoice.(routeHints);
  Ok (js_set (omap id chanIds)).

(** ** Decoding *)

(** What [parsePaymentRequest] of the [invoices] package returns. *)
Record RawHop := mkRawHop {
  base_fee_mtokens : option string;
  raw_channel : option string;
  raw_cltv_delta : option number;
  fee_rate : option number;
  public_key : string;
}.

Record DecodedInvoice := mkDecoded {
  dec_payment : option string;
  dec_cltv_delta : option number;
  dec_expires_at : Date;
  dec_is_expired : option bool;
  dec_safe_tokens : option number;
  dec_routes : option (list (list RawHop));
  dec_description : option string;
  dec_id : string;
  dec_destination : string;
  dec_features : option (list LnInvoiceFeature);
}.

Definition lower_ascii (c : Ascii.ascii) : Ascii.ascii :=
  let n := Ascii.nat_of_ascii c in
  if bool_decide (65 <= n <= 90)%nat then Ascii.ascii_of_nat (n + 32) else c.

Fixpoint toLowerCase (s : string) : string :=
  match s with
  | EmptyString => EmptyString
  | String c s => String (lower_ascii c) (toLowerCase s)
  end.

(** [s.includes(sub)] *)
Definition includes (sub s : string) : bool :=
  match String.index 0 sub s with Some _ => true | None => false end.

Section Decode.
(** [Err msg] is the thrown error's message. *)
Context (parsePaymentRequest : string -> result string DecodedInvoice).

Definition safeDecode (bolt11EncodedInvoice : EncodedPaymentRequest) : Result DecodedInvoice :=
  match parsePaymentRequest bolt11EncodedInvoice with
  | Ok decoded => Ok decoded
  | Err msg =>
      if includes "Invalid checksum" msg then Err InvalidChecksumForLnInvoiceError
      else Err (UnknownLnInvoiceDecodeError msg)
  end.

Definition decodeHop (route : RawHop) : Hop := {|
  baseFeeMTokens := route.(base_fee_mtokens);
  channel := route.(raw_channel);
  hop_cltvDelta := route.(raw_cltv_delta);
  feeRate := route.(fee_rate);
  nodePubkey := route.(public_key);
|}.

Definition decodeInvoice (uncheckedBolt11EncodedInvoice : string) : Result LnInvoice :=
  let bolt11EncodedInvoice := toLowerCase uncheckedBolt11EncodedInvoice in
  decodedInvoice ← safeDecode bolt11EncodedInvoice;
  match js_or_opt decodedInvoice.(dec_payment) None with
  | None => Err LnInvoiceMissingPaymentSecretError
  | Some paymentSecret =>
      let cltvDelta := js_or_opt decodedInvoice.(dec_cltv_delta) None in
      let amount := js_or_opt decodedInvoice.(dec_safe_tokens) None in
      paymentAmount ←
        match js_or_opt amount None with
        | Some amount => Some <$> paymentAmountFromNumber amount Btc
        | None => Ok None
        end;
      let routeHints :=
        match decodedInvoice.(dec_routes) with
        | Some invoicesRoutes => map (map decodeHop) invoicesRoutes
        | None => []
        end in
      Ok {|
        inv_amount := amount;
        paymentAmount := paymentAmount;
        paymentSecret := paymentSecret;
        expiresAt := decodedInvoice.(dec_expires_at);
        isExpired := truthy decodedInvoice.(dec_is_expired);
        routeHints := routeHints;
        cltvDelta := cltvDelta;
        paymentRequest := bolt11EncodedInvoice;
        description := js_or decodedInvoice.(dec_description) ""%string;
        inv_paymentHash := decodedInvoice.(dec_id);
        destination := decodedInvoice.(dec_destination);
        milliSatsAmount :=
          match js_or_opt amount None with
          | Some amount => num_mul amount (Number 1000)
          | None => Number 0
          end;
        features := default [] decodedInvoice.(dec_features);
      |}
  end.

End Decode.

(** ** Expiration; delays are whole seconds. *)
Definition SECS_PER_MIN : Z := 60.
Definition SECS_PER_5_MINS : Z := 60 * 5.
Definition SECS_PER_DAY : Z := 60 * 60 * 24.
Definition defaultTimeToExpiryInSeconds : Z := SECS_PER_5_MINS.

(** [DEFAULT_EXPIRATIONS[currency].delay] *)
Definition DEFAULT_EXPIRATIONS_delay (currency : WalletCurrency) : Z :=
  match currency with Btc => SECS_PER_DAY | Usd => defaultTimeToExpiryInSeconds end.

Definition invoiceExpirationForCurrency (currency : WalletCurrency) (now : Date)
    (delay : option Z) : Date :=
  let expirationDelay := js_or delay 0 in
  let defaultDelay := DEFAULT_EXPIRATIONS_delay currency in
  let expirationDelay :=
    if (expirationDelay <? SECS_PER_MIN) || (defaultDelay <? expirationDelay)
    then defaultDelay else expirationDelay in
  now + expirationDelay * 1000.

(** ** Lemmas *)

Lemma elem_of_js_set_from seen xs x : x ∈ js_set_from seen xs ↔ x ∈ xs ∧ x ∉ seen.
Proof.
  revert seen; induction xs as [|y xs IH]; intros seen; cbn; [rewrite elem_of_nil; tauto|].
  destruct (decide (x = y)) as [->|]; case_decide;
    rewrite ?elem_of_cons, ?IH, ?elem_of_cons; naive_solver.
Qed.

Lemma elem_of_js_set xs x : x ∈ js_set xs ↔ x ∈ xs.
Proof. unfold js_set. rewrite elem_of_js_set_from, elem_of_nil. tauto. Qed.

Lemma NoDup_js_set_from seen xs : NoDup (js_set_from seen xs).
Proof.
  revert seen; induction xs as [|y xs IH]; intros seen; cbn; [constructor|].
  case_decide; [done|]. constructor; [|done]. rewrite elem_of_js_set_from, elem_of_cons. naive_solver.
Qed.

Lemma traverse_elem_of {E A B} (f : A -> result E B) xs ys :
  traverse f xs = Ok ys -> ∀ y, y ∈ ys ↔ ∃ x, x ∈ xs ∧ f x = Ok y.
Proof.
  revert ys; induction xs as [|x xs IH]; intros ys H y; cbn in H.
  - simplify_eq. rewrite elem_of_nil. setoid_rewrite elem_of_nil. naive_solver.
  - result_inv. rewrite elem_of_cons, (IH _ Ha0).
    setoid_rewrite elem_of_cons. clear IH Ha0. split.
    + intros [->|(x' & Hin & Hf)]; [by exists x; auto|exists x'; auto].
    + intros (x' & [->|Hin] & Hf); [left; congruence|right; eauto].
Qed.

Lemma route_hop_last (route : list Hop) :
  route ≠ [] -> ∃ hop, last route = Some hop ∧ route_hop route (Z.of_nat (length route) - 1) = Ok hop.
Proof.
  intros Hr. destruct (last route) as [hop|] eqn:E; [|by apply last_None in E].
  exists hop. split; [done|]. unfold route_hop. rewrite last_lookup in E.
  destruct route; [done|]. rewrite (proj2 (Z.leb_le _ _)) by (cbn [length]; lia).
  replace (Z.to_nat _) with (Init.Nat.pred (length (h :: route))) by (cbn [length]; lia). by rewrite E.
Qed.

(** ** Properties *)

(** The channels matched against the fee-probe configuration are, without repetition,
    the final channels of the invoice's route hints, for every invoice whose route
    hints are not empty. *)
Theorem parseFinalChanIdFromInvoice_spec (invoice : LnInvoice)
    (Hne : Forall (fun route => route ≠ []) invoice.(routeHints)) :
  ∃ chans, parseFinalChanIdFromInvoice invoice = Ok chans ∧ NoDup chans ∧
    ∀ c, c ∈ chans ↔ ∃ route hop, route ∈ invoice.(routeHints) ∧ last route = Some hop ∧
                                   hop.(channel) = Some c.
Proof.
  unfold parseFinalChanIdFromInvoice. destruct (traverse _ _) as [chans|e] eqn:E.
  - eexists. split; [reflexivity|]. split; [apply NoDup_js_set_from|]. intros c.
    rewrite elem_of_js_set, list_elem_of_omap. split.
    + intros (oc & Hoc & Hid). unfold id in Hid. subst oc. apply (traverse_elem_of _ _ _ E) in Hoc as (route & Hin & Hf).
      destruct (route_hop_last route) as (hop & Hl & Hh); [by eapply Forall_forall in Hne|].
      rewrite Hh in Hf. cbn in Hf. simplify_eq. eauto.
    + intros (route & hop & Hin & Hl & Hc). exists (Some c). split; [|done].
      apply (traverse_elem_of _ _ _ E). exists route. split; [done|].
      destruct (route_hop_last route) as (hop' & Hl' & Hh); [by eapply Forall_forall in Hne|].
      rewrite Hh. cbn. congruence.
  - exfalso. revert E. generalize invoice.(routeHints), Hne. clear.
    intros hints Hne. induction Hne as [|route hints Hr Hne IH]; [done|]. cbn.
    destruct (route_hop_last route Hr) as (hop & _ & ->). cbn.
    destruct (traverse _ hints) eqn:E; [done|]. intros [= ->]. by apply IH.
Qed.

Lemma parseFinalChanIdFromInvoice_spec_witness :
  let hop c := {| baseFeeMTokens := None; channel := Some c; hop_cltvDelta := None;
                  feeRate := None; nodePubkey := "02" |} in
  let invoice := {| destination := "03"; inv_paymentHash := "h"; paymentRequest := "lnbc"; paymentSecret := "s";
                    milliSatsAmount := Number 0; inv_amount := None; paymentAmount := None;
                    description := ""; cltvDelta := None;
                    routeHints := [[hop "1x1x1"; hop "2x2x2"]; [hop "2x2x2"]];
                    features := []; expiresAt := 0; isExpired := false |} in
  ∃ chans, parseFinalChanIdFromInvoice invoice = Ok chans ∧ chans = ["2x2x2"].
Proof.
  intros hop invoice.
  destruct (parseFinalChanIdFromInvoice_spec invoice) as (chans & H & _).
  { repeat constructor; discriminate. }
  exists chans. split; [exact H|]. vm_compute in H. congruence.
Defined.

(** A decoded invoice has a payment amount exactly when it has an amount, the payment
    amount is a positive number of sats equal to it, and it is never zero, so the
    flow builder's [inputAmount && btcPaymentAmount] test holds for it. *)
Theorem decodeInvoice_paymentAmount (parse : string -> result string DecodedInvoice)
    (request : string) (invoice : LnInvoice)
    (Hparse : ∀ s d t, parse s = Ok d -> d.(dec_safe_tokens) = Some t ->
                valid t ∧ num_ltb t (Number 0) = false)
    (Hdec : decodeInvoice parse request = Ok invoice) :
  match invoice.(paymentAmount) with
  | Some a => 0 < a.(amount) ∧ a.(currency) = Btc ∧
              ∃ t, invoice.(inv_amount) = Some t ∧ BigInt t = Some a.(amount)
  | None => invoice.(inv_amount) = None
  end.
Proof.
  unfold decodeInvoice, safeDecode in Hdec.
  destruct (parse _) as [d|] eqn:Hp; cbn in Hdec; [|by case_match].
  destruct (js_or_opt d.(dec_payment) None); [|done]. apply bind_Ok in Hdec as (pa & Hpa & [= <-]).
  cbn. destruct d.(dec_safe_tokens) as [t|] eqn:Ht; cbn in Hpa |- *; [|by simplify_eq].
  unfold js_or_opt in *. cbn in *. destruct (truthy t) eqn:E; cbn in *; [|by simplify_eq].
  rewrite E in Hpa. unfold paymentAmountFromNumber, safeBigInt in Hpa.
  destruct (BigInt t) as [n|] eqn:En; cbn in Hpa; simplify_eq/=.
  destruct (Hparse _ _ _ Hp Ht) as [_ Hn]. split_and!; [|done|eauto].
  destruct t as [| | |sg m e]; [done..|].
  apply Z.ltb_lt. rewrite (BigInt_sign _ _ _ _ En). by destruct sg.
Qed.

(** An invoice expires between one minute and the currency's default delay after now:
    a requested delay in that range is kept, any other one gives the default. *)
Theorem invoiceExpirationForCurrency_spec (c : WalletCurrency) (now : Date) (delay : option Z) :
  let e := invoiceExpirationForCurrency c now delay in
  let default_delay := DEFAULT_EXPIRATIONS_delay c in
  now + 60000 <= e <= now + default_delay * 1000 ∧
  (∀ d, delay = Some d -> 60 <= d <= default_delay -> e = now + d * 1000) ∧
  (∀ d, delay = Some d -> d < 60 ∨ default_delay < d -> e = now + default_delay * 1000) ∧
  (delay = None -> e = now + default_delay * 1000).
Proof.
  cbn zeta. unfold invoiceExpirationForCurrency, SECS_PER_MIN.
  assert (300 <= DEFAULT_EXPIRATIONS_delay c) by (by destruct c).
  set (D := DEFAULT_EXPIRATIONS_delay c) in *. clearbody D.
  assert (Hor : ∀ d, js_or (Some d) 0 = d).
  { intros d. cbn. unfold truthy, truthy_bigint. destruct (Z.eqb_spec d 0); cbn; lia. }
  destruct delay as [d|]; [rewrite (Hor d)|cbn [js_or]];
    repeat match goal with |- context [?a <? ?b] => destruct (Z.ltb_spec a b); cbn [orb] end;
    split_and!; intros; simplify_eq; lia.
Qed.

Lemma decodeInvoice_paymentAmount_witness :
  let d := {| dec_payment := Some "secret"; dec_cltv_delta := None; dec_expires_at := 0;
              dec_is_expired := None; dec_safe_tokens := Some (Number 1500); dec_routes := None;
              dec_description := None; dec_id := "hash"; dec_destination := "02";
              dec_features := None |} in
  let parse s := if decide (s = "lnbc15u") then Ok d else Err "Invalid checksum" in
  ∃ invoice, decodeInvoice parse "LNBC15u" = Ok invoice ∧
    match invoice.(paymentAmount) with Some a => 0 < a.(amount) | None => invoice.(inv_amount) = None end.
Proof.
  intros d parse. destruct (decodeInvoice parse "LNBC15u") as [invoice|e] eqn:E; [|discriminate E].
  exists invoice. split; [reflexivity|].
  assert (Hp : ∀ s d t, parse s = Ok d -> d.(dec_safe_tokens) = Some t ->
                valid t ∧ num_ltb t (Number 0) = false).
  { intros s d' t'. unfold parse. case_decide; [|discriminate]. intros [= <-] [= <-].
    split; reflexivity. }
  assert (H := decodeInvoice_paymentAmount parse "LNBC15u" invoice Hp E).
  destruct (paymentAmount invoice); [apply H|exact H].
Defined.
