(* ===== verification/PaymentFlow.v ===== *)
(** * Payment flows

    Models [domain/payments/payment-flow.ts] and [domain/payments/route-validator.ts]: the
    immutable description of a payment that the builders produce and that the send
    operations check against balances, limits and hashes.  Tracing calls have no
    effect on the result and are left out. *)

From S2P Require Import Prelude JsNumber Shared Prices Fees.

Record PaymentFlowCommonState := mkCommon {
  senderWalletId : WalletId;
  senderWalletCurrency : WalletCurrency;
  senderAccountId : AccountId;
  settlementMethod : SettlementMethod;
  paymentInitiationMethod : PaymentInitiationMethod;
  createdAt : Date;
  paymentSentAndPending : bool;
  inputAmount : Z;
  btcPaymentAmount : Amount;
  usdPaymentAmount : Amount;
  btcProtocolAndBankFee : Amount;
  usdProtocolAndBankFee : Amount;
  recipientWalletId : option WalletId;
  recipientWalletCurrency : option WalletCurrency;
  recipientAccountId : option AccountId;
  recipientPubkey : option Pubkey;
  recipientUsername : option Username;
  recipientUserId : option UserId;
  outgoingNodePubkey : option Pubkey;
  cachedRoute : option RawRoute;
}.

Record PaymentFlowState := mkPaymentFlowState {
  pf_common :> PaymentFlowCommonState;
  paymentHash : option PaymentHash;
  intraLedgerHash : option IntraLedgerHash;
  descriptionFromInvoice : string;
  skipProbeForDestination : bool;
}.

Record OnChainPaymentFlowState := mkOnChainPaymentFlowState {
  opf_common :> PaymentFlowCommonState;
  address : option OnChainAddress;
  flow_btcBankFee : Amount;
  flow_usdBankFee : Amount;
  flow_btcMinerFee : option Amount;
}.

(** [RouteValidator(rawRoute).validate(btcPaymentAmount)] *)
Definition validate_route (rawRoute : RawRoute) (btcPaymentAmount : Amount) : Result bool :=
  let rawTokens :=
    Math_floor (num_div (parseInt (js_or rawRoute.(route_total_mtokens) "0"%string)) (Number 1000)) in
  let amount := Number btcPaymentAmount.(amount) in
  if negb (num_eqb amount rawTokens) then Err (BadAmountForRouteError amount rawTokens)
  else Ok true.

Section PaymentFlowCommon.
Context (state : PaymentFlowCommonState).

Definition protocolAndBankFeeInSenderWalletCurrency : Amount :=
  if decide (state.(senderWalletCurrency) = Btc) then state.(btcProtocolAndBankFee)
  else state.(usdProtocolAndBankFee).

Definition paymentAmounts : AmountPair :=
  {| btc := state.(btcPaymentAmount); usd := state.(usdPaymentAmount) |}.

Definition totalAmountsForPayment : AmountPair :=
  {| btc := AmountCalculator.add state.(btcPaymentAmount) state.(btcProtocolAndBankFee);
     usd := AmountCalculator.add state.(usdPaymentAmount) state.(usdProtocolAndBankFee) |}.

(** A cached route that no longer carries the amount is dropped, with its node. *)
Definition routeDetails : option RawRoute * option Pubkey :=
  let rawRoute :=
    match state.(cachedRoute) with
    | Some uncheckedRawRoute =>
        match validate_route uncheckedRawRoute state.(btcPaymentAmount) with
        | Err _ => None
        | Ok _ => Some uncheckedRawRoute
        end
    | None => None
    end in
  (rawRoute, match rawRoute with Some _ => state.(outgoingNodePubkey) | None => None end).

Definition senderWalletDescriptor : WalletDescriptor :=
  {| w_id := state.(senderWalletId); w_currency := state.(senderWalletCurrency);
     w_accountId := state.(senderAccountId) |}.

(** Identifiers are non-empty strings exactly when they are truthy. *)
Definition recipientWalletDescriptor : option WalletDescriptor :=
  match js_or_opt state.(recipientWalletId) None, state.(recipientWalletCurrency),
        js_or_opt state.(recipientAccountId) None with
  | Some id, Some currency, Some accountId =>
      Some {| w_id := id; w_currency := currency; w_accountId := accountId |}
  | _, _, _ => None
  end.

Record RecipientDetails := mkRecipientDetails {
  rd_walletDescriptor : option WalletDescriptor;
  rd_recipientPubkey : option Pubkey;
  rd_recipientUsername : option Username;
  rd_recipientUserId : option UserId;
}.

Definition recipientDetails : RecipientDetails := {|
  rd_walletDescriptor := recipientWalletDescriptor;
  rd_recipientPubkey := state.(recipientPubkey);
  rd_recipientUsername := state.(recipientUsername);
  rd_recipientUserId := state.(recipientUserId);
|}.

Definition checkBalanceForSend (balanceAmount : Amount) : Result bool :=
  if negb (bool_decide (state.(senderWalletCurrency) = balanceAmount.(currency)))
  then Err InvalidCurrencyForWalletError
  else
    let '(amt, fee) :=
      if decide (balanceAmount.(currency) = Btc)
      then (state.(btcPaymentAmount), state.(btcProtocolAndBankFee))
      else (state.(usdPaymentAmount), state.(usdProtocolAndBankFee)) in
    let totalSendAmount := AmountCalculator.add amt fee in
    if balanceAmount.(amount) <? totalSendAmount.(amount)
    then Err (InsufficientBalanceError totalSendAmount.(amount) balanceAmount.(amount))
    else Ok true.

End PaymentFlowCommon.

Definition paymentHashForFlow (flow : PaymentFlowState) : Result PaymentHash :=
  if Bool.eqb (truthy flow.(paymentHash)) (truthy flow.(intraLedgerHash))
  then Err (InvalidLightningPaymentFlowBuilderStateError "")
  else match js_or_opt flow.(paymentHash) None with
       | None => Err IntraLedgerHashPresentInLnFlowError
       | Some paymentHash => Ok paymentHash
       end.

Definition intraLedgerHashForFlow (flow : PaymentFlowState) : Result IntraLedgerHash :=
  if Bool.eqb (truthy flow.(paymentHash)) (truthy flow.(intraLedgerHash))
  then Err (InvalidLightningPaymentFlowBuilderStateError "")
  else match js_or_opt flow.(intraLedgerHash) None with
       | None => Err LnHashPresentInIntraLedgerFlowError
       | Some intraLedgerHash => Ok intraLedgerHash
       end.

Definition addressForFlow (flow : OnChainPaymentFlowState) : Result OnChainAddress :=
  match flow.(address) with
  | None => Err (InvalidOnChainPaymentFlowBuilderStateError "")
  | Some address => Ok address
  end.

Definition bankFees (flow : OnChainPaymentFlowState) : AmountPair :=
  {| btc := flow.(flow_btcBankFee); usd := flow.(flow_usdBankFee) |}.

(** The amount a payment takes from the sender's wallet, and its fee, in its currency. *)
Definition sender_amount (s : PaymentFlowCommonState) : Z :=
  match s.(senderWalletCurrency) with
  | Btc => s.(btcPaymentAmount).(amount)
  | Usd => s.(usdPaymentAmount).(amount)
  end.

Definition sender_fee (s : PaymentFlowCommonState) : Z :=
  match s.(senderWalletCurrency) with
  | Btc => s.(btcProtocolAndBankFee).(amount)
  | Usd => s.(usdProtocolAndBankFee).(amount)
  end.

(** ** Properties *)

(** A flow passes the balance check exactly when the balance is in the sender's wallet
    currency and covers the amount plus the fee in that currency. *)
Theorem checkBalanceForSend_spec (s : PaymentFlowCommonState) (balance : Amount) :
  checkBalanceForSend s balance = Ok true ↔
    balance.(currency) = s.(senderWalletCurrency) ∧
    sender_amount s + sender_fee s <= balance.(amount).
Proof.
  unfold checkBalanceForSend, sender_amount, sender_fee. destruct balance as [c b]. cbn.
  destruct (bool_decide_reflect (s.(senderWalletCurrency) = c)) as [<-|Hc]; cbn; [|naive_solver].
  destruct s.(senderWalletCurrency); case_decide; try done; cbn;
    match goal with |- context [?a <? ?b] => destruct (Z.ltb_spec a b) end; cbn in *;
    split; intros; simplify_eq; try done; lia.
Qed.

(** At most one of the two hashes of a flow can be read, whatever its state: a flow
    that yields a Lightning payment hash never yields an intraledger hash. *)
Theorem flow_hashes_exclusive (flow : PaymentFlowState) h
    (Hh : paymentHashForFlow flow = Ok h) :
  flow.(paymentHash) = Some h ∧ intraLedgerHashForFlow flow = Err LnHashPresentInIntraLedgerFlowError.
Proof.
  unfold paymentHashForFlow, intraLedgerHashForFlow, js_or_opt in *.
  destruct (truthy (paymentHash flow)) eqn:E1, (truthy (intraLedgerHash flow)); cbn in *; try done.
  destruct (paymentHash flow); by simplify_eq.
Qed.

Lemma flow_hashes_exclusive_witness : ∃ flow,
  paymentHashForFlow flow = Ok "hash"%string ∧
  intraLedgerHashForFlow flow = Err LnHashPresentInIntraLedgerFlowError.
Proof.
  exists {| pf_common :=
    {| senderWalletId := "a"; senderWalletCurrency := Btc; senderAccountId := "acc";
       settlementMethod := SettleLightning; paymentInitiationMethod := InitLightning; createdAt := 0;
       paymentSentAndPending := false; inputAmount := 1000; btcPaymentAmount := BtcPaymentAmount 1000;
       usdPaymentAmount := UsdPaymentAmount 30; btcProtocolAndBankFee := BtcPaymentAmount 5;
       usdProtocolAndBankFee := UsdPaymentAmount 1; recipientWalletId := None;
       recipientWalletCurrency := None; recipientAccountId := None; recipientPubkey := None;
       recipientUsername := None; recipientUserId := None; outgoingNodePubkey := None;
       cachedRoute := None |};
    paymentHash := Some "hash"; intraLedgerHash := None; descriptionFromInvoice := "";
    skipProbeForDestination := false |}.
  split; [reflexivity|]. apply (flow_hashes_exclusive _ "hash"). reflexivity.
Defined.
