(* ===== verification/LightningBuilder.v ===== *)
(** * The Lightning payment flow builder

    Models [domain/payments/payment-flow-builder.ts].  Each stage of the builder is a record
    with the fields the stage's state adds or overrides; a stage's methods are functions
    of the record.  A stage that the source wraps in [LPFBWithError] is [Err]: every method
    of [LPFBWithError] passes the same error on, which is what the monad's bind does.
    The conversion functions (dealer and mid price) are arguments, called directly or as
    promises ([Calls]), and so is the random intraledger hash. *)

From S2P Require Import Prelude JsNumber Shared Prices Fees Lightning PaymentFlow.

Record ConversionFns (F : Type -> Type) := mkConversionFns {
  usdFromBtc : Amount -> F Amount;
  btcFromUsd : Amount -> F Amount;
}.
Arguments mkConversionFns {F}.
Arguments usdFromBtc {F}.
Arguments btcFromUsd {F}.

Record WithConversionArgs (F : Type -> Type) := mkConversionArgs {
  hedgeBuyUsd : ConversionFns F;
  hedgeSellUsd : ConversionFns F;
  mid : ConversionFns F;
}.
Arguments mkConversionArgs {F}.
Arguments hedgeBuyUsd {F}.
Arguments hedgeSellUsd {F}.
Arguments mid {F}.

Module LPFB.

Record config := mkConfig {
  localNodeIds : list Pubkey;
  skipProbe_pubkey : list Pubkey;
  skipProbe_chanId : list ChanId;
}.

(** ** Stage states *)

Record WithInvoiceState := mkWithInvoice {
  i_settlementMethod : SettlementMethod;
  i_paymentInitiationMethod : PaymentInitiationMethod;
  i_paymentHash : option PaymentHash;
  i_intraLedgerHash : option IntraLedgerHash;
  i_descriptionFromInvoice : string;
  i_skipProbeForDestination : bool;
  i_btcPaymentAmount : option Amount;
  i_inputAmount : option Z;
  i_uncheckedAmount : option number;
  i_btcProtocolAndBankFee : option Amount;
  i_usdProtocolAndBankFee : option Amount;
}.

Record WithSenderWalletState := mkWithSenderWallet {
  s_invoice : WithInvoiceState;
  s_senderWalletId : WalletId;
  s_senderWalletCurrency : WalletCurrency;
  s_senderAccountId : AccountId;
  s_inputAmount : Z;
  s_btcPaymentAmount : option Amount;
  s_usdPaymentAmount : option Amount;
  s_btcProtocolAndBankFee : option Amount;
  s_usdProtocolAndBankFee : option Amount;
}.

Record WithRecipientWalletState := mkWithRecipientWallet {
  r_sender : WithSenderWalletState;
  r_recipientWalletId : option WalletId;
  r_recipientWalletCurrency : option WalletCurrency;
  r_recipientPubkey : option Pubkey;
  r_recipientUsername : option Username;
  r_recipientUserId : option UserId;
  r_recipientAccountId : option AccountId;
  r_recipientWalletDescriptors : option AccountWalletDescriptors;
  r_usdPaymentAmount : option Amount;
}.

Record WithConversionState := mkWithConversion {
  c_recipient : WithRecipientWalletState;
  c_recipientWalletId : option WalletId;
  c_recipientWalletCurrency : option WalletCurrency;
  c_btcPaymentAmount : Amount;
  c_usdPaymentAmount : Amount;
  c_btcProtocolAndBankFee : Amount;
  c_usdProtocolAndBankFee : Amount;
  c_createdAt : Date;
}.

(** ** [LightningPaymentFlowBuilder] *)
Section Builder.
Context (cfg : config).

Definition settlementMethodFromDestination (destination : option Pubkey)
    : SettlementMethod * option Amount * option Amount :=
  let settlementMethod :=
    match destination with
    | None => SettleIntraLedger
    | Some destination =>
        if decide (destination ∈ cfg.(localNodeIds)) then SettleIntraLedger else SettleLightning
    end in
  if decide (settlementMethod = SettleIntraLedger)
  then (settlementMethod, Some LnFees.intraLedgerFees.(btc), Some LnFees.intraLedgerFees.(usd))
  else (settlementMethod, None, None).

Definition skipProbeFromInvoice (invoice : LnInvoice) : Result bool :=
  invoicePubkeySet ← parseFinalHopsFromInvoice invoice;
  let flaggedPubkeySet := js_set cfg.(skipProbe_pubkey) in
  let pubkeyIsFlagged :=
    (0 <? length (ModifiedSet_intersect (js_set invoicePubkeySet) flaggedPubkeySet))%nat in
  invoiceChanIdSet ← parseFinalChanIdFromInvoice invoice;
  let flaggedChanIdSet := js_set cfg.(skipProbe_chanId) in
  let chanIdIsFlagged :=
    (0 <? length (ModifiedSet_intersect (js_set invoiceChanIdSet) flaggedChanIdSet))%nat in
  Ok (pubkeyIsFlagged || chanIdIsFlagged).

Definition withInvoice (invoice : LnInvoice) : Result WithInvoiceState :=
  match invoice.(paymentAmount) with
  | None => Err (InvalidLightningPaymentFlowBuilderStateError "withInvoice - paymentAmount missing")
  | Some paymentAmount =>
      let '(settlementMethod, btcFee, usdFee) :=
        settlementMethodFromDestination (Some invoice.(destination)) in
      skipProbe ← skipProbeFromInvoice invoice;
      Ok {|
        i_settlementMethod := settlementMethod;
        i_btcProtocolAndBankFee := btcFee;
        i_usdProtocolAndBankFee := usdFee;
        i_paymentInitiationMethod := InitLightning;
        i_paymentHash := Some invoice.(inv_paymentHash);
        i_intraLedgerHash := None;
        i_btcPaymentAmount := Some paymentAmount;
        i_inputAmount := Some paymentAmount.(amount);
        i_uncheckedAmount := None;
        i_descriptionFromInvoice := invoice.(description);
        i_skipProbeForDestination := skipProbe;
      |}
  end.

Definition withNoAmountInvoice (invoice : LnInvoice) (uncheckedAmount : number)
    : Result WithInvoiceState :=
  let '(settlementMethod, btcFee, usdFee) :=
    settlementMethodFromDestination (Some invoice.(destination)) in
  skipProbe ← skipProbeFromInvoice invoice;
  Ok {|
    i_settlementMethod := settlementMethod;
    i_btcProtocolAndBankFee := btcFee;
    i_usdProtocolAndBankFee := usdFee;
    i_paymentInitiationMethod := InitLightning;
    i_paymentHash := Some invoice.(inv_paymentHash);
    i_intraLedgerHash := None;
    i_btcPaymentAmount := None;
    i_inputAmount := None;
    i_uncheckedAmount := Some uncheckedAmount;
    i_descriptionFromInvoice := invoice.(description);
    i_skipProbeForDestination := skipProbe;
  |}.

Definition withoutInvoice (generateIntraLedgerHash : IntraLedgerHash) (uncheckedAmount : number)
    (description : string) : Result WithInvoiceState :=
  let '(settlementMethod, btcFee, usdFee) := settlementMethodFromDestination None in
  Ok {|
    i_settlementMethod := settlementMethod;
    i_btcProtocolAndBankFee := btcFee;
    i_usdProtocolAndBankFee := usdFee;
    i_paymentInitiationMethod := InitIntraLedger;
    i_paymentHash := None;
    i_intraLedgerHash := Some generateIntraLedgerHash;
    i_btcPaymentAmount := None;
    i_inputAmount := None;
    i_uncheckedAmount := Some uncheckedAmount;
    i_descriptionFromInvoice := description;
    i_skipProbeForDestination := false;
  |}.

End Builder.

(** ** [LPFBWithInvoice] *)

(** [checked instanceof ValidationError ? LPFBWithError(checked) : ...]: an error of another
    class would be used as an amount and fail on its missing fields.  The checks only
    return validation errors ([checked_conversion]). *)
Definition validated (checked : Result Amount) : Result Amount :=
  match checked with
  | Ok a => Ok a
  | Err e => if is_ValidationError e then Err e else Err (JsThrow "TypeError")
  end.

Definition withSenderWallet (state : WithInvoiceState) (senderWallet : WalletDescriptor)
    : Result WithSenderWalletState :=
  match state.(i_uncheckedAmount) with
  | Some uncheckedAmount =>
      match senderWallet.(w_currency) with
      | Btc =>
          paymentAmount ← validated (checkedToBtcPaymentAmount (Some uncheckedAmount));
          Ok {|
            s_invoice := state;
            s_senderWalletId := senderWallet.(w_id);
            s_senderWalletCurrency := senderWallet.(w_currency);
            s_senderAccountId := senderWallet.(w_accountId);
            s_btcPaymentAmount := Some paymentAmount;
            s_usdPaymentAmount := None;
            s_inputAmount := paymentAmount.(amount);
            s_btcProtocolAndBankFee :=
              Some (js_or state.(i_btcProtocolAndBankFee) (LnFees.maxProtocolAndBankFee paymentAmount));
            s_usdProtocolAndBankFee := state.(i_usdProtocolAndBankFee);
          |}
      | Usd =>
          paymentAmount ← validated (checkedToUsdPaymentAmount (Some uncheckedAmount));
          Ok {|
            s_invoice := state;
            s_senderWalletId := senderWallet.(w_id);
            s_senderWalletCurrency := senderWallet.(w_currency);
            s_senderAccountId := senderWallet.(w_accountId);
            s_btcPaymentAmount := state.(i_btcPaymentAmount);
            s_usdPaymentAmount := Some paymentAmount;
            s_inputAmount := paymentAmount.(amount);
            s_btcProtocolAndBankFee := state.(i_btcProtocolAndBankFee);
            s_usdProtocolAndBankFee :=
              Some (js_or state.(i_usdProtocolAndBankFee) (LnFees.maxProtocolAndBankFee paymentAmount));
          |}
      end
  | None =>
      match js_or_opt state.(i_inputAmount) None, state.(i_btcPaymentAmount) with
      | Some inputAmount, Some btcPaymentAmount =>
          Ok {|
            s_invoice := state;
            s_senderWalletId := senderWallet.(w_id);
            s_senderWalletCurrency := senderWallet.(w_currency);
            s_senderAccountId := senderWallet.(w_accountId);
            s_btcPaymentAmount := Some btcPaymentAmount;
            s_usdPaymentAmount := None;
            s_btcProtocolAndBankFee :=
              Some (js_or state.(i_btcProtocolAndBankFee) (LnFees.maxProtocolAndBankFee btcPaymentAmount));
            s_usdProtocolAndBankFee := state.(i_usdProtocolAndBankFee);
            s_inputAmount := inputAmount;
          |}
      | _, _ => Err (JsThrow "withSenderWallet impossible")
      end
  end.

(** ** [LPFBWithSenderWallet] *)

Definition withoutRecipientWallet (state : WithSenderWalletState) : Result WithRecipientWalletState :=
  if decide (state.(s_invoice).(i_settlementMethod) = SettleIntraLedger)
  then Err (InvalidLightningPaymentFlowBuilderStateError
              "withoutRecipientWallet called but settlementMethod is IntraLedger")
  else Ok {|
    r_sender := state;
    r_recipientWalletId := None;
    r_recipientWalletCurrency := None;
    r_recipientPubkey := None;
    r_recipientUsername := None;
    r_recipientUserId := None;
    r_recipientAccountId := None;
    r_recipientWalletDescriptors := None;
    r_usdPaymentAmount := state.(s_usdPaymentAmount);
  |}.

Record WithRecipientArgs := mkRecipientArgs {
  ra_defaultWalletCurrency : WalletCurrency;
  ra_recipientWalletDescriptors : AccountWalletDescriptors;
  ra_userId : UserId;
  ra_pubkey : option Pubkey;
  ra_usdPaymentAmount : option Amount;
  ra_username : option Username;
}.

Definition withRecipientWallet (state : WithSenderWalletState) (args : WithRecipientArgs)
    : Result WithRecipientWalletState :=
  let recipientWalletCurrency := args.(ra_defaultWalletCurrency) in
  let recipientWallet := wallet_for args.(ra_recipientWalletDescriptors) recipientWalletCurrency in
  if decide (recipientWallet.(w_id) = state.(s_senderWalletId)) then Err SelfPaymentError
  else if bool_decide (recipientWalletCurrency = Usd) &&
          Bool.eqb (truthy args.(ra_usdPaymentAmount))
                   (truthy state.(s_invoice).(i_uncheckedAmount))
  then Err (InvalidLightningPaymentFlowBuilderStateError
              "withRecipientWallet incorrect combination of usdPaymentAmount and uncheckedAmount")
  else Ok {|
    r_sender := state;
    r_recipientWalletId := Some recipientWallet.(w_id);
    r_recipientWalletCurrency := Some recipientWalletCurrency;
    r_recipientPubkey := args.(ra_pubkey);
    r_recipientAccountId := Some recipientWallet.(w_accountId);
    r_recipientUsername := args.(ra_username);
    r_recipientUserId := Some args.(ra_userId);
    r_recipientWalletDescriptors := Some args.(ra_recipientWalletDescriptors);
    r_usdPaymentAmount := js_or_opt args.(ra_usdPaymentAmount) state.(s_usdPaymentAmount);
  |}.

Definition sender_isIntraLedger (state : WithSenderWalletState) : bool :=
  bool_decide (state.(s_invoice).(i_settlementMethod) = SettleIntraLedger).

(** ** [LPFBWithRecipientWallet] *)
Section WithConversion.
Context {F : Type -> Type} `{Calls F}.
Context (state : WithRecipientWalletState) (args : WithConversionArgs F) (now : Date).

Definition senderCurrency : WalletCurrency := state.(r_sender).(s_senderWalletCurrency).

Definition noConversionRequired : bool :=
  bool_decide (senderCurrency = Btc ∧
               state.(r_sender).(s_invoice).(i_settlementMethod) = SettleLightning) ||
  bool_decide (Some senderCurrency = state.(r_recipientWalletCurrency)).

Definition isUsdRecipient : bool := bool_decide (state.(r_recipientWalletCurrency) = Some Usd).

Definition currentStateFromAllAmountsPresent (btcAmt usdAmt btcFee usdFee : Amount)
    : WithConversionState := {|
  c_recipient := state;
  c_recipientWalletId := state.(r_recipientWalletId);
  c_recipientWalletCurrency := state.(r_recipientWalletCurrency);
  c_btcPaymentAmount := btcAmt;
  c_usdPaymentAmount := usdAmt;
  c_btcProtocolAndBankFee := btcFee;
  c_usdProtocolAndBankFee := usdFee;
  c_createdAt := now;
|}.

Definition updatedStateFromBtcPaymentAmountMid (btcAmt btcFee : Amount)
    (recipientWalletDescriptor : option WalletDescriptor) : F WithConversionState :=
  convertedAmount ← args.(mid).(usdFromBtc) btcAmt;
  priceRatio ← returns (WalletPriceRatio.make convertedAmount btcAmt);
  let usdFee := WalletPriceRatio.convertFromBtcToCeil priceRatio btcFee in
  returns (Ok {|
    c_recipient := state;
    c_recipientWalletId :=
      match recipientWalletDescriptor with
      | Some w => Some w.(w_id) | None => state.(r_recipientWalletId) end;
    c_recipientWalletCurrency :=
      match recipientWalletDescriptor with
      | Some w => Some w.(w_currency) | None => state.(r_recipientWalletCurrency) end;
    c_btcPaymentAmount := btcAmt;
    c_usdPaymentAmount := convertedAmount;
    c_btcProtocolAndBankFee := btcFee;
    c_usdProtocolAndBankFee := usdFee;
    c_createdAt := now;
  |}).

Definition updatedStateFromBtcPaymentAmountDealer (btcAmt btcFee : Amount)
    : F WithConversionState :=
  let usdFromBtc :=
    if decide (senderCurrency = Btc) then args.(hedgeBuyUsd).(usdFromBtc)
    else args.(hedgeSellUsd).(usdFromBtc) in
  convertedAmount ← usdFromBtc btcAmt;
  priceRatio ← returns (WalletPriceRatio.make convertedAmount btcAmt);
  let usdFee := WalletPriceRatio.convertFromBtcToCeil priceRatio btcFee in
  returns (Ok (currentStateFromAllAmountsPresent btcAmt convertedAmount btcFee usdFee)).

Definition updatedStateFromUsdPaymentAmountMid (usdAmt usdFee : Amount)
    : F WithConversionState :=
  convertedAmount ← args.(mid).(btcFromUsd) usdAmt;
  priceRatio ← returns (WalletPriceRatio.make usdAmt convertedAmount);
  let btcFee := WalletPriceRatio.convertFromUsd priceRatio usdFee in
  returns (Ok (currentStateFromAllAmountsPresent convertedAmount usdAmt btcFee usdFee)).

Definition updatedStateFromUsdPaymentAmountDealer (usdAmt usdFee : Amount)
    : F WithConversionState :=
  let btcFromUsd :=
    if decide (senderCurrency = Btc) then args.(hedgeBuyUsd).(btcFromUsd)
    else args.(hedgeSellUsd).(btcFromUsd) in
  convertedAmount ← btcFromUsd usdAmt;
  priceRatio ← returns (WalletPriceRatio.make usdAmt convertedAmount);
  let btcFee := WalletPriceRatio.convertFromUsd priceRatio usdFee in
  returns (Ok (currentStateFromAllAmountsPresent convertedAmount usdAmt btcFee usdFee)).

(** A payment below one cent goes to the recipient's BTC wallet instead. *)
Definition updatedStateFromBtcPaymentAmountDealerFallbackMid (btcAmt btcFee : Amount)
    : F WithConversionState :=
  handle (updatedStateFromBtcPaymentAmountDealer btcAmt btcFee) (fun updatedState =>
  match updatedState with
  | Ok updatedState => returns (Ok updatedState)
  | Err e =>
      if negb (is_InvalidZeroAmountPriceRatioInputError e) then returns (Err e)
      else
        match BTC <$> state.(r_recipientWalletDescriptors) with
        | None => returns (Err (InvalidLightningPaymentFlowBuilderStateError
                         "expected recipient BTC wallet missing"))
        | Some recipientBtcWalletDescriptor =>
            if decide (recipientBtcWalletDescriptor.(w_id) = state.(r_sender).(s_senderWalletId))
            then returns (Err SubOneCentSatAmountForUsdSelfSendError)
            else updatedStateFromBtcPaymentAmountMid btcAmt btcFee (Some recipientBtcWalletDescriptor)
        end
  end).

Definition withConversion : F WithConversionState :=
  let btcAmounts :=
    match state.(r_sender).(s_btcPaymentAmount), state.(r_sender).(s_btcProtocolAndBankFee) with
    | Some a, Some f => Some (a, f) | _, _ => None end in
  let usdAmounts :=
    match state.(r_usdPaymentAmount), state.(r_sender).(s_usdProtocolAndBankFee) with
    | Some a, Some f => Some (a, f) | _, _ => None end in
  if noConversionRequired then
    match btcAmounts, usdAmounts with
    | Some (btcAmt, btcFee), Some (usdAmt, usdFee) =>
        returns (Ok (currentStateFromAllAmountsPresent btcAmt usdAmt btcFee usdFee))
    | Some (btcAmt, btcFee), None => updatedStateFromBtcPaymentAmountMid btcAmt btcFee None
    | None, Some (usdAmt, usdFee) => updatedStateFromUsdPaymentAmountMid usdAmt usdFee
    | None, None =>
        returns (Err (InvalidLightningPaymentFlowBuilderStateError
               "withConversion - btcPaymentAmount || btcProtocolAndBankFee not set"))
    end
  else
    match btcAmounts, usdAmounts with
    | Some (btcAmt, btcFee), Some (usdAmt, usdFee) =>
        if isUsdRecipient then returns (Ok (currentStateFromAllAmountsPresent btcAmt usdAmt btcFee usdFee))
        else updatedStateFromBtcPaymentAmountDealerFallbackMid btcAmt btcFee
    | Some (btcAmt, btcFee), None => updatedStateFromBtcPaymentAmountDealerFallbackMid btcAmt btcFee
    | None, Some (usdAmt, usdFee) => updatedStateFromUsdPaymentAmountDealer usdAmt usdFee
    | None, None =>
        returns (Err (InvalidLightningPaymentFlowBuilderStateError
               "withConversion - impossible withConversion state"))
    end.

End WithConversion.

(** ** [LPFBWithConversion] *)
Definition paymentFromState (state : WithConversionState) (outgoingNodePubkey : option Pubkey)
    (checkedRoute : option RawRoute) : Result PaymentFlowState :=
  let sender := state.(c_recipient).(r_sender) in
  let invoice := sender.(s_invoice) in
  hash ← match js_or_opt invoice.(i_paymentHash) None, js_or_opt invoice.(i_intraLedgerHash) None with
         | Some paymentHash, _ => Ok (Some paymentHash, None)
         | None, Some intraLedgerHash => Ok (None, Some intraLedgerHash)
         | None, None => Err InvalidLightningPaymentFlowStateError
         end;
  Ok {|
    pf_common := {|
      senderWalletId := sender.(s_senderWalletId);
      senderWalletCurrency := sender.(s_senderWalletCurrency);
      senderAccountId := sender.(s_senderAccountId);
      recipientWalletId := state.(c_recipientWalletId);
      recipientWalletCurrency := state.(c_recipientWalletCurrency);
      recipientAccountId := state.(c_recipient).(r_recipientAccountId);
      recipientPubkey := state.(c_recipient).(r_recipientPubkey);
      recipientUsername := state.(c_recipient).(r_recipientUsername);
      recipientUserId := state.(c_recipient).(r_recipientUserId);
      btcPaymentAmount := state.(c_btcPaymentAmount);
      usdPaymentAmount := state.(c_usdPaymentAmount);
      inputAmount := sender.(s_inputAmount);
      createdAt := state.(c_createdAt);
      paymentSentAndPending := false;
      settlementMethod := invoice.(i_settlementMethod);
      paymentInitiationMethod := invoice.(i_paymentInitiationMethod);
      btcProtocolAndBankFee := state.(c_btcProtocolAndBankFee);
      usdProtocolAndBankFee := state.(c_usdProtocolAndBankFee);
      outgoingNodePubkey := outgoingNodePubkey;
      cachedRoute := checkedRoute;
    |};
    paymentHash := fst hash;
    intraLedgerHash := snd hash;
    descriptionFromInvoice := invoice.(i_descriptionFromInvoice);
    skipProbeForDestination := invoice.(i_skipProbeForDestination);
  |}.

Definition withoutRoute (state : WithConversionState) : Result PaymentFlowState :=
  paymentFromState state None None.

Definition withRoute (state : WithConversionState) (pubkey : Pubkey) (rawRoute : RawRoute)
    : Result PaymentFlowState :=
  priceRatio ← WalletPriceRatio.make state.(c_usdPaymentAmount) state.(c_btcPaymentAmount);
  btcFee ← LnFees.feeFromRawRoute rawRoute;
  let usdFee := WalletPriceRatio.convertFromBtcToCeil priceRatio btcFee in
  paymentFromState {|
    c_recipient := state.(c_recipient);
    c_recipientWalletId := state.(c_recipientWalletId);
    c_recipientWalletCurrency := state.(c_recipientWalletCurrency);
    c_btcPaymentAmount := state.(c_btcPaymentAmount);
    c_usdPaymentAmount := state.(c_usdPaymentAmount);
    c_btcProtocolAndBankFee := btcFee;
    c_usdProtocolAndBankFee := usdFee;
    c_createdAt := state.(c_createdAt);
  |} (Some pubkey) (Some rawRoute).

Definition isIntraLedger (state : WithConversionState) : bool :=
  bool_decide (state.(c_recipient).(r_sender).(s_invoice).(i_settlementMethod) = SettleIntraLedger).

Definition isTradeIntraAccount (state : WithConversionState) : bool :=
  bool_decide (Some state.(c_recipient).(r_sender).(s_senderAccountId)
               = state.(c_recipient).(r_recipientAccountId)) &&
  negb (bool_decide (Some state.(c_recipient).(r_sender).(s_senderWalletCurrency)
                     = state.(c_recipientWalletCurrency))).

End LPFB.

(** ** What the builder relies on *)

(** A price conversion gives a non-negative amount of the other currency; zero is allowed
    (less than a cent), and the price ratio of the flow then refuses it. *)
Class ConversionLaws (fns : ConversionFns (result ApplicationError)) : Prop := {
  usdFromBtc_law a b : usdFromBtc fns a = Ok b -> 0 < a.(amount) -> 0 <= b.(amount) ∧ b.(currency) = Usd;
  btcFromUsd_law a b : btcFromUsd fns a = Ok b -> 0 < a.(amount) -> 0 <= b.(amount) ∧ b.(currency) = Btc;
}.

Class ArgsLaws (args : WithConversionArgs (result ApplicationError)) : Prop := {
  hedgeBuy_laws :: ConversionLaws args.(hedgeBuyUsd);
  hedgeSell_laws :: ConversionLaws args.(hedgeSellUsd);
  mid_laws :: ConversionLaws args.(mid);
}.

(** Conversion at a fixed wallet price ratio. *)
Definition ratio_conversion (r : WalletPriceRatio.t) : ConversionFns (result ApplicationError) := {|
  usdFromBtc a := Ok (WalletPriceRatio.convertFromBtc r a);
  btcFromUsd a := Ok (WalletPriceRatio.convertFromUsd r a);
|}.

Lemma ratio_conversion_laws r : wallet_ratio r -> ConversionLaws (ratio_conversion r).
Proof.
  intros [Hr Hc]. split; intros a b [= <-] Ha; cbn; (split; [|try done]).
  - apply convertFromWallet_nonneg; [done|lia].
  - apply convertFromOther_nonneg; [done|lia].
  - by rewrite <- Hc, <- (convertFromOther_currency r a.(amount)).
Qed.

(** ** Reachable builder states *)
Module Built.
Import LPFB.

Definition valid_descriptors (ds : AccountWalletDescriptors) : Prop :=
  ds.(BTC).(w_currency) = Btc ∧ ds.(USD).(w_currency) = Usd ∧
  ds.(BTC).(w_accountId) = ds.(USD).(w_accountId).

Definition valid_recipient (ra : WithRecipientArgs) : Prop :=
  valid_descriptors ra.(ra_recipientWalletDescriptors) ∧
  (∀ u, ra.(ra_usdPaymentAmount) = Some u -> 0 < u.(amount) ∧ u.(currency) = Usd) ∧
  (ra.(ra_defaultWalletCurrency) = Btc -> ra.(ra_usdPaymentAmount) = None).

(** The first stage; the flag says whether the amount is the payer's own input. *)
Inductive start (cfg : config) : bool -> WithInvoiceState -> Prop :=
| start_invoice invoice a i :
    invoice.(paymentAmount) = Some a -> 0 < a.(amount) -> a.(currency) = Btc ->
    withInvoice cfg invoice = Ok i -> start cfg false i
| start_no_amount invoice x i :
    valid x -> withNoAmountInvoice cfg invoice x = Ok i -> start cfg true i
| start_intraledger hash x desc i :
    valid x -> withoutInvoice cfg hash x desc = Ok i -> start cfg true i.

(** The recipient stage: a wallet of this ledger, or a node of the network. *)
Inductive recipient (s : WithSenderWalletState) : WithRecipientWalletState -> Prop :=
| recipient_internal ra r :
    sender_isIntraLedger s = true -> valid_recipient ra ->
    withRecipientWallet s ra = Ok r -> recipient s r
| recipient_external r :
    sender_isIntraLedger s = false -> withoutRecipientWallet s = Ok r -> recipient s r.

Inductive built (cfg : config) (noAmount : bool) (c : WithConversionState) : Prop :=
| built_intro i s r sender args now :
    start cfg noAmount i -> withSenderWallet i sender = Ok s -> recipient s r ->
    ArgsLaws args -> withConversion r args now = Ok c -> built cfg noAmount c.

(** *** Stage invariants *)

Definition intra (i : WithInvoiceState) : bool :=
  bool_decide (i.(i_settlementMethod) = SettleIntraLedger).

Definition invoice_inv (noAmount : bool) (i : WithInvoiceState) : Prop :=
  i.(i_settlementMethod) ≠ SettleOnChain ∧
  i.(i_btcProtocolAndBankFee) = (if intra i then Some ZERO_SATS else None) ∧
  i.(i_usdProtocolAndBankFee) = (if intra i then Some ZERO_CENTS else None) ∧
  if noAmount then
    i.(i_btcPaymentAmount) = None ∧ ∃ x, i.(i_uncheckedAmount) = Some x ∧ valid x
  else
    i.(i_uncheckedAmount) = None ∧ ∃ a, i.(i_btcPaymentAmount) = Some a ∧
      i.(i_inputAmount) = Some a.(amount) ∧ 0 < a.(amount) ∧ a.(currency) = Btc.

Lemma start_inv cfg noAmount i : start cfg noAmount i -> invoice_inv noAmount i.
Proof.
  assert (Hm : ∀ d m bf uf, settlementMethodFromDestination cfg d = (m, bf, uf) ->
    m ≠ SettleOnChain ∧
    bf = (if bool_decide (m = SettleIntraLedger) then Some ZERO_SATS else None) ∧
    uf = (if bool_decide (m = SettleIntraLedger) then Some ZERO_CENTS else None)).
  { intros d m bf uf. unfold settlementMethodFromDestination.
    destruct d; repeat case_decide; simplify_eq; intros; simplify_eq; by split_and!. }
  unfold invoice_inv, intra.
  destruct 1 as [invoice a i Ha Hpos Hc H|invoice x i Hx H|hash x desc i Hx H];
    [unfold withInvoice in H; rewrite Ha in H|unfold withNoAmountInvoice in H|unfold withoutInvoice in H];
    destruct (settlementMethodFromDestination _ _) as [[m bf] uf] eqn:E;
    apply Hm in E as (? & ? & ?); result_inv; split_and!; eauto 10.
Qed.

(** After the sender stage either the BTC or the USD amount and fee are set. *)
Definition sender_inv (noAmount : bool) (s : WithSenderWalletState) : Prop :=
  let i := s.(s_invoice) in
  i.(i_settlementMethod) ≠ SettleOnChain ∧
  (noAmount = true -> truthy i.(i_uncheckedAmount) = true) ∧
  ((∃ a, s.(s_btcPaymentAmount) = Some a ∧ s.(s_usdPaymentAmount) = None ∧
     0 < a.(amount) ∧ a.(currency) = Btc ∧ s.(s_inputAmount) = a.(amount) ∧
     s.(s_btcProtocolAndBankFee) = Some (if intra i then ZERO_SATS else LnFees.maxProtocolAndBankFee a) ∧
     s.(s_usdProtocolAndBankFee) = (if intra i then Some ZERO_CENTS else None) ∧
     (noAmount = true -> s.(s_senderWalletCurrency) = Btc)) ∨
   (∃ u, s.(s_btcPaymentAmount) = None ∧ s.(s_usdPaymentAmount) = Some u ∧
     0 < u.(amount) ∧ u.(currency) = Usd ∧ s.(s_inputAmount) = u.(amount) ∧
     s.(s_usdProtocolAndBankFee) = Some (if intra i then ZERO_CENTS else LnFees.maxProtocolAndBankFee u) ∧
     s.(s_btcProtocolAndBankFee) = (if intra i then Some ZERO_SATS else None) ∧
     noAmount = true ∧ s.(s_senderWalletCurrency) = Usd)).

(** The largest amount that is checked in a currency. *)
Definition max_amount (c : WalletCurrency) : Z := match c with Btc => MAX_SATS.(amount) | Usd => MAX_CENTS.(amount) end.

Lemma checked_pos c x a : valid x ->
  validated (match c with Btc => checkedToBtcPaymentAmount (Some x)
                        | Usd => checkedToUsdPaymentAmount (Some x) end) = Ok a ->
  0 < a.(amount) <= max_amount c ∧ a.(currency) = c ∧ BigInt x = Some a.(amount).
Proof.
  intros Hx. unfold validated. destruct c.
  - pose proof (checked_conversion x MAX_CENTS.(amount) UsdAmountTooLargeError
      InvalidUsdPaymentAmountError Usd Hx eq_refl eq_refl) as [H _].
    fold (checkedToUsdPaymentAmount (Some x)) in H.
    destruct (checkedToUsdPaymentAmount _) as [a'|]; [|by case_match].
    intros [= ->]. destruct (proj1 (H a) eq_refl) as (n & ? & ? & ->). cbn in *. split_and!; [lia..|done|done].
  - pose proof (checked_conversion x MAX_SATS.(amount) BtcAmountTooLargeError
      InvalidBtcPaymentAmountError Btc Hx eq_refl eq_refl) as [H _].
    fold (checkedToBtcPaymentAmount (Some x)) in H.
    destruct (checkedToBtcPaymentAmount _) as [a'|]; [|by case_match].
    intros [= ->]. destruct (proj1 (H a) eq_refl) as (n & ? & ? & ->). cbn in *. split_and!; [lia..|done|done].
Qed.

Lemma truthy_of_pos (x : number) n : BigInt x = Some n -> 0 < n -> truthy (Some x) = true.
Proof. destruct x; cbn; intros; simplify_eq; done || lia. Qed.

Lemma withSenderWallet_inv noAmount i sender s :
  invoice_inv noAmount i -> withSenderWallet i sender = Ok s -> sender_inv noAmount s.
Proof.
  intros (Hm & Hbf & Huf & Hi) H. unfold withSenderWallet in H. unfold sender_inv.
  destruct noAmount.
  - destruct Hi as (Hb & x & Hx & Hv). rewrite Hx in H.
    destruct (w_currency sender) eqn:Hc; apply bind_Ok in H as (a & Ha & [= <-]);
      [apply (checked_pos Usd x a Hv) in Ha|apply (checked_pos Btc x a Hv) in Ha];
      destruct Ha as ([? _] & ? & HB); cbn; rewrite Hx;
      (split; [done|]; split; [intros _; by eapply truthy_of_pos|]).
    + right. exists a. rewrite Huf, Hbf. split_and!; try done. by destruct (intra i).
    + left. exists a. rewrite Huf, Hbf. split_and!; try done. by destruct (intra i).
  - destruct Hi as (Hn & a & Ha & Hin & ? & ?). rewrite Hn, Ha, Hin in H.
    unfold js_or_opt, truthy, truthy_option, truthy, truthy_bigint in H.
    rewrite (proj2 (Z.eqb_neq _ _)) in H by lia. cbn in H. injection H as <-. cbn.
    split; [done|]; split; [done|]. left. exists a. rewrite Huf, Hbf. split_and!; try done.
    by destruct (intra i).
Qed.

Lemma withRecipientWallet_inv s ra r : withRecipientWallet s ra = Ok r ->
  r.(r_sender) = s ∧ r.(r_recipientWalletDescriptors) = Some ra.(ra_recipientWalletDescriptors) ∧
  r.(r_recipientWalletCurrency) = Some ra.(ra_defaultWalletCurrency) ∧
  r.(r_recipientWalletId) =
    Some (wallet_for ra.(ra_recipientWalletDescriptors) ra.(ra_defaultWalletCurrency)).(w_id) ∧
  r.(r_recipientAccountId) =
    Some (wallet_for ra.(ra_recipientWalletDescriptors) ra.(ra_defaultWalletCurrency)).(w_accountId) ∧
  r.(r_recipientWalletId) ≠ Some s.(s_senderWalletId) ∧
  r.(r_usdPaymentAmount) = js_or_opt ra.(ra_usdPaymentAmount) s.(s_usdPaymentAmount).
Proof.
  unfold withRecipientWallet. case_decide as Hd; [done|]. case_match; [done|].
  intros [= <-]. cbn. split_and!; congruence.
Qed.

(** The USD amount after the recipient stage: the sender's own, or that of the
    recipient's invoice. *)
Definition recipient_inv (noAmount : bool) (r : WithRecipientWalletState) : Prop :=
  ∀ u, r.(r_usdPaymentAmount) = Some u ->
    r.(r_sender).(s_usdPaymentAmount) = Some u ∨
    (noAmount = false ∧ intra r.(r_sender).(s_invoice) = true ∧ 0 < u.(amount) ∧ u.(currency) = Usd).

Lemma recipient_usd noAmount s r : sender_inv noAmount s -> recipient s r ->
  r.(r_sender) = s ∧ recipient_inv noAmount r.
Proof.
  intros (_ & Ht & _). destruct 1 as [ra r Hi (_ & Hu & Hb) H|r Hi H].
  - pose proof (withRecipientWallet_inv _ _ _ H) as (Hs & _ & _ & _ & _ & _ & Hr). split; [done|].
    unfold recipient_inv. rewrite Hr, Hs. intros u. unfold js_or_opt.
    destruct (ra_usdPaymentAmount ra) as [u'|] eqn:E; cbn; [|by left].
    intros [= ->]. right. split; [|by split; [exact Hi|apply Hu]].
    destruct noAmount; [|done]. exfalso. clear Hr. unfold withRecipientWallet in H. case_decide; [done|].
    revert Hb H.
    destruct (ra_defaultWalletCurrency ra); intros Hb H; [|exfalso; specialize (Hb eq_refl); congruence].
    rewrite E, Ht in H by done. by rewrite bool_decide_true in H.
  - unfold withoutRecipientWallet in H. case_decide; [done|]. injection H as <-.
    split; [done|]. intros u Hu. by left.
Qed.

(** After the conversion stage all amounts are positive, an intraledger payment is free,
    and a Lightning payment carries the fee cap in the currency its amount was given in. *)
Definition conversion_inv (noAmount : bool) (c : WithConversionState) : Prop :=
  let s := c.(c_recipient).(r_sender) in
  let btcAmt := c.(c_btcPaymentAmount) in
  let usdAmt := c.(c_usdPaymentAmount) in
  (0 < btcAmt.(amount) ∧ btcAmt.(currency) = Btc) ∧ (0 < usdAmt.(amount) ∧ usdAmt.(currency) = Usd) ∧
  (intra s.(s_invoice) = true ->
     c.(c_btcProtocolAndBankFee).(amount) = 0 ∧ c.(c_usdProtocolAndBankFee).(amount) = 0) ∧
  ((s.(s_inputAmount) = btcAmt.(amount) ∧ (noAmount = true -> s.(s_senderWalletCurrency) = Btc) ∧
    (intra s.(s_invoice) = false ->
       c.(c_btcProtocolAndBankFee) = LnFees.maxProtocolAndBankFee btcAmt ∧
       ∃ r, WalletPriceRatio.make usdAmt btcAmt = Ok r ∧
         c.(c_usdProtocolAndBankFee) = WalletPriceRatio.convertFromBtcToCeil r c.(c_btcProtocolAndBankFee))) ∨
   (s.(s_inputAmount) = usdAmt.(amount) ∧ noAmount = true ∧ s.(s_senderWalletCurrency) = Usd ∧
    (intra s.(s_invoice) = false ->
       c.(c_usdProtocolAndBankFee) = LnFees.maxProtocolAndBankFee usdAmt ∧
       ∃ r, WalletPriceRatio.make usdAmt btcAmt = Ok r ∧
         c.(c_btcProtocolAndBankFee) = WalletPriceRatio.convertFromUsd r c.(c_usdProtocolAndBankFee)))).

Lemma ceil_0 r a : a.(amount) = 0 -> (WalletPriceRatio.convertFromBtcToCeil r a).(amount) = 0.
Proof.
  intros Ha. unfold WalletPriceRatio.convertFromBtcToCeil, PriceRatio.convertFromWalletToCeil,
    AmountCalculator.divCeil. cbn. by rewrite Ha, Z.mul_0_l.
Qed.

(** What a conversion from a BTC amount, and from a USD amount, establishes. *)
Definition from_btc (r : WithRecipientWalletState) (a f : Amount) (c : WithConversionState) : Prop :=
  c.(c_recipient) = r ∧ c.(c_btcPaymentAmount) = a ∧ c.(c_btcProtocolAndBankFee) = f ∧
  0 < c.(c_usdPaymentAmount).(amount) ∧ c.(c_usdPaymentAmount).(currency) = Usd ∧
  ∃ ratio, WalletPriceRatio.make c.(c_usdPaymentAmount) a = Ok ratio ∧
    c.(c_usdProtocolAndBankFee) = WalletPriceRatio.convertFromBtcToCeil ratio f.

Definition from_usd (r : WithRecipientWalletState) (u f : Amount) (c : WithConversionState) : Prop :=
  c.(c_recipient) = r ∧ c.(c_usdPaymentAmount) = u ∧ c.(c_usdProtocolAndBankFee) = f ∧
  0 < c.(c_btcPaymentAmount).(amount) ∧ c.(c_btcPaymentAmount).(currency) = Btc ∧
  ∃ ratio, WalletPriceRatio.make u c.(c_btcPaymentAmount) = Ok ratio ∧
    c.(c_btcProtocolAndBankFee) = WalletPriceRatio.convertFromUsd ratio f.

Lemma make_nonzero u b r : WalletPriceRatio.make u b = Ok r -> u.(amount) ≠ 0 ∧ b.(amount) ≠ 0.
Proof. unfold WalletPriceRatio.make, PriceRatio.make. case_match; [done|]. zbool. tauto. Qed.

Section Conversion.
Context (r : WithRecipientWalletState) (args : WithConversionArgs (result ApplicationError)) (now : Date) `{ArgsLaws args}.

Lemma from_btc_mid a f w c : 0 < a.(amount) ->
  updatedStateFromBtcPaymentAmountMid r args now a f w = Ok c -> from_btc r a f c.
Proof.
  intros Ha. unfold updatedStateFromBtcPaymentAmountMid. intros Hc. direct_calls. result_inv.
  apply usdFromBtc_law in Ha0 as [? ?]; [|done]. pose proof (make_nonzero _ _ _ Ha1).
  unfold from_btc; cbn. split_and!; [done..|lia|done|eauto].
Qed.

Lemma from_btc_dealer a f c : 0 < a.(amount) ->
  updatedStateFromBtcPaymentAmountDealer r args now a f = Ok c -> from_btc r a f c.
Proof.
  intros Ha. unfold updatedStateFromBtcPaymentAmountDealer. intros Hc. direct_calls.
  apply bind_Ok in Hc as (u & Hu & Hc). apply bind_Ok in Hc as (ratio & Ha0 & [= <-]).
  assert (0 <= u.(amount) ∧ u.(currency) = Usd) as [? ?]
    by (case_decide; apply usdFromBtc_law in Hu; auto).
  pose proof (make_nonzero _ _ _ Ha0). unfold from_btc; cbn. split_and!; [done..|lia|done|eauto].
Qed.

Lemma from_btc_fallback a f c : 0 < a.(amount) ->
  updatedStateFromBtcPaymentAmountDealerFallbackMid r args now a f = Ok c -> from_btc r a f c.
Proof.
  intros Ha. unfold updatedStateFromBtcPaymentAmountDealerFallbackMid. direct_calls.
  destruct (updatedStateFromBtcPaymentAmountDealer _ _ _ _ _) eqn:E.
  - intros [= <-]. by apply from_btc_dealer.
  - repeat case_match; try done. by apply from_btc_mid.
Qed.

Lemma from_usd_mid u f c : 0 < u.(amount) ->
  updatedStateFromUsdPaymentAmountMid r args now u f = Ok c -> from_usd r u f c.
Proof.
  intros Ha. unfold updatedStateFromUsdPaymentAmountMid. intros Hc. direct_calls. result_inv.
  apply btcFromUsd_law in Ha0 as [? ?]; [|done]. pose proof (make_nonzero _ _ _ Ha1).
  unfold from_usd; cbn. split_and!; [done..|lia|done|eauto].
Qed.

Lemma from_usd_dealer u f c : 0 < u.(amount) ->
  updatedStateFromUsdPaymentAmountDealer r args now u f = Ok c -> from_usd r u f c.
Proof.
  intros Ha. unfold updatedStateFromUsdPaymentAmountDealer. intros Hc. direct_calls.
  apply bind_Ok in Hc as (b & Hb & Hc). apply bind_Ok in Hc as (ratio & Ha0 & [= <-]).
  assert (0 <= b.(amount) ∧ b.(currency) = Btc) as [? ?]
    by (case_decide; apply btcFromUsd_law in Hb; auto).
  pose proof (make_nonzero _ _ _ Ha0). unfold from_usd; cbn. split_and!; [done..|lia|done|eauto].
Qed.

(** Every successful conversion is from the BTC amount, from the USD amount, or keeps both. *)
Lemma withConversion_cases c : withConversion r args now = Ok c ->
  let s := r.(r_sender) in
  (∀ a, s.(s_btcPaymentAmount) = Some a -> 0 < a.(amount)) ->
  (∀ u, r.(r_usdPaymentAmount) = Some u -> 0 < u.(amount)) ->
  (∃ a f, s.(s_btcPaymentAmount) = Some a ∧ s.(s_btcProtocolAndBankFee) = Some f ∧ from_btc r a f c) ∨
  (∃ u f, r.(r_usdPaymentAmount) = Some u ∧ s.(s_usdProtocolAndBankFee) = Some f ∧
     (s.(s_btcPaymentAmount) = None ∨ s.(s_btcProtocolAndBankFee) = None) ∧ from_usd r u f c) ∨
  (∃ a f u g, s.(s_btcPaymentAmount) = Some a ∧ s.(s_btcProtocolAndBankFee) = Some f ∧
     r.(r_usdPaymentAmount) = Some u ∧ s.(s_usdProtocolAndBankFee) = Some g ∧
     c = currentStateFromAllAmountsPresent r now a u f g).
Proof.
  unfold withConversion. direct_calls. set (s := r_sender r). cbn zeta.
  destruct (s_btcPaymentAmount s) as [a|], (s_btcProtocolAndBankFee s) as [f|],
    (r_usdPaymentAmount r) as [u|], (s_usdProtocolAndBankFee s) as [g|];
    destruct (noConversionRequired r), (isUsdRecipient r); intros Hc; simplify_eq; intros Ha Hu;
    try (pose proof (Ha _ eq_refl)); try (pose proof (Hu _ eq_refl));
    first
    [ left; do 2 eexists; split_and!; [done..|];
      first [by eapply from_btc_mid | by eapply from_btc_fallback]
    | right; left; do 2 eexists; split_and!; [done|done|by auto|];
      first [by eapply from_usd_mid | by eapply from_usd_dealer]
    | right; right; do 4 eexists; by split_and! ].
Qed.

End Conversion.

Lemma built_inv cfg noAmount c : built cfg noAmount c -> conversion_inv noAmount c.
Proof.
  intros [i s r sender args now Hi Hs Hr Hargs Hc].
  apply start_inv in Hi. pose proof (withSenderWallet_inv _ _ _ _ Hi Hs) as Hinv.
  pose proof (recipient_usd _ _ _ Hinv Hr) as [Hrs Hru]. destruct Hinv as (_ & _ & Hamt).
  unfold recipient_inv in Hru. rewrite Hrs in Hru.
  pose proof (withConversion_cases r args now c Hc) as Hcase. cbn zeta in Hcase.
  rewrite Hrs in Hcase. clear Hc.
  assert (H1 : ∀ a, s_btcPaymentAmount s = Some a -> 0 < a.(amount)).
  { destruct Hamt as [(a & -> & ?)|(u & -> & _)]; [|done]. intros ? [= <-]. tauto. }
  assert (H2 : ∀ u, r_usdPaymentAmount r = Some u -> 0 < u.(amount)).
  { intros u Hu. destruct (Hru u Hu) as [Hu'|(_ & _ & ? & _)]; [|done].
    destruct Hamt as [(a & _ & ? & _)|(u' & _ & ? & ? & _)]; congruence. }
  specialize (Hcase H1 H2) as Hc. clear H1 H2 Hcase. unfold conversion_inv.
  destruct Hamt as [(a & Ea & Eu & Ha & Hac & Hin & Ef & Eg & Hcur)
                     |(u & Ea & Eu & Hu & Huc & Hin & Eg & Ef & -> & Hcur)];
      rewrite Ea, Ef in Hc; rewrite Eg in Hc; rewrite Eu in Hru.
  - destruct Hc as [(? & ? & [= <-] & [= <-] & -> & -> & -> & ? & ? & ratio & Hratio & ->)
        |[(? & ? & _ & _ & [?|?] & _)|(? & ? & u & ? & [= <-] & [= <-] & Hu & Hg & ->)]]; try done.
    + rewrite Hrs. split_and!; try done.
        { intros Hi'. rewrite Hi'. split; [done|]. by rewrite ceil_0. }
        left. split_and!; [done..|]. intros Hi'. rewrite Hi' in *. eauto.
    + destruct (Hru u Hu) as [?|(-> & Hintra & ? & ?)]; [done|]. cbn. rewrite Hrs, Hintra in *.
        simplify_eq. split_and!; try done. left. by split_and!.
  - destruct Hc as [(? & ? & [=] & _)|[(u' & ? & Hu' & [= <-] & _ & -> & -> & -> & ? & ? & ratio & Hratio & ->)
        |(? & ? & ? & ? & [=] & _)]].
      destruct (Hru u' Hu') as [[= <-]|(? & _)]; [|done].
      rewrite Hrs. split_and!; try done.
      { intros Hi'. rewrite Hi'. by split. }
      right. split_and!; [done..|]. intros Hi'. rewrite Hi' in *. eauto.
Qed.

(** The fees of a converted payment are in their currencies. *)
Lemma built_fee_currencies cfg noAmount c : built cfg noAmount c ->
  c.(c_btcProtocolAndBankFee).(currency) = Btc ∧ c.(c_usdProtocolAndBankFee).(currency) = Usd.
Proof.
  intros [i s r sender args now Hi Hs Hr Hargs Hc].
  apply start_inv in Hi. pose proof (withSenderWallet_inv _ _ _ _ Hi Hs) as Hinv.
  pose proof (recipient_usd _ _ _ Hinv Hr) as [Hrs Hru]. destruct Hinv as (_ & _ & Hamt).
  unfold recipient_inv in Hru. rewrite Hrs in Hru.
  pose proof (withConversion_cases r args now c Hc) as Hcase. cbn zeta in Hcase. rewrite Hrs in Hcase.
  assert (H1 : ∀ a, s_btcPaymentAmount s = Some a -> 0 < a.(amount)).
  { destruct Hamt as [(a & -> & ?)|(u & -> & _)]; [|done]. intros ? [= <-]. tauto. }
  assert (H2 : ∀ u, r_usdPaymentAmount r = Some u -> 0 < u.(amount)).
  { intros u Hu. destruct (Hru u Hu) as [Hu'|(_ & _ & ? & _)]; [|done].
    destruct Hamt as [(a & _ & ? & _)|(u' & _ & ? & ? & _)]; congruence. }
  specialize (Hcase H1 H2) as Hcases. clear H1 H2 Hcase.
  destruct Hamt as [(a & Ea & _ & _ & Hac & _ & Ef & Eg & _)|(u & Ea & Eu & _ & Huc & _ & Eg & Ef & _)]; rewrite Ea, Ef, Eg in Hcases.
  - destruct Hcases as [(? & ? & [= <-] & [= <-] & _ & _ & -> & _ & _ & ratio & _ & ->)
      |[(? & ? & _ & _ & [?|?] & _)|(? & ? & u & ? & [= <-] & [= <-] & _ & Hg & ->)]]; try done; cbn.
    + split; [|done]. destruct (intra _); [done|]. by rewrite maxFee_currency.
    + destruct (intra _); [by injection Hg as <-|done].
  - destruct Hcases as [(? & ? & [=] & _)|[(u' & ? & _ & [= <-] & _ & _ & _ & -> & _ & Hbc & ratio & Hratio & ->)|(? & ? & ? & ? & [=] & _)]].
    split.
    + unfold WalletPriceRatio.convertFromUsd. rewrite convertFromOther_currency. unfold WalletPriceRatio.make, PriceRatio.make in Hratio.
      case_match; [done|]. by injection Hratio as <-.
    + destruct (intra _); [done|]. by rewrite maxFee_currency.
Qed.

(** Who a converted payment goes to. *)
Definition paid_wallet (c : WithConversionState) : Prop :=
  ∃ ds cur, valid_descriptors ds ∧
    c.(c_recipientWalletId) = Some (wallet_for ds cur).(w_id) ∧
    c.(c_recipientWalletCurrency) = Some cur ∧
    c.(c_recipient).(r_recipientAccountId) = Some (wallet_for ds cur).(w_accountId).

Lemma conversion_recipient r args now c : withConversion r args now = Ok c ->
  c.(c_recipient) = r ∧
  ((c.(c_recipientWalletId) = r.(r_recipientWalletId) ∧
    c.(c_recipientWalletCurrency) = r.(r_recipientWalletCurrency)) ∨
   (∃ ds, r.(r_recipientWalletDescriptors) = Some ds ∧
      ds.(BTC).(w_id) ≠ r.(r_sender).(s_senderWalletId) ∧
      c.(c_recipientWalletId) = Some ds.(BTC).(w_id) ∧
      c.(c_recipientWalletCurrency) = Some ds.(BTC).(w_currency))).
Proof.
  assert (Hmid : ∀ a f w c, updatedStateFromBtcPaymentAmountMid r args now a f w = Ok c ->
    c.(c_recipient) = r ∧
    c.(c_recipientWalletId) = match w with Some w => Some w.(w_id) | None => r.(r_recipientWalletId) end ∧
    c.(c_recipientWalletCurrency) =
      match w with Some w => Some w.(w_currency) | None => r.(r_recipientWalletCurrency) end).
  { intros a f w c' H. unfold updatedStateFromBtcPaymentAmountMid in H. direct_calls. by result_inv. }
  assert (Hfb : ∀ a f c, updatedStateFromBtcPaymentAmountDealerFallbackMid r args now a f = Ok c ->
    c.(c_recipient) = r ∧ ((c.(c_recipientWalletId) = r.(r_recipientWalletId) ∧
      c.(c_recipientWalletCurrency) = r.(r_recipientWalletCurrency)) ∨
     (∃ ds, r.(r_recipientWalletDescriptors) = Some ds ∧
      ds.(BTC).(w_id) ≠ r.(r_sender).(s_senderWalletId) ∧
      c.(c_recipientWalletId) = Some ds.(BTC).(w_id) ∧
      c.(c_recipientWalletCurrency) = Some ds.(BTC).(w_currency)))).
  { intros a f c'. unfold updatedStateFromBtcPaymentAmountDealerFallbackMid. direct_calls.
    destruct (updatedStateFromBtcPaymentAmountDealer _ _ _ _ _) eqn:E.
    - intros [= <-]. unfold updatedStateFromBtcPaymentAmountDealer in E. direct_calls. result_inv; auto.
    - case_match; [done|]. destruct (r_recipientWalletDescriptors r) as [ds|]; cbn; [|done].
      case_decide; [done|]. intros (? & ? & ?)%Hmid. eauto 10. }
  unfold withConversion, updatedStateFromUsdPaymentAmountMid, updatedStateFromUsdPaymentAmountDealer.
  intros H. direct_calls. repeat case_match; try done; first [by apply Hfb in H | apply Hmid in H; tauto | result_inv; auto].
Qed.

Lemma built_recipient cfg noAmount c : built cfg noAmount c ->
  c.(c_recipientWalletId) ≠ Some c.(c_recipient).(r_sender).(s_senderWalletId) ∧
  if intra c.(c_recipient).(r_sender).(s_invoice) then paid_wallet c
  else c.(c_recipientWalletId) = None.
Proof.
  intros [i s r sender args now _ _ Hr _ Hc].
  apply conversion_recipient in Hc as [Hcr Hc]. unfold paid_wallet. rewrite Hcr. clear Hcr.
  destruct Hr as [ra r Hi [Hds _] H|r Hi H].
  - apply withRecipientWallet_inv in H as (Hs & Hd & Hcur & Hid & Hacc & Hne & _).
    rewrite Hs in *. unfold sender_isIntraLedger in Hi. unfold intra. rewrite Hi.
    destruct Hc as [[-> ->]|(ds & Hds' & Hne' & -> & ->)].
    + split; [done|]. exists (ra_recipientWalletDescriptors ra), (ra_defaultWalletCurrency ra). by split_and!.
    + rewrite Hd in Hds'. simplify_eq. split; [congruence|]. exists (ra_recipientWalletDescriptors ra), Btc.
      destruct Hds as (? & ? & Heq). split_and!; try done; [congruence|].
      rewrite Hacc. by destruct (ra_defaultWalletCurrency ra); cbn; rewrite ?Heq.
  - unfold withoutRecipientWallet in H. case_decide; [done|]. injection H as <-.
    unfold sender_isIntraLedger in Hi. unfold intra. cbn in *. rewrite Hi.
    destruct Hc as [[-> _]|(ds & [=] & _)]. done.
Qed.

(** A finished flow carries its state's amounts, parties and settlement method. *)
Lemma withoutRoute_fields c flow : withoutRoute c = Ok flow ->
  let s := c.(c_recipient).(r_sender) in
  flow.(btcPaymentAmount) = c.(c_btcPaymentAmount) ∧
  flow.(usdPaymentAmount) = c.(c_usdPaymentAmount) ∧
  flow.(btcProtocolAndBankFee) = c.(c_btcProtocolAndBankFee) ∧
  flow.(usdProtocolAndBankFee) = c.(c_usdProtocolAndBankFee) ∧
  flow.(settlementMethod) = s.(s_invoice).(i_settlementMethod) ∧
  flow.(senderWalletCurrency) = s.(s_senderWalletCurrency) ∧
  flow.(senderWalletId) = s.(s_senderWalletId) ∧
  flow.(recipientWalletId) = c.(c_recipientWalletId) ∧
  flow.(recipientWalletCurrency) = c.(c_recipientWalletCurrency) ∧
  flow.(recipientAccountId) = c.(c_recipient).(r_recipientAccountId) ∧
  flow.(inputAmount) = s.(s_inputAmount).
Proof. unfold withoutRoute, paymentFromState. intros H. apply bind_Ok in H as (? & _ & [= <-]). done. Qed.

Lemma withRoute_fields c pubkey route flow : withRoute c pubkey route = Ok flow ->
  let s := c.(c_recipient).(r_sender) in
  flow.(btcPaymentAmount) = c.(c_btcPaymentAmount) ∧
  flow.(usdPaymentAmount) = c.(c_usdPaymentAmount) ∧
  LnFees.feeFromRawRoute route = Ok flow.(btcProtocolAndBankFee) ∧
  (∃ r, WalletPriceRatio.make c.(c_usdPaymentAmount) c.(c_btcPaymentAmount) = Ok r ∧
    flow.(usdProtocolAndBankFee) = WalletPriceRatio.convertFromBtcToCeil r flow.(btcProtocolAndBankFee)) ∧
  flow.(senderWalletId) = s.(s_senderWalletId) ∧
  flow.(recipientWalletId) = c.(c_recipientWalletId).
Proof.
  unfold withRoute, paymentFromState. intros H. apply bind_Ok in H as (r & Hr & H).
  apply bind_Ok in H as (f & Hf & H). apply bind_Ok in H as (? & _ & [= <-]). cbn.
  split_and!; eauto.
Qed.

(** A flow the builder finishes, with a probed route or without one. *)
Definition finished (c : WithConversionState) (flow : PaymentFlowState) : Prop :=
  withoutRoute c = Ok flow ∨ ∃ pubkey route, withRoute c pubkey route = Ok flow.

(** The route only replaces the fees. *)
Lemma finished_fields c flow : finished c flow ->
  let s := c.(c_recipient).(r_sender) in
  flow.(btcPaymentAmount) = c.(c_btcPaymentAmount) ∧
  flow.(usdPaymentAmount) = c.(c_usdPaymentAmount) ∧
  flow.(settlementMethod) = s.(s_invoice).(i_settlementMethod) ∧
  flow.(senderWalletCurrency) = s.(s_senderWalletCurrency) ∧
  flow.(senderWalletId) = s.(s_senderWalletId) ∧
  flow.(recipientWalletId) = c.(c_recipientWalletId) ∧
  flow.(recipientWalletCurrency) = c.(c_recipientWalletCurrency) ∧
  flow.(recipientAccountId) = c.(c_recipient).(r_recipientAccountId) ∧
  flow.(inputAmount) = s.(s_inputAmount).
Proof.
  unfold withRoute. intros [H|(pubkey & route & H)].
  - apply withoutRoute_fields in H. naive_solver.
  - apply bind_Ok in H as (r & _ & H). apply bind_Ok in H as (f & _ & H).
    unfold paymentFromState in H. apply bind_Ok in H as (? & _ & [= <-]). done.
Qed.

End Built.

(** ** Concrete builder runs *)
Module LightningExamples.
Import LPFB Built.

Definition ratio : WalletPriceRatio.t :=
  {| PriceRatio.other := 3000; PriceRatio.walletAmount := BtcPaymentAmount 100000 |}.
Definition conversion : WithConversionArgs (result ApplicationError) :=
  {| hedgeBuyUsd := ratio_conversion ratio; hedgeSellUsd := ratio_conversion ratio;
     mid := ratio_conversion ratio |}.
Definition cfg : config :=
  {| localNodeIds := ["local"]; skipProbe_pubkey := []; skipProbe_chanId := [] |}.
Definition invoice (node : Pubkey) : LnInvoice := {|
  destination := node; inv_paymentHash := "hash"; paymentRequest := "lnbc"; paymentSecret := "s";
  milliSatsAmount := Number 50000000; inv_amount := Some (Number 50000);
  paymentAmount := Some (BtcPaymentAmount 50000); description := "coffee"; cltvDelta := None;
  routeHints := []; features := []; expiresAt := 0; isExpired := false |}.
Definition alice : WalletDescriptor := {| w_id := "alice-usd"; w_currency := Usd; w_accountId := "alice" |}.
Definition bob : AccountWalletDescriptors :=
  {| BTC := {| w_id := "bob-btc"; w_currency := Btc; w_accountId := "bob" |};
     USD := {| w_id := "bob-usd"; w_currency := Usd; w_accountId := "bob" |} |}.

Lemma conversion_laws : ArgsLaws conversion.
Proof.
  assert (ConversionLaws (ratio_conversion ratio)).
  { apply ratio_conversion_laws. by repeat split. }
  by constructor.
Qed.

Lemma to_external_node : ∃ c flow, built cfg false c ∧ withoutRoute c = Ok flow ∧
  flow.(settlementMethod) = SettleLightning.
Proof.
  eexists _, _. split; [eapply (built_intro _ _ _ _ _ _ alice conversion 0); [| | |apply conversion_laws|]|].
  - by eapply (start_invoice _ (invoice "remote")).
  - reflexivity.
  - by eapply recipient_external.
  - reflexivity.
  - by split.
Qed.

Lemma to_external_route : ∃ c route flow, built cfg false c ∧ withRoute c "peer" route = Ok flow ∧
  0 <= flow.(btcProtocolAndBankFee).(amount).
Proof.
  eexists _, {| route_total_mtokens := Some "50000000"; route_safe_fee := Number 17 |}, _.
  split; [eapply (built_intro _ _ _ _ _ _ alice conversion 0); [| | |apply conversion_laws|]|].
  - by eapply (start_invoice _ (invoice "remote")).
  - reflexivity.
  - by eapply recipient_external.
  - reflexivity.
  - by split.
Qed.

Lemma to_bob : ∃ c flow, built cfg false c ∧ withoutRoute c = Ok flow ∧
  flow.(settlementMethod) = SettleIntraLedger.
Proof.
  eexists _, _. split; [eapply (built_intro _ _ _ _ _ _ alice conversion 0); [| | |apply conversion_laws|]|].
  - by eapply (start_invoice _ (invoice "local")).
  - reflexivity.
  - eapply (recipient_internal _ {| ra_defaultWalletCurrency := Btc; ra_recipientWalletDescriptors := bob;
      ra_userId := "u"; ra_pubkey := None; ra_usdPaymentAmount := None; ra_username := None |});
      [reflexivity| |reflexivity]. by split_and!.
  - reflexivity.
  - by split.
Qed.

End LightningExamples.

(** ** Properties *)
Section Properties.
Import LPFB Built.
Context (cfg : config) (noAmount : bool) (c : WithConversionState).
Context (Hbuilt : built cfg noAmount c).

(** Every intraledger flow the builder finishes without a route, as intraledger flows are,
    is free in both currencies. *)
Theorem intraledger_flow_free flow (Hflow : withoutRoute c = Ok flow)
    (Hs : flow.(settlementMethod) = SettleIntraLedger) :
  flow.(btcProtocolAndBankFee).(amount) = 0 ∧ flow.(usdProtocolAndBankFee).(amount) = 0.
Proof.
  apply withoutRoute_fields in Hflow as (_ & _ & -> & -> & Hm & _).
  apply built_inv in Hbuilt as (_ & _ & Hfree & _). apply Hfree.
  unfold intra. rewrite <- Hm. by apply bool_decide_true.
Qed.

(** A flow built without a probed route always passes the fee check made before it is
    sent: the fee the builder reserves never exceeds the cap [verifyMaxFee] allows, for
    both sender currencies, invoices with and without an amount, and after the
    conversions and roundings in between. *)
Theorem routeless_flow_fee_verified flow r (Hflow : withoutRoute c = Ok flow)
    (Hr : WalletPriceRatio.make flow.(usdPaymentAmount) flow.(btcPaymentAmount) = Ok r) :
  LnFees.verifyMaxFee flow.(btcProtocolAndBankFee) flow.(btcPaymentAmount) flow.(usdPaymentAmount)
    r flow.(senderWalletCurrency) noAmount = Ok true.
Proof.
  apply withoutRoute_fields in Hflow as (Hb & Hu & Hf & _ & _ & Hc & _).
  rewrite Hb, Hu in Hr. rewrite Hb, Hu, Hf, Hc.
  apply built_inv in Hbuilt as ([Hbp Hbc] & [Hup Huc] & Hfree & Hfee).
  pose proof (make_wallet_ratio c.(c_usdPaymentAmount) c.(c_btcPaymentAmount) r
    ltac:(lia) ltac:(lia) Hbc Hr) as [[Hpos _] _].
  pose proof (maxFee_nonneg c.(c_btcPaymentAmount) ltac:(lia)).
  pose proof (convertFromOther_nonneg r Hpos 1 ltac:(lia)).
  rewrite verifyMaxFee_Ok. destruct (intra _).
  { destruct Hfree as [-> _]; [done|]. case_match; [left; done|done]. }
  destruct Hfee as [(_ & Hcur & Hfee)|(_ & -> & -> & Hfee)]; destruct (Hfee eq_refl) as [Hf1 (r' & Hr' & Hf2)].
  - rewrite Hf1. case_match; [|done]. destruct noAmount; [by specialize (Hcur eq_refl)|]. right; right. split; [done|lia].
  - rewrite Hr in Hr'. injection Hr' as <-. rewrite Hf2, Hf1. right; left. lia.
Qed.

(** C20. No flow, with a probed route or without, pays the wallet it is sent from, including
    after the fallback that redirects a payment below one cent to the recipient's BTC wallet. *)
Theorem no_self_payment flow (Hflow : finished c flow) :
  flow.(recipientWalletId) ≠ Some flow.(senderWalletId).
Proof.
  apply finished_fields in Hflow as (_ & _ & _ & _ & -> & -> & _).
  by apply built_recipient in Hbuilt as [? _].
Qed.

(** C24. The amounts of a flow have the types that the code casts them to: on every way through the builder, with a
    probed route or without, the amount and the fee in satoshis are labelled BTC, those in cents USD, and
    the amounts are positive. *)
Theorem flow_well_typed flow (Hflow : finished c flow) :
  (0 < flow.(btcPaymentAmount).(amount) ∧ flow.(btcPaymentAmount).(currency) = Btc) ∧
  (0 < flow.(usdPaymentAmount).(amount) ∧ flow.(usdPaymentAmount).(currency) = Usd) ∧
  flow.(btcProtocolAndBankFee).(currency) = Btc ∧ flow.(usdProtocolAndBankFee).(currency) = Usd.
Proof.
  pose proof (finished_fields _ _ Hflow) as (-> & -> & _). pose proof (built_inv _ _ _ Hbuilt) as (Hb & Hu & _ & _).
  split; [done|]. split; [done|]. destruct Hflow as [H|(pubkey & route & H)].
  - apply withoutRoute_fields in H as (_ & _ & -> & -> & _). by eapply built_fee_currencies.
  - apply withRoute_fields in H as (_ & _ & Hf & (r & _ & ->) & _). split; [|done].
    by apply bind_Ok in Hf as (z & _ & [= <-]).
Qed.

(** An intraledger flow pays exactly one wallet of the recipient's account, and records
    that wallet's own id, currency and account, whichever of the two wallets the
    builder settled on; a Lightning flow has no recipient wallet. *)
Theorem flow_recipient_consistent flow (Hflow : finished c flow) :
  (flow.(settlementMethod) = SettleIntraLedger -> ∃ ds cur, valid_descriptors ds ∧
     flow.(recipientWalletId) = Some (wallet_for ds cur).(w_id) ∧
     flow.(recipientWalletCurrency) = Some cur ∧ (wallet_for ds cur).(w_currency) = cur ∧
     flow.(recipientAccountId) = Some (wallet_for ds cur).(w_accountId)) ∧
  (flow.(settlementMethod) = SettleLightning -> flow.(recipientWalletId) = None).
Proof.
  apply finished_fields in Hflow as (_ & _ & -> & _ & _ & -> & -> & -> & _).
  apply built_recipient in Hbuilt as [_ Hp]. unfold intra in Hp. split; intros Hs; rewrite Hs in Hp.
  - rewrite bool_decide_true in Hp by done. destruct Hp as (ds & cur & Hv & ? & ? & ?).
    exists ds, cur. split_and!; try done. destruct Hv as (? & ? & _). by destruct cur.
  - by rewrite bool_decide_false in Hp.
Qed.

(** The amount a flow moves is the amount that was asked for: the invoice's sats, or the
    payer's input in the payer's wallet currency; the other currency's amount is positive. *)
Theorem flow_amount_is_input flow (Hflow : finished c flow) :
  0 < flow.(btcPaymentAmount).(amount) ∧ 0 < flow.(usdPaymentAmount).(amount) ∧
  if noAmount then flow.(inputAmount) = sender_amount flow
  else flow.(inputAmount) = flow.(btcPaymentAmount).(amount).
Proof.
  apply finished_fields in Hflow as (Hb & Hu & _ & Hc & _ & _ & _ & _ & Hi).
  unfold sender_amount. rewrite Hb, Hu, Hc, Hi.
  apply built_inv in Hbuilt as ([? _] & [? _] & _ & Hin). split_and!; [done..|].
  destruct Hin as [(-> & Hcur & _)|(-> & -> & -> & _)]; [|done].
  destruct noAmount; [by rewrite Hcur|done].
Qed.

(** With a probed route, the fee in cents covers the route's fee in sats at the flow's own
    price, and by less than one cent too much. *)
Theorem routed_flow_usd_fee pubkey route flow (Hflow : withRoute c pubkey route = Ok flow)
    (Hfee : 0 <= flow.(btcProtocolAndBankFee).(amount)) :
  let btcAmt := flow.(btcPaymentAmount).(amount) in
  let usdAmt := flow.(usdPaymentAmount).(amount) in
  btcAmt * (flow.(usdProtocolAndBankFee).(amount) - 1) < flow.(btcProtocolAndBankFee).(amount) * usdAmt
  <= btcAmt * flow.(usdProtocolAndBankFee).(amount).
Proof.
  apply withRoute_fields in Hflow as (Hb & Hu & _ & (r & Hr & Hf) & _). cbn zeta. rewrite Hf, Hb, Hu.
  apply built_inv in Hbuilt as ([? Hbc] & [? _] & _ & _).
  pose proof (make_wallet_ratio c.(c_usdPaymentAmount) c.(c_btcPaymentAmount) r
    ltac:(lia) ltac:(lia) Hbc Hr) as ([Hpos _] & Hu' & Hb').
  rewrite <- Hu', <- Hb'. by apply convertFromWalletToCeil_bounds.
Qed.

End Properties.

Section Witnesses.
Import LPFB Built LightningExamples.

Lemma intraledger_flow_free_witness : ∃ c flow, built cfg false c ∧ withoutRoute c = Ok flow ∧
  flow.(btcProtocolAndBankFee).(amount) = 0 ∧ flow.(usdProtocolAndBankFee).(amount) = 0.
Proof.
  destruct to_bob as (c & flow & Hb & Hf & Hs). exists c, flow. split; [exact Hb|]. split; [exact Hf|].
  exact (intraledger_flow_free cfg false c Hb flow Hf Hs).
Defined.

Lemma routeless_flow_fee_verified_witness : ∃ c flow r, built cfg false c ∧ withoutRoute c = Ok flow ∧
  LnFees.verifyMaxFee flow.(btcProtocolAndBankFee) flow.(btcPaymentAmount) flow.(usdPaymentAmount)
    r flow.(senderWalletCurrency) false = Ok true.
Proof.
  destruct to_external_node as (c & flow & Hb & Hf & _). exists c, flow.
  assert (Hi := built_inv _ _ _ Hb). destruct Hi as ([Hbp _] & [Hup _] & _).
  assert (Hfields := withoutRoute_fields _ _ Hf). destruct Hfields as (Eb & Eu & _).
  destruct (WalletPriceRatio.make flow.(usdPaymentAmount) flow.(btcPaymentAmount)) as [r|e] eqn:E.
  - exists r. split; [exact Hb|]. split; [exact Hf|].
    exact (routeless_flow_fee_verified cfg false c Hb flow r Hf E).
  - exfalso. rewrite Eb, Eu in E. unfold WalletPriceRatio.make, PriceRatio.make in E.
    rewrite !(proj2 (Z.eqb_neq _ _)) in E by lia. discriminate E.
Defined.

Lemma no_self_payment_witness : ∃ c flow, built cfg false c ∧ withoutRoute c = Ok flow ∧
  flow.(recipientWalletId) ≠ Some flow.(senderWalletId).
Proof.
  destruct to_bob as (c & flow & Hb & Hf & _). exists c, flow. split; [exact Hb|]. split; [exact Hf|].
  exact (no_self_payment cfg false c Hb flow (or_introl Hf)).
Defined.

Lemma flow_well_typed_witness : ∃ c flow, built cfg false c ∧ withoutRoute c = Ok flow ∧
  flow.(usdProtocolAndBankFee).(currency) = Usd.
Proof.
  destruct to_external_node as (c & flow & Hb & Hf & _). exists c, flow. split; [exact Hb|]. split; [exact Hf|].
  exact (proj2 (proj2 (proj2 (flow_well_typed cfg false c Hb flow (or_introl Hf))))).
Defined.

Lemma flow_recipient_consistent_witness : ∃ c flow, built cfg false c ∧ withoutRoute c = Ok flow ∧
  ∃ ds cur, valid_descriptors ds ∧ flow.(recipientWalletId) = Some (wallet_for ds cur).(w_id).
Proof.
  destruct to_bob as (c & flow & Hb & Hf & Hs). exists c, flow. split; [exact Hb|]. split; [exact Hf|].
  destruct (proj1 (flow_recipient_consistent cfg false c Hb flow (or_introl Hf)) Hs) as (ds & cur & ? & ? & _).
  exists ds, cur. split; assumption.
Defined.

Lemma flow_amount_is_input_witness : ∃ c flow, built cfg false c ∧ withoutRoute c = Ok flow ∧
  flow.(inputAmount) = flow.(btcPaymentAmount).(amount).
Proof.
  destruct to_external_node as (c & flow & Hb & Hf & Hs). exists c, flow. split; [exact Hb|]. split; [exact Hf|].
  exact (proj2 (proj2 (flow_amount_is_input cfg false c Hb flow (or_introl Hf)))).
Defined.

Lemma routed_flow_usd_fee_witness : ∃ c route flow, built cfg false c ∧
  withRoute c "peer" route = Ok flow ∧
  flow.(btcProtocolAndBankFee).(amount) * flow.(usdPaymentAmount).(amount)
  <= flow.(btcPaymentAmount).(amount) * flow.(usdProtocolAndBankFee).(amount).
Proof.
  destruct to_external_route as (c & route & flow & Hb & Hf & Hfee). exists c, route, flow.
  split; [exact Hb|]. split; [exact Hf|].
  exact (proj2 (routed_flow_usd_fee cfg false c Hb "peer" route flow Hf Hfee)).
Defined.

End Witnesses.
