(* ===== verification/OnChainBuilder.v ===== *)
(** * The on-chain payment flow builder

    Models [domain/payments/onchain-payment-flow-builder.ts] and the fee configuration it reads
    ([config/yaml.ts], [getFeesConfig]).  As for the Lightning builder, stages are records,
    [OPFBWithError] is [Err], promises are their values; the volume functions, the address
    lookup [isExternalAddress] and the price conversions are arguments. *)

From S2P Require Import Prelude JsNumber Shared Prices Fees PaymentFlow LightningBuilder.

(** ** Fee configuration *)

(** The [fees] section of the configuration file. *)
Record YamlFees := mkYamlFees {
  yaml_withdraw_method : WithdrawalFeePriceMethod;
  yaml_withdraw_ratioAsBasisPoints : number;
  yaml_withdraw_threshold : number;
  yaml_withdraw_daysLookback : Z;
  yaml_withdraw_defaultMin : number;
  yaml_deposit_defaultMin : number;
  yaml_deposit_threshold : number;
  yaml_deposit_ratioAsBasisPoints : number;
}.

Record FeesConfig := mkFeesConfig {
  depositDefaultMin : Amount;
  depositThreshold : Amount;
  depositRatioAsBasisPoints : Z;
  withdrawMethod : WithdrawalFeePriceMethod;
  withdrawRatioAsBasisPoints : Z;
  withdrawThreshold : number;
  withdrawDaysLookback : Z;
  withdrawDefaultMin : number;
}.

(** [BigInt(x)] where the RangeError is not caught. *)
Definition BigInt_or_throw (x : number) : Result Z :=
  match BigInt x with Some z => Ok z | None => Err (JsThrow "RangeError") end.

Definition getFeesConfig (feesConfig : YamlFees) : Result FeesConfig :=
  let method := feesConfig.(yaml_withdraw_method) in
  depositRatio ← BigInt_or_throw feesConfig.(yaml_deposit_ratioAsBasisPoints);
  withdrawRatio ← (if decide (method = flat) then Ok 0
                   else BigInt_or_throw feesConfig.(yaml_withdraw_ratioAsBasisPoints));
  depositMin ← BigInt_or_throw feesConfig.(yaml_deposit_defaultMin);
  threshold ← BigInt_or_throw feesConfig.(yaml_deposit_threshold);
  Ok {|
    depositDefaultMin := {| amount := depositMin; currency := Btc |};
    depositThreshold := {| amount := threshold; currency := Btc |};
    depositRatioAsBasisPoints := depositRatio;
    withdrawMethod := method;
    withdrawRatioAsBasisPoints := withdrawRatio;
    withdrawThreshold := feesConfig.(yaml_withdraw_threshold);
    withdrawDaysLookback := feesConfig.(yaml_withdraw_daysLookback);
    withdrawDefaultMin := feesConfig.(yaml_withdraw_defaultMin);
  |}.

(** The builder's [onChainFees] constant. *)
Definition onChainFees_config (feeConfig : FeesConfig) : Result OnChainFees.config :=
  threshold ← BigInt_or_throw feeConfig.(withdrawThreshold);
  Ok {| OnChainFees.feeRatioAsBasisPoints := feeConfig.(withdrawRatioAsBasisPoints);
        OnChainFees.thresholdImbalance := {| amount := threshold; currency := Btc |} |}.

Module OPFB.
Section Builder.
Context {G : Type -> Type}.

(** The volume functions are calls of the kind [G]. *)
Record config := mkConfig {
  netInVolumeAmountLightningFn : ImbalanceCalculator.VolumeFn G;
  netInVolumeAmountOnChainFn : ImbalanceCalculator.VolumeFn G;
  isExternalAddress : OnChainAddress -> bool;
  sendAll : bool;
  dustThreshold : number;
}.

(** ** Stage states *)

Record WithAddressState := mkWithAddress {
  a_config : config;
  a_paymentInitiationMethod : PaymentInitiationMethod;
  a_address : OnChainAddress;
}.

Record WithSenderWalletAndAccountState := mkWithSender {
  s_address : WithAddressState;
  s_senderWalletId : WalletId;
  s_senderWalletCurrency : WalletCurrency;
  s_senderAccountId : AccountId;
  s_senderWithdrawFee : option number;
}.

Record WithRecipientWalletState := mkWithRecipient {
  r_sender : WithSenderWalletAndAccountState;
  r_settlementMethod : SettlementMethod;
  r_recipientWalletId : option WalletId;
  r_recipientWalletCurrency : option WalletCurrency;
  r_recipientUsername : option Username;
  r_recipientUserId : option UserId;
  r_recipientAccountId : option AccountId;
  r_recipientWalletDescriptors : option AccountWalletDescriptors;
}.

Record WithAmountState := mkWithAmount {
  m_recipient : WithRecipientWalletState;
  m_inputAmount : Z;
  m_btcProposedAmount : option Amount;
  m_usdProposedAmount : option Amount;
}.

Record WithConversionState := mkWithConversion {
  c_amount : WithAmountState;
  c_recipientWalletId : option WalletId;
  c_recipientWalletCurrency : option WalletCurrency;
  c_btcProposedAmount : Amount;
  c_usdProposedAmount : Amount;
  c_createdAt : Date;
}.

(** ** The stages up to the amount *)

Definition withAddress (cfg : config) (address : OnChainAddress) : WithAddressState :=
  {| a_config := cfg; a_paymentInitiationMethod := InitOnChain; a_address := address |}.

(** [account.withdrawFee] is the only field of the account that is read. *)
Definition withSenderWalletAndAccount (state : WithAddressState) (wallet : WalletDescriptor)
    (withdrawFee : option number) : WithSenderWalletAndAccountState := {|
  s_address := state;
  s_senderWalletId := wallet.(w_id);
  s_senderWalletCurrency := wallet.(w_currency);
  s_senderAccountId := wallet.(w_accountId);
  s_senderWithdrawFee := withdrawFee;
|}.

Definition withoutRecipientWallet (state : WithSenderWalletAndAccountState)
    : Result WithRecipientWalletState := Ok {|
  r_sender := state;
  r_settlementMethod := SettleOnChain;
  r_recipientWalletId := None;
  r_recipientWalletCurrency := None;
  r_recipientUsername := None;
  r_recipientUserId := None;
  r_recipientAccountId := None;
  r_recipientWalletDescriptors := None;
|}.

Record WithRecipientArgs := mkRecipientArgs {
  ra_defaultWalletCurrency : WalletCurrency;
  ra_recipientWalletDescriptors : AccountWalletDescriptors;
  ra_userId : UserId;
  ra_username : option Username;
}.

Definition withRecipientWallet (state : WithSenderWalletAndAccountState) (args : WithRecipientArgs)
    : Result WithRecipientWalletState :=
  let recipientWalletCurrency := args.(ra_defaultWalletCurrency) in
  let recipientWallet := wallet_for args.(ra_recipientWalletDescriptors) recipientWalletCurrency in
  if decide (recipientWallet.(w_id) = state.(s_senderWalletId)) then Err SelfPaymentError
  else Ok {|
    r_sender := state;
    r_settlementMethod := SettleIntraLedger;
    r_recipientWalletId := Some recipientWallet.(w_id);
    r_recipientWalletCurrency := Some recipientWalletCurrency;
    r_recipientAccountId := Some recipientWallet.(w_accountId);
    r_recipientUserId := Some args.(ra_userId);
    r_recipientUsername := args.(ra_username);
    r_recipientWalletDescriptors := Some args.(ra_recipientWalletDescriptors);
  |}.

Definition sender_isIntraLedger (state : WithSenderWalletAndAccountState) : bool :=
  negb (state.(s_address).(a_config).(isExternalAddress) state.(s_address).(a_address)).

Definition withAmount (state : WithRecipientWalletState) (paymentAmount : Amount) : WithAmountState :=
  match paymentAmount.(currency) with
  | Btc => {| m_recipient := state; m_inputAmount := paymentAmount.(amount);
              m_btcProposedAmount := Some paymentAmount; m_usdProposedAmount := None |}
  | Usd => {| m_recipient := state; m_inputAmount := paymentAmount.(amount);
              m_btcProposedAmount := None; m_usdProposedAmount := Some paymentAmount |}
  end.

(** ** Conversion *)
Section WithConversion.
Context {F : Type -> Type} `{Calls F}.
Context (state : WithAmountState) (args : WithConversionArgs F) (now : Date).

Definition senderCurrency : WalletCurrency := state.(m_recipient).(r_sender).(s_senderWalletCurrency).

Definition currentStateFromAllAmountsPresent (btcAmt usdAmt : Amount) : WithConversionState := {|
  c_amount := state;
  c_recipientWalletId := state.(m_recipient).(r_recipientWalletId);
  c_recipientWalletCurrency := state.(m_recipient).(r_recipientWalletCurrency);
  c_btcProposedAmount := btcAmt;
  c_usdProposedAmount := usdAmt;
  c_createdAt := now;
|}.

Definition updatedStateFromBtcProposedAmountMid (btcAmt : Amount)
    (recipientWalletDescriptor : option WalletDescriptor) : F WithConversionState :=
  convertedAmountRaw ← args.(mid).(usdFromBtc) btcAmt;
  let convertedAmount :=
    if (0 <? btcAmt.(amount)) && (convertedAmountRaw.(amount) =? 0)
    then ONE_CENT else convertedAmountRaw in
  _ ← returns (WalletPriceRatio.make convertedAmount btcAmt);
  returns (Ok {|
    c_amount := state;
    c_recipientWalletId :=
      match recipientWalletDescriptor with
      | Some w => Some w.(w_id) | None => state.(m_recipient).(r_recipientWalletId) end;
    c_recipientWalletCurrency :=
      match recipientWalletDescriptor with
      | Some w => Some w.(w_currency) | None => state.(m_recipient).(r_recipientWalletCurrency) end;
    c_btcProposedAmount := btcAmt;
    c_usdProposedAmount := convertedAmount;
    c_createdAt := now;
  |}).

Definition updatedStateFromUsdProposedAmountMid (usdAmt : Amount) : F WithConversionState :=
  convertedAmount ← args.(mid).(btcFromUsd) usdAmt;
  _ ← returns (WalletPriceRatio.make usdAmt convertedAmount);
  returns (Ok (currentStateFromAllAmountsPresent convertedAmount usdAmt)).

Definition updatedStateFromBtcProposedAmountDealer (btcAmt : Amount) : F WithConversionState :=
  let usdFromBtc :=
    if decide (senderCurrency = Btc) then args.(hedgeBuyUsd).(usdFromBtc)
    else args.(hedgeSellUsd).(usdFromBtc) in
  convertedAmount ← usdFromBtc btcAmt;
  _ ← returns (WalletPriceRatio.make convertedAmount btcAmt);
  returns (Ok (currentStateFromAllAmountsPresent btcAmt convertedAmount)).

Definition updatedStateFromUsdProposedAmountDealer (usdAmt : Amount) : F WithConversionState :=
  let btcFromUsd :=
    if decide (senderCurrency = Btc) then args.(hedgeBuyUsd).(btcFromUsd)
    else args.(hedgeSellUsd).(btcFromUsd) in
  convertedAmount ← btcFromUsd usdAmt;
  _ ← returns (WalletPriceRatio.make usdAmt convertedAmount);
  returns (Ok (currentStateFromAllAmountsPresent convertedAmount usdAmt)).

Definition noConversionRequired : bool :=
  bool_decide (senderCurrency = Btc ∧ state.(m_recipient).(r_settlementMethod) = SettleOnChain) ||
  bool_decide (Some senderCurrency = state.(m_recipient).(r_recipientWalletCurrency)).

Definition updatedStateFromBtcProposedAmountDealerFallbackMid (btcAmt : Amount)
    : F WithConversionState :=
  handle (updatedStateFromBtcProposedAmountDealer btcAmt) (fun updatedState =>
  match updatedState with
  | Ok updatedState => returns (Ok updatedState)
  | Err e =>
      if negb (is_InvalidZeroAmountPriceRatioInputError e) then returns (Err e)
      else
        match BTC <$> state.(m_recipient).(r_recipientWalletDescriptors) with
        | None => returns (Err (InvalidLightningPaymentFlowBuilderStateError
                         "expected recipient BTC wallet missing"))
        | Some recipientBtcWalletDescriptor =>
            if decide (recipientBtcWalletDescriptor.(w_id)
                       = state.(m_recipient).(r_sender).(s_senderWalletId))
            then returns (Err SubOneCentSatAmountForUsdSelfSendError)
            else updatedStateFromBtcProposedAmountMid btcAmt (Some recipientBtcWalletDescriptor)
        end
  end).

Definition withConversion : F WithConversionState :=
  if noConversionRequired then
    match state.(m_btcProposedAmount), state.(m_usdProposedAmount) with
    | Some btcAmt, Some usdAmt => returns (Ok (currentStateFromAllAmountsPresent btcAmt usdAmt))
    | Some btcAmt, None => updatedStateFromBtcProposedAmountMid btcAmt None
    | None, Some usdAmt => updatedStateFromUsdProposedAmountMid usdAmt
    | None, None =>
        returns (Err (InvalidOnChainPaymentFlowBuilderStateError
               "withConversion - btcProposedAmount || btcProtocolAndBankFee not set"))
    end
  else
    match state.(m_btcProposedAmount), state.(m_usdProposedAmount) with
    | Some btcAmt, _ => updatedStateFromBtcProposedAmountDealerFallbackMid btcAmt
    | None, Some usdAmt => updatedStateFromUsdProposedAmountDealer usdAmt
    | None, None =>
        returns (Err (InvalidOnChainPaymentFlowBuilderStateError
               "withConversion - impossible withConversion state"))
    end.

End WithConversion.

(** ** [OPFBWithConversion] *)

Section Views.
Context (state : WithConversionState).
Definition c_recipient : WithRecipientWalletState := state.(c_amount).(m_recipient).
Definition c_sender : WithSenderWalletAndAccountState := c_recipient.(r_sender).
Definition c_config : config := c_sender.(s_address).(a_config).
End Views.

Definition validateBtcPaymentAmountForDust (state : WithConversionState) (btcPaymentAmount : Amount)
    : Result Amount :=
  if negb (bool_decide ((c_recipient state).(r_settlementMethod) = SettleIntraLedger)) &&
     num_gtb_bigint (c_config state).(dustThreshold) btcPaymentAmount.(amount)
  then Err (LessThanDustThresholdError (c_config state).(dustThreshold))
  else Ok btcPaymentAmount.

Definition stateFromPromise (state : WithConversionState) : Result WithConversionState :=
  let isIntraLedger :=
    negb ((c_config state).(isExternalAddress) (c_sender state).(s_address).(a_address)) in
  let settlementMethodFromAddress := if isIntraLedger then SettleIntraLedger else SettleOnChain in
  let settlementMethod := (c_recipient state).(r_settlementMethod) in
  if negb (bool_decide (settlementMethod = settlementMethodFromAddress)) ||
     (bool_decide (settlementMethod = SettleIntraLedger) && negb (truthy state.(c_recipientWalletId)))
  then Err (InvalidOnChainPaymentFlowBuilderStateError
              "withoutRecipientWallet called but settlementMethod is IntraLedger")
  else
    _ ← validateBtcPaymentAmountForDust state state.(c_btcProposedAmount);
    Ok state.

(** [OnChainPaymentFlow({ ...state, ... })] *)
Definition flow_of_state (state : WithConversionState) (btcAmt usdAmt btcFee usdFee btcBank usdBank : Amount)
    (btcMinerFee : option Amount) : OnChainPaymentFlowState := {|
  opf_common := {|
    senderWalletId := (c_sender state).(s_senderWalletId);
    senderWalletCurrency := (c_sender state).(s_senderWalletCurrency);
    senderAccountId := (c_sender state).(s_senderAccountId);
    settlementMethod := (c_recipient state).(r_settlementMethod);
    paymentInitiationMethod := (c_sender state).(s_address).(a_paymentInitiationMethod);
    createdAt := state.(c_createdAt);
    paymentSentAndPending := false;
    inputAmount := state.(c_amount).(m_inputAmount);
    btcPaymentAmount := btcAmt;
    usdPaymentAmount := usdAmt;
    btcProtocolAndBankFee := btcFee;
    usdProtocolAndBankFee := usdFee;
    recipientWalletId := state.(c_recipientWalletId);
    recipientWalletCurrency := state.(c_recipientWalletCurrency);
    recipientAccountId := (c_recipient state).(r_recipientAccountId);
    recipientPubkey := None;
    recipientUsername := (c_recipient state).(r_recipientUsername);
    recipientUserId := (c_recipient state).(r_recipientUserId);
    outgoingNodePubkey := None;
    cachedRoute := None;
  |};
  address := Some (c_sender state).(s_address).(a_address);
  flow_btcBankFee := btcBank;
  flow_usdBankFee := usdBank;
  flow_btcMinerFee := btcMinerFee;
|}.

Definition withoutMinerFee (state : WithConversionState) : Result OnChainPaymentFlowState :=
  state ← stateFromPromise state;
  Ok (flow_of_state state state.(c_btcProposedAmount) state.(c_usdProposedAmount)
        OnChainFees.intraLedgerFees.(btc) OnChainFees.intraLedgerFees.(usd)
        ZERO_BANK_FEE.(btcBankFee) ZERO_BANK_FEE.(usdBankFee) None).

(** The amounts and fees of [withMinerFee], from the imbalance of the wallet. *)
Definition flow_with_fees (onChainFees : OnChainFees.config) (state : WithConversionState) (minerFee : Amount)
    (priceRatio : WalletPriceRatio.t) (minBankFee imbalanceForWallet : Amount) : Result OnChainPaymentFlowState :=
  let imbalance :=
    if decide (imbalanceForWallet.(currency) = Btc) then imbalanceForWallet
    else WalletPriceRatio.convertFromUsd priceRatio imbalanceForWallet in
  let feeAmounts :=
    OnChainFees.withdrawalFee onChainFees minerFee state.(c_btcProposedAmount) minBankFee imbalance in
  let btcFee := feeAmounts.(OnChainFees.totalFee) in
  let usdFee := WalletPriceRatio.convertFromBtcToCeil priceRatio feeAmounts.(OnChainFees.totalFee) in
  let '(btcAmt, usdAmt) :=
    if (c_config state).(sendAll) then
      match (c_sender state).(s_senderWalletCurrency) with
      | Btc =>
          let btcAmt := AmountCalculator.sub state.(c_btcProposedAmount) btcFee in
          (btcAmt, WalletPriceRatio.convertFromBtc priceRatio btcAmt)
      | Usd =>
          let usdAmt := AmountCalculator.sub state.(c_usdProposedAmount) usdFee in
          (WalletPriceRatio.convertFromUsd priceRatio usdAmt, usdAmt)
      end
    else (state.(c_btcProposedAmount), state.(c_usdProposedAmount)) in
  validatedBtcPaymentAmount ← validateBtcPaymentAmountForDust state btcAmt;
  Ok (flow_of_state state validatedBtcPaymentAmount usdAmt btcFee usdFee
        feeAmounts.(OnChainFees.bankFee)
        (WalletPriceRatio.convertFromBtcToCeil priceRatio feeAmounts.(OnChainFees.bankFee))
        (Some minerFee)).

Section WithMinerFee.
Context `{Calls G} (feeConfig : FeesConfig) (onChainFees : OnChainFees.config) (now : Date).

Definition withMinerFee (state : WithConversionState) (minerFee : Amount) : G OnChainPaymentFlowState :=
  state ← returns (stateFromPromise state);
  priceRatio ← returns (WalletPriceRatio.make state.(c_usdProposedAmount) state.(c_btcProposedAmount));
  minBankFee ← returns (paymentAmountFromNumber
    (js_or (c_sender state).(s_senderWithdrawFee) feeConfig.(withdrawDefaultMin)) Btc);
  imbalanceForWallet ← ImbalanceCalculator.getSwapOutImbalanceAmount
    {| ImbalanceCalculator.method := feeConfig.(withdrawMethod);
       ImbalanceCalculator.netInVolumeAmountLightningFn := (c_config state).(netInVolumeAmountLightningFn);
       ImbalanceCalculator.netInVolumeAmountOnChainFn := (c_config state).(netInVolumeAmountOnChainFn);
       ImbalanceCalculator.sinceDaysAgo := feeConfig.(withdrawDaysLookback) |} now
    {| w_id := (c_sender state).(s_senderWalletId);
       w_currency := (c_sender state).(s_senderWalletCurrency);
       w_accountId := (c_sender state).(s_senderAccountId) |};
  returns (flow_with_fees onChainFees state minerFee priceRatio minBankFee imbalanceForWallet).

End WithMinerFee.

Definition btcProposedAmount (state : WithConversionState) : Result Amount :=
  state ← stateFromPromise state; Ok state.(c_btcProposedAmount).

Definition usdProposedAmount (state : WithConversionState) : Result Amount :=
  state ← stateFromPromise state; Ok state.(c_usdProposedAmount).

Definition proposedAmounts (state : WithConversionState) : Result AmountPair :=
  b ← btcProposedAmount state;
  u ← usdProposedAmount state;
  Ok {| btc := b; usd := u |}.

Definition state_addressForFlow (state : WithConversionState) : Result OnChainAddress :=
  state ← stateFromPromise state; Ok (c_sender state).(s_address).(a_address).

Definition state_senderWalletDescriptor (state : WithConversionState) : Result WalletDescriptor :=
  state ← stateFromPromise state;
  Ok {| w_id := (c_sender state).(s_senderWalletId);
        w_currency := (c_sender state).(s_senderWalletCurrency);
        w_accountId := (c_sender state).(s_senderAccountId) |}.

End Builder.
End OPFB.

(** ** Reachable builder states *)
Module OnChainBuilt.
Import OPFB.
Section Built.
Context {G : Type -> Type}.
Implicit Types (cfg : config (G := G)) (c : WithConversionState (G := G)).

(** The app chooses the recipient stage by the address, as the builder does again. *)
Inductive built cfg c : Prop :=
| built_intro (s : WithSenderWalletAndAccountState) r a args now :
    s.(s_address).(a_config) = cfg ->
    (withoutRecipientWallet s = Ok r ∨ ∃ ra, withRecipientWallet s ra = Ok r) ->
    0 < a.(amount) -> ArgsLaws args ->
    withConversion (withAmount r a) args now = Ok c -> built cfg c.

Definition conversion_inv cfg c : Prop :=
  c_config c = cfg ∧
  (0 < c.(c_btcProposedAmount).(amount) ∧ c.(c_btcProposedAmount).(currency) = Btc) ∧
  (0 < c.(c_usdProposedAmount).(amount) ∧ c.(c_usdProposedAmount).(currency) = Usd) ∧
  c.(c_recipientWalletId) ≠ Some (c_sender c).(s_senderWalletId).

Section Conversion.
Context (st : WithAmountState (G := G)) (args : WithConversionArgs (result ApplicationError)) (now : Date) `{ArgsLaws args}.

Definition converted_from_btc (a : Amount) (c : WithConversionState) : Prop :=
  c.(c_amount) = st ∧ c.(c_btcProposedAmount) = a ∧
  0 < c.(c_usdProposedAmount).(amount) ∧ c.(c_usdProposedAmount).(currency) = Usd.

Lemma mid_from_btc a w c : 0 < a.(amount) ->
  updatedStateFromBtcProposedAmountMid st args now a w = Ok c ->
  converted_from_btc a c ∧
  c.(c_recipientWalletId) =
    match w with Some w => Some w.(w_id) | None => st.(m_recipient).(r_recipientWalletId) end.
Proof.
  intros Ha Hc. unfold updatedStateFromBtcProposedAmountMid in Hc. direct_calls.
  apply bind_Ok in Hc as (u & Hu & Hc). apply usdFromBtc_law in Hu as [Hu Huc]; [|done].
  rewrite (proj2 (Z.ltb_lt _ _)) in Hc by done. cbn [andb] in Hc.
  apply bind_Ok in Hc as (ratio & Hr & [= <-]). unfold converted_from_btc. cbn.
  destruct (Z.eqb_spec u.(amount) 0); cbn; split_and!; done || lia.
Qed.

Lemma dealer_from_btc a c : 0 < a.(amount) ->
  updatedStateFromBtcProposedAmountDealer st args now a = Ok c ->
  converted_from_btc a c ∧ c.(c_recipientWalletId) = st.(m_recipient).(r_recipientWalletId).
Proof.
  intros Ha Hc. unfold updatedStateFromBtcProposedAmountDealer in Hc. direct_calls.
  apply bind_Ok in Hc as (u & Hu & Hc). apply bind_Ok in Hc as (ratio & Hr & [= <-]).
  assert (0 <= u.(amount) ∧ u.(currency) = Usd) as [? ?]
    by (case_decide; apply usdFromBtc_law in Hu; auto).
  pose proof (Built.make_nonzero _ _ _ Hr). unfold converted_from_btc. cbn. split_and!; done || lia.
Qed.

Lemma from_usd_inv (f : Amount -> Result Amount) u c :
  (∀ b, f u = Ok b -> 0 <= b.(amount) ∧ b.(currency) = Btc) ->
  (convertedAmount ← f u; _ ← WalletPriceRatio.make u convertedAmount;
   Ok (currentStateFromAllAmountsPresent st now convertedAmount u)) = Ok c ->
  c.(c_amount) = st ∧ (0 < c.(c_btcProposedAmount).(amount) ∧ c.(c_btcProposedAmount).(currency) = Btc) ∧
  c.(c_usdProposedAmount) = u ∧ c.(c_recipientWalletId) = st.(m_recipient).(r_recipientWalletId).
Proof.
  intros Hf Hc. apply bind_Ok in Hc as (b & Hb & Hc). apply bind_Ok in Hc as (ratio & Hr & [= <-]).
  apply Hf in Hb as [? ?]. pose proof (Built.make_nonzero _ _ _ Hr). cbn. split_and!; done || lia.
Qed.

Lemma fallback_from_btc a c : 0 < a.(amount) ->
  st.(m_recipient).(r_recipientWalletId) ≠ Some st.(m_recipient).(r_sender).(s_senderWalletId) ->
  updatedStateFromBtcProposedAmountDealerFallbackMid st args now a = Ok c ->
  converted_from_btc a c ∧ c.(c_recipientWalletId) ≠ Some st.(m_recipient).(r_sender).(s_senderWalletId).
Proof.
  intros Ha Hne. unfold updatedStateFromBtcProposedAmountDealerFallbackMid. direct_calls.
  destruct (updatedStateFromBtcProposedAmountDealer _ _ _ _) eqn:E.
  - intros [= <-]. apply dealer_from_btc in E as [? ->]; auto.
  - case_match; [done|]. destruct (BTC <$> _) as [w|]; [|done]. case_decide as Hw; [done|].
    intros Hc. apply mid_from_btc in Hc as [? ->]; [|done]. split; [done|congruence].
Qed.

End Conversion.

Lemma recipient_not_sender (s : WithSenderWalletAndAccountState (G := G)) r :
  (withoutRecipientWallet s = Ok r ∨ ∃ ra, withRecipientWallet s ra = Ok r) ->
  r.(r_sender) = s ∧ r.(r_recipientWalletId) ≠ Some s.(s_senderWalletId).
Proof.
  intros [[= <-]|(ra & Hr)]; [done|]. unfold withRecipientWallet in Hr.
  case_decide; [done|]. injection Hr as <-. cbn. split; [done|congruence].
Qed.

Lemma built_conversion_inv cfg c : built cfg c -> conversion_inv cfg c.
Proof.
  intros [s r a args now Hcfg Hr Ha Hargs Hc]. apply recipient_not_sender in Hr as [Hs Hne].
  rewrite <- Hs in Hne, Hcfg. unfold withConversion, withAmount in Hc.
  unfold conversion_inv, c_config, c_sender, c_recipient.
  destruct a.(currency) eqn:Hcur; cbn in Hc; case_match.
  - apply from_usd_inv in Hc as (-> & ? & -> & ->); [by rewrite <- Hcfg|].
    intros b Hb. by apply btcFromUsd_law in Hb.
  - apply from_usd_inv in Hc as (-> & ? & -> & ->); [by rewrite <- Hcfg|].
    intros b Hb. case_decide; by apply btcFromUsd_law in Hb.
  - apply mid_from_btc in Hc as [(-> & -> & ? & ?) ->]; [|done..]. by rewrite <- Hcfg.
  - apply fallback_from_btc in Hc as [(-> & -> & ? & ?) ?]; [|done..]. by rewrite <- Hcfg.
Qed.

(** What the checks made before every flow establish. *)
Lemma stateFromPromise_spec c c' : stateFromPromise c = Ok c' ->
  c' = c ∧
  ((c_recipient c).(r_settlementMethod) =
     if (c_config c).(isExternalAddress) (c_sender c).(s_address).(a_address)
     then SettleOnChain else SettleIntraLedger) ∧
  ((c_recipient c).(r_settlementMethod) = SettleIntraLedger -> truthy c.(c_recipientWalletId) = true).
Proof.
  unfold stateFromPromise. case_match eqn:E; [done|]. intros H. apply bind_Ok in H as (_ & _ & [= <-]).
  apply orb_false_iff in E as [E1 E2]. apply negb_false_iff, bool_decide_eq_true in E1.
  split; [done|]. split.
  - rewrite E1. by destruct (isExternalAddress _ _).
  - intros Hs. rewrite bool_decide_true in E2 by done. cbn in E2. by apply negb_false_iff in E2.
Qed.

Lemma dust_spec c a a' : validateBtcPaymentAmountForDust c a = Ok a' ->
  a' = a ∧ ((c_recipient c).(r_settlementMethod) ≠ SettleIntraLedger ->
            num_gtb_bigint (c_config c).(dustThreshold) a.(amount) = false).
Proof.
  unfold validateBtcPaymentAmountForDust. case_match eqn:E; [done|]. intros [= <-]. split; [done|].
  intros Hs. rewrite bool_decide_false in E by done. done.
Qed.

(** The fees and amounts of a flow with a miner fee, by the sender's currency. *)
Definition mined (feeConfig : FeesConfig) oc c miner (flow : OnChainPaymentFlowState) : Prop :=
  ∃ ratio minBank imbalance,
    let fees := OnChainFees.withdrawalFee oc miner c.(c_btcProposedAmount) minBank imbalance in
    stateFromPromise c = Ok c ∧
    WalletPriceRatio.make c.(c_usdProposedAmount) c.(c_btcProposedAmount) = Ok ratio ∧
    paymentAmountFromNumber
      (js_or (c_sender c).(s_senderWithdrawFee) feeConfig.(withdrawDefaultMin)) Btc = Ok minBank ∧
    flow.(btcProtocolAndBankFee) = fees.(OnChainFees.totalFee) ∧
    flow.(usdProtocolAndBankFee) = WalletPriceRatio.convertFromBtcToCeil ratio fees.(OnChainFees.totalFee) ∧
    flow.(flow_btcBankFee) = fees.(OnChainFees.bankFee) ∧
    flow.(flow_usdBankFee) = WalletPriceRatio.convertFromBtcToCeil ratio fees.(OnChainFees.bankFee) ∧
    validateBtcPaymentAmountForDust c flow.(btcPaymentAmount) = Ok flow.(btcPaymentAmount) ∧
    (flow.(senderWalletCurrency) = (c_sender c).(s_senderWalletCurrency) ∧
     flow.(settlementMethod) = (c_recipient c).(r_settlementMethod) ∧
     flow.(senderWalletId) = (c_sender c).(s_senderWalletId) ∧
     flow.(recipientWalletId) = c.(c_recipientWalletId) ∧
     flow.(address) = Some (c_sender c).(s_address).(a_address) ∧
     flow.(senderAccountId) = (c_sender c).(s_senderAccountId)) ∧
    if (c_config c).(sendAll) then
      match (c_sender c).(s_senderWalletCurrency) with
      | Btc => flow.(btcPaymentAmount) = AmountCalculator.sub c.(c_btcProposedAmount) flow.(btcProtocolAndBankFee) ∧
               flow.(usdPaymentAmount) = WalletPriceRatio.convertFromBtc ratio flow.(btcPaymentAmount)
      | Usd => flow.(usdPaymentAmount) = AmountCalculator.sub c.(c_usdProposedAmount) flow.(usdProtocolAndBankFee) ∧
               flow.(btcPaymentAmount) = WalletPriceRatio.convertFromUsd ratio flow.(usdPaymentAmount)
      end
    else flow.(btcPaymentAmount) = c.(c_btcProposedAmount) ∧ flow.(usdPaymentAmount) = c.(c_usdProposedAmount).

Lemma flow_with_fees_mined feeConfig oc c miner ratio minBank imb flow :
  stateFromPromise c = Ok c -> WalletPriceRatio.make c.(c_usdProposedAmount) c.(c_btcProposedAmount) = Ok ratio ->
  paymentAmountFromNumber (js_or (c_sender c).(s_senderWithdrawFee) feeConfig.(withdrawDefaultMin)) Btc = Ok minBank ->
  flow_with_fees oc c miner ratio minBank imb = Ok flow -> mined feeConfig oc c miner flow.
Proof.
  unfold flow_with_fees. intros Hc Hr Hm H.
  set (imbalance := if decide _ then _ else _) in H. exists ratio, minBank, imbalance. cbn zeta in *.
  destruct (c_config c).(sendAll) eqn:Hall; [destruct (c_sender c).(s_senderWalletCurrency) eqn:Hcur|];
    cbn zeta in H; apply bind_Ok in H as (a & Ha & [= <-]);
    pose proof (dust_spec _ _ _ Ha) as [-> _]; cbn; rewrite ?Hall, ?Hcur; split_and!; done.
Qed.

(** The payment and its fee are exactly what was proposed, if all is sent. *)
Lemma mined_conserves feeConfig oc c miner flow : mined feeConfig oc c miner flow ->
  let proposed := match flow.(senderWalletCurrency) with
                  | Btc => c.(c_btcProposedAmount) | Usd => c.(c_usdProposedAmount) end in
  if (c_config c).(sendAll) then sender_amount flow + sender_fee flow = proposed.(amount)
  else flow.(btcPaymentAmount) = c.(c_btcProposedAmount) ∧ flow.(usdPaymentAmount) = c.(c_usdProposedAmount).
Proof.
  intros (ratio & mb & imb & _ & _ & _ & _ & _ & _ & _ & _ & (Hcur & _) & Hamt).
  cbn zeta. unfold sender_amount, sender_fee. rewrite Hcur.
  destruct (sendAll _); [|done]. case_match; destruct Hamt as [-> _]; cbn; lia.
Qed.

(** The split of the fee. *)
Lemma mined_fees feeConfig oc c miner flow minBank : conversion_inv (c_config c) c -> mined feeConfig oc c miner flow ->
  0 <= miner.(amount) ->
  paymentAmountFromNumber (js_or (c_sender c).(s_senderWithdrawFee) feeConfig.(withdrawDefaultMin)) Btc = Ok minBank ->
  0 <= minBank.(amount) ->
  flow.(btcProtocolAndBankFee).(amount) = flow.(flow_btcBankFee).(amount) + miner.(amount) ∧
  minBank.(amount) <= flow.(flow_btcBankFee).(amount) ∧
  0 <= flow.(flow_usdBankFee).(amount) <= flow.(usdProtocolAndBankFee).(amount) ∧
  (0 < flow.(flow_btcBankFee).(amount) -> 0 < flow.(flow_usdBankFee).(amount)).
Proof.
  intros (_ & [Hb Hbc] & [Hu _] & _) (r & mb & imb & _ & Hr & Hmb & -> & -> & -> & -> & _) Hminer Hmin Hmin0.
  rewrite Hmin in Hmb. injection Hmb as <-.
  pose proof (make_wallet_ratio c.(c_usdProposedAmount) c.(c_btcProposedAmount) r
    ltac:(lia) ltac:(lia) Hbc Hr) as [[Hpos _] _].
  set (fees := OnChainFees.withdrawalFee _ _ _ _ _).
  assert (Hbank : minBank.(amount) <= fees.(OnChainFees.bankFee).(amount)).
  { unfold fees, OnChainFees.withdrawalFee. cbn [OnChainFees.bankFee]. rewrite max2_amount. lia. }
  assert (Htot : fees.(OnChainFees.totalFee).(amount) =
                 fees.(OnChainFees.bankFee).(amount) + miner.(amount)) by done.
  pose proof (convertFromWalletToCeil_bounds r Hpos fees.(OnChainFees.bankFee) ltac:(lia)) as (? & ? & ?).
  pose proof (convertFromWalletToCeil_bounds r Hpos fees.(OnChainFees.totalFee) ltac:(lia)) as (? & ? & ?).
  destruct Hpos as [Hpu Hpb]. rewrite Htot in *. clear Htot.
  unfold WalletPriceRatio.convertFromBtcToCeil. cbn [amount]. split_and!; [done..| |]; nia.
Qed.

End Built.

(** The builder with direct calls. *)
Lemma withMinerFee_spec feeConfig oc now (c : WithConversionState) miner flow :
  withMinerFee feeConfig oc now c miner = Ok flow -> mined feeConfig oc c miner flow.
Proof.
  unfold withMinerFee. direct_calls. intros H. apply bind_Ok in H as (c' & Hc' & H).
  pose proof (stateFromPromise_spec _ _ Hc') as (-> & _ & _).
  apply bind_Ok in H as (ratio & Hr & H). apply bind_Ok in H as (minBank & Hm & H).
  apply bind_Ok in H as (imb & _ & H). by eapply flow_with_fees_mined.
Qed.

End OnChainBuilt.

(** ** Properties *)
Section Properties.
Import OPFB OnChainBuilt.
Context (cfg : config (G := result ApplicationError)) (c : WithConversionState) (Hbuilt : built cfg c).
Context (feeConfig : FeesConfig) (oc : OnChainFees.config) (now : Date) (miner : Amount).
Context (flow : OnChainPaymentFlowState).
Context (Hflow : withMinerFee feeConfig oc now c miner = Ok flow).

(** C21. A send-all payment takes exactly the proposed amount (its caller proposes the wallet's
    balance) from the sender's wallet: payment plus fee add up to it in the wallet's own
    currency, with no unit lost to rounding; any other payment moves exactly the proposed
    amounts. *)
Theorem sendAll_conserves :
  let proposed := match flow.(senderWalletCurrency) with
                  | Btc => c.(c_btcProposedAmount) | Usd => c.(c_usdProposedAmount) end in
  if cfg.(sendAll) then sender_amount flow + sender_fee flow = proposed.(amount)
  else flow.(btcPaymentAmount) = c.(c_btcProposedAmount) ∧
       flow.(usdPaymentAmount) = c.(c_usdProposedAmount).
Proof.
  apply built_conversion_inv in Hbuilt as (<- & _).
  eapply mined_conserves, withMinerFee_spec, Hflow.
Qed.

(** An on-chain payment settles by the method its address calls for, pays at least the
    dust threshold when it leaves the ledger, and never pays its own sender wallet. *)
Theorem onChain_flow_safe :
  flow.(settlementMethod) =
    (if cfg.(isExternalAddress) (default ""%string flow.(address)) then SettleOnChain
     else SettleIntraLedger) ∧
  (flow.(settlementMethod) ≠ SettleIntraLedger ->
     num_gtb_bigint cfg.(dustThreshold) flow.(btcPaymentAmount).(amount) = false) ∧
  (flow.(settlementMethod) = SettleIntraLedger -> truthy flow.(recipientWalletId) = true) ∧
  flow.(recipientWalletId) ≠ Some flow.(senderWalletId).
Proof.
  apply built_conversion_inv in Hbuilt as (Hcfg & _ & _ & Hne).
  apply withMinerFee_spec in Hflow as (ratio & mb & imb & Hp & _ & _ & _ & _ & _ & _ & Hdust &
    (_ & Hs & Hid & Hrid & Haddr & _) & _).
  apply stateFromPromise_spec in Hp as (_ & Hm & Ht). apply dust_spec in Hdust as [_ Hd].
  rewrite Hs, Hid, Hrid, Haddr. rewrite Hcfg in *. split_and!; done.
Qed.

(** The fee of an on-chain payment splits consistently in both currencies: the BTC fee is
    the bank fee plus the miner fee, the bank fee is at least the account's minimum, the
    USD bank fee does not exceed the whole USD fee, and a BTC bank fee is never charged
    as zero cents. *)
Theorem onChain_fee_split (minBank : Amount)
    (Hminer : 0 <= miner.(amount))
    (Hmin : paymentAmountFromNumber
       (js_or (c_sender c).(s_senderWithdrawFee) feeConfig.(withdrawDefaultMin)) Btc = Ok minBank)
    (Hmin0 : 0 <= minBank.(amount)) :
  flow.(btcProtocolAndBankFee).(amount) = flow.(flow_btcBankFee).(amount) + miner.(amount) ∧
  minBank.(amount) <= flow.(flow_btcBankFee).(amount) ∧
  0 <= flow.(flow_usdBankFee).(amount) <= flow.(usdProtocolAndBankFee).(amount) ∧
  (0 < flow.(flow_btcBankFee).(amount) -> 0 < flow.(flow_usdBankFee).(amount)).
Proof.
  apply built_conversion_inv in Hbuilt. pose proof Hbuilt as (<- & _).
  eapply mined_fees; [exact Hbuilt|eapply withMinerFee_spec, Hflow|done..].
Qed.

End Properties.

Module OnChainExamples.
Import OPFB OnChainBuilt.

Definition cfg : config (G := result ApplicationError) := {|
  netInVolumeAmountLightningFn _ _ := Ok (BtcPaymentAmount 40000);
  netInVolumeAmountOnChainFn _ _ := Ok (BtcPaymentAmount 10000);
  isExternalAddress _ := true;
  sendAll := true;
  dustThreshold := Number 5000;
|}.

Definition feeConfig : FeesConfig := {|
  depositDefaultMin := BtcPaymentAmount 3000; depositThreshold := BtcPaymentAmount 1000000;
  depositRatioAsBasisPoints := 30; withdrawMethod := proportionalOnImbalance;
  withdrawRatioAsBasisPoints := 50; withdrawThreshold := Number 20000;
  withdrawDaysLookback := 30; withdrawDefaultMin := Number 2000 |}.

Definition onChainFees : OnChainFees.config :=
  {| OnChainFees.feeRatioAsBasisPoints := 50;
     OnChainFees.thresholdImbalance := BtcPaymentAmount 20000 |}.

Definition carol : WalletDescriptor := {| w_id := "carol-btc"; w_currency := Btc; w_accountId := "carol" |}.

Lemma send_all : ∃ c flow, built cfg c ∧
  withMinerFee feeConfig onChainFees 0 c (BtcPaymentAmount 700) = Ok flow ∧
  (c_sender c).(s_senderWithdrawFee) = None.
Proof.
  eexists _, _. split.
  - eapply (built_intro _ _ (withSenderWalletAndAccount (withAddress cfg "bc1q") carol None) _
      (BtcPaymentAmount 500000) LightningExamples.conversion 0); [done|by left|done| |reflexivity].
    apply LightningExamples.conversion_laws.
  - split; reflexivity.
Qed.

Lemma sendAll_conserves_witness : ∃ c (flow : OnChainPaymentFlowState), built cfg c ∧
  sender_amount (opf_common flow) + sender_fee (opf_common flow) =
  (match flow.(senderWalletCurrency) with
   | Btc => c.(c_btcProposedAmount) | Usd => c.(c_usdProposedAmount) end).(amount).
Proof.
  destruct send_all as (c & flow & Hb & Hf & _). exists c, flow. split; [exact Hb|].
  exact (sendAll_conserves cfg c Hb feeConfig onChainFees 0 (BtcPaymentAmount 700) flow Hf).
Defined.

Lemma onChain_flow_safe_witness : ∃ c (flow : OnChainPaymentFlowState), built cfg c ∧
  flow.(settlementMethod) = SettleOnChain ∧ flow.(recipientWalletId) ≠ Some flow.(senderWalletId).
Proof.
  destruct send_all as (c & flow & Hb & Hf & _). exists c, flow. split; [exact Hb|].
  destruct (onChain_flow_safe cfg c Hb feeConfig onChainFees 0 (BtcPaymentAmount 700) flow Hf)
    as (H & _ & _ & Hne).
  split; [exact H|exact Hne].
Defined.

Lemma onChain_fee_split_witness : ∃ c (flow : OnChainPaymentFlowState), built cfg c ∧
  flow.(btcProtocolAndBankFee).(amount) = flow.(flow_btcBankFee).(amount) + 700.
Proof.
  destruct send_all as (c & flow & Hb & Hf & Hn). exists c, flow. split; [exact Hb|].
  apply (onChain_fee_split cfg c Hb feeConfig onChainFees 0 (BtcPaymentAmount 700) flow Hf
           (BtcPaymentAmount 2000)); [cbn; lia|rewrite Hn; reflexivity|cbn; lia].
Defined.

End OnChainExamples.
