(* ===== verification/LedgerEntry.v ===== *)
(** * Double-entry ledger entries

    Models [services/ledger/domain] (the entry builders and account names), the recording
    functions of [services/ledger/facade] and [services/ledger/helpers.ts].  The accounting
    library, medici, is a type class: an entry accumulates transactions through [credit] and
    [debit], and is saved by [commit].  The builders are chains of closures over one mutable
    entry; here the entry is threaded through in the order of the calls. *)

From S2P Require Import Prelude JsNumber Shared Prices Fees.

(** ** Metadata

    A [TxMetadata] object maps keys to values of a few types; a key can be present with the
    value [undefined].  [{ ...a, ...b }] keeps the later value of a key. *)
Inductive MetaValue :=
| MString (s : string)
| MNumber (n : number)
| MBool (b : bool)
| MStrings (l : list string)
| MUndefined.

#[export] Instance MetaValue_eq_dec : EqDecision MetaValue.
Proof. solve_decision. Defined.

Abbreviation TxMetadata := (gmap string MetaValue).

Definition spread (a b : TxMetadata) : TxMetadata := b ∪ a.

Definition meta_opt (o : option string) : MetaValue :=
  match o with Some s => MString s | None => MUndefined end.

Abbreviation LedgerAccountId := string (only parsing).
Abbreviation LedgerExternalId := string (only parsing).

Record LedgerAccountDescriptor := mkLedgerAccount {
  la_id : LedgerAccountId;
  la_currency : WalletCurrency;
}.

(** ** Accounts *)
Definition assetsMainAccount : string := "Assets".
Definition lndLedgerAccountId : LedgerAccountId := (assetsMainAccount ++ ":Reserve:Lightning")%string.
Definition onChainLedgerAccountId : LedgerAccountId := (assetsMainAccount ++ ":OnChain")%string.
Definition coldStorageAccountId : LedgerAccountId := (assetsMainAccount ++ ":Reserve:Bitcoind")%string.

Definition lndLedgerAccountDescriptor : LedgerAccountDescriptor :=
  {| la_id := lndLedgerAccountId; la_currency := Btc |}.
Definition onChainLedgerAccountDescriptor : LedgerAccountDescriptor :=
  {| la_id := onChainLedgerAccountId; la_currency := Btc |}.
Definition coldStorageAccountDescriptor : LedgerAccountDescriptor :=
  {| la_id := coldStorageAccountId; la_currency := Btc |}.

Definition liabilitiesMainAccount : string := "Liabilities".
Definition toLedgerAccountId (walletId : WalletId) : LedgerAccountId :=
  (liabilitiesMainAccount ++ ":" ++ walletId)%string.
Definition toLedgerAccountDescriptor (walletDescriptor : WalletDescriptor) : LedgerAccountDescriptor :=
  {| la_id := toLedgerAccountId walletDescriptor.(w_id);
     la_currency := walletDescriptor.(w_currency) |}.

Record StaticAccountIds := mkStaticAccountIds {
  bankOwnerAccountId : LedgerAccountId;
  dealerBtcAccountId : LedgerAccountId;
  dealerUsdAccountId : LedgerAccountId;
}.

(** ** Medici *)

Record MediciTransaction := mkTx {
  tx_account : LedgerAccountId;
  tx_debit : number;
  tx_credit : number;
  tx_meta : TxMetadata;
}.

(** The part of medici's [Entry] the builders use. *)
Class MediciEntry (M : Type) := {
  credit : LedgerAccountId -> number -> TxMetadata -> M -> M;
  debit : LedgerAccountId -> number -> TxMetadata -> M -> M;
  transactions : M -> list MediciTransaction;
  set_transactions : list MediciTransaction -> M -> M;
}.

(** Its documented behaviour: both calls append one transaction, with the amount on one
    side and zero on the other. *)
Class MediciLaws (M : Type) `{MediciEntry M} : Prop := {
  credit_transactions a n md e :
    transactions (credit a n md e) =
    transactions e ++ [{| tx_account := a; tx_debit := Number 0; tx_credit := n; tx_meta := md |}];
  debit_transactions a n md e :
    transactions (debit a n md e) =
    transactions e ++ [{| tx_account := a; tx_debit := n; tx_credit := Number 0; tx_meta := md |}];
  set_transactions_transactions txs e : transactions (set_transactions txs e) = txs;
}.

(** An entry that only keeps its transactions. *)
#[export] Instance list_entry : MediciEntry (list MediciTransaction) := {
  credit a n md e :=
    e ++ [{| tx_account := a; tx_debit := Number 0; tx_credit := n; tx_meta := md |}];
  debit a n md e :=
    e ++ [{| tx_account := a; tx_debit := n; tx_credit := Number 0; tx_meta := md |}];
  transactions e := e;
  set_transactions txs _ := txs;
}.

#[export] Instance list_entry_laws : MediciLaws (list MediciTransaction).
Proof. by split. Qed.

(** ** The entry builder *)
Section EntryBuilder.
Context {M : Type} `{MediciEntry M}.

Definition removeZeroAmountEntries (entry : M) : M :=
  let updatedTransactions :=
    filter (fun txn => negb (num_eqb txn.(tx_debit) (Number 0) && num_eqb txn.(tx_credit) (Number 0)) = true)
      (transactions entry) in
  set_transactions updatedTransactions entry.

(** What the chain of builder closures captures besides the entry. *)
Record BuilderState := mkBuilder {
  eb_metadata : TxMetadata;
  eb_additionalInternalMetadata : TxMetadata;
  eb_staticAccountIds : StaticAccountIds;
  eb_externalId : option LedgerExternalId;
  eb_usdWithFees : Amount;
  eb_btcWithFees : Amount;
}.

Definition EntryBuilder_withTotalAmount (staticAccountIds : StaticAccountIds)
    (externalId : option LedgerExternalId) (metadata additionalInternalMetadata : TxMetadata)
    (usdWithFees btcWithFees : Amount) : BuilderState := {|
  eb_metadata := metadata;
  eb_additionalInternalMetadata := additionalInternalMetadata;
  eb_staticAccountIds := staticAccountIds;
  eb_externalId := externalId;
  eb_usdWithFees := usdWithFees;
  eb_btcWithFees := btcWithFees;
|}.

Section Stages.
Context (b : BuilderState).
Let metadata := b.(eb_metadata).
Let additionalInternalMetadata := b.(eb_additionalInternalMetadata).
Let staticAccountIds := b.(eb_staticAccountIds).
Let usdWithFees := b.(eb_usdWithFees).
Let btcWithFees := b.(eb_btcWithFees).

(** [{ ...metadata, currency, external_id: externalId }] *)
Definition with_currency (md : TxMetadata) (c : WalletCurrency) : TxMetadata :=
  spread md (<["currency" := MString (currency_code c)]>
             (<["external_id" := meta_opt b.(eb_externalId)]> ∅)).

Definition withBankFee (bankFee : BankFee) (entry : M) : M :=
  let btcBankFee := bankFee.(btcBankFee) in
  if 0 <? btcBankFee.(amount) then
    credit staticAccountIds.(bankOwnerAccountId) (Number btcBankFee.(amount))
      (with_currency (spread metadata additionalInternalMetadata) btcBankFee.(currency)) entry
  else entry.

Definition debitAccount (accountDescriptor : LedgerAccountDescriptor)
    (additionalMetadata : option TxMetadata) (entry : M) : M :=
  let debitMetadata := spread metadata (default ∅ additionalMetadata) in
  if decide (accountDescriptor.(la_currency) = Btc) then
    debit accountDescriptor.(la_id) (Number btcWithFees.(amount))
      (with_currency debitMetadata btcWithFees.(currency)) entry
  else
    debit accountDescriptor.(la_id) (Number usdWithFees.(amount))
      (with_currency debitMetadata usdWithFees.(currency)) entry.

Definition debitOffChain : M -> M :=
  debitAccount lndLedgerAccountDescriptor (Some additionalInternalMetadata).
Definition debitOnChain : M -> M :=
  debitAccount onChainLedgerAccountDescriptor (Some additionalInternalMetadata).
Definition debitColdStorage : M -> M :=
  debitAccount coldStorageAccountDescriptor (Some additionalInternalMetadata).

Definition addUsdToBtcConversionToDealer (btcAmount usdAmount : Amount) (entry : M) : M :=
  let dealerMetadata := spread metadata additionalInternalMetadata in
  credit staticAccountIds.(dealerUsdAccountId) (Number usdAmount.(amount))
    (with_currency dealerMetadata usdAmount.(currency))
    (debit staticAccountIds.(dealerBtcAccountId) (Number btcAmount.(amount))
       (with_currency dealerMetadata btcAmount.(currency)) entry).

Definition addBtcToUsdConversionToDealer (btcAmount usdAmount : Amount) (entry : M) : M :=
  let dealerMetadata := spread metadata additionalInternalMetadata in
  debit staticAccountIds.(dealerUsdAccountId) (Number usdAmount.(amount))
    (with_currency dealerMetadata usdAmount.(currency))
    (credit staticAccountIds.(dealerBtcAccountId) (Number btcAmount.(amount))
       (with_currency dealerMetadata btcAmount.(currency)) entry).

Definition addDealerDebitsAndCredits (bankFee : BankFee) (debitCurrency : WalletCurrency)
    (accountDescriptor : LedgerAccountDescriptor) (entry : M) : M :=
  match debitCurrency, accountDescriptor.(la_currency) with
  | Usd, Usd =>
      if 0 <? bankFee.(usdBankFee).(amount)
      then addUsdToBtcConversionToDealer bankFee.(btcBankFee) bankFee.(usdBankFee) entry
      else entry
  | Usd, Btc => addUsdToBtcConversionToDealer btcWithFees usdWithFees entry
  | Btc, Usd =>
      addBtcToUsdConversionToDealer (AmountCalculator.sub btcWithFees bankFee.(btcBankFee))
        (AmountCalculator.sub usdWithFees bankFee.(usdBankFee)) entry
  | Btc, Btc => entry
  end.

Definition creditAccount (bankFee : BankFee) (debitCurrency : WalletCurrency)
    (accountDescriptor : LedgerAccountDescriptor) (additionalMetadata : option TxMetadata)
    (entry : M) : M :=
  let updatedEntry := addDealerDebitsAndCredits bankFee debitCurrency accountDescriptor entry in
  let usdWithOutFee := AmountCalculator.sub usdWithFees bankFee.(usdBankFee) in
  let btcWithOutFee := AmountCalculator.sub btcWithFees bankFee.(btcBankFee) in
  let creditAmount :=
    if decide (accountDescriptor.(la_currency) = Usd) then usdWithOutFee else btcWithOutFee in
  let creditMetadata :=
    match additionalMetadata with
    | Some additionalMetadata => spread metadata additionalMetadata
    | None => metadata
    end in
  removeZeroAmountEntries
    (credit accountDescriptor.(la_id) (Number creditAmount.(amount))
       (with_currency creditMetadata creditAmount.(currency)) updatedEntry).

Definition creditOffChain (bankFee : BankFee) (debitCurrency : WalletCurrency) : M -> M :=
  creditAccount bankFee debitCurrency lndLedgerAccountDescriptor (Some additionalInternalMetadata).
Definition creditOnChain (bankFee : BankFee) (debitCurrency : WalletCurrency) : M -> M :=
  creditAccount bankFee debitCurrency onChainLedgerAccountDescriptor (Some additionalInternalMetadata).
Definition creditColdStorage (bankFee : BankFee) (debitCurrency : WalletCurrency) : M -> M :=
  creditAccount bankFee debitCurrency coldStorageAccountDescriptor (Some additionalInternalMetadata).

End Stages.

(** ** The fee-only entry builder *)
Section FeeOnly.
Context (metadata : TxMetadata) (accounts : StaticAccountIds) (btcFee : Amount).

Definition fee_metadata : TxMetadata :=
  spread metadata {["currency" := MString (currency_code btcFee.(currency))]}.

Definition fee_debitAccount (accountDescriptor : LedgerAccountDescriptor) : M -> M :=
  debit accountDescriptor.(la_id) (Number btcFee.(amount)) fee_metadata.

Definition fee_debitBankOwner : M -> M :=
  fee_debitAccount {| la_id := accounts.(bankOwnerAccountId); la_currency := btcFee.(currency) |}.

Definition fee_debitOnChain : M -> M := fee_debitAccount onChainLedgerAccountDescriptor.

Definition fee_creditAccount (accountDescriptor : LedgerAccountDescriptor) : M -> M :=
  credit accountDescriptor.(la_id) (Number btcFee.(amount)) fee_metadata.

Definition fee_creditBankOwner : M -> M :=
  fee_creditAccount {| la_id := accounts.(bankOwnerAccountId); la_currency := btcFee.(currency) |}.

Definition fee_creditOnChain : M -> M := fee_creditAccount onChainLedgerAccountDescriptor.

End FeeOnly.

End EntryBuilder.

(** ** The entries of the recording functions

    Each recording function of the facade builds one entry and commits it; these are the
    entries.  The [entry] constructor of the book is an argument. *)

Record SavedEntry := mkSaved {
  saved_id : string;
  saved_voided : option bool;
  saved_transactions : list string;
}.

Record LedgerJournal := mkJournal {
  journalId : string;
  voided : bool;
  transactionIds : list string;
}.

Definition translateToLedgerJournal (savedEntry : SavedEntry) : LedgerJournal := {|
  journalId := savedEntry.(saved_id);
  voided := truthy savedEntry.(saved_voided);
  transactionIds := savedEntry.(saved_transactions);
|}.

(** What is handed to [txMetadataRepo.persistAll]. *)
Record TxMetadataToPersist := mkPersist {
  persist_id : string;
  persist_hash : option string;
  persist_revealedPreImage : option string;
}.

Definition meta_string (md : TxMetadata) (key : string) : option string :=
  match md !! key with Some (MString s) => Some s | _ => None end.

Definition no_fee : AmountPair := {| usd := ZERO_CENTS; btc := ZERO_SATS |}.

Definition bank_fee (fee : AmountPair) : BankFee := {| usdBankFee := fee.(usd); btcBankFee := fee.(btc) |}.

Section Entries.
Context {M : Type} `{MediciEntry M} (MainBook_entry : string -> M).

(** *** [recordIntraledger] *)
Definition intraledger_entry (accountIds : StaticAccountIds) (description : string)
    (sender recipient : WalletDescriptor) (amt : AmountPair)
    (metadata debitMetadata creditMetadata internalMetadata : TxMetadata) : M :=
  let b := EntryBuilder_withTotalAmount accountIds None metadata internalMetadata amt.(usd) amt.(btc) in
  creditAccount b ZERO_BANK_FEE sender.(w_currency) (toLedgerAccountDescriptor recipient) (Some creditMetadata)
    (debitAccount b (toLedgerAccountDescriptor sender) (Some debitMetadata)
      (withBankFee b ZERO_BANK_FEE (MainBook_entry description))).

(** *** [recordSendOffChain] and [recordSendOnChain] *)
Definition send_entry (offChain : bool) (accountIds : StaticAccountIds) (description : string)
    (sender : WalletDescriptor) (amountToDebitSender : AmountPair) (bankFee : option AmountPair)
    (metadata debitMetadata internalMetadata : TxMetadata) : M :=
  let actualFee := default no_fee bankFee in
  let b := EntryBuilder_withTotalAmount accountIds None metadata internalMetadata
             amountToDebitSender.(usd) amountToDebitSender.(btc) in
  let credit := if offChain then creditOffChain b else creditOnChain b in
  credit (bank_fee actualFee) sender.(w_currency)
    (debitAccount b (toLedgerAccountDescriptor sender) (Some debitMetadata)
      (withBankFee b (bank_fee actualFee) (MainBook_entry description))).

(** *** [recordReceiveOffChain] and [recordReceiveOnChain] *)
Definition receive_entry (offChain : bool) (accountIds : StaticAccountIds) (description : string)
    (recipient : WalletDescriptor) (amountToCreditReceiver : AmountPair) (bankFee : option AmountPair)
    (externalId : option LedgerExternalId)
    (metadata creditMetadata internalMetadata : TxMetadata) : M :=
  let actualFee := default no_fee bankFee in
  let b := EntryBuilder_withTotalAmount accountIds externalId metadata internalMetadata
             (AmountCalculator.add amountToCreditReceiver.(usd) actualFee.(usd))
             (AmountCalculator.add amountToCreditReceiver.(btc) actualFee.(btc)) in
  let debit := if offChain then debitOffChain b else debitOnChain b in
  creditAccount b (bank_fee actualFee) Btc (toLedgerAccountDescriptor recipient) (Some creditMetadata)
    (debit (withBankFee b (bank_fee actualFee) (MainBook_entry description))).

(** *** [recordReceiveOnChainFeeReconciliation] *)
Definition fee_reconciliation_entry (accountIds : StaticAccountIds) (estimatedFee actualFee : Amount)
    (metadata : TxMetadata) : M :=
  let entry := MainBook_entry "" in
  if estimatedFee.(amount) <? actualFee.(amount) then
    let btcFeeDifference := AmountCalculator.sub actualFee estimatedFee in
    fee_creditOnChain metadata btcFeeDifference
      (fee_debitBankOwner metadata accountIds btcFeeDifference entry)
  else
    let btcFeeDifference := AmountCalculator.sub estimatedFee actualFee in
    fee_creditBankOwner metadata accountIds btcFeeDifference
      (fee_debitOnChain metadata btcFeeDifference entry).

(** *** [recordBankownerReconciliation] *)
Definition bankowner_metadata (amt : AmountPair) : TxMetadata :=
  <["type" := MString "reconciliation"]> (<["currency" := MString "BTC"]> (<["pending" := MBool false]>
  (<["satsAmount" := MNumber (toSats amt.(btc).(amount))]> (<["satsFee" := MNumber (Number 0)]>
  (<["centsAmount" := MNumber (toCents amt.(usd).(amount))]>
  (<["centsFee" := MNumber (Number 0)]> ∅)))))).

Definition bankowner_reconciliation_entry (accountIds : StaticAccountIds) (description : string)
    (amt : AmountPair) : M :=
  let b := EntryBuilder_withTotalAmount accountIds None (bankowner_metadata amt) ∅ amt.(usd) amt.(btc) in
  creditOffChain b ZERO_BANK_FEE Btc
    (debitAccount b {| la_id := accountIds.(bankOwnerAccountId); la_currency := Btc |} (Some ∅)
      (withBankFee b ZERO_BANK_FEE (MainBook_entry description))).

End Entries.

(** ** Balance

    The net debit of a list of transactions in one currency, overall and for one account. *)
Definition amount_of (n : number) : Z := default 0 (BigInt n).

Definition in_currency (c : WalletCurrency) (tx : MediciTransaction) : bool :=
  bool_decide (tx.(tx_meta) !! "currency" = Some (MString (currency_code c))).

Definition tx_net (c : WalletCurrency) (tx : MediciTransaction) : Z :=
  if in_currency c tx then amount_of tx.(tx_debit) - amount_of tx.(tx_credit) else 0.

Definition net (c : WalletCurrency) (txs : list MediciTransaction) : Z := sumZ (map (tx_net c) txs).

Definition account_net (a : LedgerAccountId) (c : WalletCurrency) (txs : list MediciTransaction) : Z :=
  net c (filter (fun tx => tx.(tx_account) = a) txs).

Definition balanced {M} `{MediciEntry M} (e : M) : Prop := ∀ c, net c (transactions e) = 0.

Lemma currency_code_inj c c' : currency_code c = currency_code c' ↔ c = c'.
Proof. by destruct c, c'. Qed.

Lemma net_app c xs ys : net c (xs ++ ys) = net c xs + net c ys.
Proof. unfold net. by rewrite map_app, sumZ_app. Qed.

Lemma net_single c tx : net c [tx] = tx_net c tx.
Proof. unfold net, sumZ. cbn. lia. Qed.

Lemma account_net_app a c xs ys : account_net a c (xs ++ ys) = account_net a c xs + account_net a c ys.
Proof. unfold account_net. by rewrite filter_app, net_app. Qed.

Lemma account_net_single a c tx :
  account_net a c [tx] = if decide (tx.(tx_account) = a) then tx_net c tx else 0.
Proof.
  unfold account_net. rewrite filter_cons, filter_nil. case_decide; [apply net_single|done].
Qed.

Lemma amount_of_Number z : safe_integer z -> amount_of (Number z) = z.
Proof. intros Hz. unfold amount_of. by rewrite BigInt_Number. Qed.

Lemma in_currency_with b md c c' a d k :
  in_currency c {| tx_account := a; tx_debit := d; tx_credit := k; tx_meta := with_currency b md c' |}
  = bool_decide (c = c').
Proof.
  unfold in_currency, with_currency, spread. cbn. apply bool_decide_ext.
  rewrite (lookup_union_Some_l _ _ _ (MString (currency_code c'))) by (by simplify_map_eq).
  destruct c, c'; naive_solver.
Qed.

(** A credit and a debit of a safe amount in currency [c']. *)
Lemma tx_net_credit b md c c' a z : safe_integer z ->
  tx_net c {| tx_account := a; tx_debit := Number 0; tx_credit := Number z;
              tx_meta := with_currency b md c' |} = if decide (c = c') then - z else 0.
Proof.
  intros Hz. unfold tx_net. rewrite in_currency_with. cbn [tx_debit tx_credit].
  rewrite !amount_of_Number by done. case_decide; [rewrite bool_decide_true|rewrite bool_decide_false]; done || lia.
Qed.

Lemma tx_net_debit b md c c' a z : safe_integer z ->
  tx_net c {| tx_account := a; tx_debit := Number z; tx_credit := Number 0;
              tx_meta := with_currency b md c' |} = if decide (c = c') then z else 0.
Proof.
  intros Hz. unfold tx_net. rewrite in_currency_with. cbn [tx_debit tx_credit].
  rewrite !amount_of_Number by done. case_decide; [rewrite bool_decide_true|rewrite bool_decide_false]; done || lia.
Qed.

Lemma zero_amount x : num_eqb x (Number 0) = true -> amount_of x = 0.
Proof. rewrite Number_0. destruct x as [| | |[]]; by cbn. Qed.

(** Dropping the transactions without an amount changes no balance. *)
Lemma net_filter_zero c (P : MediciTransaction -> Prop) `{∀ tx, Decision (P tx)} txs :
  (∀ tx, ¬ P tx -> tx_net c tx = 0) -> net c (filter P txs) = net c txs.
Proof.
  intros HP. induction txs as [|tx txs IH]; [done|]. rewrite filter_cons.
  change (tx :: txs) with ([tx] ++ txs). rewrite (net_app c [tx] txs), net_single.
  case_decide as Hd.
  - change (tx :: filter P txs) with ([tx] ++ filter P txs). rewrite net_app, net_single, IH. done.
  - rewrite IH, HP by done. lia.
Qed.

Lemma filter_comm {A} (P Q : A -> Prop) `{∀ x, Decision (P x)} `{∀ x, Decision (Q x)} (l : list A) :
  filter P (filter Q l) = filter Q (filter P l).
Proof.
  induction l as [|x l IH]; [done|]. rewrite (filter_cons Q), (filter_cons P x l).
  destruct (decide (Q x)), (decide (P x)); rewrite ?filter_cons, ?decide_True, ?decide_False by done;
    by rewrite IH.
Qed.

Section Removal.
Context {M : Type} `{MediciEntry M} `{!MediciLaws M}.

Lemma removeZero_net c (e : M) : net c (transactions (removeZeroAmountEntries e)) = net c (transactions e).
Proof.
  unfold removeZeroAmountEntries. rewrite set_transactions_transactions. apply net_filter_zero.
  intros tx Htx. unfold tx_net. apply not_true_is_false, negb_false_iff, andb_true_iff in Htx as [Hd Hc].
  rewrite !zero_amount by done. by case_match.
Qed.

Lemma removeZero_account_net a c (e : M) :
  account_net a c (transactions (removeZeroAmountEntries e)) = account_net a c (transactions e).
Proof.
  unfold removeZeroAmountEntries, account_net. rewrite set_transactions_transactions.
  rewrite filter_comm.
  apply net_filter_zero. intros tx Htx. unfold tx_net.
  apply not_true_is_false, negb_false_iff, andb_true_iff in Htx as [Hd Hc].
  rewrite !zero_amount by done. by case_match.
Qed.

End Removal.

(** ** The builder's entries balance *)

(** The amounts an entry is built from: in their currencies, exactly representable as
    numbers, with a bank fee that is not negative and that is charged in both currencies
    or in none. *)
Record entry_amounts (usdWithFees btcWithFees : Amount) (fee : BankFee) : Prop := {
  ea_usd : usdWithFees.(currency) = Usd;
  ea_btc : btcWithFees.(currency) = Btc;
  ea_usd_fee : fee.(usdBankFee).(currency) = Usd;
  ea_btc_fee : fee.(btcBankFee).(currency) = Btc;
  ea_fee_nonneg : 0 <= fee.(usdBankFee).(amount) ∧ 0 <= fee.(btcBankFee).(amount);
  ea_fee_both : 0 < fee.(btcBankFee).(amount) -> 0 < fee.(usdBankFee).(amount);
  ea_safe_usd : 0 <= usdWithFees.(amount) < 2 ^ 53 ∧ fee.(usdBankFee).(amount) < 2 ^ 53;
  ea_safe_btc : 0 <= btcWithFees.(amount) < 2 ^ 53 ∧ fee.(btcBankFee).(amount) < 2 ^ 53;
}.

Section Balance.
Context {M : Type} `{MediciEntry M} `{!MediciLaws M}.
Context (b : BuilderState) (fee : BankFee).
Context (Hok : entry_amounts b.(eb_usdWithFees) b.(eb_btcWithFees) fee).

(** The transactions of a complete chain, as the entries of a list. *)
Definition chain (debited : LedgerAccountDescriptor) (dmd : option TxMetadata)
    (credited : LedgerAccountDescriptor) (cmd : option TxMetadata) (e : M) : M :=
  creditAccount b fee debited.(la_currency) credited cmd (debitAccount b debited dmd (withBankFee b fee e)).

Lemma safe_sub x y : 0 <= x < 2 ^ 53 -> 0 <= y < 2 ^ 53 -> safe_integer (x - y).
Proof. unfold safe_integer. lia. Qed.

Lemma safe_nonneg x : 0 <= x < 2 ^ 53 -> safe_integer x.
Proof. unfold safe_integer. lia. Qed.

Lemma chain_net debited dmd credited cmd e c :
  net c (transactions (chain debited dmd credited cmd e)) = net c (transactions e).
Proof using Hok MediciLaws0.
  destruct Hok as [Hu Hb Huf Hbf [? ?] Hboth [? ?] [? ?]].
  assert (Hs := safe_sub). assert (Hn := safe_nonneg).
  unfold chain, creditAccount. rewrite removeZero_net.
  unfold addDealerDebitsAndCredits, addUsdToBtcConversionToDealer, addBtcToUsdConversionToDealer,
    debitAccount, withBankFee.
  destruct (la_currency debited) eqn:Hd, (la_currency credited) eqn:Hc;
    destruct (Z.ltb_spec 0 (amount (btcBankFee fee))); try destruct (Z.ltb_spec 0 (amount (usdBankFee fee)));
    repeat case_decide; try done;
    repeat (rewrite credit_transactions || rewrite debit_transactions || rewrite net_app || rewrite net_single);
    repeat first [ rewrite tx_net_credit by (cbn [AmountCalculator.sub amount]; auto)
                 | rewrite tx_net_debit by (cbn [AmountCalculator.sub amount]; auto) ];
    cbn [AmountCalculator.sub amount currency]; rewrite ?Hu, ?Hb, ?Huf, ?Hbf; destruct c;
    repeat case_decide; try done; lia.
Qed.

(** The amount of the entry, with and without the bank fee, in a currency. *)
Definition total_in (c : WalletCurrency) : Z :=
  match c with Usd => b.(eb_usdWithFees).(amount) | Btc => b.(eb_btcWithFees).(amount) end.
Definition fee_in (c : WalletCurrency) : Z :=
  match c with Usd => fee.(usdBankFee).(amount) | Btc => fee.(btcBankFee).(amount) end.

(** The accounts the bank itself uses in an entry. *)
Definition bank_accounts : list LedgerAccountId :=
  [b.(eb_staticAccountIds).(bankOwnerAccountId); b.(eb_staticAccountIds).(dealerBtcAccountId);
   b.(eb_staticAccountIds).(dealerUsdAccountId)].

Lemma chain_accounts debited dmd credited cmd e a :
  a ∉ bank_accounts ->
  account_net a debited.(la_currency) (transactions e) = 0 ->
  account_net a credited.(la_currency) (transactions e) = 0 ->
  debited.(la_id) ≠ credited.(la_id) ->
  (a = debited.(la_id) ->
   account_net a debited.(la_currency) (transactions (chain debited dmd credited cmd e))
   = total_in debited.(la_currency)) ∧
  (a = credited.(la_id) ->
   account_net a credited.(la_currency) (transactions (chain debited dmd credited cmd e))
   = - (total_in credited.(la_currency) - fee_in credited.(la_currency))).
Proof using Hok MediciLaws0.
  destruct Hok as [Hu Hb Huf Hbf [? ?] Hboth [? ?] [? ?]].
  assert (Hs := safe_sub). assert (Hn := safe_nonneg).
  unfold bank_accounts. rewrite !not_elem_of_cons. intros (Ho & Hdb & Hdu & _) Hd0 Hc0 Hne.
  unfold chain, creditAccount. rewrite !removeZero_account_net.
  unfold addDealerDebitsAndCredits, addUsdToBtcConversionToDealer, addBtcToUsdConversionToDealer,
    debitAccount, withBankFee, total_in, fee_in.
  destruct (la_currency debited) eqn:Hd, (la_currency credited) eqn:Hc;
    destruct (Z.ltb_spec 0 (amount (btcBankFee fee))); try destruct (Z.ltb_spec 0 (amount (usdBankFee fee)));
    repeat (case_decide; try done);
    split; intros ->;
    repeat (rewrite credit_transactions || rewrite debit_transactions || rewrite account_net_app ||
            rewrite account_net_single); cbn [tx_account];
    repeat first [rewrite decide_True by congruence | rewrite decide_False by congruence];
    repeat first [ rewrite tx_net_credit by (cbn [AmountCalculator.sub amount]; auto)
                 | rewrite tx_net_debit by (cbn [AmountCalculator.sub amount]; auto) ];
    cbn [AmountCalculator.sub amount currency]; rewrite ?Hu, ?Hb, ?Huf, ?Hbf;
    repeat first [rewrite decide_True by done | rewrite decide_False by done]; lia.
Qed.

(** No other account takes part in the entry. *)
Lemma chain_other debited dmd credited cmd e a c :
  a ∉ bank_accounts -> a ≠ debited.(la_id) -> a ≠ credited.(la_id) ->
  account_net a c (transactions (chain debited dmd credited cmd e)) = account_net a c (transactions e).
Proof using MediciLaws0.
  unfold bank_accounts. rewrite !not_elem_of_cons. intros (Ho & Hdb & Hdu & _) Hd Hc.
  unfold chain, creditAccount. rewrite removeZero_account_net.
  unfold addDealerDebitsAndCredits, addUsdToBtcConversionToDealer, addBtcToUsdConversionToDealer,
    debitAccount, withBankFee.
  destruct (la_currency debited), (la_currency credited);
    repeat (case_decide || case_match); try done;
    repeat (rewrite credit_transactions || rewrite debit_transactions || rewrite account_net_app ||
            rewrite account_net_single); cbn [tx_account];
    repeat rewrite decide_False by congruence; lia.
Qed.

(** The metadata of every transaction extends the metadata of the entry with that of its side. *)
Definition side_meta (sides : list TxMetadata) (tx : MediciTransaction) : Prop :=
  ∃ side c, side ∈ sides ∧ tx.(tx_meta) = with_currency b (spread b.(eb_metadata) side) c.

Lemma chain_meta debited dmd credited cmd e sides :
  default ∅ dmd ∈ sides -> cmd ≠ None -> default ∅ cmd ∈ sides -> b.(eb_additionalInternalMetadata) ∈ sides ->
  Forall (side_meta sides) (transactions e) ->
  Forall (side_meta sides) (transactions (chain debited dmd credited cmd e)).
Proof using MediciLaws0.
  intros Hd Hn Hc Hi He. unfold chain, creditAccount, removeZeroAmountEntries.
  rewrite set_transactions_transactions. apply Forall_sub_filter.
  unfold addDealerDebitsAndCredits, addUsdToBtcConversionToDealer, addBtcToUsdConversionToDealer,
    debitAccount, withBankFee.
  destruct cmd as [cmd|]; [|done]. cbn in Hc.
  destruct (la_currency debited), (la_currency credited); repeat (case_decide || case_match); try done;
    repeat (rewrite credit_transactions || rewrite debit_transactions);
    rewrite ?Forall_app; repeat split; try done;
    repeat constructor; eexists _, _; cbn [tx_meta]; (split; [|reflexivity]); done.
Qed.

End Balance.

Lemma toLedgerAccountId_inj w w' : toLedgerAccountId w = toLedgerAccountId w' -> w = w'.
Proof. intros [= Hw]. exact Hw. Qed.

(** A wallet's account is none of the asset accounts. *)
Lemma toLedgerAccountId_not_asset w a :
  a ∈ [lndLedgerAccountId; onChainLedgerAccountId; coldStorageAccountId] -> toLedgerAccountId w ≠ a.
Proof. rewrite !elem_of_cons, elem_of_nil. by intros [-> | [-> | [-> | []]]]. Qed.

Definition amount_in (p : AmountPair) (c : WalletCurrency) : Z :=
  match c with Usd => p.(usd).(amount) | Btc => p.(btc).(amount) end.

(** Amounts of an entry without and with a bank fee. *)
Definition valid_pair (p : AmountPair) : Prop :=
  p.(usd).(currency) = Usd ∧ p.(btc).(currency) = Btc ∧
  0 <= p.(usd).(amount) < 2 ^ 53 ∧ 0 <= p.(btc).(amount) < 2 ^ 53.

Definition valid_fee (fee : option AmountPair) : Prop :=
  ∀ f, fee = Some f -> valid_pair f ∧ (0 < f.(btc).(amount) -> 0 < f.(usd).(amount)).

Lemma valid_fee_default fee : valid_fee fee ->
  valid_pair (default no_fee fee) ∧
  (0 < (default no_fee fee).(btc).(amount) -> 0 < (default no_fee fee).(usd).(amount)).
Proof. destruct fee as [f|]; intros Hf; cbn; [by apply Hf|]. split; [|lia]. by repeat split. Qed.

Lemma entry_amounts_fee u c f : u.(currency) = Usd -> c.(currency) = Btc ->
  0 <= u.(amount) < 2 ^ 53 -> 0 <= c.(amount) < 2 ^ 53 -> valid_pair f ->
  (0 < f.(btc).(amount) -> 0 < f.(usd).(amount)) -> entry_amounts u c (bank_fee f).
Proof. intros ? ? ? ? (? & ? & ? & ?) ?. split; cbn; done || tauto || lia. Qed.

(** ** Properties *)
Section Recorded.
Context {M : Type} `{MediciEntry M} `{!MediciLaws M}.
Context (MainBook_entry : string -> M).
Context (bankOwner dealerBtc dealerUsd : WalletId).
Context (Hnew : ∀ d, transactions (MainBook_entry d) = []).

(** A user's wallet: none of the bank's. *)
Definition user_wallet (w : WalletDescriptor) : Prop := w.(w_id) ∉ [bankOwner; dealerBtc; dealerUsd].

Definition ids : StaticAccountIds := {|
  bankOwnerAccountId := toLedgerAccountId bankOwner;
  dealerBtcAccountId := toLedgerAccountId dealerBtc;
  dealerUsdAccountId := toLedgerAccountId dealerUsd;
|}.

Lemma user_account w b : user_wallet w -> b.(eb_staticAccountIds) = ids ->
  toLedgerAccountId w.(w_id) ∉ bank_accounts b.
Proof using.
  unfold user_wallet, bank_accounts. intros Hw ->. rewrite !not_elem_of_cons in *. cbn [ids].
  destruct Hw as (? & ? & ? & _). split_and!; try (intros ?%toLedgerAccountId_inj; done). apply not_elem_of_nil.
Qed.

Lemma asset_not_bank a b :
  a ∈ [lndLedgerAccountId; onChainLedgerAccountId; coldStorageAccountId] ->
  b.(eb_staticAccountIds) = ids -> a ∉ bank_accounts b.
Proof using.
  unfold bank_accounts. intros Ha ->. cbn [ids]. rewrite !elem_of_cons, elem_of_nil.
  intros [Hx|[Hx|[Hx|[]]]]; symmetry in Hx; by eapply toLedgerAccountId_not_asset in Hx.
Qed.

(** An intraledger entry balances and moves the payment from the sender to the recipient. *)
Lemma intraledger_nets description sender recipient amt md dmd cmd imd :
  valid_pair amt -> sender.(w_id) ≠ recipient.(w_id) -> user_wallet sender -> user_wallet recipient ->
  let e := intraledger_entry MainBook_entry ids description sender recipient amt md dmd cmd imd in
  balanced e ∧
  account_net (toLedgerAccountId sender.(w_id)) sender.(w_currency) (transactions e)
    = amount_in amt sender.(w_currency) ∧
  account_net (toLedgerAccountId recipient.(w_id)) recipient.(w_currency) (transactions e)
    = - amount_in amt recipient.(w_currency).
Proof using Hnew MediciLaws0.
  intros Hamt Hne Hs Hr. cbn zeta.
  set (b := EntryBuilder_withTotalAmount ids None md imd amt.(usd) amt.(btc)).
  set (S := toLedgerAccountDescriptor sender). set (R := toLedgerAccountDescriptor recipient).
  assert (Hok : entry_amounts b.(eb_usdWithFees) b.(eb_btcWithFees) ZERO_BANK_FEE).
  { destruct Hamt as (? & ? & ? & ?). apply (entry_amounts_fee _ _ no_fee); by cbn. }
  change (intraledger_entry _ _ _ _ _ _ _ _ _ _)
    with (chain b ZERO_BANK_FEE S (Some dmd) R (Some cmd) (MainBook_entry description)).
  split; [intros c; rewrite chain_net by done; by rewrite Hnew|].
  assert (Hne' : la_id S ≠ la_id R) by (intros ?%toLedgerAccountId_inj; done).
  split.
  - etrans; [apply (chain_accounts b _ Hok S (Some dmd) R (Some cmd) _ (la_id S)); rewrite ?Hnew; try done;
      by apply user_account|]. subst S. cbn. by destruct (w_currency sender).
  - etrans; [apply (chain_accounts b _ Hok S (Some dmd) R (Some cmd) _ (la_id R)); rewrite ?Hnew; try done;
      by apply user_account|]. subst R. cbn. destruct (w_currency recipient); cbn; lia.
Qed.

(** A Lightning or on-chain send debits the amount charged from the sender and credits the asset
    account with the sats charged less the bank fee. *)
Lemma send_nets (offChain : bool) description sender amt fee md dmd imd :
  valid_pair amt -> valid_fee fee -> user_wallet sender ->
  let asset := if offChain then lndLedgerAccountId else onChainLedgerAccountId in
  let e := send_entry MainBook_entry offChain ids description sender amt fee md dmd imd in
  balanced e ∧
  account_net (toLedgerAccountId sender.(w_id)) sender.(w_currency) (transactions e)
    = amount_in amt sender.(w_currency) ∧
  account_net asset Btc (transactions e)
    = - (amt.(btc).(amount) - (default no_fee fee).(btc).(amount)).
Proof using Hnew MediciLaws0.
  intros Hamt Hfee Hs. cbn zeta.
  apply valid_fee_default in Hfee as [Hf Hboth]. destruct Hamt as (? & ? & ? & ?).
  set (f := default no_fee fee) in *.
  set (b := EntryBuilder_withTotalAmount ids None md imd amt.(usd) amt.(btc)).
  set (S := toLedgerAccountDescriptor sender).
  set (A := if offChain then lndLedgerAccountDescriptor else onChainLedgerAccountDescriptor).
  assert (Hok : entry_amounts b.(eb_usdWithFees) b.(eb_btcWithFees) (bank_fee f))
    by (by apply entry_amounts_fee).
  replace (send_entry _ _ _ _ _ _ _ _ _ _)
    with (chain b (bank_fee f) S (Some dmd) A (Some imd) (MainBook_entry description))
    by (by destruct offChain).
  split; [intros c; rewrite chain_net by done; by rewrite Hnew|].
  assert (HA : la_id A ∈ [lndLedgerAccountId; onChainLedgerAccountId; coldStorageAccountId]).
  { destruct offChain; set_solver. }
  assert (Hne' : la_id S ≠ la_id A) by (by apply toLedgerAccountId_not_asset).
  split.
  - etrans; [apply (chain_accounts b _ Hok S (Some dmd) A (Some imd) _ (la_id S)); rewrite ?Hnew; try done;
      by apply user_account|]. subst S. cbn. by destruct (w_currency sender).
  - replace (if offChain then _ else _) with (la_id A) by (by destruct offChain).
    assert (HB : la_currency A = Btc) by (by destruct offChain). rewrite <- HB at 1.
    etrans; [apply (chain_accounts b _ Hok S (Some dmd) A (Some imd) _ (la_id A)); rewrite ?Hnew; try done|].
    + by apply asset_not_bank.
    + by rewrite HB.
Qed.

(** Every transaction of a receipt has the fields of its metadata that nothing overrides. *)
Lemma receive_field (offChain : bool) acc description recipient amt fee ext md cmd imd key v :
  key ≠ "currency" -> key ≠ "external_id" -> md !! key = Some v -> cmd !! key = None -> imd !! key = None ->
  Forall (fun tx => tx.(tx_meta) !! key = Some v)
    (transactions (receive_entry MainBook_entry offChain acc description recipient amt fee ext md cmd imd)).
Proof using Hnew MediciLaws0.
  intros Hk1 Hk2 Hm Hc Hi.
  assert (Hs : ∀ x c b, x !! key = None -> with_currency b (spread md x) c !! key = Some v).
  { intros x c b Hx. unfold with_currency, spread. rewrite !lookup_union_r; [done|done|].
    by rewrite !lookup_insert_ne. }
  unfold receive_entry, creditAccount, removeZeroAmountEntries. rewrite set_transactions_transactions.
  apply Forall_sub_filter. rewrite credit_transactions. apply Forall_app. split; [|by repeat constructor; apply Hs].
  unfold addDealerDebitsAndCredits, addUsdToBtcConversionToDealer, addBtcToUsdConversionToDealer,
    debitOffChain, debitOnChain, debitAccount, withBankFee.
  repeat case_match; repeat (rewrite ?credit_transactions, ?debit_transactions, ?Hnew, ?Forall_app);
    repeat split; repeat constructor; by apply Hs.
Qed.

Lemma receive_pending (offChain : bool) acc description recipient amt fee ext md cmd imd p :
  md !! "pending" = Some p -> cmd !! "pending" = None -> imd !! "pending" = None ->
  Forall (fun tx => tx.(tx_meta) !! "pending" = Some p)
    (transactions (receive_entry MainBook_entry offChain acc description recipient amt fee ext md cmd imd)).
Proof using Hnew MediciLaws0. by apply receive_field. Qed.

(** A Lightning or on-chain receipt credits the recipient, the bank fee being added on top of it
    in the asset account's debit. *)
Lemma receive_nets (offChain : bool) description recipient amt fee ext md cmd imd :
  valid_pair amt -> valid_fee fee -> user_wallet recipient ->
  (∀ c, amount_in amt c + amount_in (default no_fee fee) c < 2 ^ 53) ->
  let asset := if offChain then lndLedgerAccountId else onChainLedgerAccountId in
  let e := receive_entry MainBook_entry offChain ids description recipient amt fee ext md cmd imd in
  balanced e ∧
  account_net (toLedgerAccountId recipient.(w_id)) recipient.(w_currency) (transactions e)
    = - amount_in amt recipient.(w_currency) ∧
  account_net asset Btc (transactions e)
    = amt.(btc).(amount) + (default no_fee fee).(btc).(amount).
Proof using Hnew MediciLaws0.
  intros Hamt Hfee Hr Hsum. cbn zeta.
  apply valid_fee_default in Hfee as [Hf Hboth]. destruct Hamt as (? & ? & ? & ?).
  pose proof (Hsum Usd) as HsU. pose proof (Hsum Btc) as HsB. cbn in HsU, HsB.
  set (f := default no_fee fee) in *.
  set (b := EntryBuilder_withTotalAmount ids ext md imd
    (AmountCalculator.add amt.(usd) f.(usd)) (AmountCalculator.add amt.(btc) f.(btc))).
  set (R := toLedgerAccountDescriptor recipient).
  set (A := if offChain then lndLedgerAccountDescriptor else onChainLedgerAccountDescriptor).
  assert (Hok : entry_amounts b.(eb_usdWithFees) b.(eb_btcWithFees) (bank_fee f)).
  { pose proof Hf as (? & ? & ? & ?). apply entry_amounts_fee; cbn; try done; lia. }
  assert (HB : la_currency A = Btc) by (by destruct offChain).
  replace (receive_entry _ _ _ _ _ _ _ _ _ _ _)
    with (chain b (bank_fee f) A (Some imd) R (Some cmd) (MainBook_entry description))
    by (unfold chain; rewrite HB; by destruct offChain).
  split; [intros c; rewrite chain_net by done; by rewrite Hnew|].
  assert (HA : la_id A ∈ [lndLedgerAccountId; onChainLedgerAccountId; coldStorageAccountId]).
  { destruct offChain; set_solver. }
  assert (Hne' : la_id A ≠ la_id R).
  { intros Hx. symmetry in Hx. by apply toLedgerAccountId_not_asset in Hx. }
  split.
  - etrans; [apply (chain_accounts b _ Hok A (Some imd) R (Some cmd) _ (la_id R)); rewrite ?Hnew; try done;
      by apply user_account|]. subst R b. cbn. destruct (w_currency recipient); cbn; lia.
  - replace (if offChain then _ else _) with (la_id A) by (by destruct offChain). rewrite <- HB at 1.
    etrans; [apply (chain_accounts b _ Hok A (Some imd) R (Some cmd) _ (la_id A)); rewrite ?Hnew; try done|].
    + by apply asset_not_bank.
    + by rewrite HB.
Qed.

(** The entry that reconciles an on-chain fee balances; what it moves is exact where a float holds the difference. *)
Lemma fee_reconciliation_nets estimatedFee actualFee md : estimatedFee.(currency) = Btc -> actualFee.(currency) = Btc ->
  let txs := transactions (fee_reconciliation_entry MainBook_entry ids estimatedFee actualFee md) in
  (∀ c, net c txs = 0) ∧
  (safe_integer (actualFee.(amount) - estimatedFee.(amount)) ->
   account_net (toLedgerAccountId bankOwner) Btc txs = actualFee.(amount) - estimatedFee.(amount) ∧
   account_net onChainLedgerAccountId Btc txs = estimatedFee.(amount) - actualFee.(amount)).
Proof.
  intros He Ha. cbn zeta. unfold fee_reconciliation_entry.
  assert (Hcur : ∀ f a d k c, f.(currency) = Btc ->
    tx_net c {| tx_account := a; tx_debit := d; tx_credit := k; tx_meta := fee_metadata md f |}
    = if decide (c = Btc) then amount_of d - amount_of k else 0).
  { intros f a d k c Hf. unfold tx_net, in_currency, fee_metadata, spread. cbn [tx_meta tx_debit tx_credit].
    rewrite (lookup_union_Some_l _ _ _ (MString (currency_code (currency f)))) by (by simplify_map_eq).
    rewrite Hf. by destruct c. }
  assert (Hne : toLedgerAccountId bankOwner ≠ onChainLedgerAccountId)
    by (apply toLedgerAccountId_not_asset; set_solver).
  assert (Hz := amount_of_Number 0 eq_refl). unfold safe_integer.
  assert (Hnum : ∀ z, -2 ^ 53 < z < 2 ^ 53 -> amount_of (Number z) = z)
    by (intros; apply amount_of_Number; unfold safe_integer; lia).
  destruct (Z.ltb_spec estimatedFee.(amount) actualFee.(amount));
    unfold fee_creditOnChain, fee_debitBankOwner, fee_creditBankOwner, fee_debitOnChain,
      fee_creditAccount, fee_debitAccount; cbn [la_id ids bankOwnerAccountId onChainLedgerAccountDescriptor];
    rewrite credit_transactions, debit_transactions, Hnew; cbn [app];
    change [?x; ?y] with ([x] ++ [y]);
    (split; [intros c; rewrite net_app, !net_single, !Hcur by done; case_decide; lia|intros Hs]);
    rewrite ?account_net_app, ?account_net_single;
    cbn [tx_account]; rewrite ?Hcur by done; rewrite Hz; cbn [AmountCalculator.sub amount];
    rewrite ?Hnum by lia; repeat case_decide; simplify_eq; try done; lia.
Qed.

(** The entry built to reconcile an on-chain fee balances and moves exactly the
    difference between the actual and the estimated fee from the bank owner's wallet to
    the on-chain account, in the direction of its sign. *)
Theorem feeReconciliation_balanced estimatedFee actualFee md
    (He : estimatedFee.(currency) = Btc ∧ 0 <= estimatedFee.(amount) < 2 ^ 53)
    (Ha : actualFee.(currency) = Btc ∧ 0 <= actualFee.(amount) < 2 ^ 53) :
  let txs := transactions (fee_reconciliation_entry MainBook_entry ids estimatedFee actualFee md) in
  (∀ c, net c txs = 0) ∧
  account_net (toLedgerAccountId bankOwner) Btc txs = actualFee.(amount) - estimatedFee.(amount) ∧
  account_net onChainLedgerAccountId Btc txs = estimatedFee.(amount) - actualFee.(amount).
Proof.
  destruct He as [He ?], Ha as [Ha ?]. cbn zeta. destruct (fee_reconciliation_nets estimatedFee actualFee md) as [Hb Hm]; [done..|].
  split; [exact Hb|]. apply Hm. unfold safe_integer. lia.
Qed.

End Recorded.

Module LedgerExamples.

Definition new_entry (_ : string) : list MediciTransaction := [].
Definition save (e : list MediciTransaction) : result string SavedEntry :=
  Ok {| saved_id := "journal"; saved_voided := None; saved_transactions := map tx_account e |}.
Definition alice : WalletDescriptor := {| w_id := "alice"; w_currency := Usd; w_accountId := "a" |}.
Definition bob : WalletDescriptor := {| w_id := "bob"; w_currency := Btc; w_accountId := "b" |}.
Definition amt : AmountPair := {| btc := BtcPaymentAmount 50000; usd := UsdPaymentAmount 1500 |}.
Definition fee : option AmountPair := Some {| btc := BtcPaymentAmount 200; usd := UsdPaymentAmount 6 |}.

Lemma new_entry_empty d : transactions (new_entry d) = [].
Proof. done. Qed.

Lemma amt_valid : valid_pair amt.
Proof. by repeat split. Qed.

Lemma fee_valid : valid_fee fee.
Proof. intros f [= <-]. by repeat split. Qed.

Lemma user_alice : user_wallet "bank" "dealer-btc" "dealer-usd" alice.
Proof. unfold user_wallet. cbn. set_solver. Qed.

Lemma user_bob : user_wallet "bank" "dealer-btc" "dealer-usd" bob.
Proof. unfold user_wallet. cbn. set_solver. Qed.

Lemma feeReconciliation_balanced_witness :
  account_net (toLedgerAccountId "bank") Btc
    (fee_reconciliation_entry new_entry (ids "bank" "dealer-btc" "dealer-usd")
       (BtcPaymentAmount 300) (BtcPaymentAmount 250) ∅) = -50.
Proof.
  refine (proj1 (proj2 (feeReconciliation_balanced new_entry "bank" "dealer-btc" "dealer-usd"
    new_entry_empty (BtcPaymentAmount 300) (BtcPaymentAmount 250) ∅ _ _))); (split; [reflexivity|cbn; lia]).
Defined.

End LedgerExamples.
