(* ===== verification/TxMetadata.v ===== *)
(** * Ledger transaction metadata

    Models [services/ledger/facade/tx-metadata.ts] and the transaction types of
    [domain/ledger/index.ts]: the metadata recorded on the debited side, the credited side and
    the bank's own side of each kind of payment.  An object literal is the map of its
    fields. *)

From S2P Require Import Prelude JsNumber Shared Prices Fees LedgerEntry.

Inductive LedgerTransactionType :=
| Invoice | Payment | LnFeeReimbursement | OnchainReceipt | OnchainPayment
| IntraLedger | LnIntraLedger | OnchainIntraLedger
| WalletIdTradeIntraAccount | LnTradeIntraAccount | OnChainTradeIntraAccount
| Fee | ToColdStorage | ToHotWallet | EscrowType | RoutingRevenue | Reconciliation.

#[export] Instance LedgerTransactionType_eq_dec : EqDecision LedgerTransactionType.
Proof. solve_decision. Defined.

Definition type_code (t : LedgerTransactionType) : string :=
  match t with
  | Invoice => "invoice"
  | Payment => "payment"
  | LnFeeReimbursement => "fee_reimbursement"
  | OnchainReceipt => "onchain_receipt"
  | OnchainPayment => "onchain_payment"
  | IntraLedger => "on_us"
  | LnIntraLedger => "ln_on_us"
  | OnchainIntraLedger => "onchain_on_us"
  | WalletIdTradeIntraAccount => "self_trade"
  | LnTradeIntraAccount => "ln_self_trade"
  | OnChainTradeIntraAccount => "onchain_self_trade"
  | Fee => "fee"
  | ToColdStorage => "to_cold_storage"
  | ToHotWallet => "to_hot_wallet"
  | EscrowType => "escrow"
  | RoutingRevenue => "routing_fee"
  | Reconciliation => "reconciliation"
  end.

Definition isOnChainTransaction (t : LedgerTransactionType) : bool :=
  bool_decide (t = OnchainIntraLedger) || bool_decide (t = OnChainTradeIntraAccount) ||
  bool_decide (t = OnchainReceipt) || bool_decide (t = OnchainPayment).

(** [{ k1: v1, k2: v2, ... }]; a later field of the same name wins. *)
Definition obj (fields : list (string * MetaValue)) : TxMetadata := list_to_map (reverse fields).

Record DisplayTxnAmounts := mkDisplayTxn {
  dt_displayAmount : number;
  dt_displayFee : number;
  dt_displayCurrency : DisplayCurrency;
}.

(** A [DisplayTxnAmounts] object as metadata. *)
Definition display_meta (d : DisplayTxnAmounts) : TxMetadata :=
  obj [("displayAmount", MNumber d.(dt_displayAmount)); ("displayFee", MNumber d.(dt_displayFee));
       ("displayCurrency", MString d.(dt_displayCurrency))].

(** The display arguments of a payment between two users. *)
Record DisplayArgs := mkDisplayArgs {
  senderAmountDisplayCurrency : number;
  senderFeeDisplayCurrency : number;
  senderDisplayCurrency : DisplayCurrency;
  recipientAmountDisplayCurrency : number;
  recipientFeeDisplayCurrency : number;
  recipientDisplayCurrency : DisplayCurrency;
}.

(** The sender's and the recipient's display amounts. *)
Definition displayArgsFromArgs (a : DisplayArgs) : DisplayTxnAmounts * DisplayTxnAmounts :=
  ({| dt_displayAmount := a.(senderAmountDisplayCurrency);
      dt_displayFee := a.(senderFeeDisplayCurrency);
      dt_displayCurrency := a.(senderDisplayCurrency) |},
   {| dt_displayAmount := a.(recipientAmountDisplayCurrency);
      dt_displayFee := a.(recipientFeeDisplayCurrency);
      dt_displayCurrency := a.(recipientDisplayCurrency) |}).

(** The display arguments of a trade within an account, which has the sender's only. *)
Record SenderDisplayArgs := mkSenderDisplayArgs {
  s_senderAmountDisplayCurrency : number;
  s_senderFeeDisplayCurrency : number;
  s_senderDisplayCurrency : DisplayCurrency;
}.

Definition tradeDisplayArgs (a : SenderDisplayArgs) : DisplayArgs := {|
  senderAmountDisplayCurrency := a.(s_senderAmountDisplayCurrency);
  senderFeeDisplayCurrency := a.(s_senderFeeDisplayCurrency);
  senderDisplayCurrency := a.(s_senderDisplayCurrency);
  recipientFeeDisplayCurrency := a.(s_senderFeeDisplayCurrency);
  recipientAmountDisplayCurrency := a.(s_senderAmountDisplayCurrency);
  recipientDisplayCurrency := a.(s_senderDisplayCurrency);
|}.

Definition internalMetadataAmounts (centsAmount centsFee : Z) : DisplayTxnAmounts := {|
  dt_displayAmount := Number centsAmount;
  dt_displayFee := Number centsFee;
  dt_displayCurrency := UsdDisplayCurrency;
|}.

(** The debited or credited side's amounts, and the bank's. *)
Definition debitOrCreditMetadataAmounts (centsAmount centsFee : Z) (d : DisplayTxnAmounts)
    : DisplayTxnAmounts * DisplayTxnAmounts :=
  let walletUsdAmount := Number centsAmount in
  let walletUsdFee := Number centsFee in
  let is_usd := bool_decide (d.(dt_displayCurrency) = UsdDisplayCurrency) in
  let resultDisplayAmount := if is_usd then walletUsdAmount else d.(dt_displayAmount) in
  let resultDisplayFee := if is_usd then walletUsdFee else d.(dt_displayFee) in
  ({| dt_displayAmount := resultDisplayAmount; dt_displayFee := resultDisplayFee;
      dt_displayCurrency := d.(dt_displayCurrency) |},
   internalMetadataAmounts centsAmount centsFee).

(** The debited side, the credited side and the bank's. *)
Definition additionalMetadataAmounts (centsAmount centsFee : Z) (sender recipient : DisplayTxnAmounts)
    : DisplayTxnAmounts * DisplayTxnAmounts * DisplayTxnAmounts :=
  let '(debit, internal) := debitOrCreditMetadataAmounts centsAmount centsFee sender in
  let '(credit, _) := debitOrCreditMetadataAmounts centsAmount centsFee recipient in
  (debit, credit, internal).

(** The amount fields every payment's metadata carries. *)
Definition amount_fields (p : AmountsAndFees) : list (string * MetaValue) :=
  [("satsAmount", MNumber (toSats p.(aaf_btcPaymentAmount).(amount)));
   ("satsFee", MNumber (toSats p.(aaf_btcProtocolAndBankFee).(amount)));
   ("centsAmount", MNumber (toCents p.(aaf_usdPaymentAmount).(amount)));
   ("centsFee", MNumber (toCents p.(aaf_usdProtocolAndBankFee).(amount)))].

Definition type_field (t : LedgerTransactionType) : string * MetaValue := ("type", MString (type_code t)).

(** What a metadata constructor returns: the common metadata, what is added on the user's
    debited and credited sides, and what is added on the bank's accounts. *)
Record LedgerMetadata := mkLedgerMetadata {
  metadata : TxMetadata;
  debitAccountAdditionalMetadata : TxMetadata;
  creditAccountAdditionalMetadata : TxMetadata;
  internalAccountsAdditionalMetadata : TxMetadata;
}.

(** Constructors for a payment with one user side return it on that side only. *)
Definition debit_side (md : TxMetadata) (p : AmountsAndFees) (d : DisplayTxnAmounts) : LedgerMetadata :=
  let '(side, internal) :=
    debitOrCreditMetadataAmounts p.(aaf_usdPaymentAmount).(amount) p.(aaf_usdProtocolAndBankFee).(amount) d in
  {| metadata := md; debitAccountAdditionalMetadata := display_meta side;
     creditAccountAdditionalMetadata := ∅; internalAccountsAdditionalMetadata := display_meta internal |}.

Definition credit_side (md : TxMetadata) (p : AmountsAndFees) (d : DisplayTxnAmounts) : LedgerMetadata :=
  let '(side, internal) :=
    debitOrCreditMetadataAmounts p.(aaf_usdPaymentAmount).(amount) p.(aaf_usdProtocolAndBankFee).(amount) d in
  {| metadata := md; debitAccountAdditionalMetadata := ∅;
     creditAccountAdditionalMetadata := display_meta side;
     internalAccountsAdditionalMetadata := display_meta internal |}.

(** Both sides; [debit_fields] are added on the debited one. *)
Definition both_sides (md : TxMetadata) (p : AmountsAndFees) (displayArgs : DisplayArgs)
    (debit_fields : list (string * MetaValue)) : LedgerMetadata :=
  let '(sender, recipient) := displayArgsFromArgs displayArgs in
  let '(debit, credit, internal) :=
    additionalMetadataAmounts p.(aaf_usdPaymentAmount).(amount) p.(aaf_usdProtocolAndBankFee).(amount)
      sender recipient in
  {| metadata := md;
     debitAccountAdditionalMetadata := spread (display_meta debit) (obj debit_fields);
     creditAccountAdditionalMetadata := display_meta credit;
     internalAccountsAdditionalMetadata := display_meta internal |}.

(** ** Payments out *)

Definition LnSendLedgerMetadata (paymentHash : PaymentHash) (pubkey : Pubkey) (p : AmountsAndFees)
    (d : DisplayTxnAmounts) (feeKnownInAdvance : bool) (memoOfPayer : option string) : LedgerMetadata :=
  debit_side
    (obj ([type_field Payment; ("pending", MBool true); ("hash", MString paymentHash);
           ("pubkey", MString pubkey); ("feeKnownInAdvance", MBool feeKnownInAdvance);
           ("memoPayer", meta_opt memoOfPayer)] ++ amount_fields p)) p d.

Definition OnChainSendLedgerMetadata (p : AmountsAndFees) (d : DisplayTxnAmounts)
    (payeeAddresses : list OnChainAddress) (sendAll : bool) (memoOfPayer : option string) : LedgerMetadata :=
  debit_side
    (obj ([type_field OnchainPayment; ("pending", MBool true); ("hash", MUndefined);
           ("payee_addresses", MStrings payeeAddresses); ("sendAll", MBool sendAll);
           ("memoPayer", meta_opt memoOfPayer)] ++ amount_fields p)) p d.

(** ** Payments in *)

Definition OnChainReceiveLedgerMetadata (onChainTxHash : string) (onChainTxVout : number)
    (p : AmountsAndFees) (d : DisplayTxnAmounts) (payeeAddresses : list OnChainAddress)
    (newAddressRequestId : option string) : LedgerMetadata :=
  credit_side
    (obj ([type_field OnchainReceipt; ("pending", MBool false); ("hash", MString onChainTxHash);
           ("vout", MNumber onChainTxVout); ("payee_addresses", MStrings payeeAddresses);
           ("request_id", meta_opt newAddressRequestId)] ++ amount_fields p)) p d.

Definition LnReceiveLedgerMetadata (paymentHash : PaymentHash) (pubkey : Pubkey) (p : AmountsAndFees)
    (d : DisplayTxnAmounts) : LedgerMetadata :=
  credit_side
    (obj ([type_field Invoice; ("pending", MBool false); ("hash", MString paymentHash);
           ("pubkey", MString pubkey)] ++ amount_fields p)) p d.

Definition LnFeeReimbursementReceiveLedgerMetadata (p : AmountsAndFees) (paymentHash : PaymentHash)
    (journalId : string) (d : DisplayTxnAmounts) : LedgerMetadata :=
  credit_side
    (obj ([type_field LnFeeReimbursement; ("hash", MString paymentHash);
           ("related_journal", MString journalId); ("pending", MBool false)] ++ amount_fields p)) p d.

Definition LnFailedPaymentReceiveLedgerMetadata (p : AmountsAndFees) (paymentHash : PaymentHash)
    (journalId : string) (d : DisplayTxnAmounts) : LedgerMetadata :=
  credit_side
    (obj ([type_field Payment; ("hash", MString paymentHash);
           ("related_journal", MString journalId); ("pending", MBool false)] ++ amount_fields p)) p d.

(** ** Payments between two users *)

Definition OnChainIntraledgerLedgerMetadata (payeeAddresses : list OnChainAddress) (sendAll : bool)
    (p : AmountsAndFees) (memoOfPayer : option string) (senderUsername recipientUsername : option Username)
    (displayArgs : DisplayArgs) : LedgerMetadata :=
  both_sides
    (obj ([type_field OnchainIntraLedger; ("pending", MBool false); ("memoPayer", MUndefined);
           ("username", meta_opt senderUsername); ("payee_addresses", MStrings payeeAddresses);
           ("sendAll", MBool sendAll)] ++ amount_fields p)) p displayArgs
    [("memoPayer", meta_opt memoOfPayer); ("username", meta_opt recipientUsername)].

Definition WalletIdIntraledgerLedgerMetadata (p : AmountsAndFees) (memoOfPayer : option string)
    (senderUsername recipientUsername : option Username) (displayArgs : DisplayArgs)
    : LedgerMetadata :=
  both_sides
    (obj ([type_field IntraLedger; ("pending", MBool false); ("memoPayer", meta_opt memoOfPayer);
           ("username", meta_opt senderUsername)] ++ amount_fields p)) p displayArgs
    [("username", meta_opt recipientUsername)].

Definition LnIntraledgerLedgerMetadata (paymentHash : PaymentHash) (pubkey : Pubkey)
    (p : AmountsAndFees) (memoOfPayer : option string) (senderUsername recipientUsername : option Username)
    (displayArgs : DisplayArgs) : LedgerMetadata :=
  both_sides
    (obj ([type_field LnIntraLedger; ("pending", MBool false); ("memoPayer", MUndefined);
           ("username", meta_opt senderUsername); ("hash", MString paymentHash);
           ("pubkey", MString pubkey)] ++ amount_fields p)) p displayArgs
    [("memoPayer", meta_opt memoOfPayer); ("username", meta_opt recipientUsername)].

(** ** Trades between the wallets of one account: the recipient's display arguments are the
    sender's. *)

Definition OnChainTradeIntraAccountLedgerMetadata (payeeAddresses : list OnChainAddress)
    (sendAll : bool) (p : AmountsAndFees) (memoOfPayer : option string) (displayArgs : SenderDisplayArgs)
    : LedgerMetadata :=
  both_sides
    (obj ([type_field OnChainTradeIntraAccount; ("pending", MBool false); ("memoPayer", MUndefined);
           ("payee_addresses", MStrings payeeAddresses); ("sendAll", MBool sendAll)]
          ++ amount_fields p)) p (tradeDisplayArgs displayArgs)
    [("memoPayer", meta_opt memoOfPayer)].

Definition WalletIdTradeIntraAccountLedgerMetadata (p : AmountsAndFees) (memoOfPayer : option string)
    (displayArgs : SenderDisplayArgs) : LedgerMetadata :=
  both_sides
    (obj ([type_field WalletIdTradeIntraAccount; ("pending", MBool false);
           ("memoPayer", meta_opt memoOfPayer)] ++ amount_fields p)) p (tradeDisplayArgs displayArgs) [].

Definition LnTradeIntraAccountLedgerMetadata (paymentHash : PaymentHash) (pubkey : Pubkey)
    (p : AmountsAndFees) (memoOfPayer : option string) (displayArgs : SenderDisplayArgs) : LedgerMetadata :=
  both_sides
    (obj ([type_field LnTradeIntraAccount; ("pending", MBool false); ("memoPayer", MUndefined);
           ("hash", MString paymentHash); ("pubkey", MString pubkey)] ++ amount_fields p))
    p (tradeDisplayArgs displayArgs) [("memoPayer", meta_opt memoOfPayer)].

(** ** The bank's own entries *)

Definition OnChainFeeReconciliationLedgerMetadata (payoutId txHash : string) (pending : bool) : TxMetadata :=
  obj [type_field OnchainPayment; ("pending", MBool pending); ("payout_id", MString payoutId);
       ("hash", MString txHash)].

Definition LnChannelOpenOrClosingFee (txId : string) : TxMetadata :=
  obj [type_field Fee; ("pending", MBool false); ("txid", MString txId)].

Definition Escrow : TxMetadata := obj [type_field EscrowType; ("pending", MBool false)].

(** [collectedOn.toDateString()] is passed as a string. *)
Definition LnRoutingRevenue (collectedOn : string) : TxMetadata :=
  obj [type_field RoutingRevenue; ("feesCollectedOn", MString collectedOn); ("pending", MBool false)].

(** ** Who sees what

    The metadata on each transaction of an entry between two users. *)

Section Visibility.
Context {M : Type} `{MediciLaws M} (MainBook_entry : string -> M)
  (new_entry : ∀ d, transactions (MainBook_entry d) = []).

Lemma credit_Forall (P : MediciTransaction -> Prop) a n md (e : M) :
  P {| tx_account := a; tx_debit := Number 0; tx_credit := n; tx_meta := md |} ->
  Forall P (transactions e) -> Forall P (transactions (credit a n md e)).
Proof. rewrite credit_transactions, Forall_app, Forall_singleton. by split. Qed.

Lemma debit_Forall (P : MediciTransaction -> Prop) a n md (e : M) :
  P {| tx_account := a; tx_debit := n; tx_credit := Number 0; tx_meta := md |} ->
  Forall P (transactions e) -> Forall P (transactions (debit a n md e)).
Proof. rewrite debit_transactions, Forall_app, Forall_singleton. by split. Qed.

Lemma removeZero_Forall (P : MediciTransaction -> Prop) (e : M) :
  Forall P (transactions e) -> Forall P (transactions (removeZeroAmountEntries e)).
Proof.
  intros HP. unfold removeZeroAmountEntries. rewrite set_transactions_transactions.
  by apply Forall_sub_filter.
Qed.

(** A property of every transaction of an entry between two users follows from the property
    of its debited, credited and dealer transactions. *)
Lemma intraledger_Forall (P : MediciTransaction -> Prop) ids description sender recipient amt md dmd cmd imd :
  let b := EntryBuilder_withTotalAmount ids None md imd amt.(usd) amt.(btc) in
  (∀ d k c, P {| tx_account := toLedgerAccountId sender.(w_id); tx_debit := d; tx_credit := k;
                 tx_meta := with_currency b (spread md dmd) c |}) ->
  (∀ d k c, P {| tx_account := toLedgerAccountId recipient.(w_id); tx_debit := d; tx_credit := k;
                 tx_meta := with_currency b (spread md cmd) c |}) ->
  (∀ a d k c, a ∈ [ids.(dealerBtcAccountId); ids.(dealerUsdAccountId)] ->
     P {| tx_account := a; tx_debit := d; tx_credit := k;
          tx_meta := with_currency b (spread md imd) c |}) ->
  Forall P (transactions (intraledger_entry MainBook_entry ids description sender recipient amt md dmd cmd imd)).
Proof.
  intros b Hs Hr Hd. unfold intraledger_entry, creditAccount. fold b. cbn zeta.
  apply removeZero_Forall, credit_Forall; [apply Hr|].
  assert (Hbase : Forall P (transactions (debitAccount b (toLedgerAccountDescriptor sender) (Some dmd)
     (withBankFee b ZERO_BANK_FEE (MainBook_entry description))))).
  { unfold debitAccount, withBankFee. cbn.
    case_decide; (apply debit_Forall; [apply Hs|]); by rewrite new_entry. }
  unfold addDealerDebitsAndCredits, addUsdToBtcConversionToDealer, addBtcToUsdConversionToDealer.
  destruct sender.(w_currency), (la_currency _); cbn; try done;
    repeat first [apply credit_Forall | apply debit_Forall]; try done; apply Hd; set_solver.
Qed.

(** Fields the builder does not set itself are those of the metadata it was given. *)
Lemma with_currency_lookup b md side c k : k ≠ "currency" -> k ≠ "external_id" ->
  with_currency b (spread md side) c !! k = match side !! k with Some v => Some v | None => md !! k end.
Proof.
  intros Hc Hx. unfold with_currency, spread.
  rewrite lookup_union_r by (rewrite !lookup_insert_ne by done; apply lookup_empty).
  rewrite lookup_union. by destruct (side !! k), (md !! k).
Qed.

(** The metadata of a Lightning or on-chain payment between two users of the bank. *)
Inductive invoice_or_address_payment (p : AmountsAndFees) (memoOfPayer : option string)
    (senderUsername recipientUsername : option Username) (displayArgs : DisplayArgs)
    : LedgerMetadata -> Prop :=
| by_invoice paymentHash pubkey :
    invoice_or_address_payment p memoOfPayer senderUsername recipientUsername displayArgs
      (LnIntraledgerLedgerMetadata paymentHash pubkey p memoOfPayer senderUsername recipientUsername displayArgs)
| by_address payeeAddresses sendAll :
    invoice_or_address_payment p memoOfPayer senderUsername recipientUsername displayArgs
      (OnChainIntraledgerLedgerMetadata payeeAddresses sendAll p memoOfPayer senderUsername
         recipientUsername displayArgs).

(** C25. When a user pays another user's invoice or address, the recorded entry keeps the
    payer's memo to the payer: the transaction on the sender's account carries the memo and
    names the recipient, every other transaction carries an undefined memo, and the
    recipient's names the sender. *)
Theorem payer_memo_private p memo senderUsername recipientUsername displayArgs lm
    ids description sender recipient amt tx
    (Hlm : invoice_or_address_payment p memo senderUsername recipientUsername displayArgs lm)
    (Hs : toLedgerAccountId sender.(w_id) ∉ [ids.(dealerBtcAccountId); ids.(dealerUsdAccountId)])
    (Hr : toLedgerAccountId recipient.(w_id) ∉ [ids.(dealerBtcAccountId); ids.(dealerUsdAccountId)])
    (Hne : sender.(w_id) ≠ recipient.(w_id))
    (Hin : tx ∈ transactions (intraledger_entry MainBook_entry ids description sender recipient amt
       lm.(metadata) lm.(debitAccountAdditionalMetadata) lm.(creditAccountAdditionalMetadata)
       lm.(internalAccountsAdditionalMetadata))) :
  (tx.(tx_account) = toLedgerAccountId sender.(w_id) ->
     tx.(tx_meta) !! "memoPayer" = Some (meta_opt memo) ∧
     tx.(tx_meta) !! "username" = Some (meta_opt recipientUsername)) ∧
  (tx.(tx_account) ≠ toLedgerAccountId sender.(w_id) ->
     tx.(tx_meta) !! "memoPayer" = Some MUndefined) ∧
  (tx.(tx_account) = toLedgerAccountId recipient.(w_id) ->
     tx.(tx_meta) !! "username" = Some (meta_opt senderUsername)).
Proof.
  assert (Hne' : toLedgerAccountId sender.(w_id) ≠ toLedgerAccountId recipient.(w_id))
    by (by intros ?%toLedgerAccountId_inj).
  revert tx Hin. apply Forall_forall.
  destruct Hlm; (apply intraledger_Forall; cbn [tx_account tx_meta];
    [intros d k c | intros d k c | intros a d k c Ha]; rewrite !with_currency_lookup by done);
    repeat split; intros; first [reflexivity | congruence | subst; contradiction].
Qed.

End Visibility.

Module MetadataExamples.

Definition ids : StaticAccountIds := {|
  bankOwnerAccountId := toLedgerAccountId "bank";
  dealerBtcAccountId := toLedgerAccountId "dealer-btc";
  dealerUsdAccountId := toLedgerAccountId "dealer-usd";
|}.

Definition amounts : AmountsAndFees := {|
  aaf_btcPaymentAmount := BtcPaymentAmount 50000; aaf_usdPaymentAmount := UsdPaymentAmount 1500;
  aaf_btcProtocolAndBankFee := ZERO_SATS; aaf_usdProtocolAndBankFee := ZERO_CENTS;
|}.

Definition display_args : DisplayArgs := {|
  senderAmountDisplayCurrency := Number 1400; senderFeeDisplayCurrency := Number 0;
  senderDisplayCurrency := "EUR";
  recipientAmountDisplayCurrency := Number 1500; recipientFeeDisplayCurrency := Number 0;
  recipientDisplayCurrency := UsdDisplayCurrency;
|}.

Definition lm : LedgerMetadata :=
  LnIntraledgerLedgerMetadata "hash" "pubkey" amounts (Some "rent") (Some "alice") (Some "bob") display_args.

Definition entry : list MediciTransaction :=
  intraledger_entry LedgerExamples.new_entry ids "" LedgerExamples.alice LedgerExamples.bob
    LedgerExamples.amt lm.(metadata) lm.(debitAccountAdditionalMetadata)
    lm.(creditAccountAdditionalMetadata) lm.(internalAccountsAdditionalMetadata).

(** The last transaction of the entry credits the recipient. *)
Lemma payer_memo_private_witness :
  match last entry with
  | Some tx => tx.(tx_account) = toLedgerAccountId "bob" ∧
      tx.(tx_meta) !! "memoPayer" = Some MUndefined ∧
      tx.(tx_meta) !! "username" = Some (MString "alice")
  | None => False
  end.
Proof.
  destruct (last entry) as [tx|] eqn:Hl; [|by vm_compute in Hl].
  assert (Ha : tx.(tx_account) = toLedgerAccountId "bob")
    by (apply (f_equal (fmap tx_account)) in Hl; vm_compute in Hl; injection Hl as Ha; symmetry; exact Ha).
  destruct (payer_memo_private LedgerExamples.new_entry LedgerExamples.new_entry_empty amounts (Some "rent")
    (Some "alice") (Some "bob") display_args lm ids "" LedgerExamples.alice LedgerExamples.bob
    LedgerExamples.amt tx (by_invoice _ _ _ _ _ "hash" "pubkey")
    ltac:(by vm_compute; set_solver) ltac:(by vm_compute; set_solver) ltac:(done)
    (last_Some_elem_of _ _ Hl)) as (_ & Hm & Hu).
  split; [exact Ha|]. split; [apply Hm | apply Hu]; rewrite Ha; done.
Defined.

End MetadataExamples.
