(* ===== verification/LedgerTx.v ===== *)
(** * Ledger transactions and the state of a Lightning payment

    Models [LedgerTransaction] and the helpers of [domain/ledger], the translation of stored
    documents in [services/ledger/translate.ts], and [domain/ledger/ln-payment-state.ts], which
    finds the state of a Lightning payment from the transactions recorded for its hash.  The
    history of a payment (its attempts, their failure, success and reimbursement) is a step
    relation, and the state found is the history's. *)

From Stdlib Require Import Sorted.
From S2P Require Import Prelude JsNumber Shared Prices Fees LedgerEntry TxMetadata.

Inductive LnPaymentState :=
| LnPending | LnPendingAfterRetry | LnSuccess | LnSuccessWithReimbursement
| LnSuccessAfterRetry | LnSuccessWithReimbursementAfterRetry
| LnFailed | LnFailedAfterRetry | LnFailedAfterSuccess | LnFailedAfterSuccessWithReimbursement.

#[export] Instance LnPaymentState_eq_dec : EqDecision LnPaymentState.
Proof. solve_decision. Defined.

Record LedgerTransaction := mkLedgerTransaction {
  lt_id : string;
  lt_walletId : option WalletId;
  lt_type : LedgerTransactionType;
  lt_debit : number;
  lt_credit : number;
  lt_currency : WalletCurrency;
  lt_timestamp : Z;
  lt_pendingConfirmation : bool;
  lt_journalId : string;
  lt_externalId : option LedgerExternalId;
  lt_lnMemo : option string;
  lt_recipientWalletId : option WalletId;
  lt_username : option Username;
  lt_memoFromPayer : option string;
  lt_paymentHash : option PaymentHash;
  lt_pubkey : option Pubkey;
  lt_feeKnownInAdvance : bool;
  lt_lnPaymentState : option LnPaymentState;
  lt_revealedPreImage : option string;
  lt_satsAmount : option number;
  lt_centsAmount : option number;
  lt_satsFee : option number;
  lt_centsFee : option number;
  lt_displayAmount : option number;
  lt_displayFee : option number;
  lt_displayCurrency : option DisplayCurrency;
  lt_address : option OnChainAddress;
  lt_txHash : option string;
  lt_vout : option number;
  lt_requestId : option string;
  lt_payoutId : option string;
  lt_fee : option number;
  lt_usd : option number;
  lt_feeUsd : option number;
}.

(** ** [LnPaymentStateDeterminator] *)

Abbreviation len l := (Z.of_nat (length l)).

Definition isDebit (txn : LedgerTransaction) : bool :=
  num_ltb (Number 0) (if truthy txn.(lt_debit) then txn.(lt_debit) else Number 0).

(** The dump of the transactions that follows the message of an error is left out. *)
Definition checkTxns (txns : list LedgerTransaction) : Result unit :=
  match filter (fun txn => txn.(lt_type) ∉ [Payment; LnFeeReimbursement; Invoice]) txns with
  | txn :: _ => Err (InvalidLnPaymentTxnsBundleError
                       ("Invalid '" ++ type_code txn.(lt_type) ++ "' type found")%string)
  | [] =>
      match txns with
      | [] => Err (InvalidLnPaymentTxnsBundleError "No txns in bundle")
      | _ => Ok tt
      end
  end.

Definition filterSelfPayments (txns : list LedgerTransaction) : Result (list LedgerTransaction) :=
  let invoiceTxns := filter (fun tx => tx.(lt_type) = Invoice) txns in
  let paymentTxns := filter (fun tx => tx.(lt_type) = Payment) txns in
  if (0 <? len invoiceTxns) && (len paymentTxns =? 0) then
    Err (InvalidLnPaymentTxnsBundleError
           "Invalid 'invoice' type found with no corresponding payments")
  else Ok (filter (fun tx => tx.(lt_type) ≠ Invoice) txns).

(** [Array.prototype.sort] is stable: equal timestamps keep their order. *)
Fixpoint insert_desc (tx : LedgerTransaction) (txns : list LedgerTransaction) : list LedgerTransaction :=
  match txns with
  | [] => [tx]
  | y :: ys => if y.(lt_timestamp) <=? tx.(lt_timestamp) then tx :: txns else y :: insert_desc tx ys
  end.

Definition sortTxnsByTimestampDesc (txns : list LedgerTransaction) : list LedgerTransaction :=
  foldr insert_desc [] txns.

(** The decision of [determine] on the sorted transactions. *)
Definition determine_sorted (txns : list LedgerTransaction) : Result LnPaymentState :=
  let n := len txns in
  let pendingTxns := filter (fun tx => tx.(lt_pendingConfirmation) = true) txns in
  if negb (len pendingTxns =? 0) then
    if n =? 1 then Ok LnPending
    else if (Z.rem n 2 =? 1) && (len pendingTxns =? 1) then Ok LnPendingAfterRetry
    else Err (InvalidLnPaymentTxnsBundleError "There should be only 1 pending txn")
  else
  match filter (fun tx => tx.(lt_type) = LnFeeReimbursement) txns with
  | reimburse :: others =>
      let payments := len (filter (fun tx => tx.(lt_type) = Payment) txns) in
      let txnsAfterReimburse := filter (fun tx => reimburse.(lt_timestamp) < tx.(lt_timestamp)) txns in
      if payments =? 1 then Ok LnSuccessWithReimbursement
      else if negb (len txnsAfterReimburse =? 0) then Ok LnFailedAfterSuccessWithReimbursement
      else if (1 <? payments) && (len others =? 0) then
        Ok LnSuccessWithReimbursementAfterRetry
      else Err (InvalidLnPaymentTxnsBundleError
                  "There should be payment txns and only 1 reimbursement txn")
  | [] =>
      if n =? 1 then Ok LnSuccess
      else if n =? 2 then Ok LnFailed
      else
        match txns with
        | txn :: _ =>
            if (Z.rem n 2 =? 1) && isDebit txn then Ok LnSuccessAfterRetry
            else if Z.rem n 2 =? 1 then Ok LnFailedAfterSuccess
            else if Z.rem n 2 =? 0 then Ok LnFailedAfterRetry
            else Err (InvalidLnPaymentTxnsBundleError "Impossible state")
        | [] => Ok LnFailedAfterRetry
        end
  end.

Definition determine (unsortedTxns : list LedgerTransaction) : Result LnPaymentState :=
  _ ← checkTxns unsortedTxns;
  let unfilteredTxns := sortTxnsByTimestampDesc unsortedTxns in
  txns ← filterSelfPayments unfilteredTxns;
  determine_sorted txns.

(** ** The history of a payment

    The transactions on the payer's wallet, newest first.  An attempt debits the wallet and
    is pending until it settles or fails; a failure credits the wallet back; a settled payment
    may be reimbursed part of its fee.  The node can also be asked again to pay an invoice that
    it has paid: that attempt fails. *)

Inductive phase := Idle | InFlight | Settled | Reimbursed | FailedLate | FailedLateReimbursed.

Record payment := mkPayment {
  failures : nat;
  current : phase;
  recorded : list LedgerTransaction;
}.

Definition attempt (pending : bool) (tx : LedgerTransaction) : Prop :=
  tx.(lt_type) = Payment ∧ tx.(lt_pendingConfirmation) = pending ∧ isDebit tx = true.

Definition refund (tx : LedgerTransaction) : Prop :=
  tx.(lt_type) = Payment ∧ tx.(lt_pendingConfirmation) = false ∧ isDebit tx = false.

Definition reimbursement (tx : LedgerTransaction) : Prop :=
  tx.(lt_type) = LnFeeReimbursement ∧ tx.(lt_pendingConfirmation) = false.

Definition not_before (t : Z) (txs : list LedgerTransaction) : Prop :=
  Forall (fun tx => tx.(lt_timestamp) <= t) txs.

Definition after_all (t : Z) (txs : list LedgerTransaction) : Prop :=
  Forall (fun tx => tx.(lt_timestamp) < t) txs.

(** The steps of a payment, which are assumed of the application.  A retry has a later timestamp than all that was recorded before, and so has a
    refund after a success; while an attempt is in flight there is no other, and after a success there is one only together with
    its refund. *)
Inductive payment_step : payment -> payment -> Prop :=
| step_send n txs tx : attempt true tx -> after_all tx.(lt_timestamp) txs ->
    payment_step (mkPayment n Idle txs) (mkPayment n InFlight (tx :: txs))
| step_fail n txs tx tx' r : attempt false tx' -> refund r -> tx'.(lt_timestamp) = tx.(lt_timestamp) ->
    not_before r.(lt_timestamp) (tx' :: txs) ->
    payment_step (mkPayment n InFlight (tx :: txs)) (mkPayment (S n) Idle (r :: tx' :: txs))
| step_settle n txs tx tx' : attempt false tx' -> tx'.(lt_timestamp) = tx.(lt_timestamp) ->
    payment_step (mkPayment n InFlight (tx :: txs)) (mkPayment n Settled (tx' :: txs))
| step_reimburse n txs r : reimbursement r -> not_before r.(lt_timestamp) txs ->
    payment_step (mkPayment n Settled txs) (mkPayment n Reimbursed (r :: txs))
| step_again n txs tx r : attempt false tx -> refund r -> after_all r.(lt_timestamp) (tx :: txs) ->
    payment_step (mkPayment n Settled txs) (mkPayment n FailedLate (r :: tx :: txs))
| step_again_reimbursed n txs tx r : attempt false tx -> refund r ->
    after_all r.(lt_timestamp) (tx :: txs) ->
    payment_step (mkPayment n Reimbursed txs) (mkPayment n FailedLateReimbursed (r :: tx :: txs)).

Inductive reachable : payment -> Prop :=
| reachable_start : reachable (mkPayment 0 Idle [])
| reachable_step p p' : reachable p -> payment_step p p' -> reachable p'.

(** The state of a payment in each phase; a payment without an attempt has none. *)
Definition expected_state (p : payment) : option LnPaymentState :=
  match p.(current), p.(failures) with
  | Idle, O => None
  | Idle, S O => Some LnFailed
  | Idle, S (S _) => Some LnFailedAfterRetry
  | InFlight, O => Some LnPending
  | InFlight, S _ => Some LnPendingAfterRetry
  | Settled, O => Some LnSuccess
  | Settled, S _ => Some LnSuccessAfterRetry
  | Reimbursed, O => Some LnSuccessWithReimbursement
  | Reimbursed, S _ => Some LnSuccessWithReimbursementAfterRetry
  | FailedLate, _ => Some LnFailedAfterSuccess
  | FailedLateReimbursed, _ => Some LnFailedAfterSuccessWithReimbursement
  end.

(** ** What is known of the transactions in each phase *)

Definition pendings : list LedgerTransaction -> list LedgerTransaction :=
  filter (fun tx => tx.(lt_pendingConfirmation) = true).
Definition reimbursements : list LedgerTransaction -> list LedgerTransaction :=
  filter (fun tx => tx.(lt_type) = LnFeeReimbursement).
Definition payments : list LedgerTransaction -> list LedgerTransaction :=
  filter (fun tx => tx.(lt_type) = Payment).

(** The newest transaction is strictly newer than the others. *)
Definition newest (tx : LedgerTransaction) (txs : list LedgerTransaction) : Prop :=
  ∃ txs', txs = tx :: txs' ∧ after_all tx.(lt_timestamp) txs'.

Definition phase_facts (p : payment) : Prop :=
  let n := Z.of_nat p.(failures) in let txs := p.(recorded) in
  match p.(current) with
  | Idle => len txs = 2 * n ∧ pendings txs = [] ∧ reimbursements txs = []
  | InFlight => len txs = 2 * n + 1 ∧ len (pendings txs) = 1 ∧ reimbursements txs = [] ∧
      ∃ tx txs', txs = tx :: txs' ∧ after_all tx.(lt_timestamp) txs' ∧
        pendings txs' = [] ∧ reimbursements txs' = []
  | Settled => len txs = 2 * n + 1 ∧ pendings txs = [] ∧ reimbursements txs = [] ∧
      ∃ tx, newest tx txs ∧ isDebit tx = true
  | Reimbursed => pendings txs = [] ∧ len (payments txs) = 2 * n + 1 ∧
      ∃ r, reimbursements txs = [r] ∧ not_before r.(lt_timestamp) txs
  | FailedLate => len txs = 2 * n + 3 ∧ pendings txs = [] ∧ reimbursements txs = [] ∧
      ∃ tx, newest tx txs ∧ isDebit tx = false
  | FailedLateReimbursed => pendings txs = [] ∧ len (payments txs) = 2 * n + 3 ∧
      ∃ r tx, reimbursements txs = [r] ∧ tx ∈ txs ∧ r.(lt_timestamp) < tx.(lt_timestamp)
  end.

Definition payment_inv (p : payment) : Prop :=
  Forall (fun tx => tx.(lt_type) = Payment ∨ tx.(lt_type) = LnFeeReimbursement) p.(recorded) ∧
  phase_facts p.

Section FilterFacts.
Implicit Types (tx : LedgerTransaction) (txs : list LedgerTransaction).

Lemma pendings_cons tx txs :
  pendings (tx :: txs) = if tx.(lt_pendingConfirmation) then tx :: pendings txs else pendings txs.
Proof. unfold pendings. rewrite filter_cons. by destruct tx.(lt_pendingConfirmation). Qed.

Lemma reimbursements_payment tx txs : tx.(lt_type) = Payment ->
  reimbursements (tx :: txs) = reimbursements txs.
Proof. intros Ht. unfold reimbursements. rewrite filter_cons_False; [done | by rewrite Ht]. Qed.

Lemma payments_payment tx txs : tx.(lt_type) = Payment -> payments (tx :: txs) = tx :: payments txs.
Proof. intros Ht. unfold payments. by rewrite filter_cons_True. Qed.

(** Without reimbursements every transaction is a payment. *)
Lemma all_payments txs :
  Forall (fun tx => tx.(lt_type) = Payment ∨ tx.(lt_type) = LnFeeReimbursement) txs ->
  reimbursements txs = [] -> payments txs = txs.
Proof.
  intros Hty. induction Hty as [|tx txs [Ht|Ht] Hty IH]; [done| |].
  - rewrite reimbursements_payment, payments_payment by done. intros ?. f_equal. by apply IH.
  - unfold reimbursements. by rewrite filter_cons_True.
Qed.

Lemma payments_reimbursement r txs : r.(lt_type) = LnFeeReimbursement ->
  payments (r :: txs) = payments txs ∧ reimbursements (r :: txs) = r :: reimbursements txs.
Proof.
  intros Ht. unfold payments, reimbursements. rewrite filter_cons_False by (by rewrite Ht).
  by rewrite filter_cons_True.
Qed.
End FilterFacts.

Lemma after_not_before t txs : after_all t txs -> not_before t txs.
Proof. intros H. eapply Forall_impl; [exact H|]. cbn. lia. Qed.

Lemma payment_inv_step p p' : payment_inv p -> payment_step p p' -> payment_inv p'.
Proof.
  intros [Hty Hf] Hs.
  destruct Hs as
    [n txs tx (Ht & Hp & Hd) Ha | n txs tx tx' r (Ht & Hp & Hd) (Rt & Rp & Rd) He Hb
    |n txs tx tx' (Ht & Hp & Hd) He | n txs r (Rt & Rp) Hb
    |n txs tx r (Ht & Hp & Hd) (Rt & Rp & Rd) Ha | n txs tx r (Ht & Hp & Hd) (Rt & Rp & Rd) Ha];
    unfold payment_inv, phase_facts in *; cbn [recorded current failures] in *;
    rewrite ?Forall_cons in *; cbn zeta in *.
  - destruct Hf as (Hl & Hpe & Hre). rewrite pendings_cons, Hp, Hpe, reimbursements_payment by done.
    repeat split; auto; [cbn; lia|]. by exists tx, txs.
  - destruct Hf as (Hl & _ & _ & ? & ? & [= <- <-] & Ha & Hpe & Hre).
    rewrite !pendings_cons, Rp, Hp, !reimbursements_payment by done.
    repeat split; try tauto. cbn in *. lia.
  - destruct Hf as (Hl & _ & _ & ? & ? & [= <- <-] & Ha & Hpe & Hre).
    rewrite pendings_cons, Hp, reimbursements_payment by done.
    repeat split; try tauto. exists tx'. split; [|done]. exists txs. by rewrite He.
  - destruct Hf as (Hl & Hpe & Hre & _). destruct (payments_reimbursement r txs Rt) as [-> ->].
    rewrite pendings_cons, Rp, Hre, all_payments by done.
    repeat split; try tauto. exists r. split; [done|]. by apply Forall_cons.
  - destruct Hf as (Hl & Hpe & Hre & _).
    rewrite !pendings_cons, Rp, Hp, !reimbursements_payment by done.
    repeat split; try tauto; [cbn in *; lia|]. exists r. split; [|done]. by exists (tx :: txs).
  - destruct Hf as (Hpe & Hl & r' & Hre & Hb).
    rewrite !pendings_cons, Rp, Hp, !reimbursements_payment, !payments_payment by done.
    repeat split; try tauto; [cbn in *; lia|]. exists r', r. repeat split; [done|set_solver|].
    assert (Hin : r' ∈ reimbursements txs) by (rewrite Hre; set_solver).
    apply list_elem_of_filter in Hin as [_ Hin].
    apply Forall_cons in Ha as [_ Ha]. exact (proj1 (Forall_forall _ _) Ha r' Hin).
Qed.

Lemma reachable_inv p : reachable p -> payment_inv p.
Proof.
  induction 1 as [|p p' _ IH Hs]; [|by eapply payment_inv_step].
  split; [constructor|]. by repeat split.
Qed.

(** ** Sorting *)

Lemma insert_desc_perm tx txs : insert_desc tx txs ≡ₚ tx :: txs.
Proof.
  induction txs as [|y ys IH]; cbn; [done|]. case_match; [done|]. rewrite IH. by constructor.
Qed.

Lemma sort_perm txs : sortTxnsByTimestampDesc txs ≡ₚ txs.
Proof. induction txs as [|tx txs IH]; cbn; [done|]. by rewrite insert_desc_perm, IH. Qed.

Definition newer_first : list LedgerTransaction -> Prop :=
  StronglySorted (fun x y => y.(lt_timestamp) <= x.(lt_timestamp)).

Lemma insert_desc_sorted tx txs : newer_first txs -> newer_first (insert_desc tx txs).
Proof.
  induction 1 as [|y ys Hs IH Hy]; cbn; [repeat constructor|].
  case_match; zbool; constructor; [by constructor| |done|].
  - constructor; [done|]. eapply Forall_impl; [exact Hy|]. cbn. lia.
  - rewrite insert_desc_perm. constructor; [lia|done].
Qed.

Lemma sort_sorted txs : newer_first (sortTxnsByTimestampDesc txs).
Proof. induction txs; cbn; [constructor|]. by apply insert_desc_sorted. Qed.

Lemma filter_sorted (P : LedgerTransaction -> Prop) `{∀ tx, Decision (P tx)} txs :
  newer_first txs -> newer_first (filter P txs).
Proof. apply StronglySorted_filter. Qed.

Lemma newest_head tx txs L : newer_first L -> L ≡ₚ txs -> newest tx txs -> head L = Some tx.
Proof.
  intros Hs HL (txs' & -> & Ha). destruct Hs as [|y L' _ Hy]; [by apply Permutation_nil_cons in HL|].
  cbn. f_equal. assert (Hy' : y ∈ tx :: txs') by (rewrite <- HL; set_solver).
  assert (Htx : tx ∈ y :: L') by (rewrite HL; set_solver).
  apply elem_of_cons in Hy' as [?|Hy']; [done|].
  pose proof (proj1 (Forall_forall _ _) Ha y Hy') as Hlt. cbn in Hlt.
  apply elem_of_cons in Htx as [?|Htx]; [done|].
  pose proof (proj1 (Forall_forall _ _) Hy tx Htx) as Hle. cbn in Hle. lia.
Qed.

(** Self payments are dropped, the rest is sorted and decided upon. *)
Lemma determine_filtered bundle txs invoices :
  Forall (fun tx => tx.(lt_type) = Payment ∨ tx.(lt_type) = LnFeeReimbursement) txs ->
  payments txs ≠ [] -> Forall (fun tx => tx.(lt_type) = Invoice) invoices ->
  bundle ≡ₚ txs ++ invoices ->
  ∃ L, L ≡ₚ txs ∧ newer_first L ∧ determine bundle = determine_sorted L.
Proof.
  intros Hty Hne Hinv Hb.
  exists (filter (fun tx => tx.(lt_type) ≠ Invoice) (sortTxnsByTimestampDesc bundle)).
  assert (HL : filter (fun tx => tx.(lt_type) ≠ Invoice) (sortTxnsByTimestampDesc bundle) ≡ₚ txs).
  { rewrite sort_perm, Hb, filter_app.
    rewrite (filter_all _ txs), (filter_none _ invoices), app_nil_r; [done| |].
    - eapply Forall_impl; [exact Hinv|]. cbn. naive_solver.
    - eapply Forall_impl; [exact Hty|]. cbn. intros ? [-> | ->]; done. }
  split; [exact HL|]. split; [apply filter_sorted, sort_sorted|].
  unfold determine, checkTxns, filterSelfPayments.
  assert (Hp : payments (sortTxnsByTimestampDesc bundle) ≠ []).
  { intros Hp. apply Hne. apply Permutation_nil. rewrite <- Hp. unfold payments.
    rewrite sort_perm, Hb, filter_app. rewrite (filter_none _ invoices), app_nil_r; [done|].
    eapply Forall_impl; [exact Hinv|]. cbn. intros ? ->. done. }
  rewrite (filter_none _ bundle).
  2: { rewrite Hb. apply Forall_app. split;
         [eapply Forall_impl; [exact Hty|] | eapply Forall_impl; [exact Hinv|]]; cbn; intros x Hx Hn;
         apply Hn; destruct x; cbn in *; set_solver. }
  unfold payments in Hp. destruct bundle as [|tx bundle]; [done|]. cbn [mbind result_bind].
  destruct (filter _ (sortTxnsByTimestampDesc (tx :: bundle))) as [|q qs] eqn:Hq in Hp; [done|].
  rewrite Hq, andb_false_r. done.
Qed.

(** The filters of [determine] see permutations of the recorded transactions. *)
Lemma filtered_len (P : LedgerTransaction -> Prop) `{∀ tx, Decision (P tx)} L txs :
  L ≡ₚ txs -> len (filter P L) = len (filter P txs).
Proof. intros HL. by rewrite HL. Qed.

Lemma rem_odd k : 0 <= k -> Z.rem (2 * k + 1) 2 = 1.
Proof. intros Hk. by destruct (quot_unique_pos (2 * k + 1) 2 k 1) as [_ ->]; [lia..|]. Qed.

Lemma rem_even k : 0 <= k -> Z.rem (2 * k) 2 = 0.
Proof. intros Hk. by destruct (quot_unique_pos (2 * k) 2 k 0) as [_ ->]; [lia..|]. Qed.

(** Transactions without pending ones or reimbursements are decided on by their number and the
    newest of them. *)
Lemma determine_pure L txs : L ≡ₚ txs -> pendings txs = [] -> reimbursements txs = [] -> 2 < len txs ->
  determine_sorted L =
    match head L with
    | Some tx => if Z.rem (len txs) 2 =? 1
                 then if isDebit tx then Ok LnSuccessAfterRetry else Ok LnFailedAfterSuccess
                 else if Z.rem (len txs) 2 =? 0 then Ok LnFailedAfterRetry
                 else Err (InvalidLnPaymentTxnsBundleError "Impossible state")
    | None => Ok LnFailedAfterRetry
    end.
Proof.
  intros HL Hp Hr Hn. unfold determine_sorted.
  rewrite (filtered_len _ L txs HL), (Permutation_length HL). fold (pendings txs). rewrite Hp. cbn [length Z.of_nat Z.eqb negb].
  assert (Hr' : filter (fun tx => tx.(lt_type) = LnFeeReimbursement) L = []).
  { apply Permutation_nil. rewrite HL. by rewrite <- Hr. }
  rewrite Hr'. destruct (Z.eqb_spec (len txs) 1); [lia|]. destruct (Z.eqb_spec (len txs) 2); [lia|].
  destruct L as [|tx L]; [done|]. cbn [head]. by destruct (Z.rem (len txs) 2 =? 1), (isDebit tx).
Qed.

Lemma determine_reimbursed L txs r : L ≡ₚ txs -> pendings txs = [] -> reimbursements txs = [r] ->
  determine_sorted L =
    if len (payments txs) =? 1 then Ok LnSuccessWithReimbursement
    else if negb (len (filter (fun tx => r.(lt_timestamp) < tx.(lt_timestamp)) txs) =? 0)
    then Ok LnFailedAfterSuccessWithReimbursement
    else if 1 <? len (payments txs) then Ok LnSuccessWithReimbursementAfterRetry
    else Err (InvalidLnPaymentTxnsBundleError
                "There should be payment txns and only 1 reimbursement txn").
Proof.
  intros HL Hp Hr. unfold determine_sorted.
  rewrite (filtered_len (fun tx => tx.(lt_pendingConfirmation) = true) L txs HL).
  fold (pendings txs). rewrite Hp. cbn [length Z.of_nat Z.eqb negb].
  assert (Hr' : filter (fun tx => tx.(lt_type) = LnFeeReimbursement) L = [r]).
  { apply Permutation_singleton_r. rewrite HL. by rewrite <- Hr. }
  rewrite Hr'. rewrite !(filtered_len _ L txs HL). fold (payments txs).
  cbn [length Z.of_nat Z.eqb]. by rewrite andb_true_r.
Qed.

Lemma determine_pending L txs : L ≡ₚ txs -> len (pendings txs) = 1 ->
  determine_sorted L =
    if len txs =? 1 then Ok LnPending
    else if Z.rem (len txs) 2 =? 1 then Ok LnPendingAfterRetry
    else Err (InvalidLnPaymentTxnsBundleError "There should be only 1 pending txn").
Proof.
  intros HL Hp. unfold determine_sorted. rewrite !(filtered_len _ L txs HL), (Permutation_length HL).
  fold (pendings txs). rewrite Hp. cbn [Z.eqb negb Pos.eqb]. by rewrite andb_true_r.
Qed.

(** An attempted payment has a payment transaction. *)
Lemma attempted_payments p s : payment_inv p -> expected_state p = Some s -> payments p.(recorded) ≠ [].
Proof.
  intros [Hty Hf] He Hn. unfold phase_facts, expected_state in *. destruct p as [n ph txs]; cbn in *.
  destruct ph; destruct_and?; try (rewrite Hn in *; cbn in *; lia);
    (rewrite (all_payments txs) in Hn by (first [done | tauto]); subst txs; cbn in *;
     destruct n; [discriminate He || lia | lia]).
Qed.

(** The decision in each phase, once the transactions are sorted. *)
Lemma determine_phase p s L : payment_inv p -> expected_state p = Some s ->
  L ≡ₚ p.(recorded) -> newer_first L -> determine_sorted L = Ok s.
Proof.
  intros [Hty Hf] He HL Hs. destruct p as [n ph txs].
  unfold phase_facts, expected_state in *. cbn [current failures recorded] in *. cbn zeta in *.
  destruct ph.
  - destruct Hf as (Hl & Hp & Hr). destruct n as [|[|n]]; simplify_eq.
    + unfold determine_sorted. rewrite (filtered_len _ L txs HL). fold (pendings txs).
      rewrite Hp, (Permutation_length HL), Hl. cbn [length Z.of_nat Z.eqb negb Z.mul Pos.mul Pos.eqb].
      by rewrite (Permutation_nil (l := filter _ L)) by (rewrite HL; by rewrite <- Hr).
    + rewrite (determine_pure L txs) by (done || lia). rewrite Hl, rem_even by lia. by destruct L.
  - destruct Hf as (Hl & Hp & _). rewrite (determine_pending L txs) by done.
    rewrite Hl, rem_odd by lia. destruct n; simplify_eq; [done|].
    by destruct (Z.eqb_spec (2 * Z.of_nat (S n) + 1) 1); [lia|].
  - destruct Hf as (Hl & Hp & Hr & tx & Hn & Hd). destruct n as [|n]; simplify_eq.
    + unfold determine_sorted. rewrite (filtered_len _ L txs HL). fold (pendings txs).
      rewrite Hp, (Permutation_length HL), Hl. cbn [length Z.of_nat Z.eqb negb Z.mul Z.add Pos.eqb].
      by rewrite (Permutation_nil (l := filter _ L)) by (rewrite HL; by rewrite <- Hr).
    + rewrite (determine_pure L txs), (newest_head tx txs L) by (done || lia).
      by rewrite Hl, rem_odd, Hd by lia.
  - destruct Hf as (Hp & Hl & r & Hr & Hb). rewrite (determine_reimbursed L txs r) by done.
    rewrite Hl, filter_none by (eapply Forall_impl; [exact Hb|]; cbn; lia).
    destruct n; simplify_eq; [done|]. cbn [length Z.of_nat negb].
    destruct (Z.eqb_spec (2 * Z.pos (Pos.of_succ_nat n) + 1) 1); [lia|].
    by destruct (Z.ltb_spec 1 (2 * Z.pos (Pos.of_succ_nat n) + 1)); [|lia].
  - destruct Hf as (Hl & Hp & Hr & tx & Hn & Hd). simplify_eq.
    rewrite (determine_pure L txs), (newest_head tx txs L) by (done || lia).
    replace (len txs) with (2 * (Z.of_nat n + 1) + 1) by lia. by rewrite rem_odd, Hd by lia.
  - destruct Hf as (Hp & Hl & r & tx & Hr & Hin & Hlt). simplify_eq.
    rewrite (determine_reimbursed L txs r) by done. rewrite Hl.
    destruct (Z.eqb_spec (2 * Z.of_nat n + 3) 1); [lia|].
    assert (Hf : tx ∈ filter (fun tx => r.(lt_timestamp) < tx.(lt_timestamp)) txs)
      by (by apply list_elem_of_filter).
    by destruct (filter _ txs); [apply elem_of_nil in Hf|].
Qed.

(** C39. The state found for a Lightning payment is the state of its history: once attempted, for any
    history of attempts, failures, success and reimbursement, [determine] returns the state of the
    phase the payment is in, whatever the order in which its transactions are read and
    whatever incoming invoice transactions of a payment to oneself are among them. *)
Theorem determine_refines_history p s bundle invoices
    (Hr : reachable p) (Hs : expected_state p = Some s)
    (Hi : Forall (fun tx => tx.(lt_type) = Invoice) invoices)
    (Hb : bundle ≡ₚ p.(recorded) ++ invoices) :
  determine bundle = Ok s.
Proof.
  pose proof (reachable_inv p Hr) as Hinv.
  destruct (determine_filtered bundle p.(recorded) invoices) as (L & HL & Hso & ->);
    [apply Hinv | by eapply attempted_payments | done..|].
  by eapply determine_phase.
Qed.

Module LedgerTxExamples.

Definition txn (ty : LedgerTransactionType) (debit credit : Z) (t : Z) (pending : bool) : LedgerTransaction := {|
  lt_id := "id"; lt_walletId := Some "alice"; lt_type := ty; lt_debit := Number debit;
  lt_credit := Number credit; lt_currency := Btc; lt_timestamp := t; lt_pendingConfirmation := pending;
  lt_journalId := "journal"; lt_externalId := None; lt_lnMemo := None; lt_recipientWalletId := None;
  lt_username := None; lt_memoFromPayer := None; lt_paymentHash := Some "hash"; lt_pubkey := None;
  lt_feeKnownInAdvance := false; lt_lnPaymentState := None; lt_revealedPreImage := None;
  lt_satsAmount := None; lt_centsAmount := None; lt_satsFee := None; lt_centsFee := None;
  lt_displayAmount := None; lt_displayFee := None; lt_displayCurrency := None; lt_address := None;
  lt_txHash := None; lt_vout := None; lt_requestId := None; lt_payoutId := None;
  lt_fee := None; lt_usd := None; lt_feeUsd := None;
|}.

(** A first attempt fails, the second one succeeds. *)
Definition retried : payment := {|
  failures := 1; current := Settled;
  recorded := [txn Payment 100 0 3 false; txn Payment 0 100 2 false; txn Payment 100 0 1 false];
|}.

Lemma retried_reachable : reachable retried.
Proof.
  eapply reachable_step; [|by apply (step_settle 1 _ (txn Payment 100 0 3 true)); repeat split].
  eapply reachable_step; [|apply step_send; repeat split; repeat constructor].
  eapply reachable_step;
    [|apply (step_fail 0 [] (txn Payment 100 0 1 true)); repeat split; repeat constructor; cbn; lia].
  eapply reachable_step; [constructor | apply step_send; repeat split; repeat constructor].
Qed.

(** The transactions are read oldest first, with an invoice among them. *)
Lemma determine_refines_history_witness :
  determine [txn Payment 100 0 1 false; txn Payment 0 100 2 false; txn Invoice 0 100 4 false;
             txn Payment 100 0 3 false] = Ok LnSuccessAfterRetry.
Proof.
  apply (determine_refines_history retried LnSuccessAfterRetry _ [txn Invoice 0 100 4 false]
    retried_reachable eq_refl); [by repeat constructor|].
  cbn. solve_Permutation.
Defined.

End LedgerTxExamples.
