(* ===== verification/TxHistory.v ===== *)
(** * Transactions as shown to the user

    Models [services/ledger/translate.ts], which reads a stored document as a
    [LedgerTransaction], [domain/wallets/settlement-amounts.ts] and
    [domain/wallets/tx-history.ts], which turn it into the transaction of a wallet's history. *)

From Stdlib Require Import Ascii.
From S2P Require Import Prelude JsNumber Shared Prices Fees PaymentFlow LedgerEntry TxMetadata LedgerTx.

(** ** Reading stored documents *)

(** [s.split(":")] *)
Fixpoint split_colon (s : string) : list string :=
  match s with
  | EmptyString => [""]
  | String c s' =>
      if decide (c = ":"%char) then "" :: split_colon s'
      else match split_colon s' with
           | p :: ps => String c p :: ps
           | [] => [String c ""]
           end
  end.

Definition toLiabilitiesWalletId (walletId : WalletId) : string :=
  (liabilitiesMainAccount ++ ":" ++ walletId)%string.

Definition toWalletId (walletIdPath : string) : option WalletId :=
  match split_colon walletIdPath with
  | [p0; p1] => if bool_decide (p0 = liabilitiesMainAccount) && truthy p1 then Some p1 else None
  | _ => None
  end.

(** The fields of a stored [ILedgerTransaction] that are read; object ids are their strings. *)
Record ILedgerTransaction := mkRaw {
  raw_id : option string;
  raw_accounts : string;
  raw_external_id : option string;
  raw_type : LedgerTransactionType;
  raw_debit : number;
  raw_credit : number;
  raw_currency : WalletCurrency;
  raw_timestamp : Z;
  raw_pending : bool;
  raw_bundle_completion_state : option LnPaymentState;
  raw_journal : string;
  raw_memo : string;
  raw_username : option string;
  raw_memoPayer : option string;
  raw_hash : option string;
  raw_pubkey : option string;
  raw_payee_addresses : option (list string);
  raw_request_id : option string;
  raw_payout_id : option string;
  raw_vout : option number;
  raw_feeKnownInAdvance : option bool;
  raw_satsAmount : option number;
  raw_centsAmount : option number;
  raw_satsFee : option number;
  raw_centsFee : option number;
  raw_displayAmount : option number;
  raw_displayFee : option number;
  raw_displayCurrency : option string;
  raw_fee : option number;
  raw_usd : option number;
  raw_feeUsd : option number;
}.

(** [x || undefined] *)
Definition or_undefined `{Truthy A} (o : option A) : option A := js_or_opt o None.

Definition translateToLedgerTx (tx : ILedgerTransaction) : LedgerTransaction := {|
  lt_id := js_or tx.(raw_id) "";
  lt_walletId := toWalletId tx.(raw_accounts);
  lt_externalId := or_undefined tx.(raw_external_id);
  lt_type := tx.(raw_type);
  lt_debit := tx.(raw_debit);
  lt_credit := tx.(raw_credit);
  lt_currency := tx.(raw_currency);
  lt_timestamp := tx.(raw_timestamp);
  lt_pendingConfirmation := tx.(raw_pending);
  lt_lnPaymentState := tx.(raw_bundle_completion_state);
  lt_journalId := tx.(raw_journal);
  lt_lnMemo := Some tx.(raw_memo);
  lt_recipientWalletId := None;
  lt_username := or_undefined tx.(raw_username);
  lt_memoFromPayer := tx.(raw_memoPayer);
  lt_paymentHash := or_undefined tx.(raw_hash);
  lt_pubkey := or_undefined tx.(raw_pubkey);
  lt_address := match tx.(raw_payee_addresses) with Some (a :: _) => Some a | _ => None end;
  lt_requestId := or_undefined tx.(raw_request_id);
  lt_payoutId := or_undefined tx.(raw_payout_id);
  lt_txHash := or_undefined tx.(raw_hash);
  lt_vout := or_undefined tx.(raw_vout);
  lt_feeKnownInAdvance := js_or tx.(raw_feeKnownInAdvance) false;
  lt_revealedPreImage := None;
  lt_satsAmount := tx.(raw_satsAmount);
  lt_centsAmount := tx.(raw_centsAmount);
  lt_satsFee := tx.(raw_satsFee);
  lt_centsFee := tx.(raw_centsFee);
  lt_displayAmount := tx.(raw_displayAmount);
  lt_displayFee := tx.(raw_displayFee);
  lt_displayCurrency := tx.(raw_displayCurrency);
  lt_fee := tx.(raw_fee);
  lt_usd := tx.(raw_usd);
  lt_feeUsd := tx.(raw_feeUsd);
|}.

Definition inputAmountFromLedgerTransaction (txn : LedgerTransaction) : Result Z :=
  let fee := if decide (txn.(lt_currency) = Usd) then txn.(lt_centsFee) else txn.(lt_satsFee) in
  match fee with
  | None => Err InvalidLedgerTransactionStateError
  | Some fee => safeBigInt (num_sub txn.(lt_debit) fee)
  end.

(** ** Settlement amounts *)

Record Triple := mkTriple { sats : number; cents : number; display : number }.

Definition unit_of (c : WalletCurrency) (t : Triple) : number :=
  if decide (c = Btc) then t.(sats) else t.(cents).

Definition neg_triple (t : Triple) : Triple :=
  {| sats := num_neg t.(sats); cents := num_neg t.(cents); display := num_neg t.(display) |}.

Definition zero_triple : Triple := {| sats := Number 0; cents := Number 0; display := Number 0 |}.

(** The amount and fee combinations, in the order they are tried. *)
Definition combinations (amount fee : Triple) : list (Triple * Triple) :=
  let negAmount := neg_triple amount in
  let negFee := neg_triple fee in
  let zero := zero_triple in
  [(amount, zero); (negAmount, zero); (zero, fee); (zero, negFee); (amount, fee);
   (negAmount, negFee); (amount, negFee); (negAmount, fee)].

(** The display amount of the first combination that gives the settlement amount, or zero. *)
Fixpoint match_display (c : WalletCurrency) (settlementAmount : number)
    (cs : list (Triple * Triple)) : number :=
  match cs with
  | [] => Number 0
  | (a, f) :: cs =>
      if num_eqb (num_add (unit_of c a) (unit_of c f)) settlementAmount
      then num_add a.(display) f.(display)
      else match_display c settlementAmount cs
  end.

Record Settlement := mkSettlement {
  settlementAmount : number;
  settlementDisplayAmount : string;
  settlementDisplayFee : string;
}.

Section History.
Context `{Intl}.

(** An amount that cannot be a bigint (it is not finite) is traced and shown as zero. *)
Definition display_or_zero (a : number) (displayCurrency : DisplayCurrency) : string :=
  match displayAmountFromNumber a displayCurrency with
  | Ok d => d.(displayInMajor)
  | Err _ => toFixed (getCurrencyMajorExponent displayCurrency) (Number 0)
  end.

Definition fromTxn (txn : LedgerTransaction) : Settlement :=
  let displayCurrency := js_or txn.(lt_displayCurrency) UsdDisplayCurrency in
  let settlementAmount := num_sub txn.(lt_credit) txn.(lt_debit) in
  let amount := {| sats := js_or txn.(lt_satsAmount) (Number 0);
                   cents := js_or txn.(lt_centsAmount) (Number 0);
                   display := js_or txn.(lt_displayAmount) (Number 0) |} in
  let fee := {| sats := js_or txn.(lt_satsFee) (Number 0);
                cents := js_or txn.(lt_centsFee) (Number 0);
                display := js_or txn.(lt_displayFee) (Number 0) |} in
  let settlementDisplayAmountMinor :=
    match_display txn.(lt_currency) settlementAmount (combinations amount fee) in
  {| settlementAmount := settlementAmount;
     settlementDisplayAmount := display_or_zero settlementDisplayAmountMinor displayCurrency;
     settlementDisplayFee := display_or_zero fee.(display) displayCurrency |}.

(** ** Wallet transactions *)

Inductive TxStatus := StatusPending | StatusSuccess | StatusFailure.

Definition statusFromTxn (txn : LedgerTransaction) : TxStatus :=
  match txn.(lt_lnPaymentState) with
  | None => if txn.(lt_pendingConfirmation) then StatusPending else StatusSuccess
  | Some LnPending | Some LnPendingAfterRetry => StatusPending
  | Some LnSuccess | Some LnSuccessAfterRetry | Some LnSuccessWithReimbursement
  | Some LnSuccessWithReimbursementAfterRetry => StatusSuccess
  | Some LnFailed | Some LnFailedAfterRetry | Some LnFailedAfterSuccess
  | Some LnFailedAfterSuccessWithReimbursement => StatusFailure
  end.

Record MemoSharingConfig := mkMemoSharing {
  memoSharingCentsThreshold : number;
  memoSharingSatsThreshold : number;
  authorizedMemos : list string;
}.

Definition shouldDisplayMemo (memo : option string) (credit : number) (currency : WalletCurrency)
    (cfg : MemoSharingConfig) : bool :=
  if (match memo with Some m => truthy m && bool_decide (m ∈ cfg.(authorizedMemos)) | None => false end)
     || num_eqb credit (Number 0)
  then true
  else if decide (currency = Btc) then num_leb cfg.(memoSharingSatsThreshold) credit
  else num_leb cfg.(memoSharingCentsThreshold) credit.

(** [None] is [null]. *)
Definition translateMemo (memoFromPayer lnMemo : option string) (credit : number)
    (currency : WalletCurrency) (walletId : option WalletId) (nonEndUserWalletIds : list WalletId)
    (journalId : string) (cfg : MemoSharingConfig) : option string :=
  if (match walletId with Some w => truthy w && bool_decide (w ∈ nonEndUserWalletIds) | None => false end)
  then Some ("JournalId:" ++ journalId)%string
  else
    let memo := js_or_opt memoFromPayer lnMemo in
    if shouldDisplayMemo memo credit currency cfg then or_undefined memo else None.

Definition displayCurrencyPerBaseUnitFromAmounts (displayAmount : number)
    (displayCurrency : DisplayCurrency) (walletAmount : number) (walletCurrency : WalletCurrency)
    : Result DisplayPrice :=
  let priceInMinorUnit :=
    if negb (num_eqb walletAmount (Number 0)) then num_div displayAmount walletAmount else Number 0 in
  priceAmountFromNumber priceInMinorUnit displayCurrency walletCurrency.

Inductive InitiationVia :=
| InitiationViaIntraledger (counterPartyWalletId : option WalletId) (counterPartyUsername : option Username)
| InitiationViaLn (paymentHash : option PaymentHash) (pubkey : option Pubkey)
| InitiationViaOnChain (address : OnChainAddress).

Inductive SettlementVia :=
| SettlementViaIntraledger (counterPartyWalletId : option WalletId) (counterPartyUsername : option Username)
| SettlementViaLn (revealedPreImage : option string)
| SettlementViaOnChain (transactionHash : option string) (vout : option number).

Record WalletTransaction := mkWalletTransaction {
  wt_id : string;
  wt_walletId : option WalletId;
  wt_externalId : option LedgerExternalId;
  wt_settlementAmount : number;
  wt_settlementFee : number;
  wt_settlementCurrency : WalletCurrency;
  wt_settlementDisplayAmount : string;
  wt_settlementDisplayFee : string;
  wt_settlementDisplayPrice : DisplayPrice;
  wt_status : TxStatus;
  wt_memo : option string;
  wt_createdAt : Z;
  wt_initiationVia : InitiationVia;
  wt_settlementVia : SettlementVia;
}.

Definition isAdmin (t : LedgerTransactionType) : bool :=
  bool_decide (t ∈ [Fee; ToColdStorage; ToHotWallet; EscrowType; RoutingRevenue; Reconciliation]).

Definition defaultOnChainAddress : OnChainAddress := "<no-address>".

(** How the transaction was initiated and settled, by its type. *)
Definition viaFromTxn (txn : LedgerTransaction) : InitiationVia * SettlementVia :=
  let txType :=
    if bool_decide (txn.(lt_type) = IntraLedger) && truthy txn.(lt_paymentHash)
    then LnIntraLedger else txn.(lt_type) in
  let wallet := txn.(lt_recipientWalletId) in
  let username := txn.(lt_username) in
  let byAddress := InitiationViaOnChain (js_or txn.(lt_address) defaultOnChainAddress) in
  let byInvoice := InitiationViaLn txn.(lt_paymentHash) txn.(lt_pubkey) in
  match txType with
  | IntraLedger | WalletIdTradeIntraAccount =>
      (InitiationViaIntraledger wallet username, SettlementViaIntraledger wallet username)
  | OnchainIntraLedger | OnChainTradeIntraAccount =>
      (byAddress, SettlementViaIntraledger wallet (or_undefined username))
  | OnchainPayment | OnchainReceipt => (byAddress, SettlementViaOnChain txn.(lt_txHash) txn.(lt_vout))
  | LnIntraLedger | LnTradeIntraAccount =>
      (byInvoice, SettlementViaIntraledger wallet (or_undefined username))
  | Payment | Invoice => (byInvoice, SettlementViaLn txn.(lt_revealedPreImage))
  | _ => (InitiationViaIntraledger wallet username, SettlementViaIntraledger wallet (or_undefined username))
  end.

(** [x ? Math.round(x * 100) : 0] *)
Definition legacy_cents (x : option number) : number :=
  match x with
  | Some u => if truthy u then Math_round (num_mul u (Number 100)) else Number 0
  | None => Number 0
  end.

Definition translateLedgerTxnToWalletTxn (txn : LedgerTransaction) (nonEndUserWalletIds : list WalletId)
    (cfg : MemoSharingConfig) : Result WalletTransaction :=
  let displayCurrency := js_or txn.(lt_displayCurrency) UsdDisplayCurrency in
  let admin := isAdmin txn.(lt_type) in
  let settlement := fromTxn txn in
  let displayAmount := if admin then legacy_cents txn.(lt_usd) else js_or txn.(lt_displayAmount) (Number 0) in
  let displayFee := if admin then legacy_cents txn.(lt_feeUsd) else js_or txn.(lt_displayFee) (Number 0) in
  let satsAmount := if admin then Math_abs settlement.(settlementAmount)
                    else js_or txn.(lt_satsAmount) (Number 0) in
  let satsFee := if admin then js_or txn.(lt_fee) (Number 0) else js_or txn.(lt_satsFee) (Number 0) in
  let centsAmount := if admin then displayAmount else js_or txn.(lt_centsAmount) (Number 0) in
  let centsFee := if admin then displayFee else js_or txn.(lt_centsFee) (Number 0) in
  let memo := translateMemo txn.(lt_memoFromPayer) txn.(lt_lnMemo) txn.(lt_credit) txn.(lt_currency)
                txn.(lt_walletId) nonEndUserWalletIds txn.(lt_journalId) cfg in
  price ← displayCurrencyPerBaseUnitFromAmounts displayAmount displayCurrency
            (if decide (txn.(lt_currency) = Btc) then satsAmount else centsAmount) txn.(lt_currency);
  let '(initiationVia, settlementVia) := viaFromTxn txn in
  Ok {| wt_id := txn.(lt_id);
        wt_walletId := txn.(lt_walletId);
        wt_externalId := txn.(lt_externalId);
        wt_settlementAmount := settlement.(settlementAmount);
        wt_settlementFee := if decide (txn.(lt_currency) = Btc) then satsFee else centsFee;
        wt_settlementCurrency := txn.(lt_currency);
        wt_settlementDisplayAmount := settlement.(settlementDisplayAmount);
        wt_settlementDisplayFee := settlement.(settlementDisplayFee);
        wt_settlementDisplayPrice := price;
        wt_status := statusFromTxn txn;
        wt_memo := memo;
        wt_createdAt := txn.(lt_timestamp);
        wt_initiationVia := initiationVia;
        wt_settlementVia := settlementVia |}.

End History.

(** ** The amounts shown *)

Lemma unit_of_neg c t : unit_of c (neg_triple t) = num_neg (unit_of c t).
Proof. unfold unit_of. by case_decide. Qed.

Lemma unit_of_zero c : unit_of c zero_triple = Number 0.
Proof. unfold unit_of. by case_decide. Qed.

Lemma sum_eqb x y z : safe_integer x -> safe_integer y -> safe_integer (x + y) -> safe_integer z ->
  num_eqb (num_add (Number x) (Number y)) (Number z) = (x + y =? z).
Proof. intros. by rewrite num_add_Number, num_eqb_Number. Qed.

(** A debit of an amount with its fee matches the negated amount and fee. *)
Lemma match_outgoing c A F a f : unit_of c A = Number a -> unit_of c F = Number f ->
  0 < a -> 0 <= f -> a + f < 2 ^ 53 ->
  match_display c (Number (- (a + f))) (combinations A F) =
    num_add (num_neg A.(display)) (if f =? 0 then Number 0 else num_neg F.(display)).
Proof.
  intros HA HF Ha Hf Hs. unfold combinations. cbn [match_display].
  rewrite !unit_of_neg, !unit_of_zero, HA, HF, (num_neg_Number a) by (unfold safe_integer; lia).
  rewrite !(sum_eqb a 0), !(sum_eqb (- a) 0) by (unfold safe_integer; lia).
  destruct (Z.eqb_spec (a + 0) (- (a + f))); [lia|].
  destruct (Z.eqb_spec f 0) as [->|Nf].
  { by destruct (Z.eqb_spec (- a + 0) (- (a + 0))); [|lia]. }
  rewrite (num_neg_Number f) by (unfold safe_integer; lia).
  rewrite !sum_eqb by (unfold safe_integer; lia).
  repeat match goal with |- context [?x =? ?y] => destruct (Z.eqb_spec x y); try lia end.
  done.
Qed.

(** A credit of an amount after its fee matches the amount. *)
Lemma match_incoming c A F a : unit_of c A = Number a -> 0 < a < 2 ^ 53 ->
  match_display c (Number a) (combinations A F) = num_add A.(display) (Number 0).
Proof.
  intros HA Ha. unfold combinations. cbn [match_display].
  rewrite unit_of_zero, HA, sum_eqb by (unfold safe_integer; lia).
  by destruct (Z.eqb_spec (a + 0) a); [|lia].
Qed.

Lemma js_or_Number z : safe_integer z -> js_or (Some (Number z)) (Number 0) = Number z.
Proof.
  intros Hz. cbn. rewrite truthy_Number by done. unfold truthy, truthy_bigint.
  by destruct (Z.eqb_spec z 0) as [->|].
Qed.

Lemma num_add_zero z : safe_integer z -> num_add (Number z) (Number 0) = Number z.
Proof. intros Hz. rewrite num_add_Number, Z.add_0_r; [done|done|done|by rewrite Z.add_0_r]. Qed.

(** Adding two negated non-negative integers; a negated zero is [-0]. *)
Lemma num_add_neg a b : 0 < a -> 0 <= b -> a + b < 2 ^ 53 ->
  num_add (num_neg (Number a)) (num_neg (Number b)) = Number (- (a + b)).
Proof.
  intros Ha Hb Hs. rewrite (num_neg_Number a) by (unfold safe_integer; lia).
  destruct (decide (b = 0)) as [->|Nb].
  - destruct (Number_finite (- a)) as (m & k & _ & E & _); [unfold safe_integer; lia | lia |].
    rewrite Z.add_0_r. rewrite E. done.
  - rewrite (num_neg_Number b), num_add_Number by (unfold safe_integer; lia). f_equal. lia.
Qed.

Section Shown.
Context `{Intl}.

Lemma display_or_zero_Number z dc : safe_integer z ->
  display_or_zero (Number z) dc = displayMinorToMajor z (getCurrencyMajorExponent dc).
Proof.
  intros Hz. unfold display_or_zero, displayAmountFromNumber.
  by rewrite Math_round_Number, safeBigInt_Number by done.
Qed.

(** The recorded amounts of a transaction: [a] and [f] in the wallet's currency, [da] and
    [df] in the display currency. *)
Record recorded_amounts (txn : LedgerTransaction) (a f da df : Z) : Prop := {
  rec_amount : (if decide (txn.(lt_currency) = Btc) then txn.(lt_satsAmount) else txn.(lt_centsAmount))
                 = Some (Number a);
  rec_fee : (if decide (txn.(lt_currency) = Btc) then txn.(lt_satsFee) else txn.(lt_centsFee))
              = Some (Number f);
  rec_displayAmount : txn.(lt_displayAmount) = Some (Number da);
  rec_displayFee : txn.(lt_displayFee) = Some (Number df);
  rec_bounds : 0 < a ∧ 0 <= f ∧ a + f < 2 ^ 53;
  rec_display_bounds : 0 < da ∧ 0 <= df ∧ da + df < 2 ^ 53;
}.

Lemma unit_recorded c x y d z : (if decide (c = Btc) then x else y) = Some (Number z) -> safe_integer z ->
  unit_of c {| sats := js_or x (Number 0); cents := js_or y (Number 0); display := d |} = Number z.
Proof. unfold unit_of. case_decide; cbn [sats cents]; intros -> ?; by apply js_or_Number. Qed.

(** The history shows what was recorded.  For a debit of an amount and its fee the
    settlement amount is their negated sum, and the displayed amount is the negated sum of the
    display amount and the display fee (of the display amount alone where the wallet paid no
    fee); for a credit of the amount they are the amount and its display amount.  The displayed
    fee is the recorded one. *)
Theorem settlement_amounts_shown txn a f da df dc
    (Hrec : recorded_amounts txn a f da df) (Hdc : js_or txn.(lt_displayCurrency) UsdDisplayCurrency = dc) :
  let shown z := displayMinorToMajor z (getCurrencyMajorExponent dc) in
  (txn.(lt_debit) = Number (a + f) -> txn.(lt_credit) = Number 0 ->
     fromTxn txn = {| settlementAmount := Number (- (a + f));
                      settlementDisplayAmount := shown (- (da + (if Z.eqb f 0 then 0 else df)));
                      settlementDisplayFee := shown df |}) ∧
  (txn.(lt_debit) = Number 0 -> txn.(lt_credit) = Number a ->
     fromTxn txn = {| settlementAmount := Number a;
                      settlementDisplayAmount := shown da;
                      settlementDisplayFee := shown df |}).
Proof.
  destruct Hrec as [HA HF HDA HDF (? & ? & ?) (? & ? & ?)]. cbn zeta.
  split; intros Hd Hc; unfold fromTxn; rewrite Hd, Hc, HDA, HDF, Hdc; cbn zeta;
    rewrite num_sub_Number, !(js_or_Number da), !(js_or_Number df) by (unfold safe_integer; lia).
  - rewrite Z.sub_0_l, (match_outgoing _ _ _ a f) by
      (first [apply unit_recorded; [done | unfold safe_integer; lia] | lia]).
    cbn [display]. rewrite (display_or_zero_Number df) by (unfold safe_integer; lia).
    f_equal. destruct (Z.eqb_spec f 0).
    + rewrite num_neg_Number, num_add_zero, Z.add_0_r by (unfold safe_integer; lia).
      apply display_or_zero_Number. unfold safe_integer. lia.
    + rewrite num_add_neg by lia. apply display_or_zero_Number. unfold safe_integer. lia.
  - rewrite Z.sub_0_r, (match_incoming _ _ _ a) by
      (first [apply unit_recorded; [done | unfold safe_integer; lia] | lia]).
    cbn [display]. rewrite num_add_zero, !display_or_zero_Number by (unfold safe_integer; lia). done.
Qed.

End Shown.

(** A memo is shown where it may be.  A transaction of one of the bank's own wallets shows
    its journal.  Otherwise the payer's memo, or else the invoice's, is shown exactly if it is an
    authorized one, if the transaction is not a credit, or if the credit reaches the threshold
    of the wallet's currency: a small incoming payment shows no memo of its sender. *)
Theorem translateMemo_shown memoFromPayer lnMemo c currency walletId internal journalId cfg
    thresholdSats thresholdCents
    (Hc : safe_integer c) (Hs : safe_integer thresholdSats) (Hu : safe_integer thresholdCents)
    (Hcfg : cfg.(memoSharingSatsThreshold) = Number thresholdSats)
    (Hcfg' : cfg.(memoSharingCentsThreshold) = Number thresholdCents)
    (Hw : match walletId with Some w => w ≠ "" | None => True end) :
  let shown := translateMemo memoFromPayer lnMemo (Number c) currency walletId internal journalId cfg in
  let memo := js_or_opt memoFromPayer lnMemo in
  (∀ w, walletId = Some w -> w ∈ internal -> shown = Some ("JournalId:" ++ journalId)%string) ∧
  ((∀ w, walletId = Some w -> w ∉ internal) ->
     ∀ m, shown = Some m ↔ memo = Some m ∧ m ≠ "" ∧
       (m ∈ cfg.(authorizedMemos) ∨ c = 0 ∨
        (if decide (currency = Btc) then thresholdSats else thresholdCents) <= c)).
Proof.
  cbn zeta. unfold translateMemo. split.
  - intros w -> Hin. unfold truthy, truthy_string. by rewrite !bool_decide_true.
  - intros Hni m.
    assert (Hif : match walletId with Some w => truthy w && bool_decide (w ∈ internal) | None => false end = false).
    { destruct walletId as [w|]; [|done]. rewrite (bool_decide_false (w ∈ internal)); [apply andb_false_r|eauto]. }
    rewrite Hif. cbn zeta. unfold shouldDisplayMemo, or_undefined.
    rewrite Hcfg, Hcfg', num_eqb_Number, !num_leb_Number by done.
    destruct (js_or_opt memoFromPayer lnMemo) as [x|]; [|split; [by split_ifs | by intros []]].
    unfold js_or_opt, truthy, truthy_option, truthy, truthy_string.
    destruct (decide (x = "")) as [->|Nx].
    + rewrite bool_decide_false by tauto. split; [by split_ifs | naive_solver].
    + rewrite bool_decide_true by done. cbn [andb].
      destruct (bool_decide_reflect (x ∈ authorizedMemos cfg)), (Z.eqb_spec c 0); cbn [orb];
        case_decide; split; intros Hm;
        repeat case_match; zbool; naive_solver lia.
Qed.

(** The status of a payment in each phase of its history. *)
Definition phase_status (ph : phase) : TxStatus :=
  match ph with
  | InFlight => StatusPending
  | Settled | Reimbursed => StatusSuccess
  | Idle | FailedLate | FailedLateReimbursed => StatusFailure
  end.

(** The status shown for a Lightning payment is that of its history: a transaction marked
    with the state that [determine] finds from the wallet's transactions for the payment is
    pending exactly while an attempt is in flight, successful once one has settled, reimbursed
    or not, and failed otherwise. *)
Theorem payment_status_shown p s bundle invoices txn
    (Hr : reachable p) (Hs : expected_state p = Some s)
    (Hi : Forall (fun tx => tx.(lt_type) = Invoice) invoices)
    (Hb : bundle ≡ₚ p.(recorded) ++ invoices)
    (Htxn : Ok <$> txn.(lt_lnPaymentState) = Some (determine bundle)) :
  statusFromTxn txn = phase_status p.(current).
Proof.
  pose proof (reachable_inv p Hr) as Hinv.
  destruct (determine_filtered bundle p.(recorded) invoices) as (L & HL & Hso & E);
    [apply Hinv | by eapply attempted_payments | done..|].
  rewrite E, (determine_phase p s L) in Htxn by done.
  apply fmap_Some in Htxn as (s' & Hs' & [= ->]). unfold statusFromTxn. rewrite Hs'.
  unfold expected_state in Hs. by destruct p as [[|[|n]] [] txs]; cbn in *; simplify_eq.
Qed.

(** ** Wallets of ledger accounts *)

Fixpoint no_colon (s : string) : bool :=
  match s with
  | EmptyString => true
  | String c s' => bool_decide (c ≠ ":"%char) && no_colon s'
  end.

Lemma split_no_colon s : no_colon s = true -> split_colon s = [s].
Proof.
  induction s as [|c s IH]; cbn; [done|]. intros [Hc Hs]%andb_true_iff. apply bool_decide_eq_true in Hc.
  rewrite decide_False by done. by rewrite IH.
Qed.

Lemma split_colon_length s : no_colon s = false -> (2 <= length (split_colon s))%nat.
Proof.
  induction s as [|c s IH]; cbn; [done|]. intros Hs.
  destruct (decide (c = ":"%char)) as [->|Nc].
  - cbn. destruct (no_colon s) eqn:E; [by rewrite (split_no_colon s E)|]. specialize (IH eq_refl). lia.
  - rewrite bool_decide_true in Hs by done. specialize (IH Hs).
    destruct (split_colon s); cbn in *; lia.
Qed.

Lemma split_colon_app p w : no_colon p = true ->
  split_colon (p ++ ":" ++ w)%string = p :: split_colon w.
Proof.
  induction p as [|c p IH]; cbn [no_colon]; [done|].
  intros [Hc Hs]%andb_true_iff. apply bool_decide_eq_true in Hc.
  change (String c p ++ ":" ++ w)%string with (String c (p ++ ":" ++ w)%string). cbn [split_colon].
  rewrite decide_False by done. by rewrite IH.
Qed.

Lemma toWalletId_path w : toWalletId (toLiabilitiesWalletId w) =
  match split_colon w with
  | [p] => if truthy p then Some p else None
  | _ => None
  end.
Proof.
  unfold toWalletId, toLiabilitiesWalletId. rewrite split_colon_app by done.
  destruct (split_colon w) as [|p [|q ps]]; [done| |done]. by rewrite bool_decide_true.
Qed.

(** The wallet read back from a ledger account is the one it was made from, for exactly
    the wallet ids that are not empty and have no colon; for any other none is read. *)
Theorem toWalletId_toLiabilities w :
  toWalletId (toLiabilitiesWalletId w) = if negb (bool_decide (w = "")) && no_colon w then Some w else None.
Proof.
  rewrite toWalletId_path. destruct (no_colon w) eqn:E.
  - rewrite (split_no_colon w E), andb_true_r. unfold truthy, truthy_string.
    by destruct (bool_decide_reflect (w = "")), (bool_decide_reflect (w ≠ "")).
  - rewrite andb_false_r. pose proof (split_colon_length w E) as Hl.
    by destruct (split_colon w) as [|p [|q ps]]; cbn in *; [lia|lia|].
Qed.

(** The output index of an on-chain transaction is read back unless it is zero: an
    output index of zero, which is a valid one, is read as undefined. *)
Theorem translate_vout tx v (Hv : safe_integer v) (Hraw : tx.(raw_vout) = Some (Number v)) :
  (translateToLedgerTx tx).(lt_vout) = if v =? 0 then None else Some (Number v).
Proof.
  cbn. rewrite Hraw. unfold or_undefined, js_or_opt. cbn. rewrite truthy_Number by done.
  unfold truthy, truthy_bigint. by destruct (Z.eqb_spec v 0).
Qed.

Module HistoryExamples.
Import LedgerTxExamples.

(** Every currency has two minor digits. *)
#[local] Instance two_digits : Intl := fun _ => Some 2.

(** A payment of 1000 sats with a fee of 10, displayed as 30 cents with a fee of 1. *)
Definition sent : LedgerTransaction := {|
  lt_id := "id"; lt_walletId := Some "alice"; lt_type := Payment; lt_debit := Number 1010;
  lt_credit := Number 0; lt_currency := Btc; lt_timestamp := 1; lt_pendingConfirmation := false;
  lt_journalId := "journal"; lt_externalId := None; lt_lnMemo := None; lt_recipientWalletId := None;
  lt_username := None; lt_memoFromPayer := None; lt_paymentHash := Some "hash"; lt_pubkey := None;
  lt_feeKnownInAdvance := false; lt_lnPaymentState := Some LnSuccessAfterRetry; lt_revealedPreImage := None;
  lt_satsAmount := Some (Number 1000); lt_centsAmount := Some (Number 30);
  lt_satsFee := Some (Number 10); lt_centsFee := Some (Number 1);
  lt_displayAmount := Some (Number 30); lt_displayFee := Some (Number 1);
  lt_displayCurrency := Some "USD"; lt_address := None;
  lt_txHash := None; lt_vout := None; lt_requestId := None; lt_payoutId := None;
  lt_fee := None; lt_usd := None; lt_feeUsd := None;
|}.

Lemma settlement_amounts_shown_witness :
  fromTxn sent = {| settlementAmount := Number (-1010); settlementDisplayAmount := "-0.31";
                    settlementDisplayFee := "0.01" |}.
Proof.
  destruct (settlement_amounts_shown sent 1000 10 30 1 "USD") as [Hout _];
    [split; first [reflexivity | lia] | reflexivity |].
  rewrite (Hout eq_refl eq_refl). vm_compute. reflexivity.
Defined.

Definition sharing : MemoSharingConfig := {|
  memoSharingCentsThreshold := Number 50; memoSharingSatsThreshold := Number 1000;
  authorizedMemos := ["Airdrop"];
|}.

(** A small payment in shows no memo. *)
Lemma translateMemo_shown_witness :
  translateMemo (Some "buy now") None (Number 1) Btc (Some "bob") ["bank"] "journal" sharing = None.
Proof.
  destruct (translateMemo_shown (Some "buy now") None 1 Btc (Some "bob") ["bank"] "journal" sharing 1000 50)
    as [_ Hm]; [done..|].
  destruct (translateMemo _ _ _ _ _ _ _ _) as [m|] eqn:E; [exfalso | reflexivity].
  destruct (proj1 (Hm ltac:(intros w [= <-]; set_solver) m) eq_refl) as (Hmemo & _ & Hc).
  injection Hmemo as <-. cbn in Hc. destruct Hc as [Hc|[Hc|Hc]]; [set_solver | discriminate Hc | rewrite decide_True in Hc by done; lia].
Defined.

Lemma payment_status_shown_witness : statusFromTxn sent = StatusSuccess.
Proof.
  apply (payment_status_shown retried LnSuccessAfterRetry retried.(recorded) [] sent);
    [exact retried_reachable | reflexivity | constructor | by rewrite app_nil_r | vm_compute; reflexivity].
Defined.

Definition receipt : ILedgerTransaction := {|
  raw_id := Some "id"; raw_accounts := toLiabilitiesWalletId "alice"; raw_external_id := None;
  raw_type := OnchainReceipt; raw_debit := Number 0; raw_credit := Number 1000; raw_currency := Btc;
  raw_timestamp := 1; raw_pending := false; raw_bundle_completion_state := None; raw_journal := "journal";
  raw_memo := ""; raw_username := None; raw_memoPayer := None; raw_hash := Some "txid"; raw_pubkey := None;
  raw_payee_addresses := Some ["address"]; raw_request_id := None; raw_payout_id := None;
  raw_vout := Some (Number 0); raw_feeKnownInAdvance := None;
  raw_satsAmount := Some (Number 1000); raw_centsAmount := Some (Number 30);
  raw_satsFee := Some (Number 0); raw_centsFee := Some (Number 0);
  raw_displayAmount := Some (Number 30); raw_displayFee := Some (Number 0);
  raw_displayCurrency := Some "USD"; raw_fee := None; raw_usd := None; raw_feeUsd := None;
|}.

Lemma translate_vout_witness : (translateToLedgerTx receipt).(lt_vout) = None.
Proof. exact (translate_vout receipt 0 ltac:(done) eq_refl). Defined.

End HistoryExamples.
