(* ===== verification/Limits.v ===== *)
(** * Account limits

    Models the volumes of [services/ledger/facade/volume.ts], [domain/accounts/limits-volume.ts] and
    [limits-checker.ts], and [getAccountLimits] of [config/yaml.ts].  The aggregation pipeline of
    the volume query is evaluated over the list of stored transactions. *)

From S2P Require Import Prelude JsNumber Shared Prices Fees LedgerEntry TxMetadata LedgerTx TxHistory.

(** ** Volumes *)

Inductive TxnGroup :=
| allPaymentVolumeSince | externalPaymentVolumeSince | intraledgerTxBaseVolumeSince
| tradeIntraAccountTxBaseVolumeSince | lightningTxBaseVolumeSince | onChainTxBaseVolumeSince
| allTxBaseVolumeSince.

Definition TxnGroups (g : TxnGroup) : list LedgerTransactionType :=
  match g with
  | allPaymentVolumeSince =>
      [IntraLedger; OnchainIntraLedger; LnIntraLedger; Payment; LnFeeReimbursement; OnchainPayment]
  | externalPaymentVolumeSince => [Payment; LnFeeReimbursement; OnchainPayment]
  | intraledgerTxBaseVolumeSince => [IntraLedger; OnchainIntraLedger; LnIntraLedger]
  | tradeIntraAccountTxBaseVolumeSince =>
      [WalletIdTradeIntraAccount; OnChainTradeIntraAccount; LnTradeIntraAccount]
  | lightningTxBaseVolumeSince => [Payment; Invoice; LnFeeReimbursement]
  | onChainTxBaseVolumeSince => [OnchainPayment; OnchainReceipt]
  | allTxBaseVolumeSince =>
      [Invoice; Payment; LnFeeReimbursement; OnchainReceipt; OnchainPayment;
       IntraLedger; LnIntraLedger; OnchainIntraLedger;
       WalletIdTradeIntraAccount; LnTradeIntraAccount; OnChainTradeIntraAccount;
       Fee; ToColdStorage; ToHotWallet; EscrowType; RoutingRevenue; Reconciliation]
  end.

(** The fields of a stored transaction that the query reads. *)
Record StoredTx := mkStored {
  st_accounts : string;
  st_type : LedgerTransactionType;
  st_timestamp : Z;
  st_datetime : Z;
  st_journal : string;
  st_original_journal : option string;
  st_debit : number;
  st_credit : number;
}.

Record TxBaseVolume := mkVolume { outgoingBaseAmount : number; incomingBaseAmount : number }.
Record TxBaseVolumeAmount := mkVolumeAmount { outgoing : Amount; incoming : Amount }.

Section Volumes.
Context (medici_transactions : list StoredTx) (now : Z).

(** [$lookup] of the transactions of the journal that a reverting transaction voids. *)
Definition original_transactions (tx : StoredTx) : list StoredTx :=
  match tx.(st_original_journal) with
  | None => []
  | Some j => filter (fun o => o.(st_journal) = j) medici_transactions
  end.

Definition is_transaction_valid (tx : StoredTx) : bool :=
  match original_transactions tx with
  | [] => true
  | o :: _ => now - ImbalanceCalculator.MS_PER_DAY <=? o.(st_datetime)
  end.

(** The transactions the pipeline sums. *)
Definition matched (walletId : WalletId) (timestamp : Z) (g : TxnGroup) : list StoredTx :=
  filter (fun tx => is_transaction_valid tx = true)
    (filter (fun tx => tx.(st_accounts) = toLiabilitiesWalletId walletId ∧
                       tx.(st_type) ∈ TxnGroups g ∧ timestamp <= tx.(st_timestamp))
       medici_transactions).

(** What the group stage of the pipeline sums. *)
Definition base_volume (walletId : WalletId) (timestamp : Z) (g : TxnGroup) : TxBaseVolume :=
  let txs := matched walletId timestamp g in
  {| outgoingBaseAmount := foldl num_add (Number 0) (map st_debit txs);
     incomingBaseAmount := foldl num_add (Number 0) (map st_credit txs) |}.

End Volumes.

Definition volume_amount (volume : TxBaseVolume) (c : WalletCurrency) : Result TxBaseVolumeAmount :=
  out ← paymentAmountFromNumber volume.(outgoingBaseAmount) c;
  in' ← paymentAmountFromNumber volume.(incomingBaseAmount) c;
  Ok {| outgoing := out; incoming := in' |}.

Definition netIn (v : TxBaseVolumeAmount) : Amount := AmountCalculator.sub v.(incoming) v.(outgoing).
Definition netOut (v : TxBaseVolumeAmount) : Amount := AmountCalculator.sub v.(outgoing) v.(incoming).
Definition absolute (v : TxBaseVolumeAmount) : Amount := AmountCalculator.add v.(incoming) v.(outgoing).

(** ** Limits *)

Record IAccountLimits := mkLimits {
  intraLedgerLimit : number;
  withdrawalLimit : number;
  tradeIntraAccountLimit : number;
}.

Inductive AccountLevel := LevelZero | LevelOne | LevelTwo.

(** [yamlConfig.accountLimits]: each limit by level. *)
Record YamlAccountLimits := mkYamlLimits {
  yaml_intraLedger : AccountLevel -> number;
  yaml_withdrawal : AccountLevel -> number;
  yaml_tradeIntraAccount : AccountLevel -> number;
}.

Definition getAccountLimits (level : AccountLevel) (accountLimits : YamlAccountLimits) : IAccountLimits := {|
  intraLedgerLimit := accountLimits.(yaml_intraLedger) level;
  withdrawalLimit := accountLimits.(yaml_withdrawal) level;
  tradeIntraAccountLimit := accountLimits.(yaml_tradeIntraAccount) level;
|}.

(** [WalletVolumesAggregator(...).aggregate()] *)
Definition aggregate (walletVolumes : list Amount) (priceRatio : WalletPriceRatio.t) : Amount :=
  foldl (fun acc v =>
      AmountCalculator.add acc
        (if decide (v.(currency) = Btc) then WalletPriceRatio.convertFromBtc priceRatio v else v))
    ZERO_CENTS walletVolumes.

(** What each method of [AccountTxVolumeRemaining] does with its limit. *)
Definition volumeRemaining (limit : number) (priceRatio : WalletPriceRatio.t) (walletVolumes : list Amount)
    : Result Amount :=
  limitAmount ← paymentAmountFromNumber limit Usd;
  let volumeInUsd := aggregate walletVolumes priceRatio in
  Ok (AmountCalculator.max ZERO_CENTS [AmountCalculator.sub limitAmount volumeInUsd]).

Definition AccountTxVolumeRemaining_intraLedger (accountLimits : IAccountLimits) :=
  volumeRemaining accountLimits.(intraLedgerLimit).
Definition AccountTxVolumeRemaining_withdrawal (accountLimits : IAccountLimits) :=
  volumeRemaining accountLimits.(withdrawalLimit).
Definition AccountTxVolumeRemaining_tradeIntraAccount (accountLimits : IAccountLimits) :=
  volumeRemaining accountLimits.(tradeIntraAccountLimit).

Definition limitErrMsg (limit : number) : string :=
  ("Cannot transfer more than $" ++ toFixed 2 (num_div limit (Number 100)) ++ " in 24 hours")%string.

Definition checkIntraledger (accountLimits : IAccountLimits) (amt volumeRemaining : Amount) : Result unit :=
  if amt.(amount) <=? volumeRemaining.(amount) then Ok tt
  else Err (IntraledgerLimitsExceededError (limitErrMsg accountLimits.(intraLedgerLimit))).

Definition checkWithdrawal (accountLimits : IAccountLimits) (amt volumeRemaining : Amount) : Result unit :=
  if amt.(amount) <=? volumeRemaining.(amount) then Ok tt
  else Err (WithdrawalLimitsExceededError (limitErrMsg accountLimits.(withdrawalLimit))).

Definition checkTradeIntraAccount (accountLimits : IAccountLimits) (amt volumeRemaining : Amount) : Result unit :=
  if amt.(amount) <=? volumeRemaining.(amount) then Ok tt
  else Err (TradeIntraAccountLimitsExceededError (limitErrMsg accountLimits.(tradeIntraAccountLimit))).

(** ** Volumes as sums

    A ledger whose amounts are non-negative integers that add up exactly. *)

Definition debits (txs : list StoredTx) : Z := sumZ (map amount_of (map st_debit txs)).
Definition credits (txs : list StoredTx) : Z := sumZ (map amount_of (map st_credit txs)).

Definition base_amount (x : number) : Prop := ∃ z, x = Number z ∧ 0 <= z < 2 ^ 53.

Record safe_ledger (txs : list StoredTx) : Prop := {
  safe_amounts : Forall (fun tx => base_amount tx.(st_debit) ∧ base_amount tx.(st_credit)) txs;
  safe_debits : debits txs < 2 ^ 53;
  safe_credits : credits txs < 2 ^ 53;
}.

Lemma base_amount_of x : base_amount x -> x = Number (amount_of x) ∧ 0 <= amount_of x.
Proof.
  intros (z & -> & Hz). rewrite amount_of_Number by (unfold safe_integer; lia). split; [done | lia].
Qed.

Lemma sum_base_amounts (xs : list number) acc : Forall base_amount xs -> 0 <= acc ->
  acc + sumZ (map amount_of xs) < 2 ^ 53 ->
  foldl num_add (Number acc) xs = Number (acc + sumZ (map amount_of xs)) ∧ 0 <= sumZ (map amount_of xs).
Proof.
  intros Hxs. revert acc. induction Hxs as [|x xs Hx Hxs IH]; intros acc Hacc Hs; cbn in *.
  { rewrite Z.add_0_r. split; [done | lia]. }
  destruct (base_amount_of x Hx) as [E Hp].
  assert (Hn : 0 <= sumZ (map amount_of xs)).
  { clear IH Hs. induction Hxs as [|y ys Hy Hys IH]; cbn; [lia|].
    destruct (base_amount_of y Hy). unfold sumZ in IH. lia. }
  unfold sumZ in Hn. rewrite E at 1. rewrite num_add_Number by (unfold safe_integer; lia).
  destruct (IH (acc + amount_of x)) as [-> _]; [lia | unfold sumZ; lia |].
  unfold sumZ. split; [f_equal; lia | lia].
Qed.

Lemma safe_ledger_filter (P : StoredTx -> Prop) `{∀ tx, Decision (P tx)} txs :
  safe_ledger txs -> safe_ledger (filter P txs).
Proof.
  intros [Ha Hd Hc].
  assert (Hsub : debits (filter P txs) <= debits txs ∧ credits (filter P txs) <= credits txs).
  { clear Hd Hc. unfold debits, credits, sumZ. induction Ha as [|tx txs [Hx Hy] Ha IH]; [done|].
    destruct (base_amount_of _ Hx) as [_ Hx']; destruct (base_amount_of _ Hy) as [_ Hy'].
    rewrite filter_cons. case_decide; cbn in *; lia. }
  split; [|lia..]. apply Forall_forall. intros tx [_ Hin]%list_elem_of_filter.
  exact (proj1 (Forall_forall _ _) Ha tx Hin).
Qed.

Section Sums.
Context (db : list StoredTx) (now : Z) (Hdb : safe_ledger db).

Lemma volume_sums id c t g : volume_amount (base_volume db now id t g) c =
  Ok {| outgoing := {| amount := debits (matched db now id t g); currency := c |};
        incoming := {| amount := credits (matched db now id t g); currency := c |} |}.
Proof.
  unfold volume_amount, base_volume. cbn [outgoingBaseAmount incomingBaseAmount].
  assert (Hm : safe_ledger (matched db now id t g))
    by (unfold matched; do 2 apply safe_ledger_filter; exact Hdb).
  destruct Hm as [Ha Hd Hc]. unfold debits, credits in *.
  set (txs := matched db now id t g) in *.
  assert (HaD : Forall base_amount (map st_debit txs)) by (apply Forall_map; eapply Forall_impl; [exact Ha|]; naive_solver).
  assert (HaC : Forall base_amount (map st_credit txs)) by (apply Forall_map; eapply Forall_impl; [exact Ha|]; naive_solver).
  destruct (sum_base_amounts _ 0 HaD) as [-> ?]; [lia..|].
  destruct (sum_base_amounts _ 0 HaC) as [-> ?]; [lia..|].
  by rewrite !Z.add_0_l, !paymentAmountFromNumber_Number by (unfold safe_integer; lia).
Qed.

End Sums.

(** What the wallets of an account sent in the last day, in cents: bitcoin at the ratio. *)
Definition sent_in_cents (r : WalletPriceRatio.t) (btcVolume usdVolume : Z) : Z :=
  (WalletPriceRatio.convertFromBtc r (BtcPaymentAmount btcVolume)).(amount) + usdVolume.

Lemma aggregate_two r b u : aggregate [BtcPaymentAmount b; UsdPaymentAmount u] r =
  UsdPaymentAmount (sent_in_cents r b u).
Proof. done. Qed.

Lemma volumeRemaining_within limit r b u amt : safe_integer limit -> 0 < amt ->
  b.(currency) = Btc -> u.(currency) = Usd ->
  ∃ v, volumeRemaining (Number limit) r [b; u] = Ok v ∧
    0 <= v.(amount) ∧ (amt <= v.(amount) ↔ sent_in_cents r b.(amount) u.(amount) + amt <= limit).
Proof.
  destruct b as [cb b], u as [cu u]. cbn [currency amount]. intros Hl Ha -> ->.
  change (mkAmount Btc b) with (BtcPaymentAmount b). change (mkAmount Usd u) with (UsdPaymentAmount u). unfold volumeRemaining. rewrite paymentAmountFromNumber_Number by done. cbn [mbind result_bind].
  eexists. split; [reflexivity|]. rewrite max2_amount, aggregate_two. cbn. lia.
Qed.

(** A wallet that received more than it sent counts against the limit when the difference
    is worth less than a cent: the negative volume is converted to one cent.  A difference
    worth at least a cent is subtracted, rounded down. *)
Theorem negative_volume_counted r z u (Hr : positive_ratio r) (Hz : z < 0) :
  let worth := - z * r.(PriceRatio.other) in
  let sats := r.(PriceRatio.walletAmount).(amount) in
  (aggregate [BtcPaymentAmount z; UsdPaymentAmount u] r).(amount) =
    u + (if worth <? sats then 1 else - Z.quot worth sats).
Proof.
  destruct Hr as [Ho Hw]. cbn zeta. rewrite aggregate_two. cbn [amount UsdPaymentAmount]. unfold sent_in_cents, WalletPriceRatio.convertFromBtc.
  unfold PriceRatio.convertFromWallet, AmountCalculator.divRound. cbn [amount BtcPaymentAmount].
  set (o := r.(PriceRatio.other)) in *. set (w := r.(PriceRatio.walletAmount).(amount)) in *.
  destruct (Z.eqb_spec z 0); [lia|].
  replace (z * o) with (- (- z * o)) by ring. rewrite Z.rem_opp_l, Z.quot_opp_l by lia.
  destruct (quot_rem_pos (- z * o) w) as (E & Hm & Hq); [nia | done |].
  destruct (Z.ltb_spec (Z.quot w 2) (- Z.rem (- z * o) w)).
  { pose proof (Z.quot_pos w 2 ltac:(lia) ltac:(lia)). lia. }
  cbn [amount js_or]. unfold truthy, truthy_bigint.
  destruct (Z.ltb_spec (- z * o) w), (Z.eqb_spec (- Z.quot (- z * o) w) 0); cbn [negb]; nia.
Qed.

Module LimitsExamples.

(** 3 cents for 100 sats. *)
Definition ratio : WalletPriceRatio.t := PriceRatio.mk 3 (BtcPaymentAmount 100).

Lemma negative_volume_counted_witness :
  (aggregate [BtcPaymentAmount (-1); UsdPaymentAmount 0] ratio).(amount) = 1.
Proof. exact (negative_volume_counted ratio (-1) 0 ltac:(by vm_compute) ltac:(lia)). Defined.

End LimitsExamples.
