(* ===== verification/Invoices.v ===== *)
(** * Wallet invoices and receiving

    Models [domain/wallet-invoices] (the builder of invoices, the receiver of paid ones, the
    decline and status checks), [domain/wallet-on-chain/wallet-address-receiver.ts] and
    [domain/ledger/validation.ts].  The dealer's conversions and the node's registration of
    an invoice are arguments, as are the random secret with its hash and the clock. *)

From Stdlib Require Import Ascii.
From S2P Require Import Prelude JsNumber Shared Prices Fees Lightning PaymentFlow LightningBuilder LedgerEntry.

(** [/^[a-z0-9_-]{1,100}$/] *)
Definition external_id_char (c : ascii) : bool :=
  let n := Z.of_nat (nat_of_ascii c) in
  ((97 <=? n) && (n <=? 122)) || ((48 <=? n) && (n <=? 57)) || (n =? 95) || (n =? 45).

Definition checkedToLedgerExternalId (externalId : string) : Result LedgerExternalId :=
  let cs := String.list_ascii_of_string externalId in
  if (1 <=? Z.of_nat (length cs)) && (Z.of_nat (length cs) <=? 100) && forallb external_id_char cs
  then Ok externalId else Err (InvalidLedgerExternalId externalId).

(** What an invoice has besides its [lnInvoice], which older invoices lack. *)
Record WalletInvoiceBase := mkInvoiceBase {
  wi_paymentHash : PaymentHash;
  wi_secret : string;
  wi_selfGenerated : bool;
  wi_pubkey : Pubkey;
  wi_usdAmount : option Amount;
  wi_recipientWalletDescriptor : WalletDescriptor;
  wi_paid : bool;
  wi_createdAt : Date;
  wi_processingCompleted : bool;
  wi_externalId : LedgerExternalId;
}.

Record WalletInvoiceWithOptionalLnInvoice := mkOptionalInvoice {
  wi_optional :> WalletInvoiceBase;
  wi_optionalLnInvoice : option LnInvoice;
}.

Record WalletInvoice := mkWalletInvoice {
  wi_base :> WalletInvoiceBase;
  wi_lnInvoice : LnInvoice;
}.

(** ** The invoice builder *)
Module WIB.

Record RegisterInvoiceArgs := mkRegister {
  reg_paymentHash : PaymentHash;
  reg_description : string;
  reg_descriptionHash : option string;
  reg_btcPaymentAmount : Amount;
  reg_expiresAt : Date;
}.

Record RegisteredInvoice := mkRegistered {
  registered_invoice : LnInvoice;
  registered_pubkey : Pubkey;
}.

Record config := mkConfig {
  dealerBtcFromUsd : Amount -> Result Amount;
  dealerUsdFromBtc : Amount -> Result Amount;
  lnRegisterInvoice : RegisterInvoiceArgs -> Result RegisteredInvoice;
}.

Record WithExternalIdState := mkWithExternalId {
  x_config : config;
  x_externalId : option LedgerExternalId;
}.

Record WithDescriptionState := mkWithDescription {
  d_state : WithExternalIdState;
  d_description : string;
  d_descriptionHash : option string;
}.

Record WithOriginState := mkWithOrigin {
  o_state : WithDescriptionState;
  o_selfGenerated : bool;
}.

Record WithRecipientState := mkWithRecipient {
  r_state : WithOriginState;
  r_recipientWalletDescriptor : WalletDescriptor;
}.

Record WithExpirationState := mkWithExpiration {
  e_state : WithRecipientState;
  e_invoiceExpiration : Date;
}.

Record WithAmountState := mkWithAmount {
  a_state : WithExpirationState;
  a_hasAmount : bool;
  a_btcAmount : Amount;
  a_usdAmount : option Amount;
}.

Definition withExternalId (cfg : config) (externalId : option LedgerExternalId) : WithExternalIdState :=
  {| x_config := cfg; x_externalId := externalId |}.

Definition withDescription (state : WithExternalIdState) (description : string)
    (descriptionHash : option string) : WithDescriptionState :=
  {| d_state := state; d_description := description; d_descriptionHash := descriptionHash |}.

Definition generatedForRecipient (state : WithDescriptionState) : WithOriginState :=
  {| o_state := state; o_selfGenerated := false |}.

Definition generatedForSelf (state : WithDescriptionState) : WithOriginState :=
  {| o_state := state; o_selfGenerated := true |}.

Definition withRecipientWallet (state : WithOriginState) (recipientWallet : WalletDescriptor)
    : WithRecipientState :=
  {| r_state := state; r_recipientWalletDescriptor := recipientWallet |}.

Definition withExpiration (state : WithRecipientState) (now : Date) (minutes : Z) : WithExpirationState :=
  {| e_state := state;
     e_invoiceExpiration :=
       invoiceExpirationForCurrency state.(r_recipientWalletDescriptor).(w_currency) now
         (Some (minutes * 60)) |}.

Definition withAmount (state : WithExpirationState) (amt : Amount) : Result WithAmountState :=
  let recipient := state.(e_state).(r_recipientWalletDescriptor) in
  let cfg := state.(e_state).(r_state).(o_state).(d_state).(x_config) in
  if decide (recipient.(w_currency) = Usd) then
    if decide (amt.(currency) = Usd) then
      btcAmount ← cfg.(dealerBtcFromUsd) amt;
      Ok {| a_state := state; a_hasAmount := true; a_btcAmount := btcAmount; a_usdAmount := Some amt |}
    else
      usdAmount ← cfg.(dealerUsdFromBtc) amt;
      if usdAmount.(amount) =? 0 then Err (SubOneCentSatAmountForUsdReceiveError amt.(amount))
      else Ok {| a_state := state; a_hasAmount := true; a_btcAmount := amt; a_usdAmount := Some usdAmount |}
  else if decide (amt.(currency) ≠ Btc) then Err InvalidWalletInvoiceBuilderStateError
  else Ok {| a_state := state; a_hasAmount := true; a_btcAmount := amt; a_usdAmount := None |}.

Definition withoutAmount (state : WithExpirationState) : WithAmountState :=
  {| a_state := state; a_hasAmount := false; a_btcAmount := ZERO_SATS; a_usdAmount := None |}.

(** The secret with its payment hash and the time of creation are arguments. *)
Definition registerInvoice (state : WithAmountState) (secret : string) (paymentHash : PaymentHash)
    (now : Date) : Result WalletInvoice :=
  let expiration := state.(a_state) in
  let recipient := expiration.(e_state) in
  let origin := recipient.(r_state) in
  let description := origin.(o_state) in
  let base := description.(d_state) in
  defaultExternalId ← checkedToLedgerExternalId paymentHash;
  let externalId := js_or base.(x_externalId) defaultExternalId in
  registeredInvoice ← base.(x_config).(lnRegisterInvoice)
    {| reg_paymentHash := paymentHash;
       reg_description := description.(d_description);
       reg_descriptionHash := description.(d_descriptionHash);
       reg_btcPaymentAmount := state.(a_btcAmount);
       reg_expiresAt := expiration.(e_invoiceExpiration) |};
  if decide (paymentHash ≠ registeredInvoice.(registered_invoice).(inv_paymentHash))
  then Err InvalidWalletInvoiceBuilderStateError
  else Ok {| wi_lnInvoice := registeredInvoice.(registered_invoice); wi_base := {|
    wi_paymentHash := paymentHash;
    wi_secret := secret;
    wi_selfGenerated := origin.(o_selfGenerated);
    wi_pubkey := registeredInvoice.(registered_pubkey);
    wi_usdAmount := state.(a_usdAmount);
    wi_recipientWalletDescriptor := recipient.(r_recipientWalletDescriptor);
    wi_paid := false;
    wi_createdAt := now;
    wi_processingCompleted := false;
    wi_externalId := externalId |} |}.

End WIB.

(** ** Checks *)

(** [shouldDecline] of an invoice looked up in the repository, at [now]. *)
Definition shouldDecline (walletInvoice : Result WalletInvoiceBase) (now : Date) : bool :=
  match walletInvoice with
  | Err CouldNotFindWalletInvoiceError => true
  | Err _ => false
  | Ok walletInvoice =>
      let currency := walletInvoice.(wi_recipientWalletDescriptor).(w_currency) in
      let expiresAtWithDelay := invoiceExpirationForCurrency currency walletInvoice.(wi_createdAt) None in
      bool_decide (currency = Usd) && (expiresAtWithDelay <? now)
  end.

Inductive WalletInvoiceStatus := InvoicePending | InvoicePaid | InvoiceExpired.

Definition invoice_status (walletInvoice : WalletInvoice) (currentTime : Date) : WalletInvoiceStatus :=
  if walletInvoice.(wi_paid) then InvoicePaid
  else if walletInvoice.(wi_lnInvoice).(expiresAt) <? currentTime then InvoiceExpired
  else InvoicePending.

(** ** Receiving *)

Record Received := mkReceived {
  rcv_usdToCreditReceiver : Amount;
  rcv_btcToCreditReceiver : Amount;
  rcv_usdBankFee : Amount;
  rcv_btcBankFee : Amount;
  rcv_recipientWalletDescriptor : WalletDescriptor;
  rcv_receivedAmount : Amount;
}.

Module WalletInvoiceReceiver.
Section Receiver.
Context (walletInvoice : WalletInvoiceBase) (recipientWalletDescriptors : AccountWalletDescriptors)
  (receivedBtc : Amount) (satsFee : option Amount).

Definition recipientWalletDescriptor : WalletDescriptor :=
  let partial := walletInvoice.(wi_recipientWalletDescriptor) in
  {| w_id := partial.(w_id); w_currency := partial.(w_currency);
     w_accountId := recipientWalletDescriptors.(BTC).(w_accountId) |}.

Definition btcBankFee : Amount := default ZERO_BANK_FEE.(btcBankFee) satsFee.

(** The amounts of a receipt worth [receivedUsd], credited to [walletDescriptor]. *)
Definition received (receivedUsd : Amount) (walletDescriptor : WalletDescriptor) : Result Received :=
  priceRatio ← WalletPriceRatio.make receivedUsd receivedBtc;
  let usdBankFee := WalletPriceRatio.convertFromBtcToCeil priceRatio btcBankFee in
  Ok {| rcv_btcToCreditReceiver := AmountCalculator.sub receivedBtc btcBankFee;
        rcv_usdToCreditReceiver := AmountCalculator.sub receivedUsd usdBankFee;
        rcv_usdBankFee := usdBankFee;
        rcv_btcBankFee := btcBankFee;
        rcv_recipientWalletDescriptor := walletDescriptor;
        rcv_receivedAmount :=
          if decide (walletDescriptor.(w_currency) = Btc) then receivedBtc else receivedUsd |}.

Section WithConversion.
Context {F : Type -> Type} `{Calls F}.
Context (hedgeBuyUsd_usdFromBtc mid_usdFromBtc : Amount -> F Amount).

Definition receivedWalletInvoiceFromBtcAmountMid (newRecipientWalletDescriptor : option WalletDescriptor)
    : F Received :=
  receivedUsd ← mid_usdFromBtc receivedBtc;
  returns (received receivedUsd (default recipientWalletDescriptor newRecipientWalletDescriptor)).

Definition receivedWalletInvoiceFromUsdAmountRatio (receivedUsd : Amount) : F Received :=
  returns (received receivedUsd recipientWalletDescriptor).

Definition receivedWalletInvoiceFromBtcAmountDealer : F Received :=
  receivedUsd ← hedgeBuyUsd_usdFromBtc receivedBtc;
  returns (received receivedUsd recipientWalletDescriptor).

Definition withConversion : F Received :=
  if decide (recipientWalletDescriptor.(w_currency) = Btc) then receivedWalletInvoiceFromBtcAmountMid None
  else
    match walletInvoice.(wi_usdAmount) with
    | Some usdAmountFromInvoice => receivedWalletInvoiceFromUsdAmountRatio usdAmountFromInvoice
    | None =>
        handle receivedWalletInvoiceFromBtcAmountDealer (fun received =>
        match received with
        | Err InvalidZeroAmountPriceRatioInputError =>
            receivedWalletInvoiceFromBtcAmountMid (Some recipientWalletDescriptors.(BTC))
        | received => returns received
        end)
    end.

End WithConversion.
End Receiver.
End WalletInvoiceReceiver.

(** [WalletAddressReceiver] *)
Definition walletAddressReceiver {F : Type -> Type} `{Calls F} (recipient : WalletDescriptor) (receivedBtc : Amount)
    (satsFee : option Amount) (usdFromBtc usdFromBtcMidPrice : Amount -> F Amount) : F Received :=
  let satsFee := default ZERO_BANK_FEE.(btcBankFee) satsFee in
  let usdFromBtcFn := if decide (recipient.(w_currency) = Btc) then usdFromBtcMidPrice else usdFromBtc in
  receivedUsd ← usdFromBtcFn receivedBtc;
  priceRatio ← returns (WalletPriceRatio.make receivedUsd receivedBtc);
  let usdBankFee := WalletPriceRatio.convertFromBtcToCeil priceRatio satsFee in
  let btcToCreditReceiver := AmountCalculator.sub receivedBtc satsFee in
  let usdToCreditReceiver := AmountCalculator.sub receivedUsd usdBankFee in
  if (btcToCreditReceiver.(amount) <=? 0) || (usdToCreditReceiver.(amount) <=? 0)
  then returns (Err (AmountLessThanFeeError receivedBtc.(amount)))
  else returns (Ok {| rcv_btcToCreditReceiver := btcToCreditReceiver;
             rcv_usdToCreditReceiver := usdToCreditReceiver;
             rcv_usdBankFee := usdBankFee;
             rcv_btcBankFee := satsFee;
             rcv_recipientWalletDescriptor := recipient;
             rcv_receivedAmount :=
               if decide (recipient.(w_currency) = Btc) then receivedBtc else receivedUsd |}).

(** The amount and the fee in the recipient's currency. *)
Definition settlementAmounts (r : Received) : Amount * Amount :=
  if decide (r.(rcv_recipientWalletDescriptor).(w_currency) = Btc)
  then (r.(rcv_btcToCreditReceiver), r.(rcv_btcBankFee))
  else (r.(rcv_usdToCreditReceiver), r.(rcv_usdBankFee)).

(** ** Properties *)

(** The stages up to the amount, as they are chained for an invoice. *)
Definition invoice_request (cfg : WIB.config) (externalId : option LedgerExternalId) (description : string)
    (descriptionHash : option string) (self : bool) (wallet : WalletDescriptor) (asked : Date) (minutes : Z)
    : WIB.WithExpirationState :=
  let described := WIB.withDescription (WIB.withExternalId cfg externalId) description descriptionHash in
  let origin := if self then WIB.generatedForSelf described else WIB.generatedForRecipient described in
  WIB.withExpiration (WIB.withRecipientWallet origin wallet) asked minutes.

(** The amount asked of the node and the dollar amount recorded for a requested amount. *)
Definition amounts_for (cfg : WIB.config) (wallet : WalletDescriptor) (requested node : Amount)
    (recorded : option Amount) : Prop :=
  match wallet.(w_currency), requested.(currency) with
  | Btc, c => c = Btc ∧ node = requested ∧ recorded = None
  | Usd, Usd => cfg.(WIB.dealerBtcFromUsd) requested = Ok node ∧ recorded = Some requested
  | Usd, Btc => node = requested ∧
      ∃ u, cfg.(WIB.dealerUsdFromBtc) requested = Ok u ∧ u.(amount) ≠ 0 ∧ recorded = Some u
  end.

Lemma withAmount_amounts state amt s : WIB.withAmount state amt = Ok s ->
  s.(WIB.a_state) = state ∧
  amounts_for state.(WIB.e_state).(WIB.r_state).(WIB.o_state).(WIB.d_state).(WIB.x_config)
    state.(WIB.e_state).(WIB.r_recipientWalletDescriptor) amt s.(WIB.a_btcAmount) s.(WIB.a_usdAmount).
Proof.
  unfold WIB.withAmount, amounts_for. cbn zeta.
  destruct (w_currency _) eqn:Hw; repeat case_decide; try congruence; intros Hs.
  - apply bind_Ok in Hs as (b & Hb & [= <-]). by case_match.
  - apply bind_Ok in Hs as (u & Hu & Hs). destruct (Z.eqb_spec u.(amount) 0); [done|].
    injection Hs as <-. case_match; [done|]. eauto 10.
  - by injection Hs as <-.
Qed.

(** An invoice that is registered is the one that was asked for.  The node is asked for an
    invoice with the payment hash of the secret, and the recorded invoice is unpaid and has that
    hash.  For a bitcoin wallet the node's amount is the requested one and no dollar amount is
    recorded; for a dollar wallet a requested dollar amount is recorded and the node is asked for
    what the dealer gives for it, and a requested bitcoin amount is asked for and recorded at the
    dealer's price, which is not zero.  The expiration asked for is between a minute and the
    default delay of the currency after the request, and the invoice is not declined before it. *)
Theorem registered_invoice_spec cfg externalId description descriptionHash self wallet asked minutes amt
    s secret paymentHash created wi
    (Hcreated : asked <= created)
    (Hamt : WIB.withAmount
              (invoice_request cfg externalId description descriptionHash self wallet asked minutes) amt = Ok s)
    (Hreg : WIB.registerInvoice s secret paymentHash created = Ok wi) :
  ∃ args reg, cfg.(WIB.lnRegisterInvoice) args = Ok reg ∧
    args.(WIB.reg_paymentHash) = paymentHash ∧ wi.(wi_lnInvoice) = reg.(WIB.registered_invoice) ∧
    wi.(wi_paymentHash) = paymentHash ∧ wi.(wi_lnInvoice).(inv_paymentHash) = paymentHash ∧
    wi.(wi_paid) = false ∧ wi.(wi_recipientWalletDescriptor) = wallet ∧ wi.(wi_selfGenerated) = self ∧
    amounts_for cfg wallet amt args.(WIB.reg_btcPaymentAmount) wi.(wi_usdAmount) ∧
    asked + 60000 <= args.(WIB.reg_expiresAt)
      <= asked + DEFAULT_EXPIRATIONS_delay wallet.(w_currency) * 1000 ∧
    (∀ now, now <= args.(WIB.reg_expiresAt) -> shouldDecline (Ok wi.(wi_base)) now = false).
Proof.
  apply withAmount_amounts in Hamt as [Hst Hfor].
  unfold WIB.registerInvoice in Hreg. rewrite Hst in Hreg.
  apply bind_Ok in Hreg as (ext & _ & Hreg). apply bind_Ok in Hreg as (reg & Hnode & Hreg).
  destruct (decide (paymentHash ≠ _)) as [|Hh]; [done|]. apply dec_stable in Hh.
  assert (Hcfg : (invoice_request cfg externalId description descriptionHash self wallet asked minutes)
    .(WIB.e_state).(WIB.r_state).(WIB.o_state).(WIB.d_state).(WIB.x_config) = cfg) by (by destruct self).
  rewrite Hcfg in Hnode, Hfor. injection Hreg as <-.
  destruct (invoiceExpirationForCurrency_spec wallet.(w_currency) asked (Some (minutes * 60))) as (He & _).
  destruct (invoiceExpirationForCurrency_spec wallet.(w_currency) created None) as (_ & _ & _ & Hd).
  eexists _, reg. split; [exact Hnode|]. cbn.
  repeat split; try done; [by destruct self | exact (proj1 He) | exact (proj2 He) |].
  intros now Hnow. rewrite (Hd eq_refl).
  destruct (bool_decide _); [|done]. cbn. apply Z.ltb_ge. lia.
Qed.

(** What is credited and the fee add up to what was received, worth [usd]; the dollar fee is
    the fee's value at the rate of the receipt, rounded up. *)
Record receipt_of (receivedBtc fee usd : Amount) (r : Received) : Prop := {
  receipt_btc : r.(rcv_btcToCreditReceiver).(amount) + r.(rcv_btcBankFee).(amount) = receivedBtc.(amount);
  receipt_usd : r.(rcv_usdToCreditReceiver).(amount) + r.(rcv_usdBankFee).(amount) = usd.(amount);
  receipt_fee : r.(rcv_btcBankFee) = fee;
  receipt_fee_usd : receivedBtc.(amount) * (r.(rcv_usdBankFee).(amount) - 1) < fee.(amount) * usd.(amount)
                      <= receivedBtc.(amount) * r.(rcv_usdBankFee).(amount);
  receipt_amount : r.(rcv_receivedAmount) =
    if decide (r.(rcv_recipientWalletDescriptor).(w_currency) = Btc) then receivedBtc else usd;
}.

Lemma ceil_fee receivedUsd receivedBtc fee ratio :
  0 <= receivedUsd.(amount) -> 0 <= receivedBtc.(amount) -> receivedBtc.(currency) = Btc ->
  0 <= fee.(amount) -> WalletPriceRatio.make receivedUsd receivedBtc = Ok ratio ->
  let q := (WalletPriceRatio.convertFromBtcToCeil ratio fee).(amount) in
  0 <= q ∧ receivedBtc.(amount) * (q - 1) < fee.(amount) * receivedUsd.(amount) <= receivedBtc.(amount) * q.
Proof.
  intros Hu Hb Hc Hf Hr. apply make_wallet_ratio in Hr as ([Hr _] & <- & <-); [|done..].
  exact (convertFromWalletToCeil_bounds ratio Hr fee Hf).
Qed.

Lemma received_receipt receivedBtc satsFee receivedUsd w r :
  0 <= receivedUsd.(amount) -> 0 <= receivedBtc.(amount) -> receivedBtc.(currency) = Btc ->
  0 <= (WalletInvoiceReceiver.btcBankFee satsFee).(amount) ->
  WalletInvoiceReceiver.received receivedBtc satsFee receivedUsd w = Ok r ->
  receipt_of receivedBtc (WalletInvoiceReceiver.btcBankFee satsFee) receivedUsd r ∧
  r.(rcv_recipientWalletDescriptor) = w.
Proof.
  intros Hu Hb Hc Hf Hr. unfold WalletInvoiceReceiver.received in Hr.
  apply bind_Ok in Hr as (ratio & Hratio & [= <-]).
  destruct (ceil_fee receivedUsd receivedBtc _ ratio Hu Hb Hc Hf Hratio) as (_ & Hq).
  split; [|done]. split; cbn; [lia | lia | done | exact Hq | done].
Qed.

(** C40. A paid invoice is received in full.  The bitcoin credited and the bitcoin fee add up
    to the sats received, the dollars credited and the dollar fee to their dollar value, and the
    dollar fee is the bitcoin fee's value at that rate rounded up.  A bitcoin wallet receives at
    the mid price; a dollar wallet receives the invoice's dollar amount where it has one, and
    the dealer's price otherwise.  A receipt that the dealer values at nothing goes to the
    account's bitcoin wallet at the mid price. *)
Theorem received_invoice_conserves wi ds receivedBtc satsFee hedge mid r
    (Hhedge : ConversionLaws hedge) (Hmid : ConversionLaws mid)
    (Hpos : 0 < receivedBtc.(amount)) (Hcur : receivedBtc.(currency) = Btc)
    (Hfee : 0 <= (WalletInvoiceReceiver.btcBankFee satsFee).(amount))
    (Hinv : match wi.(wi_usdAmount) with Some u => 0 <= u.(amount) | None => True end)
    (Hr : WalletInvoiceReceiver.withConversion wi ds receivedBtc satsFee
            hedge.(usdFromBtc) mid.(usdFromBtc) = Ok r) :
  ∃ usd, receipt_of receivedBtc (WalletInvoiceReceiver.btcBankFee satsFee) usd r ∧
    match wi.(wi_recipientWalletDescriptor).(w_currency), wi.(wi_usdAmount) with
    | Btc, _ => mid.(usdFromBtc) receivedBtc = Ok usd ∧
        r.(rcv_recipientWalletDescriptor) = WalletInvoiceReceiver.recipientWalletDescriptor wi ds
    | Usd, Some u => usd = u ∧
        r.(rcv_recipientWalletDescriptor) = WalletInvoiceReceiver.recipientWalletDescriptor wi ds
    | Usd, None =>
        (hedge.(usdFromBtc) receivedBtc = Ok usd ∧
           r.(rcv_recipientWalletDescriptor) = WalletInvoiceReceiver.recipientWalletDescriptor wi ds) ∨
        (mid.(usdFromBtc) receivedBtc = Ok usd ∧ r.(rcv_recipientWalletDescriptor) = ds.(BTC) ∧
           ∀ u, hedge.(usdFromBtc) receivedBtc = Ok u -> u.(amount) = 0)
    end.
Proof.
  assert (Hmid' : ∀ w, WalletInvoiceReceiver.receivedWalletInvoiceFromBtcAmountMid wi ds receivedBtc satsFee
      mid.(usdFromBtc) w = Ok r -> ∃ usd, mid.(usdFromBtc) receivedBtc = Ok usd ∧
      receipt_of receivedBtc (WalletInvoiceReceiver.btcBankFee satsFee) usd r ∧
      r.(rcv_recipientWalletDescriptor) = default (WalletInvoiceReceiver.recipientWalletDescriptor wi ds) w).
  { intros w Hw. apply bind_Ok in Hw as (usd & Husd & Hw). exists usd. split; [done|].
    destruct (usdFromBtc_law _ _ Husd Hpos). apply received_receipt in Hw; [done|lia|lia|done|done]. }
  unfold WalletInvoiceReceiver.withConversion in Hr. cbn [WalletInvoiceReceiver.recipientWalletDescriptor w_currency] in Hr.
  destruct (w_currency (wi_recipientWalletDescriptor wi)) eqn:Hw;
    [rewrite decide_False in Hr by done | rewrite decide_True in Hr by done].
  2: { apply Hmid' in Hr as (usd & Husd & Hrec & Hwd). by exists usd. }
  destruct (wi_usdAmount wi) as [u|] eqn:Hu.
  { exists u. apply received_receipt in Hr as [Hrec Hwd]; [by split|lia|lia|done|done]. }
  destruct (WalletInvoiceReceiver.receivedWalletInvoiceFromBtcAmountDealer _ _ _ _ _) as [r'|e] eqn:Hd.
  - injection Hr as ->. apply bind_Ok in Hd as (usd & Husd & Hd). exists usd.
    destruct (usdFromBtc_law _ _ Husd Hpos).
    apply received_receipt in Hd as [Hrec Hwd]; [by split; [|left]|lia|lia|done|done].
  - destruct e; try done. apply Hmid' in Hr as (usd & Husd & Hrec & Hwd). exists usd.
    split; [done|]. right. split; [done|]. split; [done|]. intros u Hz.
    unfold WalletInvoiceReceiver.receivedWalletInvoiceFromBtcAmountDealer in Hd. rewrite Hz in Hd.
    cbn in Hd. unfold WalletInvoiceReceiver.received, WalletPriceRatio.make, PriceRatio.make in Hd.
    destruct (Z.eqb_spec u.(amount) 0); [done|]. destruct (Z.eqb_spec receivedBtc.(amount) 0); [lia|done].
Qed.

(** An on-chain deposit is credited in full or refused.  Where it is accepted, what is
    credited and the fee add up to what was received in each currency, both credits are
    positive, and the settlement amounts are those of the wallet's currency; it is refused with
    the amount exactly where the fee takes all of it in one of the currencies. *)
Theorem address_receipt_conserves recipient receivedBtc satsFee dealer mid usd
    (Hpos : 0 < receivedBtc.(amount)) (Hcur : receivedBtc.(currency) = Btc)
    (Hfee : 0 <= (default ZERO_BANK_FEE.(btcBankFee) satsFee).(amount))
    (Husd : (if decide (recipient.(w_currency) = Btc) then mid receivedBtc else dealer receivedBtc) = Ok usd)
    (Hval : 0 < usd.(amount)) :
  let fee := default ZERO_BANK_FEE.(btcBankFee) satsFee in
  match walletAddressReceiver recipient receivedBtc satsFee dealer mid with
  | Ok r => receipt_of receivedBtc fee usd r ∧ r.(rcv_recipientWalletDescriptor) = recipient ∧
      0 < r.(rcv_btcToCreditReceiver).(amount) ∧ 0 < r.(rcv_usdToCreditReceiver).(amount) ∧
      (settlementAmounts r).1.(amount) + (settlementAmounts r).2.(amount) = r.(rcv_receivedAmount).(amount)
  | Err e => e = AmountLessThanFeeError receivedBtc.(amount) ∧
      (receivedBtc.(amount) <= fee.(amount) ∨
       receivedBtc.(amount) * (usd.(amount) - 1) < fee.(amount) * usd.(amount))
  end.
Proof.
  cbn zeta. set (fee := default _ satsFee) in *. unfold walletAddressReceiver. direct_calls. fold fee.
  assert (Hfn : (if decide (recipient.(w_currency) = Btc) then mid else dealer) receivedBtc = Ok usd)
    by (by case_decide).
  rewrite Hfn. cbn [mbind result_bind].
  destruct (WalletPriceRatio.make usd receivedBtc) as [ratio|e] eqn:Hratio.
  2: { unfold WalletPriceRatio.make, PriceRatio.make in Hratio.
       destruct (Z.eqb_spec usd.(amount) 0), (Z.eqb_spec receivedBtc.(amount) 0); try lia; done. }
  cbn [mbind result_bind].
  destruct (ceil_fee usd receivedBtc fee ratio) as (_ & Hq); [lia|lia|done|done|done|].
  set (q := (WalletPriceRatio.convertFromBtcToCeil ratio fee)) in *. clearbody q. cbn [AmountCalculator.sub amount].
  destruct (Z.leb_spec (receivedBtc.(amount) - fee.(amount)) 0),
    (Z.leb_spec (usd.(amount) - q.(amount)) 0); cbn [orb].
  1-3: split; [done|]; nia.
  split; [split; cbn; [lia | lia | done | exact Hq | done]|].
  split; [done|]. split; [cbn; lia|]. split; [cbn; lia|].
  unfold settlementAmounts. cbn [rcv_recipientWalletDescriptor rcv_receivedAmount]. case_decide; cbn; lia.
Qed.

Module InvoiceExamples.

(** 3 cents for 100 sats. *)
Definition ratio : WalletPriceRatio.t := PriceRatio.mk 3 (BtcPaymentAmount 100).
Definition prices : ConversionFns (result ApplicationError) := ratio_conversion ratio.

Lemma prices_laws : ConversionLaws prices.
Proof. apply ratio_conversion_laws. by repeat split. Qed.

(** A node that returns the invoice it is asked for. *)
Definition node (args : WIB.RegisterInvoiceArgs) : Result WIB.RegisteredInvoice :=
  Ok {| WIB.registered_pubkey := "node"; WIB.registered_invoice := {|
    destination := "node"; inv_paymentHash := args.(WIB.reg_paymentHash); paymentRequest := "lnbc";
    paymentSecret := "s"; milliSatsAmount := Number 0; inv_amount := None;
    paymentAmount := Some args.(WIB.reg_btcPaymentAmount); description := args.(WIB.reg_description);
    cltvDelta := None; routeHints := []; features := []; expiresAt := args.(WIB.reg_expiresAt);
    isExpired := false |} |}.

Definition cfg : WIB.config := {|
  WIB.dealerBtcFromUsd := prices.(btcFromUsd); WIB.dealerUsdFromBtc := prices.(usdFromBtc);
  WIB.lnRegisterInvoice := node;
|}.

Definition carol : WalletDescriptor := {| w_id := "carol-usd"; w_currency := Usd; w_accountId := "carol" |}.
Definition wallets : AccountWalletDescriptors :=
  {| BTC := {| w_id := "carol-btc"; w_currency := Btc; w_accountId := "carol" |}; USD := carol |}.

(** An invoice of 15 dollars for a dollar wallet, asked for at 0 and created a second later. *)
Definition invoice : Result WalletInvoice :=
  s ← WIB.withAmount (invoice_request cfg None "coffee" None true carol 0 5) (UsdPaymentAmount 1500);
  WIB.registerInvoice s "secret" "abc123" 1000.

Lemma registered_invoice_spec_witness : ∃ wi, invoice = Ok wi ∧
  wi.(wi_usdAmount) = Some (UsdPaymentAmount 1500) ∧ wi.(wi_paid) = false.
Proof.
  destruct (WIB.withAmount (invoice_request cfg None "coffee" None true carol 0 5) (UsdPaymentAmount 1500))
    as [s|] eqn:Hs; [|by vm_compute in Hs].
  destruct (WIB.registerInvoice s "secret" "abc123" 1000) as [wi|] eqn:Hw;
    [|vm_compute in Hs; injection Hs as <-; by vm_compute in Hw].
  exists wi. split; [unfold invoice; rewrite Hs; exact Hw|].
  destruct (registered_invoice_spec cfg None "coffee" None true carol 0 5 (UsdPaymentAmount 1500) s
    "secret" "abc123" 1000 wi ltac:(lia) Hs Hw)
    as (args & reg & _ & _ & _ & _ & _ & Hpaid & _ & _ & [_ Ha] & _).
  split; [exact Ha | exact Hpaid].
Defined.

(** An invoice without amount of a dollar wallet, paid with 10,000 sats and a fee of 30. *)
Definition unpriced : WalletInvoice := {| wi_base := {|
  wi_paymentHash := "abc123"; wi_secret := "secret"; wi_selfGenerated := true; wi_pubkey := "node";
  wi_usdAmount := None; wi_recipientWalletDescriptor := carol; wi_paid := false; wi_createdAt := 0;
  wi_processingCompleted := false; wi_externalId := "abc123" |};
  wi_lnInvoice := {| destination := "node"; inv_paymentHash := "abc123"; paymentRequest := "lnbc";
    paymentSecret := "s"; milliSatsAmount := Number 0; inv_amount := None; paymentAmount := None;
    description := ""; cltvDelta := None; routeHints := []; features := []; expiresAt := 0;
    isExpired := false |};
|}.

Lemma received_invoice_conserves_witness : ∃ r,
  WalletInvoiceReceiver.withConversion unpriced wallets (BtcPaymentAmount 10000)
    (Some (BtcPaymentAmount 30)) prices.(usdFromBtc) prices.(usdFromBtc) = Ok r ∧
  r.(rcv_btcToCreditReceiver).(amount) + r.(rcv_btcBankFee).(amount) = 10000.
Proof.
  destruct (WalletInvoiceReceiver.withConversion unpriced wallets (BtcPaymentAmount 10000)
    (Some (BtcPaymentAmount 30)) prices.(usdFromBtc) prices.(usdFromBtc)) as [r|] eqn:Hr;
    [|by vm_compute in Hr].
  exists r. split; [done|].
  destruct (received_invoice_conserves unpriced wallets (BtcPaymentAmount 10000) (Some (BtcPaymentAmount 30))
    prices prices r prices_laws prices_laws eq_refl eq_refl ltac:(by vm_compute) I Hr) as (usd & Hrec & _).
  exact (receipt_btc _ _ _ _ Hrec).
Defined.

Lemma address_receipt_conserves_witness : ∃ r,
  walletAddressReceiver carol (BtcPaymentAmount 10000) (Some (BtcPaymentAmount 30))
    prices.(usdFromBtc) prices.(usdFromBtc) = Ok r ∧
  r.(rcv_usdToCreditReceiver).(amount) + r.(rcv_usdBankFee).(amount) = 300.
Proof.
  pose proof (address_receipt_conserves carol (BtcPaymentAmount 10000) (Some (BtcPaymentAmount 30))
    prices.(usdFromBtc) prices.(usdFromBtc) (UsdPaymentAmount 300) eq_refl eq_refl ltac:(by vm_compute)
    ltac:(by vm_compute) eq_refl) as Hs.
  destruct (walletAddressReceiver _ _ _ _ _) as [r|e] eqn:Hr; [|exfalso; by vm_compute in Hr].
  exists r. split; [reflexivity|]. exact (receipt_usd _ _ _ _ (proj1 Hs)).
Defined.

End InvoiceExamples.
