(* ===== verification/OnChainTx.v ===== *)
(** * On-chain transactions

    Models [domain/bitcoin/onchain] (the filter of incoming transactions, the pending balances
    by address and by wallet, the rebalance check) and
    [domain/ledger/activity-checker.ts].  Decoding raw transactions is bitcoinjs's and is not
    modelled. *)

From S2P Require Import Prelude JsNumber Shared Prices Fees PaymentFlow.

Record TxOut := mkTxOut {
  out_sats : number;
  out_address : option OnChainAddress;
  out_vout : number;
}.

Record OnChainTransaction := mkOnChainTransaction {
  oct_txHash : string;
  oct_outs : list TxOut;
}.

Record IncomingOnChainTransaction := mkIncoming {
  inc_confirmations : number;
  inc_rawTx : OnChainTransaction;
  inc_fee : number;
  inc_createdAt : Date;
}.

(** The addresses of the outputs, each once, in the order they first occur. *)
Definition uniqueAddressesForTxn (rawTx : OnChainTransaction) : list OnChainAddress :=
  foldl (fun a o =>
      match o.(out_address) with
      | Some addr => if truthy addr && negb (bool_decide (addr ∈ a)) then a ++ [addr] else a
      | None => a
      end) [] rawTx.(oct_outs).

(** ** [TxFilter] *)

Record TxFilterArgs := mkTxFilterArgs {
  confirmationsLessThan : option number;
  confirmationsGreaterThanOrEqual : option number;
  filter_addresses : option (list OnChainAddress);
}.

Definition keep_tx (args : TxFilterArgs) (tx : IncomingOnChainTransaction) : bool :=
  let enough :=
    match args.(confirmationsGreaterThanOrEqual) with
    | Some n => negb (truthy n && num_ltb tx.(inc_confirmations) n)
    | None => true
    end in
  let few :=
    match args.(confirmationsLessThan) with
    | Some n => negb (truthy n && num_leb n tx.(inc_confirmations))
    | None => true
    end in
  let ours :=
    match args.(filter_addresses) with
    | Some addresses =>
        existsb (fun out => match out.(out_address) with
                            | Some a => bool_decide (a ∈ addresses)
                            | None => false
                            end) tx.(inc_rawTx).(oct_outs)
    | None => true
    end in
  enough && few && ours.

Definition apply_filter (args : TxFilterArgs) (txs : list IncomingOnChainTransaction)
    : list IncomingOnChainTransaction :=
  filter (fun tx => keep_tx args tx = true) txs.

(** ** Pending balances *)

(** The fields of a pending incoming transaction that are read. *)
Record PendingTx := mkPending {
  p_settlementAmount : number;
  p_settlementCurrency : WalletCurrency;
  p_address : OnChainAddress;
}.

Record OnChainWallet := mkOnChainWallet {
  ow_id : WalletId;
  ow_onChainAddresses : list OnChainAddress;
}.

(** The constructor fails unless there is exactly one settlement currency. *)
Definition single_currency (txns : list PendingTx) : Result WalletCurrency :=
  match remove_dups (map p_settlementCurrency txns) with
  | [_] => match txns with
           | tx :: _ => Ok tx.(p_settlementCurrency)
           | [] => Err MultipleCurrenciesForSingleCurrencyOperationError
           end
  | _ => Err MultipleCurrenciesForSingleCurrencyOperationError
  end.

Definition balanceFromIncomingTx (tx : PendingTx) : Result (OnChainAddress * Amount) :=
  paymentAmount ← paymentAmountFromNumber tx.(p_settlementAmount) tx.(p_settlementCurrency);
  Ok (tx.(p_address), paymentAmount).

Definition add_balance (balances : gmap OnChainAddress Amount) (entry : OnChainAddress * Amount)
    : gmap OnChainAddress Amount :=
  let '(address, amt) := entry in
  <[address := AmountCalculator.add (default ZERO_SATS (balances !! address)) amt]> balances.

Definition balancesByAddresses (txns : list PendingTx) : Result (gmap OnChainAddress Amount) :=
  pendingBalances ← traverse balanceFromIncomingTx txns;
  Ok (foldl add_balance ∅ pendingBalances).

Definition wallet_balance (walletCurrency : WalletCurrency) (balancesByAddress : gmap OnChainAddress Amount)
    (wallet : OnChainWallet) : Amount :=
  map_fold (fun address amt acc =>
      if decide (address ∈ wallet.(ow_onChainAddresses)) then AmountCalculator.add acc amt else acc)
    (if decide (walletCurrency = Btc) then ZERO_SATS else ZERO_CENTS) balancesByAddress.

(** [IncomingOnChainTxHandler(txns)] followed by [balanceByWallet(wallets)]. *)
Definition balanceByWallet (txns : list PendingTx) (wallets : list OnChainWallet)
    : Result (gmap WalletId Amount) :=
  walletCurrency ← single_currency txns;
  balancesByAddress ← balancesByAddresses txns;
  Ok (foldl (fun m wallet => <[wallet.(ow_id) := wallet_balance walletCurrency balancesByAddress wallet]> m)
        ∅ wallets).

(** ** Rebalancing and activity *)

Record RebalanceCheckerConfig := mkRebalance {
  minOnChainHotWalletBalance : number;
  maxHotWalletBalance : number;
  minRebalanceSize : number;
}.

Definition getWithdrawFromHotWalletAmount (cfg : RebalanceCheckerConfig)
    (onChainHotWalletBalance offChainHotWalletBalance : number) : number :=
  let totalHotWallet := num_add onChainHotWalletBalance offChainHotWalletBalance in
  if num_ltb cfg.(maxHotWalletBalance) totalHotWallet then
    let rebalanceAmount := num_sub onChainHotWalletBalance cfg.(minOnChainHotWalletBalance) in
    if num_ltb cfg.(minRebalanceSize) rebalanceAmount then rebalanceAmount else Number 0
  else Number 0.

Definition MS_PER_30_DAYS : Z := 30 * ImbalanceCalculator.MS_PER_DAY.

(** Whether the wallets' volume of the last 30 days is above a number of cents. *)
Definition aboveThreshold (getVolumeAmountFn : WalletDescriptor -> Z -> Result Amount)
    (monthlyVolumeThreshold : number) (priceRatio : WalletPriceRatio.t) (now : Z)
    (wallets : list WalletDescriptor) : Result bool :=
  let timestamp30DaysAgo := now - MS_PER_30_DAYS in
  volumes ← traverse (fun wallet => getVolumeAmountFn wallet timestamp30DaysAgo) wallets;
  let allWalletsVolume :=
    foldl (fun acc v => AmountCalculator.add acc
        (if decide (v.(currency) = Btc) then WalletPriceRatio.convertFromBtc priceRatio v else v))
      ZERO_CENTS volumes in
  Ok (num_ltb_bigint monthlyVolumeThreshold allWalletsVolume.(amount)).

(** ** The balances are the sums of the transactions *)

Definition sum_over (P : OnChainAddress -> bool) (entries : list (OnChainAddress * Amount)) : Z :=
  sumZ (map (fun e => if P e.1 then e.2.(amount) else 0) entries).

Definition map_sum (P : OnChainAddress -> bool) (m : gmap OnChainAddress Amount) : Z :=
  map_fold (fun a amt acc => acc + (if P a then amt.(amount) else 0)) 0 m.

Lemma map_sum_insert P m a amt : m !! a = None ->
  map_sum P (<[a := amt]> m) = map_sum P m + (if P a then amt.(amount) else 0).
Proof. intros Ha. unfold map_sum. rewrite map_fold_insert_L; [done | intros; lia | done]. Qed.

Lemma map_sum_add P m e : map_sum P (add_balance m e) = map_sum P m + (if P e.1 then e.2.(amount) else 0).
Proof.
  destruct e as [a amt]. cbn. destruct (m !! a) as [old|] eqn:Ha; cbn.
  - rewrite <- insert_delete_eq. rewrite map_sum_insert by apply lookup_delete_eq.
    rewrite <- (insert_delete_id m a old Ha) at 2. rewrite map_sum_insert by apply lookup_delete_eq.
    cbn. destruct (P a); lia.
  - rewrite map_sum_insert by done. by destruct (P a).
Qed.

Lemma map_sum_foldl P entries m : map_sum P (foldl add_balance m entries) = map_sum P m + sum_over P entries.
Proof.
  revert m. induction entries as [|e es IH]; intros m; cbn; [lia|].
  rewrite IH, map_sum_add. unfold sum_over. cbn. unfold sumZ. lia.
Qed.

Lemma wallet_balance_sum c m w :
  wallet_balance c m w =
    {| currency := c; amount := map_sum (fun a => bool_decide (a ∈ w.(ow_onChainAddresses))) m |}.
Proof.
  unfold wallet_balance, map_sum.
  set (zero := if decide (c = Btc) then ZERO_SATS else ZERO_CENTS).
  assert (Hz : zero = {| currency := c; amount := 0 |}) by (unfold zero; destruct c; by case_decide).
  rewrite Hz. induction m as [|a amt m Ha IH] using map_ind; [by rewrite !map_fold_empty|].
  rewrite !map_fold_insert_L; [|intros; lia|done| |done].
  - rewrite IH. case_decide; [rewrite bool_decide_true by done | rewrite bool_decide_false by done];
      unfold AmountCalculator.add; cbn; f_equal; lia.
  - intros. repeat case_decide; unfold AmountCalculator.add; cbn; f_equal; lia.
Qed.

(** Adding entries keeps the label of the zero the additions start from. *)
Lemma foldl_add_currency entries m : (∀ a amt, m !! a = Some amt -> amt.(currency) = Btc) ->
  ∀ a amt, foldl add_balance m entries !! a = Some amt -> amt.(currency) = Btc.
Proof.
  revert m. induction entries as [|[a' x] es IH]; intros m Hm; cbn; [done|].
  apply IH. intros a amt. rewrite lookup_insert_Some. intros [[<- <-]|[_ Ha]]; [|eauto].
  cbn. destruct (m !! a') as [old|] eqn:Ho; cbn; eauto.
Qed.

(** The balance of one address after adding entries. *)
Lemma foldl_add_amount entries m a :
  default 0 (amount <$> foldl add_balance m entries !! a) =
    default 0 (amount <$> m !! a) + sum_over (fun a' => bool_decide (a' ∈ [a])) entries.
Proof.
  revert m. induction entries as [|[a' x] es IH]; intros m; cbn [foldl]; [cbn; lia|].
  rewrite IH. unfold sum_over. cbn [map fst snd add_balance]. destruct (decide (a' = a)) as [->|Ne].
  - rewrite lookup_insert_eq, bool_decide_true by set_solver. unfold sumZ. cbn.
    destruct (m !! a); cbn; lia.
  - rewrite lookup_insert_ne, bool_decide_false by set_solver. unfold sumZ. cbn. lia.
Qed.

(** A pending transaction with an integer amount. *)
Definition pending_amount (tx : PendingTx) (z : Z) : Prop :=
  tx.(p_settlementAmount) = Number z ∧ safe_integer z.

Lemma balances_entries txns zs : Forall2 pending_amount txns zs ->
  traverse balanceFromIncomingTx txns =
    Ok (zip_with (fun tx z => (tx.(p_address), {| currency := tx.(p_settlementCurrency); amount := z |})) txns zs).
Proof.
  induction 1 as [|tx z txns zs [Hz Hs] _ IH]; [done|]. cbn [traverse zip_with].
  rewrite IH. unfold balanceFromIncomingTx. by rewrite Hz, paymentAmountFromNumber_Number.
Qed.

(** What the transactions send to a set of addresses. *)
Definition pending_to (addresses : list OnChainAddress) (txns : list PendingTx) (zs : list Z) : Z :=
  sumZ (zip_with (fun tx z => if bool_decide (tx.(p_address) ∈ addresses) then z else 0) txns zs).

Lemma sum_over_pending addresses txns zs :
  sum_over (fun a => bool_decide (a ∈ addresses))
    (zip_with (fun tx z => (tx.(p_address), {| currency := tx.(p_settlementCurrency); amount := z |})) txns zs)
  = pending_to addresses txns zs.
Proof.
  unfold sum_over, pending_to. f_equal. revert zs.
  induction txns as [|tx txns IH]; intros [|z zs]; cbn; [done..|]. by rewrite IH.
Qed.

Lemma foldl_wallets {B} (f : OnChainWallet -> B) (wallets : list OnChainWallet) (m : gmap WalletId B) w :
  NoDup (map ow_id wallets) -> w ∈ wallets ->
  foldl (fun m w => <[w.(ow_id) := f w]> m) m wallets !! w.(ow_id) = Some (f w).
Proof.
  assert (Hout : ∀ ws (m : gmap WalletId B) k, k ∉ map ow_id ws ->
    foldl (fun m w => <[w.(ow_id) := f w]> m) m ws !! k = m !! k).
  { intros ws. induction ws as [|v ws IH]; intros m' k Hk; cbn in *; [done|].
    rewrite IH by set_solver. apply lookup_insert_ne. set_solver. }
  revert m. induction wallets as [|v ws IH]; intros m Hnd Hin; cbn in *; [set_solver|].
  apply NoDup_cons in Hnd as [Hv Hnd]. apply elem_of_cons in Hin as [->|Hin]; [|by apply IH].
  rewrite Hout by done. apply lookup_insert_eq.
Qed.

Lemma single_currency_Ok txns c : txns ≠ [] -> Forall (fun tx => tx.(p_settlementCurrency) = c) txns ->
  single_currency txns = Ok c.
Proof.
  intros Hne Hc. unfold single_currency.
  assert (Hd : remove_dups (map p_settlementCurrency txns) = [c]).
  { induction Hc as [|tx txns Htx Hc IH]; [done|]. cbn [map remove_dups]. rewrite Htx.
    destruct txns as [|tx' txns]; [done|]. specialize (IH ltac:(done)).
    assert (Hin : c ∈ map p_settlementCurrency (tx' :: txns))
      by (apply Forall_cons in Hc as [Htx' _]; cbn; rewrite Htx'; set_solver).
    case_decide; [exact IH | done]. }
  rewrite Hd. destruct txns as [|tx txns]; [done|]. by apply Forall_cons in Hc as [-> _].
Qed.

(** A wallet's pending on-chain balance is the sum of the pending transactions to its
    addresses, in the currency of the transactions; the balance of one address is their sum too,
    but is labelled as bitcoin whatever that currency is. *)
Theorem balanceByWallet_sum txns zs c wallets w
    (Hne : txns ≠ []) (Hc : Forall (fun tx => tx.(p_settlementCurrency) = c) txns)
    (Hz : Forall2 pending_amount txns zs)
    (Hnd : NoDup (map ow_id wallets)) (Hw : w ∈ wallets) :
  (∃ balances, balanceByWallet txns wallets = Ok balances ∧
     balances !! w.(ow_id) =
       Some {| currency := c; amount := pending_to w.(ow_onChainAddresses) txns zs |}) ∧
  (∃ balances, balancesByAddresses txns = Ok balances ∧
     ∀ a amt, balances !! a = Some amt ->
       amt = {| currency := Btc; amount := pending_to [a] txns zs |}).
Proof.
  assert (Hb : balancesByAddresses txns = Ok (foldl add_balance ∅
    (zip_with (fun tx z => (tx.(p_address), {| currency := tx.(p_settlementCurrency); amount := z |})) txns zs)))
    by (unfold balancesByAddresses; by rewrite (balances_entries _ _ Hz)).
  split.
  2: { eexists. split; [exact Hb|]. intros a [cur z] Ha.
       pose proof (foldl_add_currency _ ∅ ltac:(set_solver) a _ Ha) as Hcur. cbn in Hcur.
       pose proof (foldl_add_amount (zip_with (fun tx z => (tx.(p_address),
         {| currency := tx.(p_settlementCurrency); amount := z |})) txns zs) ∅ a) as Hs.
       rewrite Ha, sum_over_pending in Hs. cbn in Hs. by subst. }
  unfold balanceByWallet. rewrite (single_currency_Ok txns c) by done. rewrite Hb. cbn [mbind result_bind].
  eexists. split; [reflexivity|]. rewrite foldl_wallets by done.
  by rewrite wallet_balance_sum, map_sum_foldl, sum_over_pending.
Qed.

(** A withdrawal from the hot wallet leaves the minimum balance on chain and is at least the
    minimal size; there is none while the total is within the maximum. *)
Lemma rebalance_keeps_minimum cfg onChain offChain mn mx sz :
  cfg = {| minOnChainHotWalletBalance := Number mn; maxHotWalletBalance := Number mx;
           minRebalanceSize := Number sz |} ->
  0 <= onChain < 2 ^ 51 -> 0 <= offChain < 2 ^ 51 -> 0 <= mn < 2 ^ 51 -> 0 <= mx < 2 ^ 51 -> 0 <= sz < 2 ^ 51 ->
  getWithdrawFromHotWalletAmount cfg (Number onChain) (Number offChain) =
    Number (if (mx <? onChain + offChain) && (sz <? onChain - mn) then onChain - mn else 0).
Proof.
  intros -> ? ? ? ? ?. unfold getWithdrawFromHotWalletAmount. cbn [maxHotWalletBalance minRebalanceSize minOnChainHotWalletBalance].
  rewrite num_add_Number, num_sub_Number, !num_ltb_Number by (unfold safe_integer; lia).
  by destruct (mx <? _), (sz <? _).
Qed.

Module OnChainTxExamples.

(** Two dollar receipts to the wallet, one to another address. *)
Definition pending : list PendingTx :=
  [ {| p_settlementAmount := Number 300; p_settlementCurrency := Usd; p_address := "a1" |};
    {| p_settlementAmount := Number 50; p_settlementCurrency := Usd; p_address := "b1" |};
    {| p_settlementAmount := Number 700; p_settlementCurrency := Usd; p_address := "a2" |} ].

Definition alice : OnChainWallet := {| ow_id := "alice"; ow_onChainAddresses := ["a1"; "a2"] |}.

Lemma balanceByWallet_sum_witness : ∃ balances, balanceByWallet pending [alice] = Ok balances ∧
  balances !! "alice" = Some (UsdPaymentAmount 1000).
Proof.
  refine (proj1 (balanceByWallet_sum pending [300; 50; 700] Usd [alice] alice _ _ _ _ _)).
  - done.
  - repeat constructor.
  - repeat constructor.
  - apply NoDup_singleton.
  - set_solver.
Defined.

End OnChainTxExamples.
