(* ===== verification/Utils.v ===== *)
(** * General helpers

    Models [utils/index.ts]: [delayWhile], which polls a condition with a bound on the retries,
    [runInParallel], whose workers share one iterator, and the set difference of [ModifiedSet].
    [runInParallel] is a step relation: a schedule says which worker moves next and how its
    processor ends. *)

From S2P Require Import Prelude JsNumber Shared Lightning.

(** ** [ModifiedSet.difference] *)
Definition ModifiedSet_difference (a b : list string) : list string :=
  js_set (filter (fun i => i ∉ b) a).

(** ** [delayWhile] *)
Section DelayWhile.
Context {X : Type} (func : X -> result string bool * X).

(** The loop, with the result, the number of retries and the state it leaves; [None] when the
    fuel runs out. *)
Fixpoint delayWhile_loop (fuel : nat) (maxRetries count : Z) (x : X) : option (result string bool * Z * X) :=
  match fuel with
  | O => None
  | S fuel =>
      let '(res, x') := func x in
      match res with
      | Err msg => Some (Err msg, count, x')
      | Ok res => if negb res && (count <? maxRetries) then delayWhile_loop fuel maxRetries (count + 1) x'
                  else Some (Ok res, count, x')
      end
  end.

Definition delayWhile (maxRetries : Z) (x : X) : option (result string bool * Z * X) :=
  delayWhile_loop (S (Z.to_nat maxRetries)) maxRetries 0 x.

(** [x'] is reached from [x] by [n] calls that all give [false]. *)
Fixpoint all_false (n : nat) (x x' : X) : Prop :=
  match n with
  | O => x = x'
  | S n => (func x).1 = Ok false ∧ all_false n (func x).2 x'
  end.

Lemma delayWhile_loop_total fuel maxRetries count x :
  0 <= count -> (Z.to_nat (maxRetries - count) < fuel)%nat ->
  ∃ res n last, delayWhile_loop fuel maxRetries count x = Some (res, count + Z.of_nat n, (func last).2) ∧
    all_false n x last ∧ (func last).1 = res ∧ (n <= Z.to_nat (maxRetries - count))%nat ∧
    (res = Ok false -> n = Z.to_nat (maxRetries - count)).
Proof.
  revert count x. induction fuel as [|fuel IH]; intros count x Hc Hf; [lia|]. cbn [delayWhile_loop].
  destruct (func x) as [res x'] eqn:Ef.
  assert (Hstop : (res = Ok false -> maxRetries <= count) -> ∃ r n last,
    Some (res, count, x') = Some (r, count + Z.of_nat n, (func last).2) ∧
    all_false n x last ∧ (func last).1 = r ∧ (n <= Z.to_nat (maxRetries - count))%nat ∧
    (r = Ok false -> n = Z.to_nat (maxRetries - count))).
  { intros Hr. exists res, 0%nat, x. rewrite Ef, Z.add_0_r. cbn. split_and!; try done; [lia|].
    intros E. specialize (Hr E). lia. }
  destruct res as [[]|msg]; [by apply Hstop| |by apply Hstop]. cbn [negb andb].
  destruct (Z.ltb_spec count maxRetries) as [Hlt|Hge]; [|by apply Hstop].
  destruct (IH (count + 1) x') as (r & n & last & -> & Hn & Hr & Hle & Hl); [lia..|].
  exists r, (S n), last. split_and!; [do 3 f_equal; lia| |done|lia|intros E; specialize (Hl E); lia].
  cbn. by rewrite Ef.
Qed.

(** C33. [delayWhile] always returns, for every condition: after some calls that gave [false], at
    most [maxRetries] of them, it ends with the outcome of the next call, be it a value or an
    exception; it gives [false] only when all the retries are used. *)
Theorem delayWhile_terminates maxRetries x :
  ∃ res n last, delayWhile maxRetries x = Some (res, Z.of_nat n, (func last).2) ∧
    all_false n x last ∧ (func last).1 = res ∧ (n <= Z.to_nat maxRetries)%nat ∧
    (res = Ok false -> n = Z.to_nat maxRetries).
Proof.
  destruct (delayWhile_loop_total (S (Z.to_nat maxRetries)) maxRetries 0 x)
    as (r & n & last & E & H); [lia..|]. rewrite Z.sub_0_r in H. by exists r, n, last.
Qed.

End DelayWhile.

(** ** [runInParallel] *)

Inductive Worker (U : Type) := Waiting | Processing (item : U) | Finished | Rejected.
Arguments Waiting {U}.
Arguments Processing {U}.
Arguments Finished {U}.
Arguments Rejected {U}.

(** The items the iterator has still to give and whether it throws after them, the workers, the calls of the processor so far with
    the worker that made them, and the items whose processor threw. *)
Record Parallel (U : Type) := mkParallel {
  iterator : list U;
  failing : bool;
  jobWorkers : list (Worker U);
  calls : list (U * nat);
  logged : list U;
}.
Arguments mkParallel {U}.
Arguments iterator {U}.
Arguments failing {U}.
Arguments jobWorkers {U}.
Arguments calls {U}.
Arguments logged {U}.

Section Parallel.
Context {U : Type}.
Implicit Types (s : Parallel U).

Definition runInParallel (items : list U) (fails : bool) (workers : nat) : Parallel U :=
  mkParallel items fails (replicate workers Waiting) [] [].

(** Worker [index] moves: it takes the next item and calls the processor, ends when there is none
    (an iterator that throws does so once, and is done for the other workers), or sees its processor
    end, with or without an exception. *)
Definition worker_step (index : nat) (throws : bool) s : option (Parallel U) :=
  match s.(jobWorkers) !! index with
  | Some Waiting =>
      match s.(iterator) with
      | item :: rest => Some (mkParallel rest s.(failing) (<[index := Processing item]> s.(jobWorkers))
                                (s.(calls) ++ [(item, index)]) s.(logged))
      | [] => Some (mkParallel [] false (<[index := if s.(failing) then Rejected else Finished]> s.(jobWorkers))
                      s.(calls) s.(logged))
      end
  | Some (Processing item) =>
      Some (mkParallel s.(iterator) s.(failing) (<[index := Waiting]> s.(jobWorkers)) s.(calls)
              (if throws then s.(logged) ++ [item] else s.(logged)))
  | _ => None
  end.

(** A schedule: the worker that moves and whether its processor throws, at each step. *)
Fixpoint run (schedule : list (nat * bool)) s : option (Parallel U) :=
  match schedule with
  | [] => Some s
  | (i, throws) :: schedule => s' ← worker_step i throws s; run schedule s'
  end.

Definition all_settled s : bool :=
  forallb (fun wk => match wk with Finished | Rejected => true | _ => false end) s.(jobWorkers).

(** The steps a worker has still to take once the iterator is empty. *)
Definition worker_left (wk : Worker U) : nat :=
  match wk with Waiting => 1 | Processing _ => 2 | Finished | Rejected => 0 end.
Definition steps_left s : nat := 2 * length s.(iterator) + sum_list_with worker_left s.(jobWorkers).

Lemma sum_insert ws i wk wk' : ws !! i = Some wk ->
  (sum_list_with worker_left (<[i := wk']> ws) + worker_left wk
   = sum_list_with worker_left ws + worker_left wk')%nat.
Proof.
  revert i. induction ws as [|w ws IH]; intros [|i] Hi; [done..| |].
  - injection Hi as ->. cbn. lia.
  - specialize (IH i Hi). change (<[S i:=wk']> (w :: ws)) with (w :: <[i:=wk']> ws).
    cbn [sum_list_with foldr]. lia.
Qed.

Lemma worker_step_left i b s s' : worker_step i b s = Some s' -> steps_left s = S (steps_left s').
Proof.
  unfold worker_step, steps_left. destruct (jobWorkers s !! i) as [[|item| |]|] eqn:E; try done.
  - destruct (iterator s) as [|x rest]; intros [= <-]; cbn [iterator jobWorkers length].
    + pose proof (sum_insert _ _ _ (if failing s then Rejected else Finished) E) as Hs.
      destruct (failing s); cbn in *; lia.
    + pose proof (sum_insert _ _ _ (Processing x) E) as Hs. cbn in *. lia.
  - intros [= <-]. cbn [iterator jobWorkers]. pose proof (sum_insert _ _ _ Waiting E) as Hs. cbn in *. lia.
Qed.

Lemma worker_step_calls i b s s' : worker_step i b s = Some s' ->
  map fst s'.(calls) ++ s'.(iterator) = map fst s.(calls) ++ s.(iterator) ∧
  length s'.(jobWorkers) = length s.(jobWorkers).
Proof.
  unfold worker_step. destruct (jobWorkers s !! i) as [[|item| |]|]; try done.
  - destruct (iterator s) as [|x rest]; intros [= <-]; cbn; rewrite length_insert; [done|].
    by rewrite map_app, <- app_assoc.
  - intros [= <-]. cbn. by rewrite length_insert.
Qed.

(** A worker that has ended found the iterator empty. *)
Definition ended (wk : Worker U) : Prop := wk = Finished ∨ wk = Rejected.
Definition ended_empty s : Prop := ∀ i wk, s.(jobWorkers) !! i = Some wk -> ended wk -> s.(iterator) = [].

Lemma worker_step_ended i b s s' : ended_empty s -> worker_step i b s = Some s' -> ended_empty s'.
Proof.
  unfold ended_empty, worker_step. intros Hs.
  destruct (jobWorkers s !! i) as [[|item| |]|]; try done.
  - destruct (iterator s) as [|x rest] eqn:E; intros [= <-]; cbn; [done|].
    intros k wk [(_ & <- & _)|[_ Hk]]%list_lookup_insert_Some Hw; [by destruct Hw|]. by specialize (Hs _ _ Hk Hw).
  - intros [= <-]. cbn. intros k wk [(_ & <- & _)|[_ Hk]]%list_lookup_insert_Some Hw; [by destruct Hw|]. eauto.
Qed.

Lemma run_spec schedule s s' : run schedule s = Some s' -> ended_empty s ->
  steps_left s = (length schedule + steps_left s')%nat ∧
  map fst s'.(calls) ++ s'.(iterator) = map fst s.(calls) ++ s.(iterator) ∧
  length s'.(jobWorkers) = length s.(jobWorkers) ∧ ended_empty s'.
Proof.
  revert s. induction schedule as [|[i b] schedule IH]; intros s; cbn [run]; [by intros [= <-]|].
  destruct (worker_step i b s) as [s1|] eqn:E; [|done]. intros Hr Hf.
  destruct (IH s1 Hr (worker_step_ended _ _ _ _ Hf E)) as (Hl & Hc & Hw & Hf').
  apply worker_step_left in E as E1. apply worker_step_calls in E as [E2 E3].
  split_and!; [cbn [length]; lia|congruence|congruence|done].
Qed.

Lemma start_left items fails workers :
  steps_left (runInParallel items fails workers) = (2 * length items + workers)%nat.
Proof. unfold steps_left. cbn. induction workers; cbn in *; lia. Qed.

Lemma start_ended items fails workers : ended_empty (runInParallel items fails workers).
Proof. intros i wk [-> _]%lookup_replicate. by intros [?|?]. Qed.

Lemma not_settled s : all_settled s = false ->
  ∃ i wk, s.(jobWorkers) !! i = Some wk ∧ ~ ended wk.
Proof.
  unfold all_settled. induction (jobWorkers s) as [|wk ws IH]; [done|]. cbn. intros Hs.
  destruct wk; cbn in Hs; [by exists 0%nat, Waiting; split; [|intros []]|
    by exists 0%nat, (Processing item); split; [|intros []]|..];
    destruct (IH Hs) as (i & wk & ? & ?); by exists (S i), wk.
Qed.

Lemma settled_left s : ended_empty s -> s.(jobWorkers) ≠ [] ->
  all_settled s = true ↔ steps_left s = 0%nat.
Proof.
  intros He Hne. unfold steps_left. split.
  - intros Hs. assert (iterator s = []) as ->.
    { destruct (jobWorkers s) as [|wk ws] eqn:E; [done|]. apply (He 0%nat wk); [by rewrite E|].
      unfold all_settled in Hs. rewrite E in Hs. unfold ended. destruct wk; cbn in Hs; naive_solver. }
    unfold all_settled in Hs. revert Hs. clear. induction (jobWorkers s) as [|[] ws IH]; cbn in *; naive_solver.
  - intros H0. destruct (all_settled s) eqn:E; [done|]. destruct (not_settled s E) as (i & wk & Hi & Hw).
    pose proof (sum_insert _ _ _ Finished Hi) as Hs. unfold ended in Hw. destruct wk; cbn in Hs; naive_solver lia.
Qed.

(** However the workers are scheduled and whichever processors throw, [runInParallel] ends:
    no run takes more than two steps for each item and one for each worker, and a run has settled
    every worker exactly when it has taken that many. *)
Theorem runInParallel_terminates items fails workers schedule s
    (Hw : (0 < workers)%nat) (Hrun : run schedule (runInParallel items fails workers) = Some s) :
  (length schedule <= 2 * length items + workers)%nat ∧
  (all_settled s = true ↔ length schedule = (2 * length items + workers)%nat).
Proof.
  destruct (run_spec _ _ _ Hrun (start_ended _ _ _)) as (Hl & _ & Hlen & He). rewrite start_left in Hl.
  split; [lia|]. rewrite settled_left; [lia|done|]. intros E. rewrite E in Hlen. cbn in Hlen.
  rewrite length_replicate in Hlen. lia.
Qed.

(** C32. Every item of the iterator is handed to exactly one worker, in the iterator's order, also
    when processors throw or the iterator throws at its end: as long as some worker has not
    settled, one of them can move, and once all have, the calls of the processor are the items. *)
Theorem runInParallel_processes_all items fails workers schedule s
    (Hw : (0 < workers)%nat) (Hrun : run schedule (runInParallel items fails workers) = Some s) :
  (∃ rest, map fst s.(calls) ++ rest = items) ∧
  if all_settled s then map fst s.(calls) = items
  else ∃ i, ∀ throws, is_Some (worker_step i throws s).
Proof.
  destruct (run_spec _ _ _ Hrun (start_ended _ _ _)) as (_ & Hc & Hlen & He). cbn in Hc.
  split; [by eexists|]. destruct (all_settled s) eqn:E.
  - apply settled_left in E as E0; [|done|].
    + unfold steps_left in E0. destruct (iterator s); [|cbn in E0; lia]. by rewrite app_nil_r in Hc.
    + intros E0. rewrite E0 in Hlen. cbn in Hlen. rewrite length_replicate in Hlen. lia.
  - destruct (not_settled s E) as (i & wk & Hi & Hn). exists i. intros throws. unfold worker_step. rewrite Hi.
    unfold ended in Hn. destruct wk; [destruct (iterator s)| | |]; naive_solver.
Qed.

End Parallel.

Module UtilsExamples.

(** Two workers, three items; the processor of the second item throws. *)
Definition schedule : list (nat * bool) :=
  [(0, false); (1, false); (1, true); (1, false); (0, false); (0, false); (1, false); (1, false)]%nat.

Definition end_state : Parallel string :=
  default (runInParallel [] false 0) (run schedule (runInParallel ["a"; "b"; "c"] false 2)).

Lemma runInParallel_terminates_witness :
  all_settled end_state = true ∧ (length schedule <= 8)%nat.
Proof.
  split; [reflexivity|].
  exact (proj1 (runInParallel_terminates ["a"; "b"; "c"] false 2 schedule end_state
    ltac:(lia) ltac:(reflexivity))).
Defined.

Lemma runInParallel_processes_all_witness :
  map fst end_state.(calls) = ["a"; "b"; "c"] ∧ end_state.(logged) = ["b"].
Proof.
  split; [|reflexivity].
  exact (proj2 (runInParallel_processes_all ["a"; "b"; "c"] false 2 schedule end_state
    ltac:(lia) ltac:(reflexivity))).
Defined.

End UtilsExamples.
