(* ===== verification/World.v ===== *)
(** * The state the application runs on

    The application functions read and write the collections of one database and call services
    outside the process.  [World] holds the collections and an opaque outside [X]; an [IO] program
    is a function of the world, so what was written before an error stays written.  Every access to
    the database may throw: whether the next one does is asked of the outside.  [wp] is the weakest
    precondition of a program, with a rule for each construct; each operation of the later
    files has a lemma in that form. *)

From S2P Require Import Prelude JsNumber Shared Prices Fees Lightning PaymentFlow.
From S2P Require Import LedgerEntry TxMetadata LedgerTx TxHistory Limits.

(** ** Documents *)

(** A stored transaction: what [translateToLedgerTx] reads, and the fields of medici that other
    queries use. *)
Record Doc := mkDoc {
  doc :> ILedgerTransaction;
  doc_datetime : Z;
  doc_original_journal : option string;
  doc_related_journal : option string;
}.

(** [PaymentFlowStateRecord].  The type has [skipProbeForDestination], the schema of the collection
    does not, so a stored record never has it. *)
Record PaymentFlowStateRecord := mkFlowRecord {
  fr_paymentHash : option string;
  fr_intraLedgerHash : option string;
  fr_senderWalletId : string;
  fr_senderWalletCurrency : WalletCurrency;
  fr_senderAccountId : string;
  fr_settlementMethod : SettlementMethod;
  fr_paymentInitiationMethod : PaymentInitiationMethod;
  fr_descriptionFromInvoice : string;
  fr_skipProbeForDestination : option bool;
  fr_createdAt : Z;
  fr_paymentSentAndPending : bool;
  fr_btcPaymentAmount : number;
  fr_usdPaymentAmount : number;
  fr_inputAmount : number;
  fr_btcProtocolAndBankFee : number;
  fr_usdProtocolAndBankFee : number;
  fr_recipientWalletId : option string;
  fr_recipientWalletCurrency : option WalletCurrency;
  fr_recipientAccountId : option string;
  fr_recipientPubkey : option string;
  fr_recipientUsername : option string;
  fr_recipientUserId : option string;
  fr_outgoingNodePubkey : option string;
  fr_cachedRoute : option RawRoute;
}.

(** The part of [LnPaymentType] that is written when a payment is sent. *)
Record LnPaymentRecord := mkLnPayment {
  lp_paymentHash : PaymentHash;
  lp_paymentRequest : option string;
  lp_sentFromPubkey : option Pubkey;
}.

(** [WalletInvoiceRecord] *)
Record WalletInvoiceRecord := mkInvoiceRecord {
  ir_id : PaymentHash;
  ir_secret : string;
  ir_walletId : WalletId;
  ir_accountId : AccountId;
  ir_currency : WalletCurrency;
  ir_selfGenerated : bool;
  ir_pubkey : Pubkey;
  ir_paid : bool;
  ir_cents : option number;
  ir_timestamp : Z;
  ir_processingCompleted : bool;
  ir_externalId : LedgerExternalId;
  ir_paymentRequest : option string;
}.

(** [Wallet], without its type and the node of each address. *)
Record Wallet := mkWalletRecord {
  wl_descriptor :> WalletDescriptor;
  wl_onChainAddresses : list OnChainAddress;
}.

Inductive AccountStatus := StatusNew | AccountPending | Active | Locked | Closed.

#[export] Instance AccountStatus_eq_dec : EqDecision AccountStatus.
Proof. solve_decision. Defined.

(** An entry of the status history, without its date and the user that made it. *)
Record StatusEntry := mkStatusEntry {
  se_status : AccountStatus;
  se_updatedByPrivilegedClientId : option string;
  se_comment : option string;
}.

Record ContactRecord := mkContactRecord {
  ct_id : string;
  ct_name : option string;
  ct_transactionsCount : Z;
}.

(** [AccountRecord], without its creation date and role *)
Record AccountRecord := mkAccountRecord {
  ar_id : AccountId;
  ar_username : option Username;
  ar_level : AccountLevel;
  ar_statusHistory : list StatusEntry;
  ar_contactEnabled : bool;
  ar_contacts : list ContactRecord;
  ar_withdrawFee : option number;
  ar_kratosUserId : UserId;
  ar_displayCurrency : option DisplayCurrency;
  ar_defaultWalletId : option WalletId;
}.

Record NotificationRecipient := mkRecipient {
  nr_accountId : AccountId;
  nr_walletId : WalletId;
  nr_userId : UserId;
  nr_level : AccountLevel;
}.

Record WalletOnChainPendingReceiveRecord := mkPendingReceive {
  pr_walletId : WalletId;
  pr_address : OnChainAddress;
  pr_transactionHash : string;
  pr_vout : number;
  pr_walletAmount : number;
  pr_walletFee : number;
  pr_walletCurrency : WalletCurrency;
  pr_displayAmount : string;
  pr_displayFee : string;
  pr_displayPriceBase : string;
  pr_displayPriceOffset : string;
  pr_displayPriceCurrency : DisplayCurrency;
  pr_createdAt : Z;
}.

(** ** The world *)

(** The wallet ids that [services/ledger/caching.ts] keeps once they are resolved. *)
Record BankWallets := mkBankWallets {
  cacheDealerBtcWalletId : option WalletId;
  cacheDealerUsdWalletId : option WalletId;
  cacheBankOwnerWalletId : option WalletId;
  cacheFunderWalletId : option WalletId;
}.

Record World (X : Type) := mkWorld {
  ledger : list Doc;
  txMetadata : list TxMetadataToPersist;
  paymentFlows : list PaymentFlowStateRecord;
  lnPayments : list LnPaymentRecord;
  walletInvoices : list WalletInvoiceRecord;
  wallets : list Wallet;
  accounts : list AccountRecord;
  notified : list (NotificationRecipient * WalletTransaction);
  pendingReceives : list WalletOnChainPendingReceiveRecord;
  briaSequences : list Z; (* of the stored events of Bria, of which nothing else is read *)
  bankWallets : BankWallets;
  outside : X;
}.
Arguments mkWorld {X}.
Arguments ledger {X}.
Arguments txMetadata {X}.
Arguments paymentFlows {X}.
Arguments lnPayments {X}.
Arguments walletInvoices {X}.
Arguments wallets {X}.
Arguments accounts {X}.
Arguments notified {X}.
Arguments pendingReceives {X}.
Arguments briaSequences {X}.
Arguments bankWallets {X}.
Arguments outside {X}.

Section Updates.
Context {X : Type} (w : World X).

Definition with_ledger (l : list Doc) : World X :=
  mkWorld l w.(txMetadata) w.(paymentFlows) w.(lnPayments) w.(walletInvoices) w.(wallets)
    w.(accounts) w.(notified) w.(pendingReceives) w.(briaSequences) w.(bankWallets) w.(outside).
Definition with_txMetadata (l : list TxMetadataToPersist) : World X :=
  mkWorld w.(ledger) l w.(paymentFlows) w.(lnPayments) w.(walletInvoices) w.(wallets)
    w.(accounts) w.(notified) w.(pendingReceives) w.(briaSequences) w.(bankWallets) w.(outside).
Definition with_paymentFlows (l : list PaymentFlowStateRecord) : World X :=
  mkWorld w.(ledger) w.(txMetadata) l w.(lnPayments) w.(walletInvoices) w.(wallets)
    w.(accounts) w.(notified) w.(pendingReceives) w.(briaSequences) w.(bankWallets) w.(outside).
Definition with_lnPayments (l : list LnPaymentRecord) : World X :=
  mkWorld w.(ledger) w.(txMetadata) w.(paymentFlows) l w.(walletInvoices) w.(wallets)
    w.(accounts) w.(notified) w.(pendingReceives) w.(briaSequences) w.(bankWallets) w.(outside).
Definition with_walletInvoices (l : list WalletInvoiceRecord) : World X :=
  mkWorld w.(ledger) w.(txMetadata) w.(paymentFlows) w.(lnPayments) l w.(wallets)
    w.(accounts) w.(notified) w.(pendingReceives) w.(briaSequences) w.(bankWallets) w.(outside).
Definition with_wallets (l : list Wallet) : World X :=
  mkWorld w.(ledger) w.(txMetadata) w.(paymentFlows) w.(lnPayments) w.(walletInvoices) l
    w.(accounts) w.(notified) w.(pendingReceives) w.(briaSequences) w.(bankWallets) w.(outside).
Definition with_accounts (l : list AccountRecord) : World X :=
  mkWorld w.(ledger) w.(txMetadata) w.(paymentFlows) w.(lnPayments) w.(walletInvoices) w.(wallets)
    l w.(notified) w.(pendingReceives) w.(briaSequences) w.(bankWallets) w.(outside).
Definition with_notified (l : list (NotificationRecipient * WalletTransaction)) : World X :=
  mkWorld w.(ledger) w.(txMetadata) w.(paymentFlows) w.(lnPayments) w.(walletInvoices) w.(wallets)
    w.(accounts) l w.(pendingReceives) w.(briaSequences) w.(bankWallets) w.(outside).
Definition with_pendingReceives (l : list WalletOnChainPendingReceiveRecord) : World X :=
  mkWorld w.(ledger) w.(txMetadata) w.(paymentFlows) w.(lnPayments) w.(walletInvoices) w.(wallets)
    w.(accounts) w.(notified) l w.(briaSequences) w.(bankWallets) w.(outside).
Definition with_briaSequences (l : list Z) : World X :=
  mkWorld w.(ledger) w.(txMetadata) w.(paymentFlows) w.(lnPayments) w.(walletInvoices) w.(wallets)
    w.(accounts) w.(notified) w.(pendingReceives) l w.(bankWallets) w.(outside).
Definition with_bankWallets (b : BankWallets) : World X :=
  mkWorld w.(ledger) w.(txMetadata) w.(paymentFlows) w.(lnPayments) w.(walletInvoices) w.(wallets)
    w.(accounts) w.(notified) w.(pendingReceives) w.(briaSequences) b w.(outside).
Definition with_outside (x : X) : World X :=
  mkWorld w.(ledger) w.(txMetadata) w.(paymentFlows) w.(lnPayments) w.(walletInvoices) w.(wallets)
    w.(accounts) w.(notified) w.(pendingReceives) w.(briaSequences) w.(bankWallets) x.

End Updates.

(** ** Programs *)

Definition IO (X A : Type) : Type := World X -> A * World X.

#[export] Instance IO_ret X : MRet (IO X) := fun A a w => (a, w).
#[export] Instance IO_bind X : MBind (IO X) := fun A B k m w => let '(a, w') := m w in k a w'.

(** What a function returns for an error: the error itself, or a value of its own result type
    that carries it. *)
Class FromError (R : Type) := from_error : ApplicationError -> R.
#[export] Instance FromError_Result A : FromError (Result A) := fun e => Err e.

(** [const x = await m; if (x instanceof Error) return x] *)
Definition bind_or {X A R} `{FromError R} (m : IO X (Result A)) (k : A -> IO X R) : IO X R :=
  r ← m; match r with Ok a => k a | Err e => mret (from_error e) end.

Notation "x ←? y ; z" := (bind_or y (fun x => z))
  (at level 20, y at level 100, z at level 200, only parsing).
Notation "' x ←? y ; z" := (bind_or y (fun x => z))
  (at level 20, x pattern, y at level 100, z at level 200, only parsing).

(** A call that is awaited. *)
Definition Async (X A : Type) : Type := IO X (Result A).
#[export] Instance Calls_Async X : Calls (Async X) := {
  calls_bind A B k m := bind_or m k;
  returns A r := mret r;
  handle A B m k := @mbind (IO X) _ _ _ k m;
}.

(** The synchronous form: [const x = f(); if (x instanceof Error) return x]. *)
Definition or_return {X A R} `{FromError R} (r : Result A) (k : A -> IO X R) : IO X R :=
  match r with Ok a => k a | Err e => mret (from_error e) end.

Notation "x ←! y ; z" := (or_return y (fun x => z))
  (at level 20, y at level 100, z at level 200, only parsing).

Definition ext {X A} (f : X -> A * X) : IO X A :=
  fun w => let '(a, x) := f w.(outside) in (a, with_outside w x).
Definition gets {X A} (f : World X -> A) : IO X A := fun w => (f w, w).
Definition modify {X} (f : World X -> World X) : IO X unit := fun w => (tt, f w).

(** The database and the clock: whether the next access throws, and [Date.now()]. *)
Class Database (X : Type) := {
  db_fault : X -> option string * X;
  Date_now : X -> Z * X;
}.

(** An access to the database inside a [try]: an exception is the [Err] case. *)
Definition db {X A} `{Database X} (f : IO X A) : IO X (result string A) :=
  fault ← ext db_fault;
  match fault with
  | Some msg => mret (Err msg)
  | None => a ← f; mret (Ok a)
  end.

(** [catch (err) { return parseRepositoryError(err) }] and
    [catch (err) { return new UnknownLedgerError(err) }]. *)
Definition catch_as {X A} (err : string -> ApplicationError) (m : IO X (result string A))
    : IO X (Result A) :=
  r ← m; mret (match r with Ok a => Ok a | Err msg => Err (err msg) end).

Definition repo {X A} `{Database X} (f : World X -> Result A) : IO X (Result A) :=
  r ← catch_as RepositoryError (db (gets f)); mret (x ← r; x).

(** ** Weakest preconditions *)

Definition wp {X A} (m : IO X A) (Q : A -> World X -> Prop) (w : World X) : Prop :=
  Q (m w).1 (m w).2.

Section Wp.
Context {X : Type}.
Implicit Types (w : World X).

Lemma wp_mono {A} (m : IO X A) (Q Q' : A -> World X -> Prop) w :
  wp m Q w -> (∀ a w', Q a w' -> Q' a w') -> wp m Q' w.
Proof. unfold wp. auto. Qed.

Lemma wp_and {A} (m : IO X A) (Q Q' : A -> World X -> Prop) w :
  wp m Q w -> wp m Q' w -> wp m (fun a w' => Q a w' ∧ Q' a w') w.
Proof. done. Qed.

Lemma wp_impl {A} (P : Prop) (m : IO X A) (Q : A -> World X -> Prop) w :
  (P -> wp m Q w) -> wp m (fun a w' => P -> Q a w') w.
Proof. done. Qed.

Lemma wp_run {A} (m : IO X A) (Q : A -> World X -> Prop) w a : wp m Q w -> (m w).1 = a -> Q a (m w).2.
Proof. by intros HQ <-. Qed.

(** The postcondition may use the run itself. *)
Lemma wp_result {A} (m : IO X A) (Q : A -> World X -> Prop) w : (∀ a w', m w = (a, w') -> Q a w') -> wp m Q w.
Proof. unfold wp. intros HQ. apply HQ. by destruct (m w). Qed.

Lemma wp_trace {A} (m : IO X A) (Q : A -> World X -> Prop) w :
  wp m (fun a w' => m w = (a, w') -> Q a w') w -> wp m Q w.
Proof. unfold wp. intros HQ. apply HQ. by destruct (m w). Qed.

Lemma wp_ret {A} (a : A) (Q : A -> World X -> Prop) w : Q a w -> wp (mret a) Q w.
Proof. done. Qed.

Lemma wp_bind {A B} (m : IO X A) (k : A -> IO X B) Q w :
  wp m (fun a w' => wp (k a) Q w') w -> wp (m ≫= k) Q w.
Proof. unfold wp, mbind, IO_bind. by destruct (m w). Qed.

Lemma wp_bind_or {A R} `{FromError R} (m : IO X (Result A)) (k : A -> IO X R) Q w :
  wp m (fun r w' => match r with Ok a => wp (k a) Q w' | Err e => Q (from_error e) w' end) w ->
  wp (bind_or m k) Q w.
Proof.
  intros Hm. unfold bind_or. apply wp_bind. eapply wp_mono; [exact Hm|].
  by intros [a|e] w' H'.
Qed.

Lemma wp_async_bind {A B} (m : Async X A) (k : A -> Async X B) Q w :
  wp m (fun r w' => match r with Ok a => wp (k a) Q w' | Err e => Q (Err e) w' end) w ->
  wp (@mbind (Async X) calls_bind A B k m) Q w.
Proof. apply wp_bind_or. Qed.

Lemma wp_returns {A} (r : Result A) (Q : Result A -> World X -> Prop) w : Q r w -> wp (returns (F := Async X) r) Q w.
Proof. done. Qed.

Lemma wp_handle {A B} (m : Async X A) (k : Result A -> Async X B) Q w :
  wp m (fun r w' => wp (k r) Q w') w -> wp (handle (F := Async X) m k) Q w.
Proof. apply wp_bind. Qed.

Lemma wp_or_return {A R} `{FromError R} (r : Result A) (k : A -> IO X R) Q w :
  (∀ a, r = Ok a -> wp (k a) Q w) -> (∀ e, r = Err e -> Q (from_error e) w) ->
  wp (or_return r k) Q w.
Proof. intros Ha He. destruct r; [by apply Ha|]. apply wp_ret, He. done. Qed.

Lemma wp_ext {A} (f : X -> A * X) Q w :
  (∀ a x, f w.(outside) = (a, x) -> Q a (with_outside w x)) -> wp (ext f) Q w.
Proof. intros HQ. unfold wp, ext. destruct (f _) eqn:E. by apply HQ. Qed.

Lemma wp_gets {A} (f : World X -> A) (Q : A -> World X -> Prop) w : Q (f w) w -> wp (gets f) Q w.
Proof. done. Qed.

Lemma wp_modify (f : World X -> World X) (Q : unit -> World X -> Prop) w :
  Q tt (f w) -> wp (modify f) Q w.
Proof. done. Qed.

Context `{Database X}.

Lemma wp_db {A} (f : IO X A) Q w :
  (∀ msg x, Q (Err msg) (with_outside w x)) ->
  (∀ x, wp f (fun a => Q (Ok a)) (with_outside w x)) -> wp (db f) Q w.
Proof.
  intros He Hf. apply wp_bind, wp_ext. intros [msg|] x _; [by apply wp_ret|].
  apply wp_bind. eapply wp_mono; [apply Hf|]. intros a w' Ha. by apply wp_ret.
Qed.

Lemma wp_catch {A} err (m : IO X (result string A)) Q w :
  wp m (fun r => Q match r with Ok a => Ok a | Err msg => Err (err msg) end) w ->
  wp (catch_as err m) Q w.
Proof. intros Hm. by apply wp_bind. Qed.

(** A read: it throws, or gives what the collections hold; they are unchanged. *)
Lemma wp_repo {A} (f : World X -> Result A) Q w :
  (∀ msg x, Q (Err (RepositoryError msg)) (with_outside w x)) ->
  (∀ x, Q (f (with_outside w x)) (with_outside w x)) -> wp (repo f) Q w.
Proof.
  intros He Hf. apply wp_bind, wp_catch, wp_db.
  - intros msg x. apply wp_ret, He.
  - intros x. apply wp_gets, wp_ret. cbn. destruct (f _) eqn:E; rewrite <- E; apply Hf.
Qed.

End Wp.
