(* ===== verification/LedgerBook.v ===== *)
(** * The ledger as a stateful service

    Models the schema of stored transactions ([services/ledger/schema.ts]), the cached wallet ids
    of the bank ([caching.ts]), the repository of transaction metadata
    ([services/transactions-metadata.ts]), the recording, reverting and settling functions of
    [services/ledger/facade], [send.ts] and [helpers.ts], and the queries of
    [services/ledger/index.ts].  The book of medici, which saves and voids entries, is a class; its
    documented behaviour is [MediciBookLaws]. *)

From Stdlib Require Import Ascii.
From S2P Require Import Prelude JsNumber Shared Prices Fees Lightning PaymentFlow.
From S2P Require Import LedgerEntry TxMetadata LedgerTx TxHistory Limits World.

(** ** Stored documents *)

Definition meta_bool (md : TxMetadata) (key : string) : option bool :=
  match md !! key with Some (MBool b) => Some b | _ => None end.
Definition meta_number (md : TxMetadata) (key : string) : option number :=
  match md !! key with Some (MNumber n) => Some n | _ => None end.
Definition meta_strings (md : TxMetadata) (key : string) : option (list string) :=
  match md !! key with Some (MStrings l) => Some l | _ => None end.

(** [Object.values(LedgerTransactionType)] *)
Definition ledgerTransactionTypes : list LedgerTransactionType :=
  [Invoice; Payment; LnFeeReimbursement; OnchainReceipt; OnchainPayment; IntraLedger; LnIntraLedger;
   OnchainIntraLedger; WalletIdTradeIntraAccount; LnTradeIntraAccount; OnChainTradeIntraAccount;
   Fee; ToColdStorage; ToHotWallet; EscrowType; RoutingRevenue; Reconciliation].

Definition type_of_code (s : string) : option LedgerTransactionType :=
  head (filter (fun t => type_code t = s) ledgerTransactionTypes).

Definition currency_of_code (s : string) : option WalletCurrency :=
  if decide (s = "BTC") then Some Btc else if decide (s = "USD") then Some Usd else None.

Definition lower (c : ascii) : ascii :=
  let n := nat_of_ascii c in
  if (65 <=? n)%nat && (n <=? 90)%nat then ascii_of_nat (n + 32) else c.

Fixpoint lower_string (s : string) : string :=
  match s with EmptyString => EmptyString | String c s' => String (lower c) (lower_string s') end.

(** [[0-9a-z_]], of a character in lower case *)
Definition word_char (c : ascii) : bool :=
  let n := nat_of_ascii c in
  ((48 <=? n)%nat && (n <=? 57)%nat) || ((97 <=? n)%nat && (n <=? 122)%nat) || (n =? 95)%nat.

(** [/(?!^(1|3|bc1|lnbc1))^[0-9a-z_]+$/i] *)
Definition username_match (s : string) : bool :=
  let l := lower_string s in
  forallb (fun p => negb (String.prefix p l)) ["1"; "3"; "bc1"; "lnbc1"] &&
  (0 <? String.length l)%nat && forallb word_char (String.list_ascii_of_string l).

(** The [match], [minlength] and [maxlength] validators of [username]. *)
Definition valid_username (username : option string) : bool :=
  match username with
  | None => true
  | Some s => username_match s && (3 <=? String.length s)%nat && (String.length s <=? 50)%nat
  end.

(** The document of a transaction of an entry, with the schema's defaults; [None] where the schema
    refuses it: the type, the pending flag and the currency are required. *)
Definition doc_of (memo journal id : string) (datetime t : Z) (tx : MediciTransaction) : option Doc :=
  let md := tx.(tx_meta) in
  if negb (valid_username (meta_string md "username")) then None else
  match meta_string md "type" ≫= type_of_code, meta_bool md "pending",
        meta_string md "currency" ≫= currency_of_code with
  | Some type, Some pending, Some currency =>
      Some {|
        doc := {|
          raw_id := Some id;
          raw_accounts := tx.(tx_account);
          raw_external_id := meta_string md "external_id";
          raw_type := type;
          raw_debit := tx.(tx_debit);
          raw_credit := tx.(tx_credit);
          raw_currency := currency;
          raw_timestamp := t;
          raw_pending := pending;
          raw_bundle_completion_state := None;
          raw_journal := journal;
          raw_memo := memo;
          raw_username := meta_string md "username";
          raw_memoPayer := meta_string md "memoPayer";
          raw_hash := meta_string md "hash";
          raw_pubkey := meta_string md "pubkey";
          raw_payee_addresses := Some (default [] (meta_strings md "payee_addresses"));
          raw_request_id := meta_string md "request_id";
          raw_payout_id := meta_string md "payout_id";
          raw_vout := meta_number md "vout";
          raw_feeKnownInAdvance := meta_bool md "feeKnownInAdvance";
          raw_satsAmount := meta_number md "satsAmount";
          raw_centsAmount := meta_number md "centsAmount";
          raw_satsFee := Some (default (Number 0) (meta_number md "satsFee"));
          raw_centsFee := Some (default (Number 0) (meta_number md "centsFee"));
          raw_displayAmount := meta_number md "displayAmount";
          raw_displayFee := Some (default (Number 0) (meta_number md "displayFee"));
          raw_displayCurrency := Some (default "USD" (meta_string md "displayCurrency"));
          raw_fee := Some (default (Number 0) (meta_number md "fee"));
          raw_usd := meta_number md "usd";
          raw_feeUsd := Some (default (Number 0) (meta_number md "feeUsd"));
        |};
        doc_datetime := datetime;
        doc_original_journal := None;
        doc_related_journal := meta_string md "related_journal";
      |}
  | _, _, _ => None
  end.

(** A document with some of its fields replaced. *)
Definition with_fields (debit credit : number) (id : option string) (journal memo : string) (t : Z)
    (pending : bool) (state : option LnPaymentState) (hash : option string) (vout : option number)
    (payout_id : option string) (d : ILedgerTransaction) : ILedgerTransaction := {|
  raw_id := id;
  raw_accounts := d.(raw_accounts);
  raw_external_id := d.(raw_external_id);
  raw_type := d.(raw_type);
  raw_debit := debit;
  raw_credit := credit;
  raw_currency := d.(raw_currency);
  raw_timestamp := t;
  raw_pending := pending;
  raw_bundle_completion_state := state;
  raw_journal := journal;
  raw_memo := memo;
  raw_username := d.(raw_username);
  raw_memoPayer := d.(raw_memoPayer);
  raw_hash := hash;
  raw_pubkey := d.(raw_pubkey);
  raw_payee_addresses := d.(raw_payee_addresses);
  raw_request_id := d.(raw_request_id);
  raw_payout_id := payout_id;
  raw_vout := vout;
  raw_feeKnownInAdvance := d.(raw_feeKnownInAdvance);
  raw_satsAmount := d.(raw_satsAmount);
  raw_centsAmount := d.(raw_centsAmount);
  raw_satsFee := d.(raw_satsFee);
  raw_centsFee := d.(raw_centsFee);
  raw_displayAmount := d.(raw_displayAmount);
  raw_displayFee := d.(raw_displayFee);
  raw_displayCurrency := d.(raw_displayCurrency);
  raw_fee := d.(raw_fee);
  raw_usd := d.(raw_usd);
  raw_feeUsd := d.(raw_feeUsd);
|}.

(** The document that reverts another: debit and credit change sides, the metadata is kept. *)
Definition reverse_doc (memo journal id : string) (datetime t : Z) (d : Doc) : Doc := {|
  doc := with_fields d.(raw_credit) d.(raw_debit) (Some id) journal memo t d.(raw_pending)
           d.(raw_bundle_completion_state) d.(raw_hash) d.(raw_vout) d.(raw_payout_id) d;
  doc_datetime := datetime;
  doc_original_journal := Some d.(raw_journal);
  doc_related_journal := d.(doc_related_journal);
|}.

(** An update of the fields that are ever updated. *)
Definition update_doc (pending : bool) (state : option LnPaymentState) (hash : option string)
    (vout : option number) (payout_id : option string) (d : Doc) : Doc := {|
  doc := with_fields d.(raw_debit) d.(raw_credit) d.(raw_id) d.(raw_journal) d.(raw_memo)
           d.(raw_timestamp) pending state hash vout payout_id d;
  doc_datetime := d.(doc_datetime);
  doc_original_journal := d.(doc_original_journal);
  doc_related_journal := d.(doc_related_journal);
|}.

Definition set_pending (pending : bool) (d : Doc) : Doc :=
  update_doc pending d.(raw_bundle_completion_state) d.(raw_hash) d.(raw_vout) d.(raw_payout_id) d.
Definition set_state (state : LnPaymentState) (d : Doc) : Doc :=
  update_doc d.(raw_pending) (Some state) d.(raw_hash) d.(raw_vout) d.(raw_payout_id) d.
Definition set_payout (payoutId : string) (d : Doc) : Doc :=
  update_doc d.(raw_pending) d.(raw_bundle_completion_state) d.(raw_hash) d.(raw_vout) (Some payoutId) d.
Definition set_txid (txId : string) (vout : number) (d : Doc) : Doc :=
  update_doc d.(raw_pending) d.(raw_bundle_completion_state) (Some txId) (Some vout) d.(raw_payout_id) d.

#[export] Instance ILedgerTransaction_eq_dec : EqDecision ILedgerTransaction.
Proof. solve_decision. Defined.
#[export] Instance Doc_eq_dec : EqDecision Doc.
Proof. solve_decision. Defined.

(** ** The book of medici *)

(** The paths that an [account] filter of medici selects: an account and what is below it. *)
Definition in_account (account : string) (d : Doc) : Prop :=
  split_colon account `prefix_of` split_colon d.(raw_accounts).
#[export] Instance in_account_dec account d : Decision (in_account account d).
Proof. unfold in_account. apply _. Defined.

Definition doc_credit (d : Doc) : Z := amount_of d.(raw_credit).
Definition doc_debit (d : Doc) : Z := amount_of d.(raw_debit).

(** Credits less debits of an account. *)
Definition book_balance (account : string) (L : list Doc) : Z :=
  sumZ (map (fun d : Doc => doc_credit d - doc_debit d) (filter (in_account account) L)).

(** A book whose amounts are integers that floats add exactly. *)
Definition exact_book (L : list Doc) : Prop :=
  Forall (fun d : Doc => base_amount d.(raw_debit) ∧ base_amount d.(raw_credit)) L ∧
  sumZ (map doc_debit L) < 2 ^ 53 ∧ sumZ (map doc_credit L) < 2 ^ 53.

Class MediciBook (M X : Type) := {
  MainBook_entry : string -> M;
  commit : M -> list Doc -> X -> result string (SavedEntry * list Doc) * X;
  void : string -> string -> list Doc -> X -> result string (SavedEntry * list Doc) * X;
  MainBook_balance : string -> list Doc -> number;
  isValidObjectId : string -> bool;
}.

Definition fresh_journal (j : string) (L : list Doc) : Prop :=
  Forall (fun d : Doc => d.(raw_journal) ≠ j ∧ d.(doc_original_journal) ≠ Some j) L.

(** Committing an entry stores one document for each of its transactions, under a new journal;
    voiding a journal stores the reverse of each of its documents, under a new journal.  A failed
    call stores nothing. *)
Class MediciBookLaws (M X : Type) `{MediciEntry M} `{!MediciBook M X} : Prop := {
  entry_empty d : transactions (MainBook_entry (X := X) d : M) = [];
  commit_stores (e : M) L x s L' x' : commit e L x = (Ok (s, L'), x') ->
    fresh_journal s.(saved_id) L ∧ ∃ memo dt t new, L' = new ++ L ∧
      Forall2 (fun tx d => ∃ id, doc_of memo s.(saved_id) id dt t tx = Some d) (transactions e) new;
  void_stores j reason L x s L' x' : void (M := M) j reason L x = (Ok (s, L'), x') ->
    fresh_journal s.(saved_id) L ∧ ∃ memo dt t new, L' = new ++ L ∧
      Forall2 (fun o d => ∃ id, d = reverse_doc memo s.(saved_id) id dt t o)
        (filter (fun d : Doc => d.(raw_journal) = j) L) new;
  balance_exact a L : exact_book L -> MainBook_balance (M := M) (X := X) a L = Number (book_balance a L);
}.

(** ** The bank's wallets *)

Class Resolvers (X : Type) := {
  dealerBtcResolver : X -> result string WalletId * X;
  dealerUsdResolver : X -> result string WalletId * X;
  bankOwnerResolver : X -> result string WalletId * X;
  funderResolver : X -> result string WalletId * X;
}.

Section Ledger.
Context {M X : Type} `{MediciEntry M} `{!MediciBook M X} `{Database X} `{Resolvers X}.

(** A cached id, or the resolved one, which is then kept. *)
Definition cached (get : BankWallets -> option WalletId) (set : WalletId -> BankWallets -> BankWallets)
    (resolver : X -> result string WalletId * X) : IO X (result string WalletId) :=
  cache ← gets bankWallets;
  match js_or_opt (get cache) None with
  | Some id => mret (Ok id)
  | None =>
      r ← ext resolver;
      match r with
      | Err msg => mret (Err msg)
      | Ok id => _ ← modify (fun w => with_bankWallets w (set id w.(bankWallets))); mret (Ok id)
      end
  end.

Definition getDealerBtcWalletId : IO X (result string WalletId) :=
  cached cacheDealerBtcWalletId (fun id b => mkBankWallets (Some id) b.(cacheDealerUsdWalletId)
    b.(cacheBankOwnerWalletId) b.(cacheFunderWalletId)) dealerBtcResolver.
Definition getDealerUsdWalletId : IO X (result string WalletId) :=
  cached cacheDealerUsdWalletId (fun id b => mkBankWallets b.(cacheDealerBtcWalletId) (Some id)
    b.(cacheBankOwnerWalletId) b.(cacheFunderWalletId)) dealerUsdResolver.
Definition getBankOwnerWalletId : IO X (result string WalletId) :=
  cached cacheBankOwnerWalletId (fun id b => mkBankWallets b.(cacheDealerBtcWalletId)
    b.(cacheDealerUsdWalletId) (Some id) b.(cacheFunderWalletId)) bankOwnerResolver.
Definition getFunderWalletId : IO X (result string WalletId) :=
  cached cacheFunderWalletId (fun id b => mkBankWallets b.(cacheDealerBtcWalletId)
    b.(cacheDealerUsdWalletId) b.(cacheBankOwnerWalletId) (Some id)) funderResolver.

(** [const x = await m], where a rejection leaves the function by an exception. *)
Definition rejects {A B} (m : IO X (result string A)) (k : A -> IO X (result string B))
    : IO X (result string B) :=
  r ← m; match r with Ok a => k a | Err msg => mret (Err msg) end.

Definition getNonEndUserWalletIds : IO X (result string (list WalletId)) :=
  rejects getDealerBtcWalletId (fun dealerBtc =>
  rejects getDealerUsdWalletId (fun dealerUsd =>
  rejects getBankOwnerWalletId (fun bankOwner =>
  rejects getFunderWalletId (fun funder =>
  mret (Ok [dealerBtc; dealerUsd; bankOwner; funder]))))).

Definition staticAccountIds : IO X (Result StaticAccountIds) :=
  catch_as UnknownLedgerError
    (rejects getBankOwnerWalletId (fun bankOwner =>
     rejects getDealerBtcWalletId (fun dealerBtc =>
     rejects getDealerUsdWalletId (fun dealerUsd =>
     mret (Ok {| bankOwnerAccountId := toLedgerAccountId bankOwner;
                 dealerBtcAccountId := toLedgerAccountId dealerBtc;
                 dealerUsdAccountId := toLedgerAccountId dealerUsd |}))))).

(** ** The metadata of transactions *)

Definition translateToLedgerTxMetadata (txMetadata : TxMetadataToPersist) : TxMetadataToPersist := {|
  persist_id := txMetadata.(persist_id);
  persist_hash := or_undefined txMetadata.(persist_hash);
  persist_revealedPreImage := or_undefined txMetadata.(persist_revealedPreImage);
|}.

(** A record that is stored is the metadata itself, without the keys that are [undefined]. *)
Definition persistAll (ledgerTxsMetadata : list TxMetadataToPersist)
    : IO X (Result (list TxMetadataToPersist)) :=
  match ledgerTxsMetadata with
  | [] => mret (Ok [])
  | _ => catch_as RepositoryError (db
      (_ ← modify (fun w => with_txMetadata w (w.(txMetadata) ++ ledgerTxsMetadata));
       mret (map translateToLedgerTxMetadata ledgerTxsMetadata)))
  end.

(** ** Saving and voiding *)

Definition entry_commit (entry : M) : IO X (result string SavedEntry) := fun w =>
  match commit entry w.(ledger) w.(outside) with
  | (Ok (saved, L), x) => (Ok saved, with_outside (with_ledger w L) x)
  | (Err msg, x) => (Err msg, with_outside w x)
  end.

Definition MainBook_void (journalId reason : string) : IO X (result string SavedEntry) := fun w =>
  match void (M := M) journalId reason w.(ledger) w.(outside) with
  | (Ok (saved, L), x) => (Ok saved, with_outside (with_ledger w L) x)
  | (Err msg, x) => (Err msg, with_outside w x)
  end.

(** [persistAll] is not awaited: its result is lost. *)
Definition persistAndReturnEntry (entry : M) (hash revealedPreImage : option string)
    : IO X (Result LedgerJournal) :=
  savedEntry ←? catch_as UnknownLedgerError (entry_commit entry);
  let journalEntry := translateToLedgerJournal savedEntry in
  _ ← persistAll (map (fun id => {| persist_id := id; persist_hash := hash;
                                   persist_revealedPreImage := revealedPreImage |})
                    journalEntry.(transactionIds));
  mret (Ok journalEntry).

Definition recordIntraledger (description : string) (sender recipient : WalletDescriptor)
    (amt : AmountPair) (metadata debitMetadata creditMetadata internalMetadata : TxMetadata)
    : IO X (Result LedgerJournal) :=
  accountIds ←? staticAccountIds;
  persistAndReturnEntry
    (intraledger_entry (MainBook_entry (X := X)) accountIds description sender recipient amt
       metadata debitMetadata creditMetadata internalMetadata)
    (meta_string metadata "hash") None.

Definition recordSendOffChain (description : string) (sender : WalletDescriptor)
    (amountToDebitSender : AmountPair) (bankFee : option AmountPair)
    (metadata debitMetadata internalMetadata : TxMetadata) : IO X (Result LedgerJournal) :=
  accountIds ←? staticAccountIds;
  persistAndReturnEntry
    (send_entry (MainBook_entry (X := X)) true accountIds description sender amountToDebitSender bankFee
       metadata debitMetadata internalMetadata)
    (meta_string metadata "hash") None.

Definition recordSendOnChain (description : string) (sender : WalletDescriptor)
    (amountToDebitSender : AmountPair) (bankFee : option AmountPair)
    (metadata debitMetadata internalMetadata : TxMetadata) : IO X (Result LedgerJournal) :=
  accountIds ←? staticAccountIds;
  persistAndReturnEntry
    (send_entry (MainBook_entry (X := X)) false accountIds description sender amountToDebitSender bankFee
       metadata debitMetadata internalMetadata)
    (meta_string metadata "hash") None.

(** [txMetadata] is the hash and the pre-image that go with the transactions. *)
Definition recordReceiveOffChain (description : string) (recipient : WalletDescriptor)
    (amountToCreditReceiver : AmountPair) (bankFee : option AmountPair)
    (externalId : option LedgerExternalId) (metadata creditMetadata internalMetadata : TxMetadata)
    (hash revealedPreImage : option string) : IO X (Result LedgerJournal) :=
  accountIds ←? staticAccountIds;
  persistAndReturnEntry
    (receive_entry (MainBook_entry (X := X)) true accountIds description recipient amountToCreditReceiver
       bankFee externalId metadata creditMetadata internalMetadata)
    hash revealedPreImage.

Definition recordReceiveOnChain (description : string) (recipient : WalletDescriptor)
    (amountToCreditReceiver : AmountPair) (bankFee : option AmountPair)
    (metadata creditMetadata internalMetadata : TxMetadata)
    (hash revealedPreImage : option string) : IO X (Result LedgerJournal) :=
  accountIds ←? staticAccountIds;
  persistAndReturnEntry
    (receive_entry (MainBook_entry (X := X)) false accountIds description recipient amountToCreditReceiver
       bankFee None metadata creditMetadata internalMetadata)
    hash revealedPreImage.

Definition recordReceiveOnChainFeeReconciliation (estimatedFee actualFee : Amount)
    (metadata : TxMetadata) : IO X (Result LedgerJournal) :=
  accountIds ←? staticAccountIds;
  persistAndReturnEntry
    (fee_reconciliation_entry (MainBook_entry (X := X)) accountIds estimatedFee actualFee metadata)
    (meta_string metadata "hash") None.

Definition recordBankownerReconciliation (description : string) (amt : AmountPair)
    : IO X (Result LedgerJournal) :=
  accountIds ←? staticAccountIds;
  persistAndReturnEntry
    (bankowner_reconciliation_entry (MainBook_entry (X := X)) accountIds description amt) None None.

(** ** Reverting *)

(** [revertLightningPayment] of [send.ts] is the same function. *)
Definition recordLnSendRevert (journalId : string) (paymentHash : PaymentHash) : IO X (Result bool) :=
  savedEntry ←? catch_as UnknownLedgerError (MainBook_void journalId "Payment canceled");
  let journalEntry := translateToLedgerJournal savedEntry in
  _ ← persistAll (map (fun id => {| persist_id := id; persist_hash := Some paymentHash;
                                   persist_revealedPreImage := None |}) journalEntry.(transactionIds));
  mret (Ok true).

(** ** Updates *)

(** [Transaction.updateMany(filter, update)]: the number of documents that the update changed. *)
Definition updateMany (matches : Doc -> bool) (update : Doc -> Doc) : IO X (result string nat) :=
  db (L ← gets ledger;
      let changed := filter (fun d => matches d = true ∧ update d ≠ d) L in
      _ ← modify (fun w => with_ledger w (map (fun d => if matches d then update d else d) L));
      mret (length changed)).

Definition settlePendingLnSend (paymentHash : PaymentHash) : IO X (Result bool) :=
  modifiedCount ←? catch_as UnknownLedgerError
    (updateMany (fun d => bool_decide (d.(raw_hash) = Some paymentHash)) (set_pending false));
  mret (if (0 <? modifiedCount)%nat then Ok true else Err NoTransactionToSettleError).

(** [toObjectId] throws on a string that is no object id. *)
Definition with_objectId {A} (id : string) (m : IO X (result string A)) : IO X (result string A) :=
  if isValidObjectId (M := M) (X := X) id then m else mret (Err "BSONError").

Definition updateStateByRelatedJournal (journalId : string) (bundleCompletionState : LnPaymentState)
    : IO X (Result bool) :=
  modifiedCount ←? catch_as UnknownLedgerError (with_objectId journalId
    (updateMany (fun d => bool_decide (d.(raw_journal) = journalId)
                          || bool_decide (d.(doc_original_journal) = Some journalId)
                          || bool_decide (d.(doc_related_journal) = Some journalId))
       (set_state bundleCompletionState)));
  mret (if (0 <? modifiedCount)%nat then Ok true else Err NoTransactionToUpdateStateError).

Definition revertOnChainPayment (journalId : string) (description : option string) : IO X (Result bool) :=
  _ ←? catch_as UnknownLedgerError (with_objectId journalId
    (updateMany (fun d => bool_decide (d.(raw_journal) = journalId)) (set_pending false)));
  _ ←? catch_as UnknownLedgerError (MainBook_void journalId (default "Protocol error" description));
  mret (Ok true).

Definition setOnChainTxPayoutId (journalId payoutId : string) : IO X (Result bool) :=
  if negb (isValidObjectId (M := M) (X := X) journalId) then mret (Err (NoTransactionToUpdateError "")) else
  modifiedCount ←? catch_as UnknownLedgerError
    (updateMany (fun d => bool_decide (d.(raw_journal) = journalId)) (set_payout payoutId));
  mret (if (0 <? modifiedCount)%nat then Ok true else Err (NoTransactionToUpdateError "")).

(** ** Queries *)

(** [MainBook.ledger(filter)]; the ledger is kept newest first, the order of its results. *)
Definition MainBook_ledger (matches : Doc -> bool) : IO X (result string (list Doc)) :=
  db (gets (fun w => filter (fun d => matches d = true) w.(ledger))).

Definition in_wallets (walletIds : list WalletId) (d : Doc) : bool :=
  existsb (fun walletId => bool_decide (in_account (toLiabilitiesWalletId walletId) d)) walletIds.

Definition getTransactionsForWalletsByPaymentHash (walletIds : list WalletId) (paymentHash : PaymentHash)
    : IO X (Result (list LedgerTransaction)) :=
  results ←? catch_as UnknownLedgerError
    (MainBook_ledger (fun d => in_wallets walletIds d && bool_decide (d.(raw_hash) = Some paymentHash)));
  mret (Ok (map (fun d : Doc => translateToLedgerTx d) results)).

Definition updateLnPaymentState (walletIds : list WalletId) (paymentHash : PaymentHash)
    (journalId : string) : IO X (Result bool) :=
  txns ←? getTransactionsForWalletsByPaymentHash walletIds paymentHash;
  match determine txns with
  | Err _ => mret (Ok false)
  | Ok lnPaymentState => updateStateByRelatedJournal journalId lnPaymentState
  end.

Definition getTransactionsByHash (hash : string) : IO X (Result (list LedgerTransaction)) :=
  results ←? catch_as UnknownLedgerError
    (MainBook_ledger (fun d => bool_decide (in_account liabilitiesMainAccount d)
                               && bool_decide (d.(raw_hash) = Some hash)));
  mret (Ok (map (fun d : Doc => translateToLedgerTx d) results)).

Definition listPendingPayments (walletId : WalletId) : IO X (Result (list LedgerTransaction)) :=
  results ←? catch_as UnknownLedgerError
    (MainBook_ledger (fun d => in_wallets [walletId] d && bool_decide (d.(raw_type) = Payment)
                               && d.(raw_pending)));
  mret (Ok (map (fun d : Doc => translateToLedgerTx d) results)).

Definition isLnTxRecorded (paymentHash : PaymentHash) : IO X (Result bool) :=
  notPending ←? catch_as UnknownLedgerError
    (MainBook_ledger (fun d => negb d.(raw_pending) && bool_decide (d.(raw_hash) = Some paymentHash)));
  pending ←? catch_as UnknownLedgerError
    (MainBook_ledger (fun d => d.(raw_pending) && bool_decide (d.(raw_hash) = Some paymentHash)));
  mret (Ok ((0 <? length notPending)%nat && (length pending =? 0)%nat)).

(** The check of a negative balance only reports it; resolving the dealer's wallets may fail. *)
Definition getWalletBalance (walletId : WalletId) : IO X (Result number) :=
  balance ←? catch_as UnknownLedgerError
    (db (gets (fun w => MainBook_balance (M := M) (X := X) (toLiabilitiesWalletId walletId) w.(ledger))));
  _ ←? (if num_ltb balance (Number 0) then
          catch_as UnknownLedgerError
            (rejects getDealerUsdWalletId (fun usd =>
             rejects getDealerBtcWalletId (fun btc => mret (Ok tt))))
        else mret (Ok tt));
  mret (Ok balance).

Definition getWalletBalanceAmount (walletDescriptor : WalletDescriptor) : IO X (Result Amount) :=
  balance ←? catch_as UnknownLedgerError
    (db (gets (fun w => MainBook_balance (M := M) (X := X)
                          (toLiabilitiesWalletId walletDescriptor.(w_id)) w.(ledger))));
  _ ←? (if num_ltb balance (Number 0) then
          catch_as UnknownLedgerError
            (rejects getDealerBtcWalletId (fun btc =>
             rejects getDealerUsdWalletId (fun usd => mret (Ok tt))))
        else mret (Ok tt));
  mret (match balanceAmountFromNumber balance walletDescriptor.(w_currency) with
        | Err (BigIntFloatConversionError _) =>
            balanceAmountFromNumber (Math_floor balance) walletDescriptor.(w_currency)
        | balanceAmount => balanceAmount
        end).

End Ledger.

(** ** What the documents move *)

(** Debits less credits of a document, as [tx_net] of a transaction. *)
Definition doc_net (c : WalletCurrency) (d : Doc) : Z :=
  if bool_decide (d.(raw_currency) = c) then doc_debit d - doc_credit d else 0.

Definition book_net (c : WalletCurrency) (L : list Doc) : Z := sumZ (map (doc_net c) L).

Definition book_account_net (a : LedgerAccountId) (c : WalletCurrency) (L : list Doc) : Z :=
  book_net c (filter (fun d : Doc => d.(raw_accounts) = a) L).

Lemma book_net_app c L L' : book_net c (L ++ L') = book_net c L + book_net c L'.
Proof. unfold book_net. by rewrite map_app, sumZ_app. Qed.

Lemma book_account_net_app a c L L' :
  book_account_net a c (L ++ L') = book_account_net a c L + book_account_net a c L'.
Proof. unfold book_account_net. by rewrite filter_app, book_net_app. Qed.

Lemma currency_of_code_Some s c : currency_of_code s = Some c -> s = currency_code c.
Proof. unfold currency_of_code. repeat case_decide; naive_solver. Qed.

Lemma doc_of_fields memo j id dt t tx d : doc_of memo j id dt t tx = Some d ->
  d.(raw_accounts) = tx.(tx_account) ∧ d.(raw_journal) = j ∧ d.(doc_original_journal) = None ∧
  (∀ c, doc_net c d = tx_net c tx) ∧ d.(raw_hash) = meta_string tx.(tx_meta) "hash" ∧
  meta_bool tx.(tx_meta) "pending" = Some d.(raw_pending) ∧ meta_string tx.(tx_meta) "type" ≫= type_of_code = Some d.(raw_type) ∧
  d.(raw_vout) = meta_number tx.(tx_meta) "vout" ∧ d.(raw_payout_id) = meta_string tx.(tx_meta) "payout_id" ∧
  d.(raw_payee_addresses) = Some (default [] (meta_strings tx.(tx_meta) "payee_addresses")).
Proof.
  unfold doc_of. destruct (valid_username _); [|done]. cbn [negb].
  destruct (meta_string _ "type" ≫= _) eqn:Ht; [|done]. destruct (meta_bool _ "pending") as [p|] eqn:Hp; [|done].
  destruct (meta_string _ "currency") as [s|] eqn:Hs; [|done]. cbn [mbind option_bind].
  destruct (currency_of_code s) as [cur|] eqn:Hc; [|done]. intros [= <-]. cbn. split_and!; try done.
  apply currency_of_code_Some in Hc as ->. intros c. unfold doc_net, tx_net, in_currency. cbn.
  unfold meta_string in Hs. destruct (tx_meta tx !! "currency") as [[]|]; try done. injection Hs as ->.
  repeat case_bool_decide; try done; exfalso; simplify_eq; destruct cur, c; done.
Qed.

Lemma docs_nets memo j dt t txs new :
  Forall2 (fun tx d => ∃ id, doc_of memo j id dt t tx = Some d) txs new ->
  Forall (fun d : Doc => d.(raw_journal) = j) new ∧ (∀ c, book_net c new = net c txs) ∧
  ∀ a c, book_account_net a c new = account_net a c txs.
Proof.
  induction 1 as [|tx d txs new [id Hd] _ (IHj & IHn & IHa)]; [done|].
  apply doc_of_fields in Hd as (Ha & Hj & _ & Hn & _). split_and!; [by constructor|..].
  - intros c. unfold book_net, net, sumZ in *. cbn. by rewrite Hn, IHn.
  - intros a c. unfold book_account_net, account_net in *. rewrite !filter_cons, Ha.
    case_decide; [|apply IHa]. specialize (IHa a c). unfold book_net, net, sumZ in *. cbn. by rewrite Hn, IHa.
Qed.

(** A document is labelled as its transaction. *)
Record labelled (tx : MediciTransaction) (d : Doc) : Prop := {
  labelled_account : d.(raw_accounts) = tx.(tx_account);
  labelled_hash : d.(raw_hash) = meta_string tx.(tx_meta) "hash";
  labelled_pending : meta_bool tx.(tx_meta) "pending" = Some d.(raw_pending);
  labelled_type : meta_string tx.(tx_meta) "type" ≫= type_of_code = Some d.(raw_type);
  labelled_vout : d.(raw_vout) = meta_number tx.(tx_meta) "vout";
  labelled_payout : d.(raw_payout_id) = meta_string tx.(tx_meta) "payout_id";
  labelled_payees : d.(raw_payee_addresses) = Some (default [] (meta_strings tx.(tx_meta) "payee_addresses"));
}.
Definition labels : list MediciTransaction -> list Doc -> Prop := Forall2 labelled.

Lemma docs_labels memo j dt t txs new :
  Forall2 (fun tx d => ∃ id, doc_of memo j id dt t tx = Some d) txs new -> labels txs new.
Proof.
  intros H. eapply Forall2_impl; [exact H|]. intros tx d [id Hd]. by apply doc_of_fields in Hd as (Ha & _ & _ & _ & Hh & Hp & Ht & Hv & Hpo & Hpa).
Qed.

Lemma labels_pending txs new p : labels txs new ->
  Forall (fun tx => tx.(tx_meta) !! "pending" = Some (MBool p)) txs -> Forall (fun d : Doc => d.(raw_pending) = p) new.
Proof.
  induction 1 as [|tx d txs new [_ _ Hb _ _ _ _] _ IH]; inversion_clear 1 as [|? ? Hp]; constructor; [|by apply IH].
  unfold meta_bool in Hb. rewrite Hp in Hb. by injection Hb.
Qed.

Lemma labels_hash txs new h : labels txs new ->
  Forall (fun tx => tx.(tx_meta) !! "hash" = Some (MString h)) txs -> Forall (fun d : Doc => d.(raw_hash) = Some h) new.
Proof.
  induction 1 as [|tx d txs new [_ Hh _ _ _ _ _] _ IH]; inversion_clear 1 as [|? ? Hp]; constructor; [|by apply IH].
  unfold meta_string in Hh. by rewrite Hp in Hh.
Qed.

Section Specs.
Context {M X : Type} `{MediciEntry M} `{!MediciLaws M} `{!MediciBook M X} `{!MediciBookLaws M X}
  `{Database X} `{Resolvers X}.
Context (bankOwner dealerBtc dealerUsd : WalletId).
Implicit Types (w : World X) (e : M).

(** The ids of the bank's wallets have been resolved. *)
Definition bank_ready (b : BankWallets) : Prop :=
  b.(cacheBankOwnerWalletId) = Some bankOwner ∧ b.(cacheDealerBtcWalletId) = Some dealerBtc ∧
  b.(cacheDealerUsdWalletId) = Some dealerUsd ∧
  truthy bankOwner = true ∧ truthy dealerBtc = true ∧ truthy dealerUsd = true.

(** The ledger [L'] is [L] with the documents of the entry [e], under the new journal [j]. *)
Definition stored (e : M) (j : LedgerJournal) (L L' : list Doc) : Prop :=
  ∃ new, L' = new ++ L ∧ fresh_journal j.(journalId) L ∧
    Forall (fun d : Doc => d.(raw_journal) = j.(journalId)) new ∧
    (∀ c, book_net c new = net c (transactions e)) ∧
    (∀ a c, book_account_net a c new = account_net a c (transactions e)) ∧ labels (transactions e) new.

Lemma cached_hit get set r id w : get w.(bankWallets) = Some id -> truthy id = true ->
  cached get set r w = (Ok id, w).
Proof.
  intros Hg Ht. unfold cached, mbind, IO_bind, gets. rewrite Hg. unfold js_or_opt.
  cbn [truthy truthy_option]. by rewrite Ht.
Qed.

Lemma wp_staticAccountIds (Q : Result StaticAccountIds -> World X -> Prop) w :
  bank_ready w.(bankWallets) -> Q (Ok (ids bankOwner dealerBtc dealerUsd)) w -> wp staticAccountIds Q w.
Proof.
  intros (Hb & Hd & Hu & Tb & Td & Tu) HQ.
  unfold wp, staticAccountIds, catch_as, rejects, getBankOwnerWalletId, getDealerBtcWalletId,
    getDealerUsdWalletId, mbind, IO_bind.
  rewrite (cached_hit _ _ _ bankOwner), (cached_hit _ _ _ dealerBtc), (cached_hit _ _ _ dealerUsd) by done. exact HQ.
Qed.

(** Storing metadata leaves the ledger and the bank's wallets alone. *)
Lemma wp_persistAll l (Q : Result (list TxMetadataToPersist) -> World X -> Prop) w :
  (∀ r w', w'.(ledger) = w.(ledger) -> w'.(bankWallets) = w.(bankWallets) -> Q r w') ->
  wp (persistAll l) Q w.
Proof.
  intros HQ. unfold persistAll. destruct l as [|m l]; [by apply wp_ret, HQ|].
  apply wp_catch, wp_db; [intros; by apply HQ|]. intros x. apply wp_bind, wp_modify, wp_ret. by apply HQ.
Qed.

Lemma wp_persistAndReturnEntry e hash pre (Q : Result LedgerJournal -> World X -> Prop) w :
  (∀ j w', stored e j w.(ledger) w'.(ledger) -> w'.(bankWallets) = w.(bankWallets) -> Q (Ok j) w') ->
  (∀ err w', w'.(ledger) = w.(ledger) -> w'.(bankWallets) = w.(bankWallets) -> Q (Err err) w') ->
  wp (persistAndReturnEntry e hash pre) Q w.
Proof.
  intros HOk HErr. unfold persistAndReturnEntry. apply wp_bind_or, wp_catch. unfold wp at 1, entry_commit.
  destruct (commit e _ _) as [[[saved L']|msg] x] eqn:E; cbn [fst snd]; [|by apply HErr].
  apply commit_stores in E as (Hf & memo & dt & t & new & -> & Hd).
  pose proof (docs_labels _ _ _ _ _ _ Hd) as Hp. apply docs_nets in Hd as (Hj & Hn & Ha).
  apply wp_bind, wp_persistAll. intros r w' Hl Hb. apply wp_ret, HOk; [|by rewrite Hb].
  rewrite Hl. by exists new.
Qed.

(** What a recording function does to the ledger: it stores documents that balance and satisfy
    [P], under a new journal, or it fails and stores nothing. *)
Definition posts (P : list Doc -> Prop) w (r : Result LedgerJournal) (w' : World X) : Prop :=
  match r with
  | Ok j => ∃ new, w'.(ledger) = new ++ w.(ledger) ∧ fresh_journal j.(journalId) w.(ledger) ∧
      Forall (fun d : Doc => d.(raw_journal) = j.(journalId)) new ∧ (∀ c, book_net c new = 0) ∧ P new
  | Err _ => w'.(ledger) = w.(ledger)
  end.

Lemma wp_posts (entry : StaticAccountIds -> M) hash pre (P : list Doc -> Prop) w :
  bank_ready w.(bankWallets) -> balanced (entry (ids bankOwner dealerBtc dealerUsd)) ->
  (∀ new, (∀ a c, book_account_net a c new
                  = account_net a c (transactions (entry (ids bankOwner dealerBtc dealerUsd)))) -> P new) ->
  wp (accountIds ←? staticAccountIds; persistAndReturnEntry (entry accountIds) hash pre) (posts P w) w.
Proof.
  intros Hb Hbal HP. apply wp_bind_or, wp_staticAccountIds; [done|]. apply wp_persistAndReturnEntry; [|done].
  intros j w' (new & Hl & Hf & Hj & Hn & Ha & _) _. exists new. split_and!; try done; [|by apply HP].
  intros c. rewrite Hn. apply Hbal.
Qed.

(** C19. Recording an intraledger payment either fails and leaves the ledger as it was, or adds
    documents under a journal that is new to the ledger; they balance in both currencies, debit the
    sender by the amount in their currency and credit the recipient by the amount in theirs. *)
Theorem recordIntraledger_balanced w description sender recipient amt md dmd cmd imd
    (Hb : bank_ready w.(bankWallets)) (Hamt : valid_pair amt) (Hne : sender.(w_id) ≠ recipient.(w_id))
    (Hs : user_wallet bankOwner dealerBtc dealerUsd sender)
    (Hr : user_wallet bankOwner dealerBtc dealerUsd recipient) :
  wp (recordIntraledger (M := M) description sender recipient amt md dmd cmd imd)
    (posts (fun new =>
       book_account_net (toLedgerAccountId sender.(w_id)) sender.(w_currency) new
         = amount_in amt sender.(w_currency) ∧
       book_account_net (toLedgerAccountId recipient.(w_id)) recipient.(w_currency) new
         = - amount_in amt recipient.(w_currency)) w) w.
Proof.
  destruct (intraledger_nets (MainBook_entry (X := X)) bankOwner dealerBtc dealerUsd entry_empty
    description sender recipient amt md dmd cmd imd Hamt Hne Hs Hr) as (Hbal & HS & HR).
  apply (wp_posts (fun ids => intraledger_entry _ ids _ _ _ _ _ _ _ _)); [done..|].
  intros new Hnew. by rewrite !Hnew.
Qed.

(** C22. Recording a Lightning or on-chain payment either fails and leaves the ledger as it was, or
    adds balanced documents under a new journal, which debit the sender by the amount charged and
    credit the Lightning or on-chain account by the sats charged less the bank fee. *)
Theorem recordSend_balanced w (offChain : bool) description sender amt fee md dmd imd
    (Hb : bank_ready w.(bankWallets)) (Hamt : valid_pair amt) (Hfee : valid_fee fee)
    (Hs : user_wallet bankOwner dealerBtc dealerUsd sender) :
  let record := if offChain then recordSendOffChain (M := M) (X := X) else recordSendOnChain (M := M) in
  wp (record description sender amt fee md dmd imd)
    (posts (fun new =>
       book_account_net (toLedgerAccountId sender.(w_id)) sender.(w_currency) new
         = amount_in amt sender.(w_currency) ∧
       book_account_net (if offChain then lndLedgerAccountId else onChainLedgerAccountId) Btc new
         = - (amt.(btc).(amount) - (default no_fee fee).(btc).(amount))) w) w.
Proof.
  destruct (send_nets (MainBook_entry (X := X)) bankOwner dealerBtc dealerUsd entry_empty
    offChain description sender amt fee md dmd imd Hamt Hfee Hs) as (Hbal & HS & HA).
  destruct offChain; (apply (wp_posts (fun ids => send_entry _ _ ids _ _ _ _ _ _ _)); [done..|]);
    intros new Hnew; by rewrite !Hnew.
Qed.

(** C23. Recording a Lightning or on-chain receipt either fails and leaves the ledger as it was, or
    adds balanced documents under a new journal, which credit the recipient by the amount and debit
    the Lightning or on-chain account by the sats of the amount and of the bank fee. *)
Theorem recordReceive_balanced w (offChain : bool) description recipient amt fee ext md cmd imd hash pre
    (Hb : bank_ready w.(bankWallets)) (Hamt : valid_pair amt) (Hfee : valid_fee fee)
    (Hr : user_wallet bankOwner dealerBtc dealerUsd recipient)
    (Hsum : ∀ c, amount_in amt c + amount_in (default no_fee fee) c < 2 ^ 53) :
  let record := if offChain
    then fun md => recordReceiveOffChain (M := M) (X := X) description recipient amt fee ext md
    else fun md => recordReceiveOnChain (M := M) description recipient amt fee md in
  wp (record md cmd imd hash pre)
    (posts (fun new =>
       book_account_net (toLedgerAccountId recipient.(w_id)) recipient.(w_currency) new
         = - amount_in amt recipient.(w_currency) ∧
       book_account_net (if offChain then lndLedgerAccountId else onChainLedgerAccountId) Btc new
         = amt.(btc).(amount) + (default no_fee fee).(btc).(amount)) w) w.
Proof.
  destruct (receive_nets (MainBook_entry (X := X)) bankOwner dealerBtc dealerUsd entry_empty
    offChain description recipient amt fee (if offChain then ext else None) md cmd imd Hamt Hfee Hr Hsum)
    as (Hbal & HR & HA).
  destruct offChain; (apply (wp_posts (fun ids => receive_entry _ _ ids _ _ _ _ _ _ _ _)); [done..|]);
    intros new Hnew; by rewrite !Hnew.
Qed.

(** ** Reverting and settling *)

Definition of_journal (j : string) (L : list Doc) : list Doc := filter (fun d : Doc => d.(raw_journal) = j) L.

Lemma reverse_doc_net memo j id dt t d c : doc_net c (reverse_doc memo j id dt t d) = - doc_net c d.
Proof. unfold doc_net. cbn. case_bool_decide; unfold doc_debit, doc_credit; cbn; lia. Qed.

(** [new] reverts the documents [old] of the journal [j]. *)
Definition reverts (j : string) (old new : list Doc) : Prop :=
  Forall2 (fun o d : Doc => d.(raw_pending) = o.(raw_pending) ∧ d.(raw_hash) = o.(raw_hash) ∧
             d.(raw_accounts) = o.(raw_accounts) ∧ d.(doc_original_journal) = Some j ∧
             ∀ c, doc_net c d = - doc_net c o) old new.

Lemma reverts_nets j old new : reverts j old new ->
  (∀ c, book_net c new = - book_net c old) ∧
  ∀ a c, book_account_net a c new = - book_account_net a c old.
Proof.
  unfold book_account_net, book_net, sumZ.
  induction 1 as [|o d old new (_ & _ & Ha & _ & Hn) _ [IHn IHa]]; [done|]. split.
  - intros c. cbn. rewrite Hn, IHn. lia.
  - intros a c. rewrite !filter_cons, Ha. case_decide; [|apply IHa]. cbn. rewrite Hn, IHa. lia.
Qed.

Lemma reverts_pending j old new : reverts j old new ->
  Forall (fun d : Doc => d.(raw_pending) = false) old -> Forall (fun d : Doc => d.(raw_pending) = false) new.
Proof. induction 1 as [|o d old new [Hp _] _ IH]; inversion_clear 1; constructor; [by rewrite Hp|auto]. Qed.

Lemma reverse_docs_reverts memo j' dt t j old new :
  Forall (fun d : Doc => d.(raw_journal) = j) old ->
  Forall2 (fun o d => ∃ id, d = reverse_doc memo j' id dt t o) old new ->
  Forall (fun d : Doc => d.(raw_journal) = j') new ∧ reverts j old new.
Proof.
  intros Ho Hd. induction Hd as [|o d old new [id ->] _ IH]; [by split; constructor|].
  inversion_clear Ho. destruct IH; [done|]. split; constructor; try done.
  cbn. split_and!; try done; [congruence|]. intros c. apply reverse_doc_net.
Qed.

Lemma wp_void j reason (Q : result string SavedEntry -> World X -> Prop) w :
  (∀ s w' new, w'.(ledger) = new ++ w.(ledger) -> w'.(bankWallets) = w.(bankWallets) ->
     fresh_journal s.(saved_id) w.(ledger) -> Forall (fun d : Doc => d.(raw_journal) = s.(saved_id)) new ->
     reverts j (of_journal j w.(ledger)) new -> Q (Ok s) w') ->
  (∀ msg w', w'.(ledger) = w.(ledger) -> w'.(bankWallets) = w.(bankWallets) -> Q (Err msg) w') ->
  wp (MainBook_void (M := M) j reason) Q w.
Proof.
  intros HOk HErr. unfold wp, MainBook_void.
  destruct (void j reason _ _) as [[[saved L']|msg] x] eqn:E; cbn [fst snd]; [|by apply HErr].
  apply void_stores in E as (Hf & memo & dt & t & new & -> & Hd).
  apply (reverse_docs_reverts _ _ _ _ j) in Hd as [Hj Hr]; [by apply (HOk saved _ new)|].
  apply Forall_forall. intros d Hin. by apply list_elem_of_filter in Hin as [??].
Qed.

(** Reverting a Lightning send either fails and leaves the ledger as it was, or adds, under a
    new journal, documents that undo those of the reverted journal: for every account and currency
    their net is the opposite of that journal's. *)
Theorem recordLnSendRevert_undoes w j paymentHash :
  wp (recordLnSendRevert (M := M) j paymentHash) (fun r w' =>
    match r with
    | Ok _ => ∃ j' new, w'.(ledger) = new ++ w.(ledger) ∧ fresh_journal j' w.(ledger) ∧
        Forall (fun d : Doc => d.(raw_journal) = j' ∧ d.(doc_original_journal) = Some j) new ∧
        ∀ a c, book_account_net a c new = - book_account_net a c (of_journal j w.(ledger))
    | Err _ => w'.(ledger) = w.(ledger)
    end) w.
Proof.
  unfold recordLnSendRevert. apply wp_bind_or, wp_catch, wp_void; [|done].
  intros s w1 new Hl _ Hf Hj Hr. apply wp_bind, wp_persistAll. intros r w' Hl' _. apply wp_ret.
  exists s.(saved_id), new. rewrite Hl', Hl. split_and!; try done; [|by apply (reverts_nets j)].
  clear Hl Hf. revert Hj. induction Hr as [|o d old new (_ & _ & _ & ? & _) _ IH]; inversion_clear 1; constructor; auto.
Qed.

Lemma wp_updateMany (f : Doc -> bool) (u : Doc -> Doc) (Q : result string nat -> World X -> Prop) w :
  (∀ msg w', w'.(ledger) = w.(ledger) -> w'.(bankWallets) = w.(bankWallets) -> Q (Err msg) w') ->
  (∀ w', w'.(ledger) = map (fun d => if f d then u d else d) w.(ledger) ->
     w'.(bankWallets) = w.(bankWallets) ->
     Q (Ok (length (filter (fun d => f d = true ∧ u d ≠ d) w.(ledger)))) w') ->
  wp (updateMany f u) Q w.
Proof.
  intros HErr HOk. apply wp_db; [intros; by apply HErr|]. intros x.
  apply wp_bind, wp_gets, wp_bind, wp_modify, wp_ret. by apply HOk.
Qed.

(** An update that changes no document leaves the ledger as it is. *)
Lemma update_count (f : Doc -> bool) (u : Doc -> Doc) L :
  length (filter (fun d => f d = true ∧ u d ≠ d) L) = 0%nat ↔ map (fun d => if f d then u d else d) L = L.
Proof.
  induction L as [|d L IH]; [done|]. cbn [map]. rewrite filter_cons. case_decide as Hd.
  - destruct Hd as [-> Hne]. split; [done|]. intros E. injection E. by intros.
  - rewrite IH. assert ((if f d then u d else d) = d) as ->.
    { destruct (f d) eqn:E; [|done]. destruct (decide (u d = d)); [done|]. by destruct Hd. }
    split; [by intros ->|]. intros E. by injection E.
Qed.

Lemma set_pending_same d : set_pending false d = d ↔ d.(raw_pending) = false.
Proof.
  split; [intros E; by rewrite <- E|]. destruct d as [[] ? ? ?]. cbn. intros ->. reflexivity.
Qed.

Definition pending_with (h : PaymentHash) (d : Doc) : Prop := d.(raw_hash) = Some h ∧ d.(raw_pending) = true.
#[export] Instance pending_with_dec h d : Decision (pending_with h d).
Proof. unfold pending_with. apply _. Defined.

Definition settled_doc (h : PaymentHash) (d : Doc) : Doc :=
  if bool_decide (d.(raw_hash) = Some h) then set_pending false d else d.

Lemma settled_none h L : filter (pending_with h) L = [] -> map (settled_doc h) L = L.
Proof.
  intros Hnone. rewrite <- (map_id L) at 2. apply map_ext_in. intros d Hin. unfold settled_doc.
  case_bool_decide as Hh; [|done]. apply set_pending_same. destruct (raw_pending d) eqn:Hp; [|done].
  exfalso. apply (filter_nil_not_elem_of _ _ d Hnone); [done|]. by apply list_elem_of_In.
Qed.

(** C29. Unless the database fails, settling a Lightning payment succeeds exactly when some document
    of its hash is pending: then the documents of the hash are no longer pending and are otherwise
    unchanged, as are all the others; else the ledger stays as it was and the call reports that
    there is nothing to settle.  So a payment settles at most once. *)
Theorem settlePendingLnSend_once w h :
  wp (settlePendingLnSend h) (fun r w' =>
    match r with
    | Ok _ => filter (pending_with h) w.(ledger) ≠ [] ∧ filter (pending_with h) w'.(ledger) = [] ∧
        w'.(ledger) = map (settled_doc h) w.(ledger)
    | Err NoTransactionToSettleError => filter (pending_with h) w.(ledger) = [] ∧ w'.(ledger) = w.(ledger)
    | Err _ => w'.(ledger) = w.(ledger)
    end) w.
Proof.
  unfold settlePendingLnSend. apply wp_bind_or, wp_catch, wp_updateMany; [done|]. intros w' Hl _. apply wp_ret.
  change (map _ _) with (map (settled_doc h) w.(ledger)) in Hl.
  erewrite (list_filter_iff _ (pending_with h)).
  2: { intros d. rewrite bool_decide_eq_true, set_pending_same. unfold pending_with. destruct (raw_pending d); naive_solver. }
  destruct (filter (pending_with h) w.(ledger)) eqn:E; cbn [length].
  - split; [done|]. by rewrite Hl, settled_none.
  - split_and!; [done| |done]. rewrite Hl. apply filter_none, Forall_forall. intros d2 Hd (Hh & Hp).
    apply list_elem_of_fmap in Hd as (d' & -> & _). revert Hh Hp. unfold settled_doc. by case_bool_decide.
Qed.

Definition unpend (j : string) (d : Doc) : Doc :=
  if bool_decide (d.(raw_journal) = j) then set_pending false d else d.

Lemma unpend_nets j L : (∀ c, book_net c (map (unpend j) L) = book_net c L) ∧
  ∀ a c, book_account_net a c (map (unpend j) L) = book_account_net a c L.
Proof.
  assert (Hu : ∀ d, raw_accounts (unpend j d) = raw_accounts d ∧ ∀ c, doc_net c (unpend j d) = doc_net c d).
  { intros d. unfold unpend. by case_bool_decide. }
  unfold book_account_net, book_net, sumZ. induction L as [|d L [IHn IHa]]; [done|].
  destruct (Hu d) as [Ha Hn]. split.
  - intros c. cbn. by rewrite Hn, IHn.
  - intros a c. cbn [map]. rewrite !filter_cons, Ha. case_decide; [|apply IHa]. cbn. by rewrite Hn, IHa.
Qed.

Lemma unpend_journal j L : of_journal j (map (unpend j) L) = map (unpend j) (of_journal j L).
Proof.
  unfold of_journal. induction L as [|d L IH]; [done|]. cbn [map]. rewrite !filter_cons.
  assert (raw_journal (unpend j d) = raw_journal d) as -> by (unfold unpend; by case_bool_decide).
  case_decide; cbn; by rewrite IH.
Qed.

Lemma wp_revertOnChainPayment (w : World X) j description (Q : Result bool -> World X -> Prop) :
  (∀ w' new, w'.(bankWallets) = w.(bankWallets) -> w'.(ledger) = new ++ map (unpend j) w.(ledger) ->
     reverts j (map (unpend j) (of_journal j w.(ledger))) new -> Q (Ok true) w') ->
  (∀ (e : ApplicationError) w', w'.(bankWallets) = w.(bankWallets) ->
     w'.(ledger) = w.(ledger) ∨ w'.(ledger) = map (unpend j) w.(ledger) -> Q (Err e) w') ->
  wp (revertOnChainPayment (M := M) j description) Q w.
Proof.
  intros HOk HErr. unfold revertOnChainPayment, with_objectId. apply wp_bind_or, wp_catch.
  destruct (isValidObjectId j); [|by apply wp_ret, HErr; [|left]].
  apply wp_updateMany; [by intros; apply HErr; [|left]|]. intros w1 Hl1 Hb1.
  change (map _ _) with (map (unpend j) w.(ledger)) in Hl1.
  apply wp_bind_or, wp_catch, wp_void; [|intros msg w' Hl Hb; apply HErr; [congruence|right; congruence]].
  intros s w' new Hl Hb _ _ Hr. rewrite Hl1 in Hl, Hr. rewrite unpend_journal in Hr.
  apply wp_ret, (HOk _ new); [congruence|done..].
Qed.

(** C30. Reverting an on-chain payment that succeeds leaves no document of the journal, nor of the
    one that reverts it, pending, and moves back on every account exactly what the journal moved.
    When it fails, no money has moved: the ledger is as it was, or the documents of the journal are
    no longer pending. *)
Theorem revertOnChainPayment_undoes w j description :
  wp (revertOnChainPayment (M := M) j description) (fun r w' =>
    match r with
    | Ok _ => ∃ new, w'.(ledger) = new ++ map (unpend j) w.(ledger) ∧
        Forall (fun d : Doc => d.(raw_pending) = false) (new ++ of_journal j (map (unpend j) w.(ledger))) ∧
        ∀ a c, book_account_net a c w'.(ledger)
               = book_account_net a c w.(ledger) - book_account_net a c (of_journal j w.(ledger))
    | Err _ => w'.(ledger) = w.(ledger) ∨ w'.(ledger) = map (unpend j) w.(ledger)
    end) w.
Proof.
  apply wp_revertOnChainPayment; [|done]. intros w' new _ Hl Hr. exists new. split; [done|].
  rewrite unpend_journal. split.
  - assert (Hold : Forall (fun d : Doc => d.(raw_pending) = false) (map (unpend j) (of_journal j w.(ledger)))).
    { apply Forall_forall. intros d2 Hd. apply list_elem_of_fmap in Hd as (d & -> & Hd).
      apply list_elem_of_filter in Hd as [Hj _]. unfold unpend. by rewrite bool_decide_true. }
    apply Forall_app. split; [by eapply reverts_pending|done].
  - intros a c. rewrite Hl, book_account_net_app. destruct (reverts_nets _ _ _ Hr) as [_ ->].
    rewrite !(proj2 (unpend_nets j _)). lia.
Qed.

End Specs.

(** ** A book that keeps lists *)
Module BookExamples.

Fixpoint store (memo j : string) (t : Z) (i : nat) (txs : list MediciTransaction) : option (list Doc) :=
  match txs with
  | [] => Some []
  | tx :: txs => d ← doc_of memo j (j ++ "-" ++ pretty i)%string t t tx; ds ← store memo j t (S i) txs; Some (d :: ds)
  end.

Fixpoint restore (memo j : string) (t : Z) (i : nat) (ds : list Doc) : list Doc :=
  match ds with
  | [] => []
  | d :: ds => reverse_doc memo j (j ++ "-" ++ pretty i)%string t t d :: restore memo j t (S i) ds
  end.

(** The outside: the number of journals saved. *)
Definition next (n : nat) : string := ("journal-" ++ pretty n)%string.

Definition saved_as (j : string) (new : list Doc) : SavedEntry :=
  {| saved_id := j; saved_voided := None; saved_transactions := omap (fun d : Doc => d.(raw_id)) new |}.

#[export] Instance fresh_journal_dec j L : Decision (fresh_journal j L).
Proof. unfold fresh_journal. apply _. Defined.

#[export] Instance list_book : MediciBook (list MediciTransaction) nat := {
  MainBook_entry _ := [];
  commit e L n :=
    match store "" (next n) (Z.of_nat n) 0 e with
    | Some new => if decide (fresh_journal (next n) L) then (Ok (saved_as (next n) new, new ++ L), S n)
                  else (Err "duplicate journal", n)
    | None => (Err "validation failed", n)
    end;
  void j reason L n :=
    let new := restore reason (next n) (Z.of_nat n) 0 (filter (fun d : Doc => d.(raw_journal) = j) L) in
    if decide (fresh_journal (next n) L) then (Ok (saved_as (next n) new, new ++ L), S n)
    else (Err "duplicate journal", n);
  MainBook_balance a L := Number (book_balance a L);
  isValidObjectId _ := true;
}.

Lemma store_docs memo j t i txs new : store memo j t i txs = Some new ->
  Forall2 (fun tx d => ∃ id, doc_of memo j id t t tx = Some d) txs new.
Proof.
  revert i new. induction txs as [|tx txs IH]; intros i new; cbn; [intros [= <-]; constructor|].
  destruct (doc_of _ _ _ _ _ tx) as [d|] eqn:Ed; [|done]. cbn.
  destruct (store _ _ _ _ txs) as [ds|] eqn:Es; [|done]. intros [= <-]. constructor; eauto.
Qed.

Lemma restore_docs memo j t i ds :
  Forall2 (fun o d => ∃ id, d = reverse_doc memo j id t t o) ds (restore memo j t i ds).
Proof. revert i. induction ds; intros i; constructor; eauto. Qed.

#[export] Instance list_book_laws : MediciBookLaws (list MediciTransaction) nat.
Proof.
  split; [done| | |done].
  - intros e L x s L' x' E. cbn in E. destruct (store _ _ _ _ _) as [new|] eqn:Es; [|done].
    case_decide; [|done]. injection E as <- <- <-. split; [done|]. eexists _, _, _, new. split; [done|].
    by eapply store_docs.
  - intros j reason L x s L' x' E. cbn in E. case_decide; [|done]. injection E as <- <- <-.
    split; [done|]. eexists _, _, _, _. split; [done|]. apply restore_docs.
Qed.

(** A database that never fails. *)
#[export] Instance steady_db : Database nat := { db_fault n := (None, n); Date_now n := (Z.of_nat n, n) }.
#[export] Instance fixed_wallets : Resolvers nat := {
  dealerBtcResolver n := (Ok "dealer-btc", n); dealerUsdResolver n := (Ok "dealer-usd", n);
  bankOwnerResolver n := (Ok "bank", n); funderResolver n := (Ok "funder", n);
}.

Definition start : World nat :=
  mkWorld [] [] [] [] [] [] [] [] [] []
    (mkBankWallets (Some "dealer-btc") (Some "dealer-usd") (Some "bank") (Some "funder")) 0%nat.

Lemma start_ready : bank_ready "bank" "dealer-btc" "dealer-usd" start.(bankWallets).
Proof. by repeat split. Qed.

Definition payment_md : TxMetadata :=
  <["type" := MString "payment"]> (<["pending" := MBool true]> (<["hash" := MString "hash"]> ∅)).

Abbreviation L0 := (list MediciTransaction).

(** The recordings succeed here, so the success branch of the claims is the one that applies. *)
Definition succeeds {A} (m : IO nat (Result A)) : bool :=
  match (m start).1 with Ok _ => true | Err _ => false end.

Lemma recordIntraledger_balanced_witness :
  let m := recordIntraledger (M := L0) "" LedgerExamples.alice LedgerExamples.bob LedgerExamples.amt
             payment_md ∅ ∅ ∅ in
  succeeds m = true ∧ wp m (posts (fun new =>
    book_account_net "Liabilities:alice" Usd new = 1500 ∧ book_account_net "Liabilities:bob" Btc new = -50000)
    start) start.
Proof.
  split; [vm_compute; reflexivity|].
  exact (recordIntraledger_balanced "bank" "dealer-btc" "dealer-usd" start "" LedgerExamples.alice
    LedgerExamples.bob LedgerExamples.amt payment_md ∅ ∅ ∅ start_ready LedgerExamples.amt_valid
    ltac:(discriminate) LedgerExamples.user_alice LedgerExamples.user_bob).
Defined.

Lemma recordSend_balanced_witness :
  let m := recordSendOffChain (M := L0) "" LedgerExamples.alice LedgerExamples.amt LedgerExamples.fee
             payment_md ∅ ∅ in
  succeeds m = true ∧ wp m (posts (fun new =>
    book_account_net "Liabilities:alice" Usd new = 1500 ∧
    book_account_net lndLedgerAccountId Btc new = -49800) start) start.
Proof.
  split; [vm_compute; reflexivity|].
  exact (recordSend_balanced "bank" "dealer-btc" "dealer-usd" start true "" LedgerExamples.alice
    LedgerExamples.amt LedgerExamples.fee payment_md ∅ ∅ start_ready LedgerExamples.amt_valid
    LedgerExamples.fee_valid LedgerExamples.user_alice).
Defined.

Lemma recordReceive_balanced_witness :
  let m := recordReceiveOnChain (M := L0) "" LedgerExamples.bob LedgerExamples.amt LedgerExamples.fee
             payment_md ∅ ∅ None None in
  succeeds m = true ∧ wp m (posts (fun new =>
    book_account_net "Liabilities:bob" Btc new = -50000 ∧
    book_account_net onChainLedgerAccountId Btc new = 50200) start) start.
Proof.
  split; [vm_compute; reflexivity|].
  exact (recordReceive_balanced "bank" "dealer-btc" "dealer-usd" start false "" LedgerExamples.bob
    LedgerExamples.amt LedgerExamples.fee None payment_md ∅ ∅ None None start_ready
    LedgerExamples.amt_valid LedgerExamples.fee_valid LedgerExamples.user_bob
    ltac:(intros []; reflexivity)).
Defined.

(** Alice's payment, recorded. *)
Definition sent : World nat :=
  (recordSendOffChain (M := L0) "" LedgerExamples.alice LedgerExamples.amt LedgerExamples.fee
     payment_md ∅ ∅ start).2.

Lemma recordLnSendRevert_undoes_witness :
  book_account_net "Liabilities:alice" Usd sent.(ledger) = 1500 ∧
  book_account_net "Liabilities:alice" Usd (recordLnSendRevert (M := L0) "journal-0" "hash" sent).2.(ledger) = 0.
Proof.
  split; [vm_compute; reflexivity|].
  assert (Hok : (recordLnSendRevert (M := L0) "journal-0" "hash" sent).1 = Ok true) by (vm_compute; reflexivity).
  destruct (wp_run _ _ _ _ (recordLnSendRevert_undoes (M := L0) sent "journal-0" "hash") Hok) as (j' & new & Hl & _ & _ & Hn).
  etransitivity; [exact (f_equal (book_account_net "Liabilities:alice" Usd) Hl)|].
  etransitivity; [apply book_account_net_app|]. etransitivity; [exact (f_equal (fun z => z + _) (Hn _ _))|].
  vm_compute. reflexivity.
Defined.

Lemma revertOnChainPayment_undoes_witness :
  book_account_net "Liabilities:alice" Usd (revertOnChainPayment (M := L0) "journal-0" None sent).2.(ledger) = 0.
Proof.
  assert (Hok : (revertOnChainPayment (M := L0) "journal-0" None sent).1 = Ok true) by (vm_compute; reflexivity).
  destruct (wp_run _ _ _ _ (revertOnChainPayment_undoes (M := L0) sent "journal-0" None) Hok) as (new & _ & _ & Hn).
  etransitivity; [exact (Hn "Liabilities:alice" Usd)|]. vm_compute. reflexivity.
Defined.

End BookExamples.
