(* ===== verification/LedgerService.v ===== *)
(** * The queries of the ledger service

    Models more functions of [services/ledger]: the lookups of transaction metadata, the queries of
    [index.ts] other than the paginated ones (Pages), and the functions of
    [facade/onchain-send.ts] and [facade/onchain-reconcile.ts] that follow an on-chain payout.  An
    exception that no function on the way catches is the error [JsThrow]. *)

From S2P Require Import Prelude JsNumber Shared Prices Fees Lightning PaymentFlow LedgerEntry TxMetadata.
From S2P Require Import LedgerTx TxHistory Limits Utils World LedgerBook.

Section Service.
Context {M X : Type} `{MediciEntry M} `{!MediciBook M X} `{Database X} `{Resolvers X}.

Definition uncaught {A} (m : IO X (result string A)) : IO X (Result A) := catch_as JsThrow m.

(** ** The metadata of transactions *)

Definition updateByHash (hash : string) (revealedPreImage : option string) : IO X (Result bool) :=
  modifiedCount ←? catch_as RepositoryError (db
    (l ← gets txMetadata;
     let matches m := bool_decide (m.(persist_hash) = Some hash) in
     let update m := {| persist_id := m.(persist_id); persist_hash := m.(persist_hash);
                        persist_revealedPreImage :=
                          match revealedPreImage with Some p => Some p | None => m.(persist_revealedPreImage) end |} in
     let changed := filter (fun m => matches m = true ∧
                      (update m).(persist_revealedPreImage) ≠ m.(persist_revealedPreImage)) l in
     _ ← modify (fun w => with_txMetadata w (map (fun m => if matches m then update m else m) l));
     mret (length changed)));
  mret (if (0 <? modifiedCount)%nat then Ok true else Err (NoTransactionToUpdateError "")).

Definition find_metadata (l : list TxMetadataToPersist) (id : string) : option TxMetadataToPersist :=
  head (filter (fun m => m.(persist_id) = id) l).

Definition findById (id : string) : IO X (Result TxMetadataToPersist) :=
  result ←? catch_as RepositoryError (with_objectId (M := M) id (db (gets (fun w => find_metadata w.(txMetadata) id))));
  mret (match result with
        | None => Err CouldNotFindTransactionMetadataError
        | Some m => Ok (translateToLedgerTxMetadata m)
        end).

Definition findByHash (hash : string) : IO X (Result TxMetadataToPersist) :=
  result ←? catch_as RepositoryError
    (db (gets (fun w => head (filter (fun m => m.(persist_hash) = Some hash) w.(txMetadata)))));
  mret (match result with
        | None => Err CouldNotFindTransactionMetadataError
        | Some m => Ok (translateToLedgerTxMetadata m)
        end).

(** The aggregation of [listByIds]: the records of the ids, ordered by the first place of their id
    in the list; an id has one record. *)
Definition metadata_in_order (l : list TxMetadataToPersist) (ids : list string) : list TxMetadataToPersist :=
  omap (find_metadata l) (js_set ids).

(** The result for the records [result] that were found. *)
Definition listByIds_result (ids : list string) (result : list TxMetadataToPersist)
    : list (Result TxMetadataToPersist) :=
  if negb (length result =? length ids)%nat then
    map (fun id => match find_metadata result id with
                   | Some txn => Ok (translateToLedgerTxMetadata txn)
                   | None => Err CouldNotFindTransactionMetadataError
                   end) ids
  else map (fun txn => Ok (translateToLedgerTxMetadata txn)) result.

(** The ids that each of the two exceptions recorded for a mismatch is about. *)
Definition idsSetDiff (ids : list string) (result : list TxMetadataToPersist) : list string :=
  ModifiedSet_difference (js_set ids) (js_set (map persist_id result)).
Definition resultIdsSetDiff (ids : list string) (result : list TxMetadataToPersist) : list string :=
  ModifiedSet_difference (js_set ids) (js_set ids).

Definition listByIds (ids : list string) : IO X (Result (list (Result TxMetadataToPersist))) :=
  if forallb (isValidObjectId (M := M) (X := X)) ids then
    result ←? catch_as RepositoryError (db (gets (fun w => metadata_in_order w.(txMetadata) ids)));
    mret (Ok (listByIds_result ids result))
  else mret (Err (JsThrow "BSONError")).

(** [{ ...tx, ...txMetadata }]: of the fields of [LedgerTransaction], the spread sets the id, which
    is the same, and the pre-image. *)
Definition with_preImage (preImage : option string) (tx : LedgerTransaction) : LedgerTransaction := {|
  lt_id := tx.(lt_id); lt_walletId := tx.(lt_walletId); lt_type := tx.(lt_type);
  lt_debit := tx.(lt_debit); lt_credit := tx.(lt_credit); lt_currency := tx.(lt_currency);
  lt_timestamp := tx.(lt_timestamp); lt_pendingConfirmation := tx.(lt_pendingConfirmation);
  lt_journalId := tx.(lt_journalId); lt_externalId := tx.(lt_externalId); lt_lnMemo := tx.(lt_lnMemo);
  lt_recipientWalletId := tx.(lt_recipientWalletId); lt_username := tx.(lt_username);
  lt_memoFromPayer := tx.(lt_memoFromPayer); lt_paymentHash := tx.(lt_paymentHash);
  lt_pubkey := tx.(lt_pubkey); lt_feeKnownInAdvance := tx.(lt_feeKnownInAdvance);
  lt_lnPaymentState := tx.(lt_lnPaymentState); lt_revealedPreImage := preImage;
  lt_satsAmount := tx.(lt_satsAmount); lt_centsAmount := tx.(lt_centsAmount);
  lt_satsFee := tx.(lt_satsFee); lt_centsFee := tx.(lt_centsFee);
  lt_displayAmount := tx.(lt_displayAmount); lt_displayFee := tx.(lt_displayFee);
  lt_displayCurrency := tx.(lt_displayCurrency); lt_address := tx.(lt_address);
  lt_txHash := tx.(lt_txHash); lt_vout := tx.(lt_vout); lt_requestId := tx.(lt_requestId);
  lt_payoutId := tx.(lt_payoutId); lt_fee := tx.(lt_fee); lt_usd := tx.(lt_usd); lt_feeUsd := tx.(lt_feeUsd);
|}.

Definition translateToLedgerTxWithMetadata (rawTx : ILedgerTransaction)
    (txMetadata : option TxMetadataToPersist) : Result LedgerTransaction :=
  let tx := translateToLedgerTx rawTx in
  match txMetadata with
  | None => Ok tx
  | Some m => if decide (tx.(lt_id) ≠ m.(persist_id)) then Err InvalidTxMetadataFetchedError
              else Ok (with_preImage m.(persist_revealedPreImage) tx)
  end.

(** ** Queries *)

Definition translated (results : list Doc) : list LedgerTransaction :=
  map (fun d : Doc => translateToLedgerTx d) results.

Definition only (results : list Doc) : Result Doc :=
  match results with [d] => Ok d | _ => Err CouldNotFindTransactionError end.

Definition getTransactionById (id : string) : IO X (Result LedgerTransaction) :=
  results ←? catch_as UnknownLedgerError (with_objectId (M := M) id
    (MainBook_ledger (fun d => bool_decide (in_account liabilitiesMainAccount d) && bool_decide (d.(raw_id) = Some id))));
  d ←! only results;
  mret (Ok (translateToLedgerTx d)).

Definition getTransactionForWalletById (walletId : WalletId) (transactionId : string)
    : IO X (Result LedgerTransaction) :=
  results ←? catch_as UnknownLedgerError (with_objectId (M := M) transactionId
    (MainBook_ledger (fun d => in_wallets [walletId] d && bool_decide (d.(raw_id) = Some transactionId))));
  d ←! only results;
  mret (Ok (translateToLedgerTx d)).

Definition getTransactionForWalletByJournalId (walletId : WalletId) (journalId : string)
    : IO X (Result LedgerTransaction) :=
  results ←? catch_as UnknownLedgerError (with_objectId (M := M) journalId
    (MainBook_ledger (fun d => in_wallets [walletId] d && bool_decide (d.(raw_journal) = journalId))));
  rawTx ←! only results;
  txMetadataResult ← findById (js_or rawTx.(raw_id) "");
  mret (translateToLedgerTxWithMetadata rawTx
          (match txMetadataResult with Ok m => Some m | Err _ => None end)).

Definition getTransactionsForWalletByPaymentHash (walletId : WalletId) (paymentHash : PaymentHash)
    : IO X (Result (list LedgerTransaction)) :=
  results ←? catch_as UnknownLedgerError
    (MainBook_ledger (fun d => in_wallets [walletId] d && bool_decide (d.(raw_hash) = Some paymentHash)));
  mret (Ok (translated results)).

Definition getTransactionsByWalletId (walletId : WalletId) : IO X (Result (list LedgerTransaction)) :=
  results ←? catch_as UnknownLedgerError (MainBook_ledger (in_wallets [walletId]));
  mret (Ok (translated results)).

Definition getPendingPaymentsCount (walletId : WalletId) : IO X (Result nat) :=
  uncaught (db (gets (fun w => length (filter (fun d : Doc =>
    d.(raw_accounts) = toLiabilitiesWalletId walletId ∧ d.(raw_type) = Payment ∧ d.(raw_pending) = true)
    w.(ledger))))).

(** Where several documents match a [findOne], which one is found is not specified; the oldest is
    taken. *)
Definition findOne (matches : Doc -> bool) : IO X (result string (option Doc)) :=
  db (gets (fun w => last (filter (fun d => matches d = true) w.(ledger)))).

Definition isOnChainReceiptTxRecordedForWallet (walletId : WalletId) (txHash : string) (vout : number)
    : IO X (Result (bool * option string)) :=
  entry ←? catch_as UnknownLedgerError (findOne (fun d =>
    bool_decide (d.(raw_accounts) = toLiabilitiesWalletId walletId)
    && bool_decide (d.(raw_type) = OnchainReceipt) && bool_decide (d.(raw_hash) = Some txHash)
    && match d.(raw_vout) with None => true | Some v => num_eqb v vout end));
  mret (Ok (match entry with
            | None => (false, None)
            | Some d => (true, (translateToLedgerTx d).(lt_requestId))
            end)).

Definition isOnChainTxHashRecorded (txHash : string) : IO X (Result bool) :=
  result ←? catch_as UnknownLedgerError (db (gets (fun w => length (filter (fun d : Doc =>
    d.(raw_type) = OnchainReceipt ∧ d.(raw_hash) = Some txHash) w.(ledger)))));
  mret (Ok (0 <? result)%nat).

Definition getWalletIdByPaymentHash (hash : PaymentHash) : IO X (Result WalletId) :=
  bankOwnerWalletId ←? uncaught getBankOwnerWalletId;
  entry ←? uncaught (findOne (fun d => bool_decide (liabilitiesMainAccount ∈ split_colon d.(raw_accounts))
    && negb (bool_decide (d.(raw_accounts) = toLiabilitiesWalletId bankOwnerWalletId))
    && bool_decide (d.(raw_hash) = Some hash)));
  mret (match entry with
        | None => Err CouldNotFindTransactionError
        | Some d =>
            match toWalletId d.(raw_accounts) with
            | None => Err (UnknownLedgerError "no wallet id associated to transaction")
            | Some walletId => Ok walletId
            end
        end).

(** The groups come in no specified order; the model's is that of the accounts' first documents. *)
Definition listWalletIdsWithPendingPayments : IO X (Result (list WalletId)) :=
  uncaught (db (gets (fun w => omap toWalletId (js_set (map (fun d : Doc => d.(raw_accounts))
    (filter (fun d : Doc => d.(raw_type) = Payment ∧ d.(raw_pending) = true ∧
       liabilitiesMainAccount ∈ split_colon d.(raw_accounts)) w.(ledger))))))).

(** ** Following an on-chain payout *)

Definition getTransactionsByPayoutId (payoutId : string) : IO X (Result (list LedgerTransaction)) :=
  results ←? catch_as UnknownLedgerError
    (MainBook_ledger (fun d => bool_decide (d.(raw_payout_id) = Some payoutId)
                               && bool_decide (in_account liabilitiesMainAccount d)));
  mret (Ok (translated results)).

Definition isOnChainFeeReconciliationTxn (txn : LedgerTransaction) : bool :=
  bool_decide (txn.(lt_type) = OnchainPayment) && bool_decide (txn.(lt_address) = None).

Definition isOnChainFeeReconciliationRecorded (payoutId : string) : IO X (Result bool) :=
  bankOwnerWalletId ←? catch_as UnknownLedgerError getBankOwnerWalletId;
  results ←? catch_as UnknownLedgerError
    (MainBook_ledger (fun d => bool_decide (d.(raw_payout_id) = Some payoutId)
                               && in_wallets [bankOwnerWalletId] d));
  mret (Ok (existsb isOnChainFeeReconciliationTxn (translated results))).

(** An error of medici is known by the name of its class. *)
Definition JournalNotFoundError : string := "JournalNotFoundError".

(** The JSON of the ids that goes with the error is left out. *)
Definition recordOnChainSendRevert (journalId payoutId : string) : IO X (Result bool) :=
  if negb (isValidObjectId (M := M) (X := X) journalId) then mret (Err (NoTransactionToUpdateError "")) else
  savedEntry ← MainBook_void (M := M) journalId "Payment canceled";
  match savedEntry with
  | Err msg => mret (Err (if decide (msg = JournalNotFoundError) then NoTransactionToUpdateError ""
                          else UnknownLedgerError msg))
  | Ok savedEntry =>
      _ ← persistAll (map (fun id => {| persist_id := id; persist_hash := None; persist_revealedPreImage := None |})
                        (translateToLedgerJournal savedEntry).(transactionIds));
      mret (Ok true)
  end.

(** The fee the bank owner's transaction was estimated to pay to the network. *)
Definition estimated_protocol_fee (bankOwnerWalletId : WalletId) (txns : list LedgerTransaction)
    : Result Amount :=
  match filter (fun txn => txn.(lt_walletId) = Some bankOwnerWalletId ∧
                  isOnChainFeeReconciliationTxn txn = false) txns with
  | [bankOwnerTxn] =>
      let protocolFee := num_sub (js_or bankOwnerTxn.(lt_satsFee) (Number 0)) bankOwnerTxn.(lt_credit) in
      paymentAmountFromNumber protocolFee Btc
  | _ => Ok (BtcPaymentAmount 0)
  end.

(** The checks made when the update changed nothing. *)
Definition already_set (payoutId txId : string) (txns : list LedgerTransaction) : Result unit :=
  match map lt_txHash txns with
  | [] => Err (NoTransactionToUpdateError payoutId)
  | h :: hs =>
      if forallb (fun h' => bool_decide (h' = h)) hs then
        if decide (h = Some txId) then Ok tt else Err InvalidLedgerTransactionStateError
      else Err InvalidLedgerTransactionStateError
  end.

Definition setOnChainTxIdByPayoutId (payoutId txId : string) (vout : number) : IO X (Result Amount) :=
  modifiedCount ←? catch_as UnknownLedgerError
    (updateMany (fun d => bool_decide (d.(raw_payout_id) = Some payoutId)) (set_txid txId vout));
  txns ←? getTransactionsByPayoutId payoutId;
  _ ←! (if (0 <? modifiedCount)%nat then Ok tt else already_set payoutId txId txns);
  bankOwnerWalletId ←? uncaught getBankOwnerWalletId;
  mret (estimated_protocol_fee bankOwnerWalletId txns).

Definition is_user_txn (nonUserWalletIds : list WalletId) (txn : LedgerTransaction) : bool :=
  match txn.(lt_walletId) with
  | Some walletId => truthy walletId && bool_decide (walletId ∉ nonUserWalletIds)
  | None => false
  end.

Definition settlePendingOnChainPayment (payoutId : string) : IO X (Result (option LedgerTransaction)) :=
  modifiedCount ←? catch_as UnknownLedgerError
    (updateMany (fun d => bool_decide (d.(raw_payout_id) = Some payoutId)) (set_pending false));
  _ ←! (if (0 <? modifiedCount)%nat then Ok tt else Err NoTransactionToSettleError);
  txns ←? getTransactionsByPayoutId payoutId;
  nonUserWalletIds ←? uncaught getNonEndUserWalletIds;
  let userLedgerTxn := head (filter (fun txn => is_user_txn nonUserWalletIds txn = true) txns) in
  mret (match userLedgerTxn, txns with
        | None, [] => Err InvalidLedgerTransactionStateError
        | _, _ => Ok userLedgerTxn
        end).

(** ** The transaction of a wallet *)

(** [getTransactionForWalletByJournalId] of [app/wallets] *)
Definition getWalletTransactionByJournalId `{Intl} (memoSharingConfig : MemoSharingConfig) (walletId : WalletId)
    (journalId : string) : IO X (Result WalletTransaction) :=
  ledgerTransaction ←? getTransactionForWalletByJournalId walletId journalId;
  nonEndUserWalletIds ←? uncaught getNonEndUserWalletIds;
  mret (translateLedgerTxnToWalletTxn ledgerTransaction nonEndUserWalletIds memoSharingConfig).

End Service.

(** ** Looking up metadata *)

Lemma js_set_from_length seen xs : (length (js_set_from seen xs) <= length xs)%nat.
Proof.
  revert seen. induction xs as [|x xs IH]; intros seen; cbn; [done|].
  case_decide; cbn; [pose proof (IH seen)|pose proof (IH (x :: seen))]; lia.
Qed.

Lemma js_set_from_full seen xs : length (js_set_from seen xs) = length xs -> js_set_from seen xs = xs.
Proof.
  revert seen. induction xs as [|x xs IH]; intros seen; cbn; [done|]. case_decide; cbn.
  - intros Hl. pose proof (js_set_from_length seen xs). lia.
  - intros [= Hl]. by rewrite IH.
Qed.

Lemma omap_length_le {A B} (f : A -> option B) l : (length (omap f l) <= length l)%nat.
Proof. induction l as [|x l IH]; cbn; [done|]. destruct (f x); cbn; lia. Qed.

Lemma omap_full {A B} (f : A -> option B) l : length (omap f l) = length l -> map Some (omap f l) = map f l.
Proof.
  induction l as [|x l IH]; cbn; [done|]. pose proof (omap_length_le f l).
  destruct (f x) eqn:E; cbn; [|lia]. intros [= Hl]. by rewrite IH.
Qed.

Lemma find_metadata_id l id m : find_metadata l id = Some m -> m.(persist_id) = id ∧ m ∈ l.
Proof.
  unfold find_metadata. intros Hm. apply (list_elem_of_filter (fun m => m.(persist_id) = id)).
  destruct (filter _ l) as [|m' l']; [done|]. injection Hm as ->. left.
Qed.

(** The record of an id is found among the records of a list of ids that has it. *)
Lemma find_in_order l ids id : id ∈ ids ->
  find_metadata (omap (find_metadata l) ids) id = find_metadata l id.
Proof.
  intros Hin. destruct (find_metadata (omap _ _) id) as [m'|] eqn:E'.
  - apply find_metadata_id in E' as [Hid (y & _ & Hy)%list_elem_of_omap].
    apply find_metadata_id in Hy as Hy'. destruct Hy' as [<- _]. by rewrite <- Hid.
  - destruct (find_metadata l id) as [m|] eqn:E; [|done]. apply find_metadata_id in E as Hm.
    unfold find_metadata in E'. apply head_None in E'. exfalso.
    eapply (filter_nil_not_elem_of _ _ m E'); [by apply Hm|]. apply list_elem_of_omap. eauto.
Qed.

(** The answer for one id. *)
Definition metadata_answer (l : list TxMetadataToPersist) (id : string) : Result TxMetadataToPersist :=
  match find_metadata l id with
  | Some m => Ok (translateToLedgerTxMetadata m)
  | None => Err CouldNotFindTransactionMetadataError
  end.

(** The two ways in which [listByIds] builds its result, from the records as they come when
    there are as many as ids and id by id otherwise, agree with one definition: the answer for each
    id, in the order of the ids, repeated ids included. *)
Theorem listByIds_aligned l ids :
  listByIds_result ids (metadata_in_order l ids) = map (metadata_answer l) ids.
Proof.
  unfold listByIds_result. destruct (Nat.eqb_spec (length (metadata_in_order l ids)) (length ids)) as [Hl|Hl]; cbn.
  - unfold metadata_in_order in *. pose proof (omap_length_le (find_metadata l) (js_set ids)).
    pose proof (js_set_from_length [] ids). unfold js_set in *.
    assert (E : js_set_from [] ids = ids) by (apply js_set_from_full; lia). rewrite E in *.
    apply omap_full in Hl. rewrite <- (map_map Some (fun o => match o with
      | Some m => Ok (translateToLedgerTxMetadata m) | None => Err CouldNotFindTransactionMetadataError end)).
    rewrite Hl, map_map. done.
  - apply map_ext_in. intros id Hid. unfold metadata_answer, metadata_in_order.
    by rewrite find_in_order by (by apply elem_of_js_set, list_elem_of_In).
Qed.

(** The exception for records that were not asked for is never recorded: the set it is tested
    on is the difference of the ids with themselves, which is empty. *)
Theorem mismatch_never_reported ids result : resultIdsSetDiff ids result = [].
Proof.
  unfold resultIdsSetDiff, ModifiedSet_difference. rewrite filter_none; [done|].
  apply Forall_forall. intros id Hid Hn. contradiction.
Qed.

(** ** Redelivery of a payout *)

Section Payout.
Context {M X : Type} `{MediciEntry M} `{!MediciBook M X} `{Database X} `{Resolvers X}.
Implicit Types (w : World X).

Definition set_doc (payoutId txId : string) (vout : number) (d : Doc) : Doc :=
  if bool_decide (d.(raw_payout_id) = Some payoutId) then set_txid txId vout d else d.

Lemma set_txid_twice txId vout d : set_txid txId vout (set_txid txId vout d) = set_txid txId vout d.
Proof. by destruct d as [[] ? ? ?]. Qed.

Lemma set_doc_twice payoutId txId vout d :
  set_doc payoutId txId vout (set_doc payoutId txId vout d) = set_doc payoutId txId vout d.
Proof.
  unfold set_doc. destruct (bool_decide (raw_payout_id d = Some payoutId)) eqn:E; [|by rewrite E].
  change (raw_payout_id (set_txid txId vout d)) with (raw_payout_id d). rewrite E. apply set_txid_twice.
Qed.

(** The transactions of a payout, in the user-facing accounts. *)
Definition in_payout (payoutId : string) (d : Doc) : bool :=
  bool_decide (d.(raw_payout_id) = Some payoutId) && bool_decide (in_account liabilitiesMainAccount d).
Definition payout_txns (payoutId : string) (L : list Doc) : list LedgerTransaction :=
  translated (filter (fun d : Doc => in_payout payoutId d = true) L).

Lemma or_undefined_string (s : string) : s ≠ "" -> or_undefined (Some s) = Some s.
Proof. intros Hs. unfold or_undefined, js_or_opt, truthy, truthy_option, truthy, truthy_string. by rewrite bool_decide_true. Qed.

Lemma payout_hashes payoutId txId vout L : txId ≠ "" ->
  Forall (fun txn => txn.(lt_txHash) = Some txId) (payout_txns payoutId (map (set_doc payoutId txId vout) L)).
Proof.
  intros Hne. apply Forall_map, Forall_forall. intros d2 [Hm Hd]%list_elem_of_filter.
  apply list_elem_of_fmap in Hd as (d & -> & _). apply andb_true_iff in Hm as [Hp _].
  revert Hp. unfold set_doc. destruct (bool_decide (raw_payout_id d = Some payoutId)) eqn:E; [|by rewrite E].
  intros _. exact (or_undefined_string txId Hne).
Qed.

Lemma already_set_same payoutId txId txns : txns ≠ [] ->
  Forall (fun txn => txn.(lt_txHash) = Some txId) txns -> already_set payoutId txId txns = Ok tt.
Proof.
  unfold already_set. intros Hne Hall. destruct Hall as [|txn txns Hh Hall]; [done|]. cbn [map]. rewrite Hh.
  replace (forallb _ _) with true; [by rewrite decide_True|]. symmetry. apply forallb_forall.
  intros h (t & <- & Ht)%in_map_iff. apply bool_decide_eq_true. rewrite Forall_forall in Hall.
  by apply Hall, list_elem_of_In.
Qed.

Lemma payout_txns_set payoutId txId vout L : payout_txns payoutId L ≠ [] ->
  payout_txns payoutId (map (set_doc payoutId txId vout) L) ≠ [].
Proof.
  unfold payout_txns, translated. induction L as [|d L IH]; [done|]. cbn [map].
  assert (E : in_payout payoutId (set_doc payoutId txId vout d) = in_payout payoutId d)
    by (unfold set_doc; by destruct (bool_decide (raw_payout_id d = Some payoutId))).
  destruct (in_payout payoutId d) eqn:Ed; [by rewrite !filter_cons_True by done|].
  by rewrite !filter_cons_False by (rewrite ?E, ?Ed; done).
Qed.

Lemma wp_bankOwner bankOwner (Q : Result WalletId -> World X -> Prop) w :
  w.(bankWallets).(cacheBankOwnerWalletId) = Some bankOwner -> truthy bankOwner = true ->
  Q (Ok bankOwner) w -> wp (uncaught getBankOwnerWalletId) Q w.
Proof.
  intros Hb Ht HQ. unfold wp, uncaught, catch_as, getBankOwnerWalletId, mbind, IO_bind.
  rewrite (cached_hit _ _ _ bankOwner) by done. exact HQ.
Qed.

(** Setting the transaction of a payout: the database fails, or the documents of the payout have
    the transaction and the answer is computed from them. *)
Lemma wp_setOnChainTxId bankOwner payoutId txId vout (Q : Result Amount -> World X -> Prop) w :
  w.(bankWallets).(cacheBankOwnerWalletId) = Some bankOwner -> truthy bankOwner = true ->
  (∀ msg w', (w'.(ledger) = w.(ledger) ∨ w'.(ledger) = map (set_doc payoutId txId vout) w.(ledger)) ->
     w'.(bankWallets) = w.(bankWallets) -> Q (Err (UnknownLedgerError msg)) w') ->
  (∀ w', w'.(ledger) = map (set_doc payoutId txId vout) w.(ledger) -> w'.(bankWallets) = w.(bankWallets) ->
     let txns := payout_txns payoutId w'.(ledger) in
     Q ((if decide (map (set_doc payoutId txId vout) w.(ledger) = w.(ledger))
         then already_set payoutId txId txns else Ok tt) ≫= fun _ => estimated_protocol_fee bankOwner txns) w') ->
  wp (setOnChainTxIdByPayoutId payoutId txId vout) Q w.
Proof.
  intros Hb Ht HErr HOk. unfold setOnChainTxIdByPayoutId, getTransactionsByPayoutId, MainBook_ledger.
  apply wp_bind_or, wp_catch, wp_updateMany; [intros; apply HErr; [by left|done]|]. intros w1 Hl Hb1.
  change (map _ _) with (map (set_doc payoutId txId vout) w.(ledger)) in Hl.
  apply wp_bind_or, wp_bind_or, wp_catch, wp_db; [intros; apply HErr; [by right|done]|].
  intros x. apply wp_gets, wp_ret. specialize (HOk (with_outside w1 x) Hl Hb1). cbn zeta in HOk.
  pose proof (update_count (fun d => bool_decide (d.(raw_payout_id) = Some payoutId)) (set_txid txId vout)
    w.(ledger)) as Hn. change (map _ _) with (map (set_doc payoutId txId vout) w.(ledger)) in Hn.
  change (translated _) with (payout_txns payoutId (ledger (with_outside w1 x))).
  apply wp_or_return.
  - intros [] E. apply wp_bind_or, (wp_bankOwner bankOwner); [by cbn; rewrite Hb1|done|]. apply wp_ret.
    revert HOk. case_decide as Hd; [|done]. rewrite (proj2 Hn Hd) in E. cbn [Nat.ltb Nat.leb] in E. by rewrite E.
  - intros e E. revert HOk. case_decide as Hd; [rewrite (proj2 Hn Hd) in E; cbn [Nat.ltb Nat.leb] in E; by rewrite E|].
    destruct (length _) eqn:El; [exfalso; by apply Hd, Hn|done].
Qed.

(** An event that reports the transaction of a payout can be delivered again: after a delivery
    that gave an estimated fee, the next one leaves the ledger as it is and gives the same fee,
    unless the database fails. *)
Theorem setOnChainTxId_redelivered bankOwner w w1 payoutId txId vout fee
    (Hb : w.(bankWallets).(cacheBankOwnerWalletId) = Some bankOwner) (Ht : truthy bankOwner = true)
    (Htx : txId ≠ "") (Hsome : payout_txns payoutId w.(ledger) ≠ [])
    (Hfirst : setOnChainTxIdByPayoutId payoutId txId vout w = (Ok fee, w1)) :
  wp (setOnChainTxIdByPayoutId payoutId txId vout) (fun r w2 =>
    w2.(ledger) = w1.(ledger) ∧ (r = Ok fee ∨ ∃ msg, r = Err (UnknownLedgerError msg))) w1.
Proof.
  assert (Hone : wp (setOnChainTxIdByPayoutId payoutId txId vout) (fun r w1 => ∀ fee, r = Ok fee ->
    w1.(ledger) = map (set_doc payoutId txId vout) w.(ledger) ∧ w1.(bankWallets) = w.(bankWallets) ∧
    estimated_protocol_fee bankOwner (payout_txns payoutId w1.(ledger)) = Ok fee) w).
  { apply (wp_setOnChainTxId bankOwner); [done..|]. intros w' Hl Hb' txns fee' Hr. split_and!; [done..|].
    case_decide; [|done]. by destruct (already_set _ _ _). }
  unfold wp in Hone. rewrite Hfirst in Hone. cbn [fst snd] in Hone. destruct (Hone fee eq_refl) as (Hl & Hb1 & Hfee).
  assert (Htwice : map (set_doc payoutId txId vout) w1.(ledger) = w1.(ledger)).
  { rewrite Hl, map_map. apply map_ext. apply set_doc_twice. }
  apply (wp_setOnChainTxId bankOwner); [by rewrite Hb1|done|..].
  - intros msg w' Hl'. rewrite Htwice in Hl'. split; [by destruct Hl'|eauto].
  - intros w' Hl' Hb'. rewrite Htwice in Hl'. cbn zeta. split; [done|left].
    rewrite decide_True, Hl', already_set_same by (try done; rewrite Hl; by apply payout_txns_set || by apply payout_hashes).
    exact Hfee.
Qed.

End Payout.

(** ** Balances *)

Lemma book_balance_bounds a L : Forall (fun d : Doc => base_amount d.(raw_debit) ∧ base_amount d.(raw_credit)) L ->
  - sumZ (map doc_debit L) <= book_balance a L <= sumZ (map doc_credit L).
Proof.
  unfold book_balance, sumZ. induction 1 as [|d L [Hd Hc] _ IH]; [done|].
  apply base_amount_of in Hd as [_ Hd], Hc as [_ Hc]. rewrite filter_cons. unfold doc_debit, doc_credit in *.
  case_decide; cbn; lia.
Qed.

Section Balance.
Context {M X : Type} `{MediciEntry M} `{!MediciBook M X} `{!MediciBookLaws M X} `{Database X} `{Resolvers X}.
Context (bankOwner dealerBtc dealerUsd : WalletId).

(** The balance of a wallet is exactly the sum of its credits less the sum of its debits, in the
    wallet's currency and negative balances included, or the query fails; it changes nothing. *)
Theorem getWalletBalanceAmount_exact (w : World X) wallet
    (Hb : bank_ready bankOwner dealerBtc dealerUsd w.(bankWallets)) (Hex : exact_book w.(ledger)) :
  wp (getWalletBalanceAmount (M := M) wallet) (fun r w' => w'.(ledger) = w.(ledger) ∧
    (r = Ok {| amount := book_balance (toLiabilitiesWalletId wallet.(w_id)) w.(ledger);
               currency := wallet.(w_currency) |} ∨ ∃ msg, r = Err (UnknownLedgerError msg))) w.
Proof.
  unfold getWalletBalanceAmount. apply wp_bind_or, wp_catch, wp_db; [intros; cbn; eauto|].
  intros x. apply wp_gets. cbn [ledger with_outside]. rewrite balance_exact by done.
  set (z := book_balance _ _).
  assert (Hz : safe_integer z).
  { destruct Hex as (Ha & Hd & Hc). pose proof (book_balance_bounds (toLiabilitiesWalletId wallet.(w_id)) _ Ha).
    unfold safe_integer. subst z. lia. }
  apply wp_bind_or. assert (Hend : ∀ w' : World X, w'.(ledger) = w.(ledger) ->
    wp (mret match balanceAmountFromNumber (Number z) wallet.(w_currency) with
        | Err (BigIntFloatConversionError _) => balanceAmountFromNumber (Math_floor (Number z)) wallet.(w_currency)
        | r => r end) (fun r (w' : World X) => w'.(ledger) = w.(ledger) ∧
      (r = Ok {| amount := z; currency := wallet.(w_currency) |} ∨ ∃ msg, r = Err (UnknownLedgerError msg))) w').
  { intros w' Hl. apply wp_ret. unfold balanceAmountFromNumber. rewrite safeBigInt_Number by done. cbn. eauto. }
  destruct (num_ltb (Number z) (Number 0)); [|by apply wp_ret, Hend].
  destruct Hb as (_ & Hd & Hu & _ & Td & Tu). unfold wp, catch_as, rejects, getDealerBtcWalletId,
    getDealerUsdWalletId, mbind, IO_bind.
  rewrite (cached_hit _ _ _ dealerBtc), (cached_hit _ _ _ dealerUsd) by done. by apply Hend.
Qed.

End Balance.

Module ServiceExamples.
Import BookExamples.

Definition payout_md : TxMetadata :=
  <["type" := MString "onchain_payment"]> (<["pending" := MBool true]> (<["satsFee" := MNumber (Number 300)]>
  (<["payee_addresses" := MStrings ["address"]]> ∅))).

(** An on-chain payment of Alice, with the id of its payout. *)
Definition paid : World nat :=
  (setOnChainTxPayoutId (M := L0) "journal-0" "payout"
    (recordSendOnChain (M := L0) "" LedgerExamples.alice LedgerExamples.amt LedgerExamples.fee
       payout_md ∅ ∅ start).2).2.

Abbreviation deliver := (setOnChainTxIdByPayoutId (X := nat) "payout" "txid" (Number 0)).
Definition delivered : World nat := (deliver paid).2.

Lemma setOnChainTxId_redelivered_witness : (deliver delivered).2.(ledger) = delivered.(ledger).
Proof.
  assert (E : (deliver paid).1 = Ok (BtcPaymentAmount 100)) by (vm_compute; reflexivity).
  refine (proj1 (setOnChainTxId_redelivered "bank" paid delivered "payout" "txid" (Number 0)
    (BtcPaymentAmount 100) _ _ _ _ (eq_trans (surjective_pairing _) (f_equal (fun r => (r, delivered)) E)))).
  - vm_compute. reflexivity.
  - reflexivity.
  - discriminate.
  - vm_compute. discriminate.
Defined.

Lemma exact_paid : exact_book paid.(ledger).
Proof.
  assert (Hz : ∀ z, 0 <= z < 2 ^ 53 -> base_amount (Number z)) by (intros z Hz; by exists z).
  set (L := paid.(ledger)). vm_compute in L. subst L. split; [|split; vm_compute; reflexivity].
  repeat constructor; cbn; match goal with |- base_amount ?n =>
    let z := eval vm_compute in (amount_of n) in apply (Hz z); lia end.
Qed.

Lemma getWalletBalanceAmount_exact_witness :
  ∃ r, (getWalletBalanceAmount (M := L0) LedgerExamples.alice paid).1 = r ∧
    r = Ok {| amount := -1500; currency := Usd |}.
Proof.
  assert (E : (getWalletBalanceAmount (M := L0) LedgerExamples.alice paid).1
              = Ok {| amount := -1500; currency := Usd |}) by (vm_compute; reflexivity).
  destruct (wp_run _ _ _ _ (getWalletBalanceAmount_exact (M := L0) "bank" "dealer-btc" "dealer-usd" paid
    LedgerExamples.alice start_ready exact_paid) E) as [_ [Hr|[msg Hr]]]; [|discriminate Hr].
  exists (Ok {| amount := -1500; currency := Usd |}). split; [exact E|].
  etransitivity; [exact Hr|]. vm_compute. reflexivity.
Defined.

End ServiceExamples.
