(* ===== verification/Pages.v ===== *)
(** * Pages of transactions

    Models [services/ledger/paginated-ledger.ts], the queries of [services/ledger/index.ts] that use
    it, and the check of the arguments in [domain/primitives].  A client that follows the end
    cursors forward sees every transaction once, newest id first. *)

From Stdlib Require Import Sorting.Sorted Structures.OrdersEx.
From stdpp Require Import sorting.
From S2P Require Import Prelude JsNumber Shared Prices Fees Lightning PaymentFlow LedgerEntry TxMetadata.
From S2P Require Import LedgerTx TxHistory Limits Utils World LedgerBook LedgerService.

Record PaginatedQueryArgs := mkPageArgs {
  pa_first : option nat;
  pa_last : nat;
  pa_before : option string;
  pa_after : option string;
}.

Record Page := mkPage {
  pg_nodes : list LedgerTransaction;
  pg_startCursor : option string;
  pg_endCursor : option string;
  pg_hasPreviousPage : bool;
  pg_hasNextPage : bool;
}.

Definition doc_id (d : Doc) : string := default "" d.(raw_id).

(** Object ids are ordered as their hexadecimal strings. *)
Definition id_ltb (a b : string) : bool := String.ltb a b.

Fixpoint insert_by_id (d : Doc) (l : list Doc) : list Doc :=
  match l with
  | [] => [d]
  | e :: l' => if id_ltb (doc_id e) (doc_id d) then d :: l else e :: insert_by_id d l'
  end.

(** [.sort({ _id: -1 })] *)
Definition sort_by_id_desc (l : list Doc) : list Doc := foldr insert_by_id [] l.

(** The documents of the query: [before] replaces [after] where both are given. *)
Definition page_filter (matches : Doc -> bool) (args : PaginatedQueryArgs) (d : Doc) : bool :=
  matches d &&
  match or_undefined args.(pa_before), or_undefined args.(pa_after) with
  | Some before, _ => id_ltb before (doc_id d)
  | None, Some after => id_ltb (doc_id d) after
  | None, None => true
  end.

(** The page of a ledger. *)
Definition page_of (matches : Doc -> bool) (args : PaginatedQueryArgs) (L : list Doc) : Page :=
  let docs := filter (fun d => page_filter matches args d = true) L in
  let documentCount := length docs in
  let '(records, hasPreviousPage, hasNextPage) :=
    match args.(pa_first) with
    | Some first => (take first (sort_by_id_desc docs), false, (first <? documentCount)%nat)
    | None =>
        let hasPreviousPage := (args.(pa_last) <? documentCount)%nat in
        let skipAmount := if hasPreviousPage then (documentCount - args.(pa_last))%nat else 0%nat in
        (drop skipAmount (sort_by_id_desc docs), hasPreviousPage, false)
    end in
  let txs := translated records in
  {| pg_nodes := txs;
     pg_startCursor := or_undefined (lt_id <$> head txs);
     pg_endCursor := or_undefined (lt_id <$> last txs);
     pg_hasPreviousPage := hasPreviousPage;
     pg_hasNextPage := hasNextPage |}.

(** ** The arguments *)

(** The text of the error is left out. *)
Definition checkedToPaginatedQueryArgs (first last : option Z) (before after : option string)
    (maxPageSize : Z) : Result PaginatedQueryArgs :=
  if truthy first && truthy last then Err InvalidPaginatedQueryArgsError
  else
    match first, last with
    | Some first, _ =>
        if maxPageSize <? first then Err InvalidPaginatedQueryArgsError
        else if first <=? 0 then Err InvalidPaginatedQueryArgsError
        else Ok {| pa_first := Some (Z.to_nat first); pa_last := 0; pa_before := before; pa_after := after |}
    | None, Some last =>
        if maxPageSize <? last then Err InvalidPaginatedQueryArgsError
        else if last <=? 0 then Err InvalidPaginatedQueryArgsError
        else Ok {| pa_first := None; pa_last := Z.to_nat last; pa_before := before; pa_after := after |}
    | None, None =>
        Ok {| pa_first := Some (Z.to_nat maxPageSize); pa_last := 0; pa_before := before; pa_after := after |}
    end.

(** ** The queries *)
Section Queries.
Context {M X : Type} `{MediciEntry M} `{!MediciBook M X} `{Database X}.

(** A cursor that is no object id throws; so may the count and the query. *)
Definition with_cursor {A} (cursor : option string) (m : IO X (result string A)) : IO X (result string A) :=
  match or_undefined cursor with Some id => with_objectId (M := M) id m | None => m end.

Definition paginatedLedger (matches : Doc -> bool) (args : PaginatedQueryArgs) : IO X (result string Page) :=
  with_cursor args.(pa_after) (with_cursor args.(pa_before)
    (rejects (db (gets (fun w => length (filter (fun d => page_filter matches args d = true) w.(ledger)))))
       (fun documentCount => db (gets (fun w => page_of matches args w.(ledger)))))).

Definition getTransactionsByWalletIds (walletIds : list WalletId) (args : PaginatedQueryArgs) : IO X (Result Page) :=
  catch_as UnknownLedgerError (paginatedLedger (in_wallets walletIds) args).

Definition getTransactionsByWalletIdsAndAddresses (walletIds : list WalletId) (args : PaginatedQueryArgs)
    (addresses : list OnChainAddress) : IO X (Result Page) :=
  catch_as UnknownLedgerError (paginatedLedger
    (fun d => in_wallets walletIds d &&
              existsb (fun a => bool_decide (a ∈ addresses)) (default [] d.(raw_payee_addresses))) args).

Definition getTransactionsByWalletIdAndContactUsername (walletIds : list WalletId) (contactUsername : Username)
    (args : PaginatedQueryArgs) : IO X (Result Page) :=
  catch_as UnknownLedgerError (paginatedLedger
    (fun d => in_wallets walletIds d &&
              (negb (truthy contactUsername) || bool_decide (d.(raw_username) = Some contactUsername))) args).

End Queries.

(** ** Following the cursors *)

Definition newer (d e : Doc) : Prop := id_ltb (doc_id e) (doc_id d) = true.

Lemma id_ltb_lt a b : id_ltb a b = true ↔ String_as_OT.lt a b.
Proof.
  unfold id_ltb, String.ltb, String_as_OT.lt. change (String_as_OT.compare a b) with (String.compare a b).
  by destruct (String.compare a b); split.
Qed.

#[export] Instance newer_trans : Transitive newer.
Proof. unfold newer. intros d e f. rewrite !id_ltb_lt. intros Hd He. by etransitivity. Qed.

Lemma newer_irrefl d : ~ newer d d.
Proof. unfold newer. rewrite id_ltb_lt. apply irreflexivity, String_as_OT.lt_strorder. Qed.

#[export] Instance newer_antisymm : AntiSymm (=) newer.
Proof. intros d e H1 H2. exfalso. apply (newer_irrefl d). by etransitivity. Qed.

(** Documents with an id each, all different. *)
Definition distinct_ids (L : list Doc) : Prop :=
  NoDup (map doc_id L) ∧ Forall (fun d : Doc => doc_id d ≠ "") L.

Lemma newer_total d e : doc_id d ≠ doc_id e -> newer d e ∨ newer e d.
Proof.
  intros Hne. unfold newer, id_ltb, String.ltb. rewrite String.compare_antisym.
  destruct (String.compare (doc_id d) (doc_id e)) eqn:E; cbn; [|by right|by left].
  by apply String.compare_eq_iff in E.
Qed.

Lemma insert_by_id_perm d l : insert_by_id d l ≡ₚ d :: l.
Proof. induction l as [|e l IH]; cbn; [done|]. case_match; [done|]. rewrite IH. constructor. Qed.

Lemma sort_by_id_perm l : sort_by_id_desc l ≡ₚ l.
Proof. induction l as [|d l IH]; cbn; [done|]. by rewrite insert_by_id_perm, IH. Qed.

Lemma insert_by_id_sorted d l : Forall (fun e => doc_id e ≠ doc_id d) l ->
  StronglySorted newer l -> StronglySorted newer (insert_by_id d l).
Proof.
  intros Hne Hs. induction Hs as [|e l Hs IH He]; cbn; [repeat constructor|].
  inversion_clear Hne as [|? ? Hed Hl]. destruct (id_ltb (doc_id e) (doc_id d)) eqn:E.
  - constructor; [by constructor|]. constructor; [done|].
    eapply Forall_impl; [exact He|]. intros f Hf. by transitivity e.
  - constructor; [by apply IH|]. rewrite insert_by_id_perm. constructor; [|done].
    destruct (newer_total d e) as [Hn|Hn]; [congruence| |done]. unfold newer in Hn. congruence.
Qed.

Lemma sort_by_id_sorted l : NoDup (map doc_id l) -> StronglySorted newer (sort_by_id_desc l).
Proof.
  induction l as [|d l IH]; cbn; [constructor|]. intros [Hd Hl]%NoDup_cons. apply insert_by_id_sorted; [|auto].
  rewrite sort_by_id_perm. apply Forall_forall. intros e He Heq. apply Hd. rewrite <- Heq.
  by apply list_elem_of_fmap_2.
Qed.

(** Sorting commutes with selecting documents. *)
Lemma sort_filter (P : Doc -> Prop) `{∀ d, Decision (P d)} l : NoDup (map doc_id l) ->
  sort_by_id_desc (filter P l) = filter P (sort_by_id_desc l).
Proof.
  intros Hnd. apply (StronglySorted_unique newer).
  - apply sort_by_id_sorted. eapply sublist_NoDup; [exact Hnd|]. by apply fmap_sublist, sublist_filter.
  - apply StronglySorted_filter. by apply sort_by_id_sorted.
  - by rewrite !sort_by_id_perm.
Qed.

(** The documents after the one at the end of [take n S]. *)
Lemma after_cursor S n d : StronglySorted newer S -> last (take n S) = Some d ->
  filter (fun e => id_ltb (doc_id e) (doc_id d) = true) S = drop n S.
Proof.
  intros Hs Hd. apply last_Some in Hd as [pre Hpre]. rewrite <- (take_drop n S) in Hs |- * at 1.
  rewrite Hpre in Hs |- *. rewrite <- app_assoc in Hs |- *.
  apply StronglySorted_app in Hs as (Hcross & _ & Hrest). rewrite filter_app, filter_none; cbn [app].
  - apply StronglySorted_cons in Hrest as [Hall _]. rewrite filter_cons_False by apply newer_irrefl.
    apply filter_all. exact Hall.
  - apply Forall_forall. intros e He Hlt. apply (newer_irrefl e). transitivity d; [|exact Hlt].
    apply Hcross; [done|left].
Qed.

(** All the pages from a cursor on, [first] documents each. *)
Fixpoint pages (fuel : nat) (matches : Doc -> bool) (first : nat) (after : option string) (L : list Doc)
    : option (list LedgerTransaction) :=
  match fuel with
  | O => None
  | S fuel =>
      let page := page_of matches {| pa_first := Some first; pa_last := 0; pa_before := None; pa_after := after |} L in
      if page.(pg_hasNextPage) then
        rest ← pages fuel matches first page.(pg_endCursor) L; Some (page.(pg_nodes) ++ rest)
      else Some page.(pg_nodes)
  end.

Section Following.
Context (matches : Doc -> bool) (first : nat) (L : list Doc).
Context (Hfirst : (0 < first)%nat) (Hids : distinct_ids L).

Definition wanted : list Doc := sort_by_id_desc (filter (fun d => matches d = true) L).

Lemma wanted_sorted : StronglySorted newer wanted.
Proof using Hids.
  apply sort_by_id_sorted. eapply sublist_NoDup; [apply Hids|]. by apply fmap_sublist, sublist_filter.
Qed.

(** Where the pages stand after [n] documents. *)
Definition cursor_at (n : nat) (after : option string) : Prop :=
  (n = 0%nat ∧ after = None) ∨ ∃ d, last (take n wanted) = Some d ∧ after = Some (doc_id d).

Lemma lt_id_doc (d : Doc) : lt_id (translateToLedgerTx d) = doc_id d.
Proof using.
  unfold doc_id. cbn. destruct (raw_id d) as [s|]; [|done]. unfold js_or. destruct (truthy s) eqn:E; [done|].
  unfold truthy, truthy_string in E. apply bool_decide_eq_false in E. destruct (decide (s = "")); naive_solver.
Qed.

Lemma wanted_id d : d ∈ wanted -> doc_id d ≠ "".
Proof using Hids.
  unfold wanted. rewrite sort_by_id_perm. intros [_ Hd]%list_elem_of_filter.
  exact (proj1 (Forall_forall _ _) (proj2 Hids) d Hd).
Qed.

(** The documents of the query from a cursor on, in order. *)
Lemma docs_at n after : cursor_at n after ->
  sort_by_id_desc (filter (fun d => page_filter matches
    {| pa_first := Some first; pa_last := 0; pa_before := None; pa_after := after |} d = true) L) = drop n wanted.
Proof using Hids.
  intros [[-> ->]|(d & Hd & ->)].
  - rewrite drop_0. unfold wanted. f_equal. apply list_filter_iff. intros d. unfold page_filter. cbn.
    by rewrite andb_true_r.
  - rewrite <- (after_cursor wanted n d wanted_sorted Hd). unfold wanted at 1. rewrite <- sort_filter.
    + f_equal. rewrite list_filter_filter. apply list_filter_iff. intros e. unfold page_filter.
      cbn [pa_before pa_after]. rewrite (or_undefined_string (doc_id d)).
      * cbn. rewrite andb_true_iff. tauto.
      * apply wanted_id. apply last_Some in Hd as [pre Hpre]. apply (list_elem_of_In).
        rewrite <- (take_drop n wanted), Hpre. apply in_or_app. left. apply in_or_app. right. by left.
    + eapply sublist_NoDup; [apply Hids|]. by apply fmap_sublist, sublist_filter.
Qed.

Lemma page_at n after : cursor_at n after ->
  let page := page_of matches {| pa_first := Some first; pa_last := 0; pa_before := None; pa_after := after |} L in
  page.(pg_nodes) = translated (take first (drop n wanted)) ∧
  page.(pg_hasNextPage) = (first <? length wanted - n)%nat ∧
  (page.(pg_hasNextPage) = true -> cursor_at (n + first) page.(pg_endCursor)).
Proof using Hfirst Hids.
  intros Hn. pose proof (docs_at n after Hn) as Hdocs. cbn zeta. unfold page_of. cbn [pa_first].
  set (docs := filter _ L) in *.
  assert (Hlen : length docs = (length wanted - n)%nat).
  { rewrite <- (sort_by_id_perm docs), Hdocs. apply length_drop. }
  cbn [pg_nodes pg_hasNextPage pg_endCursor]. rewrite Hdocs, Hlen. split_and!; [done..|].
  intros Hnext%Nat.ltb_lt. right.
  destruct (last (take first (drop n wanted))) as [d|] eqn:Hd.
  2: { apply last_None in Hd. apply (f_equal length) in Hd. rewrite length_take, length_drop in Hd. cbn in Hd. lia. }
  exists d. rewrite <- take_take_drop, last_app, Hd. split; [done|].
  unfold translated. change (map ?f ?l) with (f <$> l). rewrite fmap_last, Hd. cbn [fmap option_fmap option_map].
  rewrite lt_id_doc. apply or_undefined_string, wanted_id.
  apply last_Some in Hd as [pre Hpre]. eapply subseteq_drop, subseteq_take. rewrite Hpre. set_solver.
Qed.

Lemma pages_at fuel n after : cursor_at n after -> (length wanted - n < fuel)%nat ->
  pages fuel matches first after L = Some (translated (drop n wanted)).
Proof using Hfirst Hids.
  revert n after. induction fuel as [|fuel IH]; intros n after Hn Hf; [lia|]. cbn [pages].
  destruct (page_at n after Hn) as (-> & Hnext & Hend).
  destruct (pg_hasNextPage _) eqn:E; symmetry in Hnext.
  - apply Nat.ltb_lt in Hnext. rewrite (IH (n + first)%nat); [|by apply Hend|lia]. cbn. f_equal.
    unfold translated. rewrite <- map_app. f_equal. by rewrite <- drop_drop, take_drop.
  - apply Nat.ltb_ge in Hnext. rewrite take_ge; [done|]. rewrite length_drop. lia.
Qed.

(** C31. Following the end cursor from page to page, whatever the page size, ends and gives exactly
    the transactions that match the query, each once, in descending order of their ids. *)
Theorem pages_complete :
  pages (S (length L)) matches first None L = Some (translated wanted) ∧
  wanted ≡ₚ filter (fun d => matches d = true) L ∧ StronglySorted newer wanted.
Proof using Hfirst Hids.
  split_and!; [|apply sort_by_id_perm|apply wanted_sorted]. rewrite (pages_at _ 0 None); [done|by left|].
  unfold wanted. rewrite sort_by_id_perm. pose proof (length_filter (fun d => matches d = true) L). lia.
Qed.

End Following.

(** A query with both cursors ignores the one called [after]: its page is that of the query
    with only [before]. *)
Theorem before_replaces_after matches first_ last_ before after L (Hb : before ≠ "") :
  page_of matches {| pa_first := first_; pa_last := last_; pa_before := Some before; pa_after := Some after |} L
  = page_of matches {| pa_first := first_; pa_last := last_; pa_before := Some before; pa_after := None |} L.
Proof. unfold page_of, page_filter. cbn [pa_before pa_after]. by rewrite (or_undefined_string before Hb). Qed.

Module PagesExamples.
Import BookExamples.

Definition two_sends : list Doc :=
  (recordSendOffChain (M := L0) "" LedgerExamples.alice LedgerExamples.amt LedgerExamples.fee payment_md ∅ ∅ sent).2.(ledger).

Lemma two_sends_ids : distinct_ids two_sends.
Proof.
  split.
  - apply (bool_decide_unpack _). vm_compute. exact I.
  - apply (bool_decide_unpack _). vm_compute. exact I.
Qed.

Lemma pages_complete_witness :
  (2 <= length two_sends)%nat ∧
  pages (S (length two_sends)) (fun _ => true) 2 None two_sends = Some (translated (wanted (fun _ => true) two_sends)).
Proof.
  split; [vm_compute; lia|].
  exact (proj1 (pages_complete (fun _ => true) 2 two_sends ltac:(lia) two_sends_ids)).
Defined.

Lemma before_replaces_after_witness :
  page_of (fun _ => true) (mkPageArgs (Some 2%nat) 0 (Some "journal-0-1") (Some "journal-0-2")) two_sends
  = page_of (fun _ => true) (mkPageArgs (Some 2%nat) 0 (Some "journal-0-1") None) two_sends.
Proof. exact (before_replaces_after _ _ _ "journal-0-1" "journal-0-2" _ ltac:(discriminate)). Defined.

End PagesExamples.
