(* ===== verification/Services.v ===== *)
(** * Locks, prices and the node

    Models [services/lock/index.ts], over the redlock client as a class, and the prices of
    [app/prices], over the price and dealer services and the local cache as a class; and states the
    interface of the Lightning node ([domain/bitcoin/lightning]) as a class.  A function
    that runs under a lock and throws makes the lock function return [UnknownLockServiceError]: the
    class [Throws] says which results stand for an exception. *)

From Stdlib Require Import Ascii.
From S2P Require Import Prelude JsNumber Shared Prices Fees Lightning PaymentFlow LedgerEntry TxMetadata.
From S2P Require Import LedgerTx TxHistory Limits World LedgerBook LedgerService.

(** ** Locks *)

(** Why redlock failed. *)
Inductive LockFailure := ExecutionError | OtherFailure (msg : string).

(** The redlock clients.  [redlockClient.using] acquires the lock, runs the function and releases the
    lock, and either may fail; [signal.aborted] is whether the lock was lost meanwhile.
    [timelockClient.acquire] is the other client, which tries once more at most. *)
Class Redlock (X : Type) := {
  acquire : string -> X -> option LockFailure * X;
  timelock : string -> X -> option LockFailure * X;
  release : string -> X -> option LockFailure * X;
  signal_aborted : X -> bool * X;
}.

Class Throws (R : Type) := thrown : R -> option string.
#[export] Instance Throws_Result A : Throws (Result A) :=
  fun r => match r with Err (JsThrow msg) => Some msg | _ => None end.

Definition getWalletLockResource (path : WalletId) : string := ("locks:wallet:" ++ path)%string.
Definition getPaymentHashLockResource (path : PaymentHash) : string := ("locks:paymenthash:" ++ path)%string.
Definition getOnChainTxHashLockResource (path : string) : string := ("locks:onchaintxhash:" ++ path)%string.
Definition getOnChainTxHashAndVoutLockResource (txHash vout : string) : string :=
  ("locks:onchaintxhash:" ++ txHash ++ ":" ++ vout)%string.
Definition getIdempotencyKeyLockResource (path : string) : string := ("locks:idempotencykey:" ++ path)%string.

Definition lock_error (f : LockFailure) : ApplicationError :=
  match f with
  | ExecutionError => ResourceAttemptsRedlockServiceError
  | OtherFailure msg => UnknownLockServiceError msg
  end.

Section Locks.
Context {X : Type} `{Redlock X}.

(** [redlock] without a signal, the way every lock function calls it.  The lock is released also
    when the function throws; a failed release hides the function's result. *)
Definition redlock {R} `{Throws R} (path : string) (asyncFn : IO X R) : IO X (Result R) :=
  failure ← ext (acquire path);
  match failure with
  | Some f => mret (Err (lock_error f))
  | None =>
      r ← asyncFn;
      released ← ext (release path);
      mret (match released, thrown r with
            | Some f, _ => Err (lock_error f)
            | None, Some msg => Err (UnknownLockServiceError msg)
            | None, None => Ok r
            end)
  end.

(** [redlock] with the signal of a lock that is already held. *)
Definition redlock_signal {R} (asyncFn : IO X R) : IO X (Result R) :=
  aborted ← ext signal_aborted;
  if (aborted : bool) then mret (Err ResourceExpiredLockServiceError) else r ← asyncFn; mret (Ok r).

Definition lockWalletId {R} `{Throws R} (walletId : WalletId) (asyncFn : IO X R) : IO X (Result R) :=
  redlock (getWalletLockResource walletId) asyncFn.
Definition lockPaymentHash {R} `{Throws R} (paymentHash : PaymentHash) (asyncFn : IO X R) : IO X (Result R) :=
  redlock (getPaymentHashLockResource paymentHash) asyncFn.
Definition lockOnChainTxHash {R} `{Throws R} (txHash : string) (asyncFn : IO X R) : IO X (Result R) :=
  redlock (getOnChainTxHashLockResource txHash) asyncFn.
Definition lockOnChainTxHashAndVout {R} `{Throws R} (txHash vout : string) (asyncFn : IO X R) : IO X (Result R) :=
  redlock (getOnChainTxHashAndVoutLockResource txHash vout) asyncFn.

(** A lock that is only released when its time has passed. *)
Definition lockIdempotencyKey (idempotencyKey : string) : IO X (Result unit) :=
  failure ← ext (timelock (getIdempotencyKeyLockResource idempotencyKey));
  mret (match failure with
        | None => Ok tt
        | Some ExecutionError => Err ResourceAttemptsTimelockServiceError
        | Some (OtherFailure msg) => Err (UnknownLockServiceError msg)
        end).

(** Under a lock, the function runs at most once; what it does to the world is what the lock
    function does, but for the outside. *)
Lemma wp_redlock {R} `{Throws R} path (asyncFn : IO X R) (Q : Result R -> World X -> Prop) w :
  (∀ e x, Q (Err e) (with_outside w x)) ->
  (∀ x, wp asyncFn (fun r w' => ∀ x', Q (Ok r) (with_outside w' x') ∧ ∀ e, Q (Err e) (with_outside w' x'))
          (with_outside w x)) ->
  wp (redlock path asyncFn) Q w.
Proof.
  intros HErr Hfn. apply wp_bind, wp_ext. intros [f|] x _; [apply wp_ret, HErr|].
  apply wp_bind. eapply wp_mono; [apply Hfn|]. intros r w' HQ. apply wp_bind, wp_ext.
  intros released x' _. apply wp_ret. destruct (HQ x') as [HOk HE].
  destruct released; [apply HE|]. destruct (thrown r); [apply HE|apply HOk].
Qed.

End Locks.

(** ** Prices *)

(** The price service, the dealer's prices and the local cache of prices, by wallet currency (the
    cache keys [CurrentSatPrice] and [CurrentUsdCentPrice]).  Of a [RealTimePrice] only its [price]
    is used.  The cache hands out copies, and an error of it reads as no prices. *)
Class PriceServices (X : Type) := {
  getCentsFromSatsForImmediateBuy : Amount -> X -> Result Amount * X;
  getCentsFromSatsForImmediateSell : Amount -> X -> Result Amount * X;
  getSatsFromCentsForImmediateBuy : Amount -> X -> Result Amount * X;
  getSatsFromCentsForImmediateSell : Amount -> X -> Result Amount * X;
  getCentsFromSatsForFutureBuy : Amount -> X -> Result Amount * X;
  getCentsFromSatsForFutureSell : Amount -> X -> Result Amount * X;
  getSatsFromCentsForFutureBuy : Amount -> X -> Result Amount * X;
  getSatsFromCentsForFutureSell : Amount -> X -> Result Amount * X;
  getRealTimePrice : WalletCurrency -> DisplayCurrency -> X -> Result number * X;
  getCentsPerSatsExchangeMidRate : X -> Result WalletPriceRatio.t * X;
  cache_get : WalletCurrency -> X -> option (gmap string number) * X;
  cache_set : WalletCurrency -> gmap string number -> X -> unit * X;
}.

(** [s.toUpperCase()] of an ASCII string: currency codes are ASCII. *)
Definition upper (c : ascii) : ascii :=
  let n := nat_of_ascii c in
  if (97 <=? n)%nat && (n <=? 122)%nat then ascii_of_nat (n - 32) else c.
Fixpoint toUpperCase (s : string) : string :=
  match s with EmptyString => EmptyString | String c s' => String (upper c) (toUpperCase s') end.

Definition checkedToDisplayCurrency (currency : string) : Result DisplayCurrency :=
  if negb (truthy currency) || (4 <? String.length currency)%nat then Err InvalidDisplayCurrencyError
  else Ok (toUpperCase currency).

Section Prices.
Context {X : Type} `{PriceServices X} `{Intl} (RATIO_PRECISION : number) (usdHedgeEnabled : bool).

(** [!cachedPrices[currency]] is a test of the price object, so it only fails on a missing one. *)
Definition getCachedPrice (key : WalletCurrency) (currency : DisplayCurrency) : IO X (Result number) :=
  cachedPrices ← ext (cache_get key);
  mret (match cachedPrices ≫= lookup currency with
        | Some price => Ok price
        | None => Err PriceNotAvailableError
        end).

Definition getCurrentPrice (walletCurrency : WalletCurrency) (displayCurrency : DisplayCurrency)
    : IO X (Result number) :=
  checkedDisplayCurrency ←! checkedToDisplayCurrency displayCurrency;
  realtimePrice ← ext (getRealTimePrice walletCurrency checkedDisplayCurrency);
  match realtimePrice with
  | Err _ => getCachedPrice walletCurrency checkedDisplayCurrency
  | Ok price =>
      cachedPrices ← ext (cache_get walletCurrency);
      _ ← ext (cache_set walletCurrency (<[displayCurrency := price]> (default ∅ cachedPrices)));
      mret (Ok price)
  end.

Definition getCurrentSatPrice (currency : DisplayCurrency) : IO X (Result number) :=
  getCurrentPrice Btc currency.
Definition getCurrentUsdCentPrice (currency : DisplayCurrency) : IO X (Result number) :=
  getCurrentPrice Usd currency.

(** [price.price * 10 ** exponent] *)
Definition in_minor_unit (price : number) (currency : DisplayCurrency) : number :=
  num_mul price (Number (10 ^ Z.of_nat (getCurrencyMajorExponent currency))).

Definition getCurrentPriceAsWalletPriceRatio (currency : DisplayCurrency) : IO X (Result WalletPriceRatio.t) :=
  price ←? getCurrentSatPrice currency;
  mret (toWalletPriceRatio RATIO_PRECISION (in_minor_unit price currency)).

Definition getCurrentPriceAsDisplayPriceRatio (currency : DisplayCurrency) : IO X (Result DisplayPriceRatio.t) :=
  price ←? getCurrentSatPrice currency;
  mret (toDisplayPriceRatio RATIO_PRECISION (in_minor_unit price currency) currency Btc).

(** No [walletCurrency] is given to [toDisplayPriceRatio], whose default is BTC. *)
Definition getCurrentUsdCentPriceAsDisplayPriceRatio (currency : DisplayCurrency)
    : IO X (Result DisplayPriceRatio.t) :=
  price ←? getCurrentUsdCentPrice currency;
  mret (toDisplayPriceRatio RATIO_PRECISION (in_minor_unit price currency) currency Btc).

Definition getMidPriceRatio : IO X (Result WalletPriceRatio.t) :=
  if usdHedgeEnabled then
    priceRatio ← ext getCentsPerSatsExchangeMidRate;
    match priceRatio with
    | Err _ => getCurrentPriceAsWalletPriceRatio UsdDisplayCurrency
    | Ok r => mret (Ok r)
    end
  else getCurrentPriceAsWalletPriceRatio UsdDisplayCurrency.

Definition usdFromBtcMidPriceFn (amt : Amount) : IO X (Result Amount) :=
  midPriceRatio ←? getMidPriceRatio;
  mret (Ok (WalletPriceRatio.convertFromBtc midPriceRatio amt)).

Definition btcFromUsdMidPriceFn (amt : Amount) : IO X (Result Amount) :=
  midPriceRatio ←? getMidPriceRatio;
  mret (Ok (WalletPriceRatio.convertFromUsd midPriceRatio amt)).

Definition MIN_SATS_FOR_PRICE_RATIO_PRECISION : Z := 5000.

Definition getPriceRatioForLimits (paymentAmounts : AmountPair) : IO X (Result WalletPriceRatio.t) :=
  let amount := MIN_SATS_FOR_PRICE_RATIO_PRECISION in
  if paymentAmounts.(btc).(Shared.amount) <? amount then
    let btcPaymentAmountForRatio := {| Shared.amount := amount; currency := Btc |} in
    usdPaymentAmountForRatio ←? usdFromBtcMidPriceFn btcPaymentAmountForRatio;
    mret (WalletPriceRatio.make usdPaymentAmountForRatio btcPaymentAmountForRatio)
  else mret (WalletPriceRatio.make paymentAmounts.(usd) paymentAmounts.(btc)).

End Prices.

(** ** The Lightning node *)

Record PayInvoiceResult := mkPayInvoiceResult {
  roundedUpFee : number;
  revealedPreImage : string;
  sentFromPubkey : Pubkey;
}.

Inductive PaymentStatus := PaymentSettled | PaymentFailed | PaymentPending.

#[export] Instance PaymentStatus_eq_dec : EqDecision PaymentStatus.
Proof. solve_decision. Defined.

(** The part of [LnPaymentConfirmedDetails] that is used. *)
Record ConfirmedDetails := mkConfirmedDetails {
  cd_roundedUpFee : number;
  cd_revealedPreImage : string;
}.

(** [LnPaymentLookup | LnFailedPartialPaymentLookup]: the second has a failed status only. *)
Record LnPaymentLookup := mkLnPaymentLookup {
  lk_status : PaymentStatus;
  lk_roundedUpAmount : number;
  lk_confirmedDetails : option ConfirmedDetails;
}.

(** The part of [LnInvoiceLookup] that is used. *)
Record LnInvoiceLookup := mkLnInvoiceLookup {
  li_isSettled : bool;
  li_isHeld : bool;
  li_isCanceled : bool;
  li_roundedDownReceived : number;
  li_description : string;
}.

(** The service, which is known by its default pubkey: its two ways to pay an invoice, the lookups,
    what is done with an invoice that is held, and the route that a probe finds. *)
Class ILightningService (X : Type) := {
  LndService : X -> Result Pubkey * X;
  listAllPubkeys : X -> list Pubkey * X;
  payInvoiceViaRoutes : PaymentHash -> RawRoute -> option Pubkey -> X -> Result PayInvoiceResult * X;
  payInvoiceViaPaymentDetails : LnInvoice -> Amount -> Amount -> X -> Result PayInvoiceResult * X;
  findRouteForInvoice : LnInvoice -> Amount -> X -> Result (Pubkey * RawRoute) * X;
  lookupPayment : PaymentHash -> X -> Result LnPaymentLookup * X;
  lookupInvoice : Pubkey -> PaymentHash -> X -> Result LnInvoiceLookup * X;
  settleInvoice : Pubkey -> string -> X -> Result unit * X;
  cancelInvoice : Pubkey -> PaymentHash -> X -> Result unit * X;
}.

(** The fee of a payment is a whole number of satoshis. *)
Definition whole_fee (fee : number) : Prop := ∃ z, fee = Number z ∧ 0 <= z < 2 ^ 53.

Class LightningServiceLaws (X : Type) `{ILightningService X} : Prop :=
  fee_whole : ∀ inv amt max x res x', payInvoiceViaPaymentDetails inv amt max x = (Ok res, x') ->
    whole_fee res.(roundedUpFee).

(** ** The label of cent amounts *)

Lemma toDisplayPriceRatio_currency `{Intl} precision ratio c wc r :
  toDisplayPriceRatio precision ratio c wc = Ok r ->
  ∀ a, (DisplayPriceRatio.convertFromDisplayMinorUnit r a).(currency) = wc.
Proof.
  unfold toDisplayPriceRatio, DisplayPriceRatio.make, PriceRatio.make.
  destruct (safeBigInt _); [|done]. cbn [mbind result_bind]. destruct (BigInt _); [|done].
  case_match; [done|]. intros [= <-] d. unfold DisplayPriceRatio.convertFromDisplayMinorUnit, PriceRatio.convertFromOther.
  cbn. by case_match.
Qed.

(** The ratio for cents converts every display amount to an amount labelled BTC. *)
Theorem cent_ratio_labelled_btc {X} `{PriceServices X} `{Intl} precision c (w : World X) :
  wp (getCurrentUsdCentPriceAsDisplayPriceRatio precision c) (fun r _ =>
    ∀ ratio a, r = Ok ratio ->
      (DisplayPriceRatio.convertFromDisplayMinorUnit ratio a).(currency) = Btc) w.
Proof.
  unfold wp, getCurrentUsdCentPriceAsDisplayPriceRatio, bind_or, mbind, IO_bind.
  destruct (getCurrentUsdCentPrice c w) as [[price|e] w']; cbn; [|by intros].
  intros ratio a E. by eapply toDisplayPriceRatio_currency.
Qed.

Module PriceExamples.

(** The outside: whether the price service answers, and the cache. *)
#[local] Instance prices : PriceServices (bool * gmap string number) := {
  getRealTimePrice _ _ x := ((if x.1 then Ok (Number 2) else Err PriceNotAvailableError), x);
  getCentsFromSatsForImmediateBuy _ x := (Err PriceNotAvailableError, x);
  getCentsFromSatsForImmediateSell _ x := (Err PriceNotAvailableError, x);
  getSatsFromCentsForImmediateBuy _ x := (Err PriceNotAvailableError, x);
  getSatsFromCentsForImmediateSell _ x := (Err PriceNotAvailableError, x);
  getCentsFromSatsForFutureBuy _ x := (Err PriceNotAvailableError, x);
  getCentsFromSatsForFutureSell _ x := (Err PriceNotAvailableError, x);
  getSatsFromCentsForFutureBuy _ x := (Err PriceNotAvailableError, x);
  getSatsFromCentsForFutureSell _ x := (Err PriceNotAvailableError, x);
  getCentsPerSatsExchangeMidRate x := (Err PriceNotAvailableError, x);
  cache_get _ x := (Some x.2, x);
  cache_set _ m x := (tt, (x.1, m));
}.
#[local] Instance two_digits : Intl := fun _ => Some 2.

Definition at_ (up : bool) (m : gmap string number) : World (bool * gmap string number) :=
  mkWorld [] [] [] [] [] [] [] [] [] [] (mkBankWallets None None None None) (up, m).

(** The ratio for cents exists, so the label is that of real amounts. *)
Example cent_ratio_exists :
  ∃ ratio, (getCurrentUsdCentPriceAsDisplayPriceRatio (Number 1000000) "USD" (at_ true ∅)).1 = Ok ratio ∧
    DisplayPriceRatio.convertFromDisplayMinorUnit ratio (toDisplayAmount 400 "USD")
    = {| amount := 2; currency := Btc |}.
Proof. eexists. split; vm_compute; reflexivity. Qed.

(** A price asked for in lower case is cached under a key that is never read: when the service is
    down it is not found, while one asked for in upper case is. *)
Example lower_case_not_cached :
  let after c := (getCurrentPrice Btc c (at_ true ∅)).2.(outside).2 in
  (getCurrentPrice Btc "eur" (at_ false (after "eur"))).1 = Err PriceNotAvailableError ∧
  (getCurrentPrice Btc "EUR" (at_ false (after "EUR"))).1 = Ok (Number 2).
Proof. split; vm_compute; reflexivity. Qed.

End PriceExamples.
