(* ===== verification/Repositories.v ===== *)
(** * Repositories

    Models the repositories of [services/mongoose] that the payments use: the states of Lightning
    payment flows ([payment-flow.ts]), the Lightning payments sent ([ln-payments.ts]), wallets
    ([wallets.ts]), and the lookups of accounts ([accounts.ts]) and users ([users.ts]) by their id.  [RepositoryError] stands for each class that [parseRepositoryError] chooses by
    the message, and for [UnknownRepositoryError].  An update of mongoose sets the fields it is
    given and leaves the others, and a field the schema does not have is not stored.  A flow that is
    stored is read back as it was but for [skipProbeForDestination], and a flow that was sent and is
    pending is never dropped for its age. *)

From S2P Require Import Prelude JsNumber Shared Prices Fees Lightning PaymentFlow LedgerEntry TxMetadata.
From S2P Require Import LedgerTx TxHistory Limits World LedgerBook LedgerService.

(** ** Payment flows *)

(** The hash that identifies a flow. *)
Definition flow_hash (paymentHash intraLedgerHash : option string) : option (option string * option string) :=
  if truthy paymentHash then Some (paymentHash, None)
  else if truthy intraLedgerHash then Some (None, intraLedgerHash)
  else None.

Definition paymentFlowFromRaw (r : PaymentFlowStateRecord) : Result PaymentFlowState :=
  inputAmount ← safeBigInt r.(fr_inputAmount);
  match flow_hash r.(fr_paymentHash) r.(fr_intraLedgerHash) with
  | None => Err InvalidLightningPaymentFlowStateError
  | Some (paymentHash, intraLedgerHash) =>
      btcPaymentAmount ← paymentAmountFromNumber r.(fr_btcPaymentAmount) Btc;
      usdPaymentAmount ← paymentAmountFromNumber r.(fr_usdPaymentAmount) Usd;
      btcProtocolAndBankFee ← paymentAmountFromNumber r.(fr_btcProtocolAndBankFee) Btc;
      usdProtocolAndBankFee ← paymentAmountFromNumber r.(fr_usdProtocolAndBankFee) Usd;
      Ok {|
        pf_common := {|
          senderWalletId := r.(fr_senderWalletId);
          senderWalletCurrency := r.(fr_senderWalletCurrency);
          senderAccountId := r.(fr_senderAccountId);
          settlementMethod := r.(fr_settlementMethod);
          paymentInitiationMethod := r.(fr_paymentInitiationMethod);
          createdAt := r.(fr_createdAt);
          paymentSentAndPending := r.(fr_paymentSentAndPending);
          inputAmount := inputAmount;
          btcPaymentAmount := btcPaymentAmount;
          usdPaymentAmount := usdPaymentAmount;
          btcProtocolAndBankFee := btcProtocolAndBankFee;
          usdProtocolAndBankFee := usdProtocolAndBankFee;
          recipientWalletId := or_undefined r.(fr_recipientWalletId);
          recipientWalletCurrency := r.(fr_recipientWalletCurrency);
          recipientAccountId := or_undefined r.(fr_recipientAccountId);
          recipientPubkey := or_undefined r.(fr_recipientPubkey);
          recipientUsername := or_undefined r.(fr_recipientUsername);
          recipientUserId := or_undefined r.(fr_recipientUserId);
          outgoingNodePubkey := or_undefined r.(fr_outgoingNodePubkey);
          cachedRoute := r.(fr_cachedRoute);
        |};
        paymentHash := paymentHash;
        intraLedgerHash := intraLedgerHash;
        descriptionFromInvoice := r.(fr_descriptionFromInvoice);
        skipProbeForDestination := default false r.(fr_skipProbeForDestination);
      |}
  end.

Definition rawFromPaymentFlow (f : PaymentFlowState) : Result PaymentFlowStateRecord :=
  match flow_hash f.(paymentHash) f.(intraLedgerHash) with
  | None => Err InvalidLightningPaymentFlowStateError
  | Some (paymentHash, intraLedgerHash) =>
      Ok {|
        fr_paymentHash := paymentHash;
        fr_intraLedgerHash := intraLedgerHash;
        fr_senderWalletId := f.(senderWalletId);
        fr_senderWalletCurrency := f.(senderWalletCurrency);
        fr_senderAccountId := f.(senderAccountId);
        fr_settlementMethod := f.(settlementMethod);
        fr_paymentInitiationMethod := f.(paymentInitiationMethod);
        fr_descriptionFromInvoice := f.(descriptionFromInvoice);
        fr_skipProbeForDestination := Some f.(skipProbeForDestination);
        fr_createdAt := f.(createdAt);
        fr_paymentSentAndPending := f.(paymentSentAndPending);
        fr_btcPaymentAmount := Number f.(btcPaymentAmount).(amount);
        fr_usdPaymentAmount := Number f.(usdPaymentAmount).(amount);
        fr_inputAmount := Number f.(inputAmount);
        fr_btcProtocolAndBankFee := Number f.(btcProtocolAndBankFee).(amount);
        fr_usdProtocolAndBankFee := Number f.(usdProtocolAndBankFee).(amount);
        fr_recipientWalletId := f.(recipientWalletId);
        fr_recipientWalletCurrency := f.(recipientWalletCurrency);
        fr_recipientAccountId := f.(recipientAccountId);
        fr_recipientPubkey := f.(recipientPubkey);
        fr_recipientUsername := f.(recipientUsername);
        fr_recipientUserId := f.(recipientUserId);
        fr_outgoingNodePubkey := f.(outgoingNodePubkey);
        fr_cachedRoute := f.(cachedRoute);
      |}
  end.

(** The index of a flow: its hash, the sender's wallet and the amount. *)
Definition flow_index (hash : option string * option string) (walletId : WalletId) (inputAmount : Z)
    (r : PaymentFlowStateRecord) : bool :=
  match hash.1 with
  | Some h => bool_decide (r.(fr_paymentHash) = Some h)
  | None => bool_decide (r.(fr_intraLedgerHash) = hash.2)
  end && bool_decide (r.(fr_senderWalletId) = walletId) && num_eqb r.(fr_inputAmount) (Number inputAmount).

(** [elapsedSinceTimestamp(paymentFlow.createdAt) > expiryTimeInSeconds] *)
Definition isExpired (now : Z) (expiryTimeInSeconds : Z) (paymentFlow : PaymentFlowState) : bool :=
  if paymentFlow.(paymentSentAndPending) then false
  else num_ltb (Number expiryTimeInSeconds)
         (num_div (Number (now - paymentFlow.(createdAt))) (Number 1000)).

Definition with_flow_pending (pending : bool) (r : PaymentFlowStateRecord) : PaymentFlowStateRecord :=
  mkFlowRecord r.(fr_paymentHash) r.(fr_intraLedgerHash) r.(fr_senderWalletId) r.(fr_senderWalletCurrency)
    r.(fr_senderAccountId) r.(fr_settlementMethod) r.(fr_paymentInitiationMethod)
    r.(fr_descriptionFromInvoice) r.(fr_skipProbeForDestination) r.(fr_createdAt) pending
    r.(fr_btcPaymentAmount) r.(fr_usdPaymentAmount) r.(fr_inputAmount) r.(fr_btcProtocolAndBankFee)
    r.(fr_usdProtocolAndBankFee) r.(fr_recipientWalletId) r.(fr_recipientWalletCurrency)
    r.(fr_recipientAccountId) r.(fr_recipientPubkey) r.(fr_recipientUsername) r.(fr_recipientUserId)
    r.(fr_outgoingNodePubkey) r.(fr_cachedRoute).

(** What [paymentFlowStateSchema] keeps of a record: every field but [skipProbeForDestination]. *)
Definition paymentFlowStateSchema (r : PaymentFlowStateRecord) : PaymentFlowStateRecord :=
  mkFlowRecord r.(fr_paymentHash) r.(fr_intraLedgerHash) r.(fr_senderWalletId) r.(fr_senderWalletCurrency)
    r.(fr_senderAccountId) r.(fr_settlementMethod) r.(fr_paymentInitiationMethod)
    r.(fr_descriptionFromInvoice) None r.(fr_createdAt) r.(fr_paymentSentAndPending)
    r.(fr_btcPaymentAmount) r.(fr_usdPaymentAmount) r.(fr_inputAmount) r.(fr_btcProtocolAndBankFee)
    r.(fr_usdProtocolAndBankFee) r.(fr_recipientWalletId) r.(fr_recipientWalletCurrency)
    r.(fr_recipientAccountId) r.(fr_recipientPubkey) r.(fr_recipientUsername) r.(fr_recipientUserId)
    r.(fr_outgoingNodePubkey) r.(fr_cachedRoute).

(** A field of an update: an undefined one leaves the stored value. *)
Definition set_field {A} (new old : option A) : option A :=
  match new with Some a => Some a | None => old end.

(** The record [old] after the update [r]. *)
Definition update_flow (r old : PaymentFlowStateRecord) : PaymentFlowStateRecord :=
  mkFlowRecord (set_field r.(fr_paymentHash) old.(fr_paymentHash))
    (set_field r.(fr_intraLedgerHash) old.(fr_intraLedgerHash))
    r.(fr_senderWalletId) r.(fr_senderWalletCurrency)
    r.(fr_senderAccountId) r.(fr_settlementMethod) r.(fr_paymentInitiationMethod)
    r.(fr_descriptionFromInvoice) old.(fr_skipProbeForDestination) r.(fr_createdAt) r.(fr_paymentSentAndPending)
    r.(fr_btcPaymentAmount) r.(fr_usdPaymentAmount) r.(fr_inputAmount) r.(fr_btcProtocolAndBankFee)
    r.(fr_usdProtocolAndBankFee) (set_field r.(fr_recipientWalletId) old.(fr_recipientWalletId))
    (set_field r.(fr_recipientWalletCurrency) old.(fr_recipientWalletCurrency))
    (set_field r.(fr_recipientAccountId) old.(fr_recipientAccountId))
    (set_field r.(fr_recipientPubkey) old.(fr_recipientPubkey))
    (set_field r.(fr_recipientUsername) old.(fr_recipientUsername))
    (set_field r.(fr_recipientUserId) old.(fr_recipientUserId))
    (set_field r.(fr_outgoingNodePubkey) old.(fr_outgoingNodePubkey))
    (set_field r.(fr_cachedRoute) old.(fr_cachedRoute)).

(** The first element that matches is replaced, or removed; the second component says whether there
    was one. *)
Fixpoint update_first {A} (matches : A -> bool) (update : A -> option A) (l : list A) : list A * option A :=
  match l with
  | [] => ([], None)
  | x :: l =>
      if matches x then (match update x with Some y => y :: l | None => l end, Some (default x (update x)))
      else let '(l', found) := update_first matches update l in (x :: l', found)
  end.

Lemma update_first_found {A} (f : A -> bool) (u : A -> option A) l :
  match update_first f u l with
  | (l', None) => l' = l ∧ Forall (fun a => f a = false) l
  | (l', Some y) => ∃ l1 a l2, l = l1 ++ a :: l2 ∧ f a = true ∧ y = default a (u a) ∧
      l' = l1 ++ match u a with Some y => y :: l2 | None => l2 end
  end.
Proof.
  induction l as [|a l IH]; [done|]. cbn. destruct (f a) eqn:E; [by exists [], a, l|].
  destruct (update_first f u l) as [l' [y|]].
  - destruct IH as (l1 & b & l2 & -> & Hb & Hy & ->). by exists (a :: l1), b, l2.
  - destruct IH as [-> IH]. split; [done|by constructor].
Qed.

(** [Account], without its creation date and role *)
Record AccountContact := mkAccountContact {
  ac_username : Username;
  ac_alias : string;
  ac_transactionsCount : Z;
}.
Record Account := mkAccount {
  acc_id : AccountId;
  acc_username : option Username;
  acc_level : AccountLevel;
  acc_status : AccountStatus;
  acc_statusHistory : list StatusEntry;
  acc_contactEnabled : bool;
  acc_contacts : list AccountContact;
  acc_withdrawFee : option number;
  acc_kratosUserId : UserId;
  acc_displayCurrency : DisplayCurrency;
  acc_defaultWalletId : option WalletId;
}.

Definition contacts_of (l : list ContactRecord) : list AccountContact :=
  omap (fun contact => if truthy contact.(ct_id) then
          Some {| ac_username := contact.(ct_id); ac_alias := js_or contact.(ct_name) contact.(ct_id);
                  ac_transactionsCount := contact.(ct_transactionsCount) |} else None) l.

(** The last status of an empty history is a TypeError. *)
Definition translateToAccount (r : AccountRecord) : result string Account :=
  match last r.(ar_statusHistory) with
  | None => Err "TypeError"
  | Some status => Ok {|
      acc_id := r.(ar_id); acc_username := r.(ar_username); acc_level := r.(ar_level);
      acc_status := status.(se_status); acc_statusHistory := r.(ar_statusHistory); acc_contactEnabled := r.(ar_contactEnabled);
      acc_contacts := contacts_of r.(ar_contacts); acc_withdrawFee := r.(ar_withdrawFee);
      acc_kratosUserId := r.(ar_kratosUserId);
      acc_displayCurrency := js_or r.(ar_displayCurrency) UsdDisplayCurrency;
      acc_defaultWalletId := r.(ar_defaultWalletId) |}
  end.

Section RepositoryFns.
Context {X : Type} `{Database X}.

Definition persistNewFlow (paymentFlow : PaymentFlowState) : IO X (Result PaymentFlowState) :=
  raw ←! rawFromPaymentFlow paymentFlow;
  let paymentFlowState := paymentFlowStateSchema raw in
  _ ←? catch_as RepositoryError (db (modify (fun w => with_paymentFlows w (w.(paymentFlows) ++ [paymentFlowState]))));
  mret (paymentFlowFromRaw paymentFlowState).

Definition deleteLightningPaymentFlow (hash : option string * option string) (walletId : WalletId)
    (inputAmount : Z) : IO X (Result bool) :=
  deleted ←? catch_as RepositoryError (db
    (l ← gets paymentFlows;
     let '(l', deleted) := update_first (flow_index hash walletId inputAmount) (fun _ => None) l in
     _ ← modify (fun w => with_paymentFlows w l');
     mret deleted));
  mret (match deleted with None => Err CouldNotFindLightningPaymentFlowError | Some _ => Ok true end).

(** A flow that has expired is deleted, without waiting for the deletion. *)
Definition findLightningPaymentFlow (expiryTimeInSeconds : Z) (walletId : WalletId)
    (paymentHash intraLedgerHash : option string) (inputAmount : Z) : IO X (Result PaymentFlowState) :=
  match flow_hash paymentHash intraLedgerHash with
  | None => mret (Err BadInputsForFindError)
  | Some hash =>
      result ←? catch_as RepositoryError
        (db (gets (fun w => head (filter (fun r => flow_index hash walletId inputAmount r = true) w.(paymentFlows)))));
      match result with
      | None => mret (Err CouldNotFindLightningPaymentFlowError)
      | Some raw =>
          paymentFlow ←! paymentFlowFromRaw raw;
          now ← ext Date_now;
          if isExpired now expiryTimeInSeconds paymentFlow then
            _ ← deleteLightningPaymentFlow hash walletId inputAmount;
            mret (Err CouldNotFindLightningPaymentFlowError)
          else mret (Ok paymentFlow)
      end
  end.

(** The filter has the payment hash of the flow only: a flow without one is looked for among the
    records that have none. *)
Definition updateLightningPaymentFlow (paymentFlow : PaymentFlowState) : IO X (Result bool) :=
  raw ←! rawFromPaymentFlow paymentFlow;
  result ←? catch_as RepositoryError (db
    (l ← gets paymentFlows;
     let matches r := bool_decide (r.(fr_senderWalletId) = paymentFlow.(senderWalletId))
       && bool_decide (r.(fr_paymentHash) = paymentFlow.(PaymentFlow.paymentHash))
       && num_eqb r.(fr_inputAmount) (Number paymentFlow.(inputAmount)) in
     let '(l', found) := update_first matches (fun old => Some (update_flow raw old)) l in
     _ ← modify (fun w => with_paymentFlows w l');
     mret found));
  mret (match result with None => Err CouldNotUpdateLightningPaymentFlowError | Some _ => Ok true end).

Definition markLightningPaymentFlowNotPending (walletId : WalletId)
    (paymentHash intraLedgerHash : option string) (inputAmount : Z) : IO X (Result PaymentFlowState) :=
  match flow_hash paymentHash intraLedgerHash with
  | None => mret (Err InvalidLightningPaymentFlowStateError)
  | Some hash =>
      result ←? catch_as RepositoryError (db
        (l ← gets paymentFlows;
         let '(l', found) := update_first (flow_index hash walletId inputAmount)
                               (fun r => Some (with_flow_pending false r)) l in
         _ ← modify (fun w => with_paymentFlows w l');
         mret found));
      mret (match result with
            | None => Err CouldNotUpdateLightningPaymentFlowError
            | Some raw => paymentFlowFromRaw raw
            end)
  end.

Definition flow_stale (expired : Z) (r : PaymentFlowStateRecord) : bool :=
  (r.(fr_createdAt) <=? expired) && negb r.(fr_paymentSentAndPending).

Definition deleteExpiredLightningPaymentFlows (expiryTimeInSeconds : Z) : IO X (Result nat) :=
  now ← ext Date_now;
  let timestampExpired := now - expiryTimeInSeconds * 1000 in
  deletedCount ←? catch_as RepositoryError (db
    (l ← gets paymentFlows;
     _ ← modify (fun w => with_paymentFlows w (filter (fun r => flow_stale timestampExpired r = false) l));
     mret (length (filter (fun r => flow_stale timestampExpired r = true) l))));
  mret (if (deletedCount =? 0)%nat then Err NoExpiredLightningPaymentFlowsError else Ok deletedCount).

(** ** Lightning payments *)

Definition findByPaymentHash (paymentHash : PaymentHash) : IO X (Result LnPaymentRecord) :=
  repo (fun w => match filter (fun p => p.(lp_paymentHash) = paymentHash) w.(lnPayments) with
                 | [] => Err (CouldNotFindLnPaymentFromHashError paymentHash)
                 | p :: _ => Ok p
                 end).

(** The record [old] after the update with a payment. *)
Definition update_payment (payment old : LnPaymentRecord) : LnPaymentRecord := {|
  lp_paymentHash := payment.(lp_paymentHash);
  lp_paymentRequest := set_field payment.(lp_paymentRequest) old.(lp_paymentRequest);
  lp_sentFromPubkey := set_field payment.(lp_sentFromPubkey) old.(lp_sentFromPubkey);
|}.

(** The payment is inserted, or updates the one of its hash. *)
Definition persistNewLnPayment (payment : LnPaymentRecord) : IO X (Result LnPaymentRecord) :=
  catch_as RepositoryError (db
    (l ← gets lnPayments;
     let matches p := bool_decide (p.(lp_paymentHash) = payment.(lp_paymentHash)) in
     let '(l', found) := update_first matches (fun old => Some (update_payment payment old)) l in
     _ ← modify (fun w => with_lnPayments w (match found with Some _ => l' | None => l ++ [payment] end));
     mret (default payment found))).

(** ** Wallets *)

Definition findWalletById (walletId : WalletId) : IO X (Result Wallet) :=
  repo (fun w => match filter (fun wl : Wallet => wl.(w_id) = walletId) w.(wallets) with
                 | [] => Err CouldNotFindWalletFromIdError
                 | wl :: _ => Ok wl
                 end).

Definition findForAccountById (accountId : AccountId) (walletId : WalletId) : IO X (Result Wallet) :=
  repo (fun w => match filter (fun wl : Wallet => wl.(w_id) = walletId ∧ wl.(w_accountId) = accountId) w.(wallets) with
                 | [] => Err CouldNotFindWalletFromIdError
                 | wl :: _ => Ok wl
                 end).

Definition listByAccountId (accountId : AccountId) : IO X (Result (list Wallet)) :=
  repo (fun w => match filter (fun wl : Wallet => wl.(w_accountId) = accountId) w.(wallets) with
                 | [] => Err (CouldNotListWalletsFromAccountIdError ("AccountId: " ++ accountId ++ "}")%string)
                 | wls => Ok wls
                 end).

Definition single_wallet (c : WalletCurrency) (wls : list Wallet) : Result WalletDescriptor :=
  match filter (fun wl : Wallet => wl.(w_currency) = c) wls with
  | [] => Err (CouldNotFindWalletFromAccountIdAndCurrencyError c)
  | [wl] => Ok wl.(wl_descriptor)
  | _ => Err (MultipleWalletsFoundForAccountIdAndCurrency c)
  end.

Definition findAccountWalletsByAccountId (accountId : AccountId) : IO X (Result AccountWalletDescriptors) :=
  wallets ←? listByAccountId accountId;
  mret (btcWallet ← single_wallet Btc wallets;
        usdWallet ← single_wallet Usd wallets;
        Ok {| BTC := btcWallet; USD := usdWallet |}).

(** [findOne] of the wallets that have the address *)
Definition findByAddress (address : OnChainAddress) : IO X (Result Wallet) :=
  repo (fun w => match filter (fun wl : Wallet => address ∈ wl.(wl_onChainAddresses)) w.(wallets) with
                 | [] => Err CouldNotFindWalletFromOnChainAddressError
                 | wl :: _ => Ok wl
                 end).

Definition listByAddresses (addresses : list OnChainAddress) : IO X (Result (list Wallet)) :=
  repo (fun w => match filter (fun wl : Wallet => Exists (fun a => a ∈ addresses) wl.(wl_onChainAddresses)) w.(wallets) with
                 | [] => Err CouldNotFindWalletFromOnChainAddressesError
                 | wls => Ok wls
                 end).

(** ** Accounts and users *)

Definition findAccountById (accountId : AccountId) : IO X (Result Account) :=
  repo (fun w => match filter (fun r : AccountRecord => r.(ar_id) = accountId) w.(accounts) with
                 | [] => Err (CouldNotFindAccountFromIdError accountId)
                 | r :: _ => match translateToAccount r with
                             | Ok account => Ok account
                             | Err msg => Err (RepositoryError msg)
                             end
                 end).

(** The id of the user: a user that is not stored has default values. *)
Definition findUserById (id : UserId) : IO X (Result UserId) := repo (fun _ => Ok id).

End RepositoryFns.

(** ** Storing and reading a flow *)

(** A flow as the builders make it: one of the hashes, amounts in their currencies that a float
    holds, no empty strings. *)
Record storable (f : PaymentFlowState) : Prop := {
  st_hash : (∃ h, f.(paymentHash) = Some h ∧ h ≠ "" ∧ f.(intraLedgerHash) = None) ∨
            (∃ h, f.(intraLedgerHash) = Some h ∧ h ≠ "" ∧ f.(paymentHash) = None);
  st_input : safe_integer f.(inputAmount);
  st_amounts : Forall (fun '(a, c) => safe_integer a.(amount) ∧ a.(currency) = c)
    [(f.(btcPaymentAmount), Btc); (f.(usdPaymentAmount), Usd);
     (f.(btcProtocolAndBankFee), Btc); (f.(usdProtocolAndBankFee), Usd)];
  st_strings : Forall (fun o => o ≠ Some "")
    [f.(recipientWalletId); f.(recipientAccountId); f.(recipientPubkey); f.(recipientUsername);
     f.(recipientUserId); f.(outgoingNodePubkey)];
}.

(** The flow as it is read from the collection. *)
Definition without_skip (f : PaymentFlowState) : PaymentFlowState :=
  {| pf_common := f.(pf_common); paymentHash := f.(paymentHash); intraLedgerHash := f.(intraLedgerHash);
     descriptionFromInvoice := f.(descriptionFromInvoice); skipProbeForDestination := false |}.

Lemma or_undefined_option (o : option string) : o ≠ Some "" -> or_undefined o = o.
Proof. destruct o as [s|]; [|done]. intros Hs. apply or_undefined_string. congruence. Qed.

Lemma truthy_hash (h : string) : h ≠ "" -> truthy (Some h) = true.
Proof. intros Hh. unfold truthy, truthy_option, truthy, truthy_string. by apply bool_decide_eq_true. Qed.

Lemma amount_read a c : safe_integer a.(amount) ∧ a.(currency) = c ->
  paymentAmountFromNumber (Number a.(amount)) c = Ok a.
Proof. intros [Ha <-]. rewrite paymentAmountFromNumber_Number by done. by destruct a. Qed.

Lemma storable_hash f : storable f ->
  flow_hash f.(paymentHash) f.(intraLedgerHash) = Some (f.(paymentHash), f.(intraLedgerHash)).
Proof.
  intros [Hh _ _ _]. unfold flow_hash.
  destruct Hh as [(h & Hp & Hne & Hq)|(h & Hq & Hne & Hp)]; rewrite Hp, Hq.
  - by rewrite (truthy_hash h Hne).
  - cbn [truthy truthy_option]. change (truthy h) with (truthy (Some h)). by rewrite (truthy_hash h Hne).
Qed.

Lemma flow_read f : storable f ->
  ∃ raw, rawFromPaymentFlow f = Ok raw ∧ paymentFlowFromRaw (paymentFlowStateSchema raw) = Ok (without_skip f).
Proof.
  intros Hf. pose proof (storable_hash f Hf) as E.
  destruct Hf as [_ Hi Ha Hs]. inversion_clear Ha as [|? ? A1 Ha']. inversion_clear Ha' as [|? ? A2 Ha].
  inversion_clear Ha as [|? ? A3 Ha']. inversion_clear Ha' as [|? ? A4 _].
  rewrite !Forall_cons in Hs. destruct Hs as (S1 & S2 & S3 & S4 & S5 & S6 & _).
  unfold rawFromPaymentFlow. rewrite E. eexists. split; [done|].
  unfold paymentFlowFromRaw, paymentFlowStateSchema.
  cbn [fr_inputAmount fr_paymentHash fr_intraLedgerHash fr_btcPaymentAmount fr_usdPaymentAmount
       fr_btcProtocolAndBankFee fr_usdProtocolAndBankFee].
  rewrite safeBigInt_Number by done. cbn [mbind result_bind].
  rewrite E, (amount_read _ _ A1), (amount_read _ _ A2), (amount_read _ _ A3), (amount_read _ _ A4).
  cbn -[or_undefined]. rewrite !or_undefined_option by done. by destruct f as [[] ? ? ? ?].
Qed.

(** C35. Storing a payment flow either fails and leaves the collection as it was, or appends one
    record and returns the flow that record is read as: the flow that was stored, but with
    [skipProbeForDestination] unset, which the schema of the collection does not have. *)
Theorem paymentFlow_stored {X} `{Database X} (w : World X) f (Hf : storable f) :
  wp (persistNewFlow f) (fun r w' =>
    match r with
    | Err _ => w'.(paymentFlows) = w.(paymentFlows)
    | Ok f' => f' = without_skip f ∧
        ∃ raw, w'.(paymentFlows) = w.(paymentFlows) ++ [raw] ∧ paymentFlowFromRaw raw = Ok f'
    end) w.
Proof.
  destruct (flow_read f Hf) as (raw & E & Er). unfold persistNewFlow. rewrite E.
  apply wp_or_return; [|done]. intros ? [= <-]. apply wp_bind_or, wp_catch, wp_db; [done|].
  intros x. apply wp_modify, wp_ret. rewrite Er. eauto.
Qed.

(** ** Pending flows *)

Lemma update_first_none {A} (matches : A -> bool) update l :
  filter (fun x => matches x = true) l = [] -> update_first matches update l = (l, None).
Proof.
  induction l as [|x l IH]; [done|]. rewrite filter_cons. cbn. case_decide as E; [done|]. intros Hl.
  apply not_true_is_false in E. by rewrite E, IH.
Qed.

(** What a deletion removes is the first match. *)
Lemma update_first_delete {A} (matches : A -> bool) l x :
  head (filter (fun y => matches y = true) l) = Some x ->
  ∃ l1 l2, l = l1 ++ x :: l2 ∧ update_first matches (fun _ => None) l = (l1 ++ l2, Some x).
Proof.
  induction l as [|y l IH]; [done|]. rewrite filter_cons. cbn. case_decide as E.
  - intros [= ->]. rewrite E. by exists [], l.
  - apply not_true_is_false in E. rewrite E. intros Hx. destruct (IH Hx) as (l1 & l2 & -> & ->).
    by exists (y :: l1), l2.
Qed.

Section Pending.
Context {X : Type} `{Database X}.
Implicit Types (w : World X).

(** Every pending flow of [w] is still there. *)
Definition keeps_pending w w' : Prop :=
  ∀ r, r ∈ w.(paymentFlows) -> r.(fr_paymentSentAndPending) = true -> r ∈ w'.(paymentFlows).

Lemma keeps_same w w' : w'.(paymentFlows) = w.(paymentFlows) -> keeps_pending w w'.
Proof. by intros E r Hr _; rewrite E. Qed.

Lemma flow_expired_not_pending raw f now e : paymentFlowFromRaw raw = Ok f -> isExpired now e f = true ->
  raw.(fr_paymentSentAndPending) = false.
Proof.
  unfold paymentFlowFromRaw. destruct (safeBigInt _); [|done]. cbn [mbind result_bind].
  destruct (flow_hash _ _) as [[]|]; [|done].
  repeat (destruct (paymentAmountFromNumber _ _)); cbn [mbind result_bind]; try done. intros [= <-]. unfold isExpired. cbn.
  by destruct (fr_paymentSentAndPending raw).
Qed.

(** What the clock shows when a lookup reads it, after its query. *)
Definition lookup_time w : Z := (Date_now (db_fault w.(outside)).2).1.

(** C34. A flow whose payment was sent and is pending is never dropped for its age, neither by the
    clean-up of expired flows nor by a lookup, and a lookup never answers with a flow that has expired by
    the time at which it reads the clock. *)
Theorem pending_flows_kept w e walletId ph ih amt :
  wp (deleteExpiredLightningPaymentFlows e) (fun _ w' => keeps_pending w w') w ∧
  wp (findLightningPaymentFlow e walletId ph ih amt) (fun r w' => keeps_pending w w' ∧
    ∀ f, r = Ok f -> isExpired (lookup_time w) e f = false) w.
Proof.
  assert (Hsame := keeps_same w). split.
  - apply wp_bind, wp_ext. intros now x _. apply wp_bind_or, wp_catch, wp_db; [intros; by apply Hsame|].
    intros x'. apply wp_bind, wp_gets, wp_bind, wp_modify, wp_ret, wp_ret. intros r Hr Hp.
    apply list_elem_of_filter. split; [|done]. unfold flow_stale. rewrite Hp. apply andb_false_r.
  - unfold findLightningPaymentFlow.
    destruct (flow_hash ph ih) as [hash|]; [|apply wp_ret; split; [by apply Hsame|done]].
    apply wp_bind_or, wp_catch, wp_bind, wp_ext. intros [msg|] x Hx; [apply wp_ret; split; [by apply Hsame|done]|].
    apply wp_bind, wp_gets, wp_ret.
    cbn [paymentFlows with_outside].
    destruct (head _) as [raw|] eqn:Hraw; [|apply wp_ret; split; [by apply Hsame|done]].
    apply wp_or_return; [|intros; split; [by apply Hsame|done]].
    intros f Hf. apply wp_bind, wp_ext. intros now x' Hn.
    destruct (isExpired now e f) eqn:He.
    2: { apply wp_ret. split; [by apply Hsame|]. intros ? [= <-]. unfold lookup_time. rewrite Hx. cbn in Hn |- *. by rewrite Hn. }
    destruct (update_first_delete _ _ _ Hraw) as (l1 & l2 & Hl & Hu).
    apply wp_bind. unfold deleteLightningPaymentFlow.
    apply wp_bind_or, wp_catch, wp_db; [intros; apply wp_ret; split; [by apply Hsame|done]|].
    intros x''. apply wp_bind, wp_gets. cbn [paymentFlows with_outside]. rewrite Hu.
    apply wp_bind, wp_modify, wp_ret, wp_ret, wp_ret. split; [|done]. intros r Hr Hp. cbn. rewrite Hl in Hr.
    pose proof (flow_expired_not_pending _ _ _ _ Hf He) as Hp'.
    rewrite elem_of_app, elem_of_cons in Hr. rewrite elem_of_app.
    destruct Hr as [?|[->|?]]; [by left|congruence|by right].
Qed.

End Pending.

Module RepositoryExamples.

#[local] Instance steady : Database unit := {
  db_fault x := (None, x);
  Date_now x := (0, x);
}.

Definition empty : World unit :=
  mkWorld [] [] [] [] [] [] [] [] [] [] (mkBankWallets None None None None) tt.

Definition flow : PaymentFlowState := {| pf_common :=
    {| senderWalletId := "alice"; senderWalletCurrency := Btc; senderAccountId := "account";
       settlementMethod := SettleLightning; paymentInitiationMethod := InitLightning; createdAt := 0;
       paymentSentAndPending := false; inputAmount := 1000; btcPaymentAmount := BtcPaymentAmount 1000;
       usdPaymentAmount := UsdPaymentAmount 30; btcProtocolAndBankFee := BtcPaymentAmount 5;
       usdProtocolAndBankFee := UsdPaymentAmount 1; recipientWalletId := None;
       recipientWalletCurrency := None; recipientAccountId := None; recipientPubkey := None;
       recipientUsername := None; recipientUserId := None; outgoingNodePubkey := Some "node";
       cachedRoute := None |};
    paymentHash := Some "hash"; intraLedgerHash := None; descriptionFromInvoice := "";
    skipProbeForDestination := true |}.

Lemma flow_storable : storable flow.
Proof.
  split; cbn.
  - left. by exists "hash".
  - vm_compute. by split.
  - repeat constructor; by vm_compute.
  - repeat constructor; by intros [=].
Qed.

Lemma paymentFlow_stored_witness :
  flow.(skipProbeForDestination) = true ∧
  ∃ f', (persistNewFlow flow empty).1 = Ok f' ∧ f'.(skipProbeForDestination) = false ∧
    ∃ raw, (persistNewFlow flow empty).2.(paymentFlows) = [raw] ∧ paymentFlowFromRaw raw = Ok f'.
Proof.
  split; [reflexivity|]. exists (without_skip flow).
  assert (E : (persistNewFlow flow empty).1 = Ok (without_skip flow)) by (vm_compute; reflexivity).
  split; [exact E|]. split; [reflexivity|].
  destruct (wp_run _ _ _ _ (paymentFlow_stored empty flow flow_storable) E) as [_ Hraw]. exact Hraw.
Defined.

End RepositoryExamples.
