(* ===== verification/WalletInvoices.v ===== *)
(** * The repository of wallet invoices

    Models [services/mongoose/wallet-invoices.ts] over the collection of the world: new invoices with
    the checks of the schema and its unique index, the two marks, and the lookups.  The decoder of
    payment requests is an argument, as in [Lightning].  A stored invoice is found again under its
    payment hash, and no other document of the collection changes.  The pages of invoices are not
    modelled. *)

From Stdlib Require Import Ascii.
From S2P Require Import Prelude JsNumber Shared Prices Fees Lightning PaymentFlow LedgerEntry TxMetadata.
From S2P Require Import LedgerTx TxHistory Limits Invoices World LedgerBook LedgerService Repositories.

(** ** Checks of the schema *)

Definition hex_digit (c : ascii) : bool :=
  let n := nat_of_ascii c in
  ((48 <=? n) && (n <=? 57) || (97 <=? n) && (n <=? 102) || (65 <=? n) && (n <=? 70))%nat.

(** [/^[0-9a-f]{8}-[0-9a-f]{4}-[1-5][0-9a-f]{3}-[89ab][0-9a-f]{3}-[0-9a-f]{12}$/i] *)
Definition UuidRegex (s : string) : bool :=
  let cs := String.list_ascii_of_string s in
  (length cs =? 36)%nat &&
  forallb (fun '(i, c) =>
    if bool_decide (i ∈ [8; 13; 18; 23]%nat) then bool_decide (c = "-"%char)
    else if bool_decide (i = 14)%nat then bool_decide (c ∈ ["1"; "2"; "3"; "4"; "5"]%char)
    else if bool_decide (i = 19)%nat then bool_decide (c ∈ ["8"; "9"; "a"; "b"; "A"; "B"]%char)
    else hex_digit c) (imap pair cs).

(** The document passes [walletInvoiceSchema].  The check of [externalId] is given as [validator], which
    is not an option of mongoose, so it is only required. *)
Definition walletInvoiceSchema (r : WalletInvoiceRecord) : bool :=
  UuidRegex r.(ir_walletId) && UuidRegex r.(ir_accountId) &&
  match r.(ir_cents) with Some cents => isInteger cents | None => true end &&
  truthy r.(ir_secret) && truthy r.(ir_pubkey) && truthy r.(ir_externalId).

(** ** Reading *)

Section Raw.
Context (parsePaymentRequest : string -> result string DecodedInvoice).

(** [Err] is an exception. *)
Definition walletInvoiceFromRaw (r : WalletInvoiceRecord) : result string WalletInvoiceWithOptionalLnInvoice :=
  match
    match or_undefined r.(ir_paymentRequest) with
    | None => Ok None
    | Some req => match decodeInvoice parsePaymentRequest req with
                  | Ok lnInvoice => Ok (Some lnInvoice)
                  | Err _ => Err "Corrupt payment request in db"
                  end
    end,
    match js_or_opt r.(ir_cents) None with
    | None => Ok None
    | Some cents => match BigInt cents with
                    | Some c => Ok (Some (UsdPaymentAmount c))
                    | None => Err "RangeError"
                    end
    end
  with
  | Err msg, _ | Ok _, Err msg => Err msg
  | Ok lnInvoice, Ok usdAmount => Ok {|
      wi_optionalLnInvoice := lnInvoice;
      wi_optional := {|
        wi_paymentHash := r.(ir_id);
        wi_secret := r.(ir_secret);
        wi_recipientWalletDescriptor := {| w_id := r.(ir_walletId); w_currency := r.(ir_currency);
                                           w_accountId := r.(ir_accountId) |};
        wi_selfGenerated := r.(ir_selfGenerated);
        wi_pubkey := r.(ir_pubkey);
        wi_paid := r.(ir_paid);
        wi_usdAmount := usdAmount;
        wi_createdAt := r.(ir_timestamp);
        wi_processingCompleted := r.(ir_processingCompleted);
        wi_externalId := r.(ir_externalId) |} |}
  end.

Definition ensureWalletInvoiceHasLnInvoice (i : WalletInvoiceWithOptionalLnInvoice) : Result WalletInvoice :=
  match i.(wi_optionalLnInvoice) with
  | None => Err WalletInvoiceMissingLnInvoiceError
  | Some lnInvoice => Ok {| wi_base := i.(wi_optional); wi_lnInvoice := lnInvoice |}
  end.

(** The invoice inside a [try]. *)
Definition invoice_of (r : WalletInvoiceRecord) : Result WalletInvoiceWithOptionalLnInvoice :=
  match walletInvoiceFromRaw r with Ok i => Ok i | Err msg => Err (RepositoryError msg) end.

Definition complete_invoice (r : WalletInvoiceRecord) : Result WalletInvoice :=
  i ← invoice_of r; ensureWalletInvoiceHasLnInvoice i.

(** ** The repository *)

Definition raw_of_invoice (i : WalletInvoice) (now : Date) : WalletInvoiceRecord := {|
  ir_id := i.(wi_paymentHash);
  ir_secret := i.(wi_secret);
  ir_walletId := i.(wi_recipientWalletDescriptor).(w_id);
  ir_accountId := i.(wi_recipientWalletDescriptor).(w_accountId);
  ir_currency := i.(wi_recipientWalletDescriptor).(w_currency);
  ir_selfGenerated := i.(wi_selfGenerated);
  ir_pubkey := i.(wi_pubkey);
  ir_paid := i.(wi_paid);
  ir_cents := (fun usdAmount => Number usdAmount.(amount)) <$> i.(wi_usdAmount);
  ir_timestamp := now;
  ir_processingCompleted := false;
  ir_externalId := i.(wi_externalId);
  ir_paymentRequest := Some i.(wi_lnInvoice).(paymentRequest);
|}.

Definition mark_completed (paid : bool) (r : WalletInvoiceRecord) : WalletInvoiceRecord := {|
  ir_id := r.(ir_id); ir_secret := r.(ir_secret); ir_walletId := r.(ir_walletId);
  ir_accountId := r.(ir_accountId); ir_currency := r.(ir_currency);
  ir_selfGenerated := r.(ir_selfGenerated); ir_pubkey := r.(ir_pubkey);
  ir_paid := paid || r.(ir_paid);
  ir_cents := r.(ir_cents); ir_timestamp := r.(ir_timestamp); ir_processingCompleted := true;
  ir_externalId := r.(ir_externalId); ir_paymentRequest := r.(ir_paymentRequest);
|}.

Section Repository.
Context {X : Type} `{Database X}.

(** The time of the document is set when it is made; a document that the schema refuses is not sent
    to the database, which refuses a second document of a payment hash, or of an account and an
    external id. *)
Definition persistNewInvoice (i : WalletInvoice) : IO X (Result WalletInvoice) :=
  now ← ext Date_now;
  let r := raw_of_invoice i now in
  if negb (walletInvoiceSchema r) then mret (Err (RepositoryError "ValidationError")) else
  saved ←? catch_as RepositoryError (db
    (l ← gets walletInvoices;
     if existsb (fun r' => bool_decide (r'.(ir_id) = r.(ir_id))) l then mret (Err DuplicateKeyForPersistError)
     else if existsb (fun r' => bool_decide (r'.(ir_accountId) = r.(ir_accountId))
                                && bool_decide (r'.(ir_externalId) = r.(ir_externalId))) l
     then mret (Err DuplicateLedgerExternalIdError)
     else _ ← modify (fun w => with_walletInvoices w (l ++ [r])); mret (Ok r)));
  mret (r ← saved; complete_invoice r).

Definition mark_invoice (paid : bool) (paymentHash : PaymentHash) : IO X (Result WalletInvoiceWithOptionalLnInvoice) :=
  walletInvoice ←? catch_as RepositoryError (db
    (l ← gets walletInvoices;
     let '(l', found) := update_first (fun r => bool_decide (r.(ir_id) = paymentHash))
                           (fun r => Some (mark_completed paid r)) l in
     _ ← modify (fun w => with_walletInvoices w l');
     mret found));
  mret (match walletInvoice with None => Err CouldNotFindWalletInvoiceError | Some r => invoice_of r end).

Definition markAsPaid (paymentHash : PaymentHash) : IO X (Result WalletInvoiceWithOptionalLnInvoice) :=
  mark_invoice true paymentHash.

Definition markAsProcessingCompleted (paymentHash : PaymentHash) : IO X (Result WalletInvoiceWithOptionalLnInvoice) :=
  mark_invoice false paymentHash.

Definition findInvoiceByPaymentHash (paymentHash : PaymentHash) : IO X (Result WalletInvoice) :=
  repo (fun w => match filter (fun r => r.(ir_id) = paymentHash) w.(walletInvoices) with
                 | [] => Err CouldNotFindWalletInvoiceError
                 | r :: _ => complete_invoice r
                 end).

Definition findForWalletByPaymentHash (walletId : WalletId) (paymentHash : PaymentHash) : IO X (Result WalletInvoice) :=
  repo (fun w => match filter (fun r => r.(ir_id) = paymentHash ∧ r.(ir_walletId) = walletId) w.(walletInvoices) with
                 | [] => Err CouldNotFindWalletInvoiceError
                 | r :: _ => complete_invoice r
                 end).

(** The invoices that [yieldPending] goes through. *)
Definition pending_invoices (l : list WalletInvoiceRecord) : list WalletInvoiceRecord :=
  filter (fun r => r.(ir_paid) = false ∧ r.(ir_processingCompleted) = false) l.

End Repository.
End Raw.

(** ** What is stored is found *)

(** An invoice as the builder makes it, whose payment request is its own. *)
Record storable_invoice (parse : string -> result string DecodedInvoice) (i : WalletInvoice) : Prop := {
  si_usd : ∀ u, i.(wi_usdAmount) = Some u -> u.(currency) = Usd ∧ 0 < u.(amount) < 2 ^ 53;
  si_request : i.(wi_lnInvoice).(paymentRequest) ≠ "";
  si_decoded : decodeInvoice parse i.(wi_lnInvoice).(paymentRequest) = Ok i.(wi_lnInvoice);
  si_open : i.(wi_processingCompleted) = false;
}.

Definition created_at (now : Date) (i : WalletInvoice) : WalletInvoice := {|
  wi_lnInvoice := i.(wi_lnInvoice);
  wi_base := {| wi_paymentHash := i.(wi_paymentHash); wi_secret := i.(wi_secret);
    wi_selfGenerated := i.(wi_selfGenerated); wi_pubkey := i.(wi_pubkey); wi_usdAmount := i.(wi_usdAmount);
    wi_recipientWalletDescriptor := i.(wi_recipientWalletDescriptor); wi_paid := i.(wi_paid);
    wi_createdAt := now; wi_processingCompleted := i.(wi_processingCompleted);
    wi_externalId := i.(wi_externalId) |} |}.

Lemma raw_round_trip parse i now : storable_invoice parse i ->
  complete_invoice parse (raw_of_invoice i now) = Ok (created_at now i).
Proof.
  intros [Hu Hr Hd Ho]. unfold complete_invoice, invoice_of, walletInvoiceFromRaw.
  cbn [raw_of_invoice ir_paymentRequest ir_cents].
  assert (Hreq : or_undefined (Some (paymentRequest (wi_lnInvoice i))) = Some (paymentRequest (wi_lnInvoice i))).
  { unfold or_undefined, js_or_opt. cbn. by destruct (paymentRequest _). }
  assert (Hcents : match js_or_opt ((fun u => Number u.(amount)) <$> i.(wi_usdAmount)) None with
    | None => Ok None
    | Some cents => match BigInt cents with Some c => Ok (Some (UsdPaymentAmount c)) | None => Err "RangeError" end
    end = Ok (E := string) i.(wi_usdAmount)).
  { destruct i.(wi_usdAmount) as [[c a]|]; [|done]. destruct (Hu _ eq_refl) as [[= ->] Ha]. cbn in Ha.
    unfold js_or_opt. cbn. rewrite truthy_Number by (unfold safe_integer; lia).
    assert (truthy a = true) as -> by (unfold truthy, truthy_bigint; lia).
    by rewrite BigInt_Number by (unfold safe_integer; lia). }
  rewrite Hreq, Hd, Hcents. unfold created_at. rewrite Ho. destruct (wi_recipientWalletDescriptor i) eqn:E. cbn. by rewrite E.
Qed.

Section Found.
Context {X : Type} `{Database X} (parse : string -> result string DecodedInvoice).
Implicit Types (w : World X).

(** C36. An invoice that is stored is found under its payment hash, as it was made but for the time,
    which is that of the document; and storing it changes no other invoice.  If storing fails, no
    invoice was added. *)
Theorem stored_invoice_found i w (Hi : storable_invoice parse i) :
  wp (persistNewInvoice parse i) (fun r w' =>
    match r with
    | Ok i' => (∃ now, i' = created_at now i ∧ w'.(walletInvoices) = w.(walletInvoices) ++ [raw_of_invoice i now]) ∧
        wp (findInvoiceByPaymentHash parse i.(wi_paymentHash))
          (fun found _ => found = Ok i' ∨ ∃ msg, found = Err (RepositoryError msg)) w'
    | Err _ => w'.(walletInvoices) = w.(walletInvoices)
    end) w.
Proof.
  unfold persistNewInvoice. apply wp_bind, wp_ext. intros now x _. destruct (walletInvoiceSchema _); [|done]. cbn [negb].
  apply wp_bind_or, wp_catch, wp_db; [done|]. intros x'. apply wp_bind, wp_gets. cbn [walletInvoices with_outside].
  destruct (existsb _ _) eqn:Eid; [by apply wp_ret, wp_ret|]. case_match; [by apply wp_ret, wp_ret|].
  apply wp_bind, wp_modify, wp_ret, wp_ret. cbn [mbind result_bind]. rewrite raw_round_trip by done. split; [by exists now|].
  apply wp_repo; [by right; eexists|]. intros x2. left. cbn [walletInvoices with_outside with_walletInvoices].
  rewrite filter_app, filter_none, app_nil_l; [|]; [by rewrite filter_cons_True, raw_round_trip|].
  apply Forall_forall. intros r Hr Heq. apply Bool.not_true_iff_false in Eid. apply Eid.
  apply existsb_exists. exists r. split; [by apply list_elem_of_In|]. by apply bool_decide_true.
Qed.

End Found.

Module InvoiceStoreExamples.
Import BookExamples.

(** A parser that reads one invoice. *)
Definition parse (req : string) : result string DecodedInvoice :=
  Ok {| dec_payment := Some "s"; dec_cltv_delta := None; dec_safe_tokens := None; dec_routes := None;
        dec_expires_at := 0; dec_is_expired := None; dec_description := None; dec_id := "abc123";
        dec_destination := "node"; dec_features := None |}.

Definition carol : WalletDescriptor := {|
  w_id := "6a1e7c52-0c5b-4d3e-9f6a-0123456789ab"; w_currency := Usd;
  w_accountId := "7b1e7c52-0c5b-4d3e-9f6a-0123456789ab" |}.

(** An invoice of three dollars. *)
Definition invoice : WalletInvoice := {|
  wi_lnInvoice := match decodeInvoice parse "lnbc" with Ok i => i | Err _ => InvoiceExamples.unpriced.(wi_lnInvoice) end;
  wi_base := {| wi_paymentHash := "abc123"; wi_secret := "secret"; wi_selfGenerated := true; wi_pubkey := "node";
    wi_usdAmount := Some (UsdPaymentAmount 300); wi_recipientWalletDescriptor := carol; wi_paid := false;
    wi_createdAt := 0; wi_processingCompleted := false; wi_externalId := "abc123" |} |}.

Lemma invoice_storable : storable_invoice parse invoice.
Proof. split; [by intros u [= <-]|done|vm_compute; reflexivity|done]. Qed.

Lemma stored_invoice_found_witness : ∃ i',
  (persistNewInvoice parse invoice start).1 = Ok i' ∧ i'.(wi_usdAmount) = Some (UsdPaymentAmount 300) ∧
  length (persistNewInvoice parse invoice start).2.(walletInvoices) = 1%nat.
Proof.
  destruct ((persistNewInvoice parse invoice start).1) as [i'|e] eqn:E; [|by vm_compute in E].
  destruct (wp_run _ _ _ _ (stored_invoice_found parse invoice start invoice_storable) E) as [(now & -> & Hl) _].
  eexists. split; [reflexivity|]. split; [reflexivity|]. rewrite Hl. reflexivity.
Defined.

End InvoiceStoreExamples.
