(* ===== verification/Money.v ===== *)
(** * Following the money through a program

    What the operations on the ledger do to the balances, in a form that composes: [keeps] for a
    program that leaves the ledger and the bank's wallets alone, [relabels] for an update that
    changes documents but not what they move, and [moved] for the change of every account. *)

From S2P Require Import Prelude JsNumber Shared Prices Fees Lightning PaymentFlow LedgerEntry TxMetadata.
From S2P Require Import LedgerTx TxHistory Limits Invoices World LedgerBook LedgerService Services Repositories.
From S2P Require Import WalletInvoices.

(** ** Programs that leave the ledger alone *)

Definition same_books {X} (w w' : World X) : Prop :=
  w'.(ledger) = w.(ledger) ∧ w'.(bankWallets) = w.(bankWallets).

#[export] Instance same_books_preorder X : PreOrder (@same_books X).
Proof. split; [by intros w|]. intros w1 w2 w3 [] []. split; congruence. Qed.

Definition same_ledger {X} (w w' : World X) : Prop := w'.(ledger) = w.(ledger).

(** A relation of worlds that a program without writes keeps. *)
Class Reads {X} (R : relation (World X)) : Prop := {
  reads_preorder :: PreOrder R;
  reads_outside : ∀ w x, R w (with_outside w x);
}.

(** A relation of worlds that does not mind writes to the other collections either. *)
Class Frame {X} (R : relation (World X)) : Prop := {
  frame_reads :: Reads R;
  frame_txMetadata : ∀ w l, R w (with_txMetadata w l);
  frame_paymentFlows : ∀ w l, R w (with_paymentFlows w l);
  frame_lnPayments : ∀ w l, R w (with_lnPayments w l);
  frame_notified : ∀ w l, R w (with_notified w l);
  frame_pendingReceives : ∀ w l, R w (with_pendingReceives w l);
}.

#[export] Instance same_books_frame X : Frame (@same_books X).
Proof. split; [split; [apply _|done]|done..]. Qed.

#[export] Instance same_ledger_frame X : Frame (@same_ledger X).
Proof. split; [split; [|done]|done..]. split; [done|]. unfold same_ledger. congruence. Qed.

Definition keeps {X A} (R : relation (World X)) (m : IO X A) : Prop := ∀ w, wp m (fun _ w' => R w w') w.

Section Keeps.
Context {X : Type} (R : relation (World X)) `{!Reads R}.

Lemma wp_keeps {A} (m : IO X A) (Q : A -> World X -> Prop) w :
  keeps R m -> (∀ r w', R w w' -> Q r w') -> wp m Q w.
Proof. intros Hm HQ. eapply wp_mono; [apply Hm|]. auto. Qed.

Lemma keeps_ret {A} (a : A) : keeps R (mret a).
Proof. intros w. by apply wp_ret. Qed.

Lemma keeps_bind {A B} (m : IO X A) (k : A -> IO X B) : keeps R m -> (∀ a, keeps R (k a)) -> keeps R (m ≫= k).
Proof.
  intros Hm Hk w. apply wp_bind, wp_keeps; [done|]. intros a w1 H1.
  eapply wp_mono; [apply Hk|]. intros b w2 H2. by transitivity w1.
Qed.

Lemma keeps_bind_or {A B} `{FromError B} (m : IO X (Result A)) (k : A -> IO X B) :
  keeps R m -> (∀ a, keeps R (k a)) -> keeps R (bind_or m k).
Proof. intros Hm Hk. apply keeps_bind; [done|]. intros [a|e]; [apply Hk|apply keeps_ret]. Qed.

Lemma keeps_async_bind {A B} (m : Async X A) (k : A -> Async X B) :
  keeps R m -> (∀ a, keeps R (k a)) -> keeps R (@mbind (Async X) calls_bind A B k m).
Proof. apply keeps_bind_or. Qed.

Lemma keeps_returns {A} (r : Result A) : keeps R (returns (F := Async X) r).
Proof. apply keeps_ret. Qed.

Lemma keeps_handle {A B} (m : Async X A) (k : Result A -> Async X B) :
  keeps R m -> (∀ r, keeps R (k r)) -> keeps R (handle (F := Async X) m k).
Proof. apply keeps_bind. Qed.

Lemma keeps_or_return {A B} `{FromError B} (r : Result A) (k : A -> IO X B) :
  (∀ a, keeps R (k a)) -> keeps R (or_return r k).
Proof. intros Hk. destruct r; [apply Hk|apply keeps_ret]. Qed.

Lemma keeps_ext {A} (f : X -> A * X) : keeps R (ext f).
Proof. intros w. apply wp_ext. intros. apply reads_outside. Qed.

Lemma keeps_gets {A} (f : World X -> A) : keeps R (gets f).
Proof. intros w. by apply wp_gets. Qed.

Lemma keeps_modify (f : World X -> World X) : (∀ w, R w (f w)) -> keeps R (modify f).
Proof. intros Hf w. apply wp_modify, Hf. Qed.

Lemma keeps_catch {A} err (m : IO X (result string A)) : keeps R m -> keeps R (catch_as err m).
Proof. intros Hm. apply keeps_bind; [done|]. intros r. apply keeps_ret. Qed.

Lemma keeps_db {A} `{Database X} (m : IO X A) : keeps R m -> keeps R (db m).
Proof.
  intros Hm. apply keeps_bind; [apply keeps_ext|]. intros [msg|]; [apply keeps_ret|].
  apply keeps_bind; [done|]. intros a. apply keeps_ret.
Qed.

Lemma keeps_repo {A} `{Database X} (f : World X -> Result A) : keeps R (repo f).
Proof. apply keeps_bind; [apply keeps_catch, keeps_db, keeps_gets|]. intros r. apply keeps_ret. Qed.

End Keeps.

Create HintDb keeps.
#[export] Hint Resolve keeps_ret keeps_returns keeps_async_bind keeps_handle keeps_bind keeps_bind_or keeps_or_return keeps_ext keeps_gets keeps_catch
  keeps_db keeps_repo frame_reads same_books_frame same_ledger_frame : keeps.

(** Proves that a program without a write to the ledger keeps it. *)
Ltac solve_keeps :=
  repeat first
    [ apply keeps_ret; exact _ | apply keeps_returns; exact _
    | apply keeps_async_bind; [exact _| |intros ?] | apply keeps_handle; [exact _| |intros ?] | apply keeps_ext; exact _ | apply keeps_gets; exact _ | apply keeps_repo; exact _
    | apply keeps_catch; [exact _|] | apply keeps_db; [exact _|]
    | apply keeps_or_return; [exact _|intros ?] | apply keeps_bind_or; [exact _| |intros ?]
    | apply keeps_bind; [exact _| |intros ?]
    | (apply keeps_modify; intros ?;
       first [apply frame_txMetadata | apply frame_paymentFlows | apply frame_lnPayments | apply frame_notified | apply frame_pendingReceives])
    | progress cbn beta iota zeta
    | match goal with |- keeps _ (match ?x with _ => _ end) => destruct x end
    | match goal with |- keeps _ (let '(_, _) := ?x in _) => destruct x end ].

(** The ledger, the bank's wallets and the users' wallets are the same. *)
Definition same_state {X} (w w' : World X) : Prop := same_books w w' ∧ w'.(wallets) = w.(wallets).

#[export] Instance same_state_frame X : Frame (@same_state X).
Proof.
  split; [split; [|done]|done..]. split; [done|]. intros w1 w2 w3 [S1 E1] [S2 E2]. split; [by etrans|congruence].
Qed.
#[export] Hint Resolve same_state_frame : keeps.

(** And the accounts. *)
Definition same_data {X} (w w' : World X) : Prop := same_state w w' ∧ w'.(accounts) = w.(accounts).

#[export] Instance same_data_frame X : Frame (@same_data X).
Proof.
  split; [split; [|done]|done..]. split; [done|]. intros w1 w2 w3 [S1 E1] [S2 E2]. split; [by etrans|congruence].
Qed.
#[export] Hint Resolve same_data_frame : keeps.

Section KeepsOps.
Context {M X : Type} `{MediciEntry M} `{!MediciBook M X} `{Database X} `{PriceServices X} `{Intl}.
Context (R : relation (World X)) `{!Reads R}.

Lemma keeps_getTransactionsByHash h : keeps R (getTransactionsByHash (X := X) h).
Proof. unfold getTransactionsByHash, MainBook_ledger. solve_keeps. Qed.

Lemma keeps_getTransactionsForWallets ws h : keeps R (getTransactionsForWalletsByPaymentHash (X := X) ws h).
Proof. unfold getTransactionsForWalletsByPaymentHash, MainBook_ledger. solve_keeps. Qed.

Lemma keeps_displayRatio precision c : keeps R (getCurrentPriceAsDisplayPriceRatio precision c).
Proof.
  unfold getCurrentPriceAsDisplayPriceRatio, getCurrentSatPrice, getCurrentPrice, getCachedPrice. solve_keeps.
Qed.

Lemma keeps_usdFromBtcMidPriceFn precision hedge a : keeps R (usdFromBtcMidPriceFn precision hedge a).
Proof.
  unfold usdFromBtcMidPriceFn, getMidPriceRatio, getCurrentPriceAsWalletPriceRatio, getCurrentSatPrice, getCurrentPrice,
    getCachedPrice. solve_keeps.
Qed.

Lemma keeps_getPriceRatioForLimits precision hedge p : keeps R (getPriceRatioForLimits precision hedge p).
Proof.
  unfold getPriceRatioForLimits. case_match; [|apply keeps_ret; apply _].
  apply keeps_bind_or; [apply _|apply keeps_usdFromBtcMidPriceFn|intros u]. apply keeps_ret; apply _.
Qed.

Context `{!Frame R}.

Lemma keeps_updateByHash h p : keeps R (updateByHash (X := X) h p).
Proof. unfold updateByHash. solve_keeps. Qed.

Lemma keeps_persistNewLnPayment p : keeps R (persistNewLnPayment (X := X) p).
Proof. unfold persistNewLnPayment. solve_keeps. Qed.

Lemma keeps_updateLightningPaymentFlow f : keeps R (updateLightningPaymentFlow (X := X) f).
Proof. unfold updateLightningPaymentFlow. solve_keeps. Qed.

End KeepsOps.
#[export] Hint Resolve keeps_getTransactionsByHash keeps_getTransactionsForWallets keeps_displayRatio
  keeps_usdFromBtcMidPriceFn keeps_getPriceRatioForLimits
  keeps_updateByHash keeps_persistNewLnPayment keeps_updateLightningPaymentFlow : keeps.

(** A relation that does not mind the cache of the bank's wallets either. *)
Class CacheFrame {X} (R : relation (World X)) : Prop :=
  frame_bankWallets : ∀ w b, R w (with_bankWallets w b).

#[export] Instance same_ledger_cache X : CacheFrame (@same_ledger X).
Proof. done. Qed.

Section KeepsCache.
Context {M X : Type} `{MediciEntry M} `{!MediciBook M X} `{Database X} `{Resolvers X} `{Intl}.
Context (R : relation (World X)) `{!Reads R}.

Lemma keeps_rejects {A B} (m : IO X (result string A)) (k : A -> IO X (result string B)) :
  keeps R m -> (∀ a, keeps R (k a)) -> keeps R (rejects m k).
Proof. intros Hm Hk. apply keeps_bind; [apply _|done|]. intros []; [apply Hk|apply keeps_ret; apply _]. Qed.

Lemma keeps_getTransactionForWalletByJournalId walletId j :
  keeps R (getTransactionForWalletByJournalId (M := M) (X := X) walletId j).
Proof.
  unfold getTransactionForWalletByJournalId, findById, with_objectId, MainBook_ledger.
  destruct (isValidObjectId j); [|solve_keeps].
  apply keeps_bind_or; [apply _|solve_keeps|intros docs]. apply keeps_or_return; [apply _|intros d].
  destruct (isValidObjectId (js_or (raw_id d) "")); solve_keeps.
Qed.

Context `{!CacheFrame R}.

Lemma keeps_cached get set r : keeps R (cached (X := X) get set r).
Proof.
  unfold cached. apply keeps_bind; [apply _|apply keeps_gets; apply _|]. intros b. case_match; [apply keeps_ret; apply _|].
  apply keeps_bind; [apply _|apply keeps_ext; apply _|]. intros []; [|apply keeps_ret; apply _].
  apply keeps_bind; [apply _|apply keeps_modify; intros; apply frame_bankWallets|]. intros _. apply keeps_ret; apply _.
Qed.

Lemma keeps_getNonEndUserWalletIds : keeps R (uncaught (getNonEndUserWalletIds (X := X))).
Proof.
  apply keeps_catch; [apply _|]. unfold getNonEndUserWalletIds.
  repeat (apply keeps_rejects; [apply keeps_cached|intros ?]). apply keeps_ret; apply _.
Qed.

Lemma keeps_staticAccountIds : keeps R (staticAccountIds (X := X)).
Proof.
  apply keeps_catch; [apply _|]. repeat (apply keeps_rejects; [apply keeps_cached|intros ?]). apply keeps_ret; apply _.
Qed.

Lemma keeps_getWalletTransactionByJournalId cfg walletId j :
  keeps R (getWalletTransactionByJournalId (M := M) (X := X) cfg walletId j).
Proof.
  apply keeps_bind_or; [apply _|apply keeps_getTransactionForWalletByJournalId|intros tx].
  apply keeps_bind_or; [apply _|apply keeps_getNonEndUserWalletIds|intros ids]. apply keeps_ret; apply _.
Qed.

End KeepsCache.
#[export] Hint Resolve keeps_getTransactionForWalletByJournalId keeps_getNonEndUserWalletIds keeps_staticAccountIds
  keeps_getWalletTransactionByJournalId same_ledger_cache : keeps.

(** ** Lookups of wallets and accounts *)

(** The wallets that an account has in the database, one of each currency. *)
Record wallets_of {X} (id : AccountId) (w : World X) (ds : AccountWalletDescriptors) : Prop := {
  wo_btc : ∃ wl : Wallet, wl ∈ w.(wallets) ∧ ds.(BTC) = wl.(wl_descriptor);
  wo_usd : ∃ wl : Wallet, wl ∈ w.(wallets) ∧ ds.(USD) = wl.(wl_descriptor);
  wo_currency : ds.(BTC).(w_currency) = Btc ∧ ds.(USD).(w_currency) = Usd;
  wo_account : ds.(BTC).(w_accountId) = id ∧ ds.(USD).(w_accountId) = id;
  wo_only : ∀ wl : Wallet, wl ∈ w.(wallets) -> wl.(w_accountId) = id -> wl.(wl_descriptor) = wallet_for ds wl.(w_currency);
}.

Section Lookups.
Context {X : Type} `{Database X}.
Implicit Types (w : World X).

Lemma wp_findWalletById id (Q : Result Wallet -> World X -> Prop) w : (∀ e x, Q (Err e) (with_outside w x)) ->
  (∀ (wl : Wallet) x, wl ∈ w.(wallets) -> wl.(w_id) = id -> Q (Ok wl) (with_outside w x)) -> wp (findWalletById id) Q w.
Proof.
  intros HErr HOk. apply wp_repo; [intros; by apply HErr|]. intros x. cbn [wallets with_outside].
  destruct (filter _ w.(wallets)) as [|wl wls] eqn:E; [by apply HErr|].
  assert (Hwl : wl ∈ wl :: wls) by by left. rewrite <- E in Hwl. apply list_elem_of_filter in Hwl as [Hid Hwl]. by apply HOk.
Qed.

Lemma wp_findAccountById id (Q : Result Account -> World X -> Prop) w : (∀ e x, Q (Err e) (with_outside w x)) ->
  (∀ a x, a.(acc_id) = id -> Q (Ok a) (with_outside w x)) -> wp (findAccountById id) Q w.
Proof.
  intros HErr HOk. apply wp_repo; [intros; by apply HErr|]. intros x. cbn [accounts with_outside].
  destruct (filter _ w.(accounts)) as [|r rs] eqn:E; [by apply HErr|].
  assert (Hr : r ∈ r :: rs) by by left. rewrite <- E in Hr. apply list_elem_of_filter in Hr as [Hid Hr].
  unfold translateToAccount. destruct (last _); [by apply HOk|by apply HErr].
Qed.

Lemma single_wallet_found c (wls : list Wallet) wd : single_wallet c wls = Ok wd ->
  (∃ wl : Wallet, wl ∈ wls ∧ wd = wl.(wl_descriptor)) ∧ wd.(w_currency) = c ∧
  ∀ wl : Wallet, wl ∈ wls -> wl.(w_currency) = c -> wl.(wl_descriptor) = wd.
Proof.
  unfold single_wallet. destruct (filter _ wls) as [|wl [|]] eqn:E; intros [= <-].
  assert (Hwl : wl ∈ [wl]) by by left. rewrite <- E in Hwl. apply list_elem_of_filter in Hwl as [Hc Hwl].
  split_and!; [eauto|done|]. intros wl' Hin Hc'.
  assert (Hwl' : wl' ∈ filter (fun wl : Wallet => wl.(w_currency) = c) wls) by (by apply list_elem_of_filter).
  rewrite E in Hwl'. by apply list_elem_of_singleton in Hwl' as ->.
Qed.

Lemma wp_findAccountWallets id (Q : Result AccountWalletDescriptors -> World X -> Prop) w :
  (∀ e x, Q (Err e) (with_outside w x)) -> (∀ ds x, wallets_of id w ds -> Q (Ok ds) (with_outside w x)) ->
  wp (findAccountWalletsByAccountId id) Q w.
Proof.
  intros HErr HOk. apply wp_bind_or, wp_repo; [intros; by apply HErr|]. intros x. cbn [wallets with_outside].
  destruct (filter _ w.(wallets)) as [|wl0 wls] eqn:E; [by apply HErr|]. rewrite <- E. clear E wl0 wls. apply wp_ret.
  destruct (single_wallet Btc _) as [wb|] eqn:Eb; [|by apply HErr]. cbn [mbind result_bind].
  destruct (single_wallet Usd _) as [wu|] eqn:Eu; [|by apply HErr]. cbn [mbind result_bind].
  apply single_wallet_found in Eb as ((lb & Hlb & ->) & Hcb & Hb). apply single_wallet_found in Eu as ((lu & Hlu & ->) & Hcu & Hu).
  apply list_elem_of_filter in Hlb as [Hab Hlb]. apply list_elem_of_filter in Hlu as [Hau Hlu].
  apply HOk. split; cbn; [by eauto..|]. intros wl Hwl Ha. destruct (w_currency wl) eqn:Ec; [apply Hu|apply Hb];
    first [done | by apply list_elem_of_filter].
Qed.

End Lookups.

(** ** Updates that move nothing *)

(** Document by document: the same journal, account and amounts. *)
Definition relabels : list Doc -> list Doc -> Prop :=
  Forall2 (fun d d' : Doc => d'.(raw_journal) = d.(raw_journal) ∧ d'.(raw_accounts) = d.(raw_accounts) ∧
             ∀ c, doc_net c d' = doc_net c d).

Lemma relabels_refl L : relabels L L.
Proof. induction L; constructor; [by split_and!|done]. Qed.

Lemma relabels_update (f : Doc -> bool) (u : Doc -> Doc) L :
  (∀ d, (u d).(raw_journal) = d.(raw_journal) ∧ (u d).(raw_accounts) = d.(raw_accounts) ∧
        ∀ c, doc_net c (u d) = doc_net c d) ->
  relabels L (map (fun d => if f d then u d else d) L).
Proof. intros Hu. induction L as [|d L IH]; constructor; [|done]. destruct (f d); [apply Hu|by split_and!]. Qed.

Lemma relabels_nets L L' : relabels L L' ->
  (∀ c, book_net c L' = book_net c L) ∧ ∀ a c, book_account_net a c L' = book_account_net a c L.
Proof.
  unfold book_account_net, book_net, sumZ.
  induction 1 as [|d d' L L' (_ & Ha & Hn) _ [IHn IHa]]; [done|]. split.
  - intros c. cbn. by rewrite Hn, IHn.
  - intros a c. rewrite !filter_cons, Ha. case_decide; [|apply IHa]. cbn. by rewrite Hn, IHa.
Qed.

Lemma relabels_journal j L L' : relabels L L' -> relabels (of_journal j L) (of_journal j L').
Proof.
  unfold of_journal. induction 1 as [|d d' L L' (Hj & Ha & Hn) _ IH]; [constructor|].
  rewrite !filter_cons, Hj. case_decide; [|done]. constructor; [by split_and!|done].
Qed.

Lemma of_journal_new j new L : fresh_journal j L -> Forall (fun d : Doc => d.(raw_journal) = j) new ->
  of_journal j (new ++ L) = new.
Proof.
  intros Hf Hn. unfold of_journal. rewrite filter_app.
  rewrite (filter_all _ new) by done. rewrite filter_none, app_nil_r; [done|].
  eapply Forall_impl; [exact Hf|]. by intros d [].
Qed.

(** Every journal of the ledger balances. *)
Definition journals_balanced (L : list Doc) : Prop := ∀ j c, book_net c (of_journal j L) = 0.

Lemma journals_balanced_new j new L : fresh_journal j L -> Forall (fun d : Doc => d.(raw_journal) = j) new ->
  (∀ c, book_net c new = 0) -> journals_balanced L -> journals_balanced (new ++ L).
Proof.
  intros Hf Hn Hb HL j' c. destruct (decide (j' = j)) as [->|Hne]; [by rewrite of_journal_new|].
  unfold of_journal. rewrite filter_app, filter_none; [apply HL|].
  eapply Forall_impl; [exact Hn|]. intros d Hd. congruence.
Qed.

Lemma journals_balanced_relabels L L' : relabels L L' -> journals_balanced L -> journals_balanced L'.
Proof. intros Hr HL j c. apply (relabels_journal j), relabels_nets in Hr as [Hn _]. by rewrite Hn. Qed.

Definition shifted {X} (w w' : World X) : Prop :=
  w'.(bankWallets) = w.(bankWallets) ∧ relabels w.(ledger) w'.(ledger).

Lemma same_shifted {X} (w w' : World X) : same_books w w' -> shifted w w'.
Proof. intros [Hl Hb]. split; [done|]. rewrite Hl. apply relabels_refl. Qed.

Lemma shifted_same {X} (w w1 w2 : World X) : shifted w w1 -> same_books w1 w2 -> shifted w w2.
Proof. intros [Hb Hl] [El Eb]. split; [congruence|by rewrite El]. Qed.

(** ** What a program moves *)

(** The change of an account's debits less its credits, by currency. *)
Definition Change : Type := LedgerAccountId -> WalletCurrency -> Z.

(** The books stay balanced, and every account changes by [D]. *)
Definition moved {X} (D : Change) (w w' : World X) : Prop :=
  w'.(bankWallets) = w.(bankWallets) ∧
  (∀ c, book_net c w'.(ledger) = book_net c w.(ledger)) ∧
  ∀ a c, book_account_net a c w'.(ledger) = book_account_net a c w.(ledger) + D a c.

Definition nothing : Change := fun _ _ => 0.

(** The documents of journal [j] balance and change every account by [D]. *)
Definition journal_moves (j : string) (D : Change) (L : list Doc) : Prop :=
  (∀ c, book_net c (of_journal j L) = 0) ∧ ∀ a c, book_account_net a c (of_journal j L) = D a c.

Lemma shifted_moved {X} (w w' : World X) : shifted w w' -> moved nothing w w'.
Proof.
  intros [Hb Hl]. apply relabels_nets in Hl as [Hn Ha]. split_and!; try done. intros a c. rewrite Ha.
  unfold nothing. lia.
Qed.

Lemma moved_shifted {X} D (w w1 w2 : World X) : moved D w w1 -> shifted w1 w2 -> moved D w w2.
Proof.
  intros (Hb & Hn & Ha) [Hb' Hl]. apply relabels_nets in Hl as [Hn' Ha'].
  split_and!; [congruence|intros c; by rewrite Hn'|intros a c; by rewrite Ha'].
Qed.

Lemma shifted_then {X} D (w w1 w2 : World X) : shifted w w1 -> moved D w1 w2 -> moved D w w2.
Proof.
  intros [Hb' Hl] (Hb & Hn & Ha). apply relabels_nets in Hl as [Hn' Ha'].
  split_and!; [congruence|intros c; by rewrite Hn|intros a c; by rewrite Ha, Ha'].
Qed.

Lemma moved_trans {X} D D' (w w1 w2 : World X) :
  moved D w w1 -> moved D' w1 w2 -> moved (fun a c => D a c + D' a c) w w2.
Proof.
  intros (Hb & Hn & Ha) (Hb' & Hn' & Ha'). split_and!; [congruence|intros c; by rewrite Hn'|].
  intros a c. rewrite Ha', Ha. lia.
Qed.

Lemma shifted_journal {X} j D (w w' : World X) : shifted w w' ->
  journal_moves j D w.(ledger) -> journal_moves j D w'.(ledger).
Proof.
  intros [_ Hl] [Hn Ha]. apply (relabels_journal j), relabels_nets in Hl as [Hn' Ha'].
  split; [intros c; by rewrite Hn'|intros a c; by rewrite Ha'].
Qed.

Section Specs.
Context {M X : Type} `{MediciEntry M} `{!MediciLaws M} `{!MediciBook M X} `{!MediciBookLaws M X}
  `{Database X} `{Resolvers X}.
Context (bankOwner dealerBtc dealerUsd : WalletId).
Implicit Types (w : World X).

Lemma wp_record (entry : StaticAccountIds -> M) hash pre w
    (e := entry (ids bankOwner dealerBtc dealerUsd)) (D := fun a c => account_net a c (transactions e)) :
  bank_ready bankOwner dealerBtc dealerUsd w.(bankWallets) -> balanced e ->
  wp (accountIds ←? staticAccountIds; persistAndReturnEntry (entry accountIds) hash pre)
    (fun r w' => match r with
                 | Ok j => moved D w w' ∧ journal_moves j.(journalId) D w'.(ledger)
                 | Err _ => same_books w w'
                 end) w.
Proof.
  intros Hb Hbal. apply wp_bind_or, (wp_staticAccountIds bankOwner dealerBtc dealerUsd); [done|].
  apply wp_persistAndReturnEntry; [|done].
  intros j w' (new & Hl & Hf & Hj & Hn & Ha & _) Hb'. rewrite Hl. split.
  - split_and!; [done|..]; rewrite Hl.
    + intros c. rewrite book_net_app, Hn, Hbal. lia.
    + intros a c. rewrite book_account_net_app, Ha. unfold D, e. lia.
  - unfold journal_moves. rewrite of_journal_new by done. split; [|done]. intros c. rewrite Hn. apply Hbal.
Qed.

Lemma wp_settlePendingLnSend h (Q : Result bool -> World X -> Prop) w :
  (∀ r w', shifted w w' -> Q r w') -> wp (settlePendingLnSend h) Q w.
Proof.
  intros HQ. unfold settlePendingLnSend. apply wp_bind_or, wp_catch, wp_updateMany.
  - intros msg w' Hl Hb. by apply HQ, same_shifted.
  - intros w' Hl Hb. apply wp_ret, HQ. split; [done|]. rewrite Hl. by apply relabels_update.
Qed.

Lemma wp_updateLnPaymentState ws h j (Q : Result bool -> World X -> Prop) w :
  (∀ r w', shifted w w' -> Q r w') -> wp (updateLnPaymentState (M := M) ws h j) Q w.
Proof.
  intros HQ. unfold updateLnPaymentState. apply wp_bind_or, (wp_keeps same_books); [auto with keeps|].
  intros [txns|e] w1 Hw; [|by apply HQ, same_shifted].
  destruct (determine txns); [|by apply wp_ret, HQ, same_shifted].
  unfold updateStateByRelatedJournal, with_objectId. apply wp_bind_or, wp_catch.
  destruct (isValidObjectId j); [|by apply wp_ret, HQ, same_shifted].
  apply wp_updateMany.
  - intros msg w' Hl Hb. apply HQ, same_shifted. by transitivity w1.
  - intros w' Hl Hb. apply wp_ret, HQ. destruct Hw as [Hl1 Hb1]. split; [congruence|].
    rewrite Hl, Hl1. by apply relabels_update.
Qed.

Lemma wp_recordLnSendRevert j h D w : journal_moves j D w.(ledger) ->
  wp (recordLnSendRevert (M := M) j h)
    (fun r w' => match r with Ok _ => moved (fun a c => - D a c) w w' | Err _ => same_books w w' end) w.
Proof.
  intros [Hn Ha]. unfold recordLnSendRevert. apply wp_bind_or, wp_catch, wp_void; [|done].
  intros s w1 new Hl Hb _ _ Hr. apply wp_bind, wp_persistAll. intros r w' Hl' Hb'. apply wp_ret.
  apply reverts_nets in Hr as [Hrn Hra]. split_and!; [congruence|..]; rewrite Hl', Hl.
  - intros c. rewrite book_net_app, Hrn, Hn. lia.
  - intros a c. rewrite book_account_net_app, Hra, Ha. lia.
Qed.

(** Reverting an on-chain payment moves back what its journal moved. *)
Lemma wp_revert_moves j description D w : journal_moves j D w.(ledger) ->
  wp (revertOnChainPayment (M := M) j description)
    (fun r w' => match r with Ok _ => moved (fun a c => - D a c) w w' | Err _ => shifted w w' end) w.
Proof.
  intros [Hn Ha]. apply wp_revertOnChainPayment.
  - intros w' new Hb Hl Hr. apply reverts_nets in Hr as [Hrn Hra]. destruct (unpend_nets j w.(ledger)) as [Un Ua].
    destruct (unpend_nets j (of_journal j w.(ledger))) as [Vn Va]. split_and!; [done|..]; rewrite Hl.
    + intros c. rewrite book_net_app, Hrn, Un, Vn, Hn. lia.
    + intros a c. rewrite book_account_net_app, Hra, Ua, Va, Ha. lia.
  - intros e w' Hb [Hl|Hl]; [by apply same_shifted|]. split; [done|]. rewrite Hl. by apply relabels_update.
Qed.

Lemma wp_getWalletBalanceAmount wd (Q : Result Amount -> World X -> Prop) w :
  bank_ready bankOwner dealerBtc dealerUsd w.(bankWallets) -> (∀ r w', same_books w w' -> Q r w') ->
  wp (getWalletBalanceAmount (M := M) wd) Q w.
Proof.
  intros (_ & Hd & Hu & _ & Td & Tu) HQ. unfold getWalletBalanceAmount.
  apply wp_bind_or, wp_catch, wp_db; [intros; by apply HQ|]. intros x. apply wp_gets, wp_bind_or.
  destruct (num_ltb _ _); [|by apply wp_ret, wp_ret, HQ]. apply wp_catch.
  unfold wp at 1, rejects, getDealerBtcWalletId, getDealerUsdWalletId, mbind, IO_bind.
  rewrite (cached_hit _ _ _ dealerBtc), (cached_hit _ _ _ dealerUsd) by done. cbn. by apply wp_ret, HQ.
Qed.

Context (funder : WalletId).

(** All the bank's wallets are resolved. *)
Definition all_ready w : Prop :=
  bank_ready bankOwner dealerBtc dealerUsd w.(bankWallets) ∧
  w.(bankWallets).(cacheFunderWalletId) = Some funder ∧ truthy funder = true.

Lemma all_ready_same w w' : all_ready w -> same_books w w' -> all_ready w'.
Proof. intros Hw [_ Hb]. unfold all_ready. by rewrite Hb. Qed.

Lemma wp_getNonEndUserWalletIds (Q : Result (list WalletId) -> World X -> Prop) w : all_ready w ->
  (∀ ids, Q (Ok ids) w) -> wp (uncaught getNonEndUserWalletIds) Q w.
Proof.
  intros ((Hb & Hd & Hu & Tb & Td & Tu) & Hf & Tf) HQ.
  unfold wp, uncaught, catch_as, getNonEndUserWalletIds, rejects, getBankOwnerWalletId, getDealerBtcWalletId,
    getDealerUsdWalletId, getFunderWalletId, mbind, IO_bind.
  rewrite (cached_hit _ _ _ dealerBtc), (cached_hit _ _ _ dealerUsd), (cached_hit _ _ _ bankOwner),
    (cached_hit _ _ _ funder) by done. apply HQ.
Qed.

Lemma wp_getWalletTransactionByJournalId `{Intl} cfg walletId j (Q : Result WalletTransaction -> World X -> Prop) w :
  all_ready w -> (∀ r w', same_books w w' -> Q r w') ->
  wp (getWalletTransactionByJournalId (M := M) cfg walletId j) Q w.
Proof.
  intros Hw HQ. apply wp_bind_or, (wp_keeps same_books); [auto with keeps|]. intros [tx|e] w1 S1; [|by apply HQ].
  apply wp_bind_or, wp_getNonEndUserWalletIds; [by eapply all_ready_same|]. intros ids. by apply wp_ret, HQ.
Qed.

End Specs.

(** ** The documents of a payment *)

(** No document of the payment is pending. *)
Definition clear (h : PaymentHash) {X} (w : World X) : Prop := filter (pending_with h) w.(ledger) = [].

Lemma clear_same h {X} (w w' : World X) : same_ledger w w' -> clear h w -> clear h w'.
Proof. unfold clear. by intros ->. Qed.

Lemma not_pending_filter h L : Forall (fun d : Doc => d.(raw_pending) = false) L -> filter (pending_with h) L = [].
Proof.
  intros HL. apply filter_none. eapply Forall_impl; [exact HL|]. intros d Hd [_ Hp]. congruence.
Qed.

Lemma clear_new h L new {X} (w' : World X) : w'.(ledger) = new ++ L ->
  Forall (fun d : Doc => d.(raw_pending) = false) new -> filter (pending_with h) L = [] -> clear h w'.
Proof. intros E Hn HL. unfold clear. by rewrite E, filter_app, not_pending_filter, HL. Qed.

(** A document of the payment is settled, and none is pending. *)
Definition paid (h : PaymentHash) {X} (w : World X) : Prop :=
  clear h w ∧ ∃ d : Doc, d ∈ w.(ledger) ∧ d.(raw_pending) = false ∧ d.(raw_hash) = Some h.

Lemma paid_same h {X} (w w' : World X) : same_ledger w w' -> paid h w -> paid h w'.
Proof. unfold paid, clear. by intros ->. Qed.

Lemma wp_isLnTxRecorded {X} `{Database X} h (Q : Result bool -> World X -> Prop) (w : World X) :
  (∀ r w', same_state w w' -> w'.(paymentFlows) = w.(paymentFlows) -> (∀ b, r = Ok b -> b = true <-> paid h w) -> Q r w') ->
  wp (isLnTxRecorded h) Q w.
Proof.
  intros HQ. unfold isLnTxRecorded, MainBook_ledger.
  apply wp_bind_or, wp_catch, wp_db; [intros; by apply HQ|]. intros x. apply wp_gets.
  apply wp_bind_or, wp_catch, wp_db; [intros; by apply HQ|]. intros x'. apply wp_gets, wp_ret, HQ; [done..|].
  cbn [ledger with_outside]. intros b [= <-]. rewrite andb_true_iff, Nat.ltb_lt, Nat.eqb_eq, length_zero_iff_nil.
  assert (Hc : ∀ d : Doc, d.(raw_pending) && bool_decide (d.(raw_hash) = Some h) = true <-> pending_with h d).
  { intros d. unfold pending_with. rewrite andb_true_iff, bool_decide_eq_true. naive_solver. }
  unfold paid, clear. rewrite (list_filter_iff _ _ _ Hc), (and_comm (0 < _)%nat). apply and_iff_compat_l. split.
  - destruct (filter _ _) as [|d l] eqn:E; cbn; [lia|]. intros _. exists d. assert (Hd : d ∈ d :: l) by by left.
    rewrite <- E in Hd. apply list_elem_of_filter in Hd as [[Hp%negb_true_iff Hh%bool_decide_eq_true]%andb_true_iff Hd]. done.
  - intros (d & Hd & Hp & Hh). destruct (filter _ _) as [|d' l] eqn:E; cbn; [|lia].
    exfalso. apply (not_elem_of_nil d). rewrite <- E. apply list_elem_of_filter. split; [|done].
    rewrite Hp. by apply bool_decide_eq_true.
Qed.

(** ** The documents of an invoice *)

Definition same_invoices {X} (w w' : World X) : Prop := w'.(walletInvoices) = w.(walletInvoices).

#[export] Instance same_invoices_frame X : Frame (@same_invoices X).
Proof. split; [split; [|done]|done..]. split; [done|]. unfold same_invoices. congruence. Qed.
#[export] Instance same_invoices_cache X : CacheFrame (@same_invoices X).
Proof. done. Qed.
#[export] Hint Resolve same_invoices_frame same_invoices_cache : keeps.

(** The invoice of the hash is marked as paid. *)
Definition marked (h : PaymentHash) {X} (w : World X) : Prop :=
  ∃ r rest, filter (fun r => r.(ir_id) = h) w.(walletInvoices) = r :: rest ∧
            r.(ir_paid) = true ∧ r.(ir_processingCompleted) = true.

Lemma marked_same h {X} (w w' : World X) : same_invoices w w' -> marked h w -> marked h w'.
Proof. unfold marked. by intros ->. Qed.

Lemma mark_first paid h l :
  let '(l', found) := update_first (fun r => bool_decide (r.(ir_id) = h)) (fun r => Some (mark_completed paid r)) l in
  match filter (fun r => r.(ir_id) = h) l with
  | [] => found = None ∧ l' = l
  | r :: rest => found = Some (mark_completed paid r) ∧
      filter (fun r => r.(ir_id) = h) l' = mark_completed paid r :: rest
  end.
Proof.
  induction l as [|r l IH]; [done|]. cbn [update_first]. rewrite filter_cons. case_decide as Hr.
  - rewrite bool_decide_true by done. cbn iota. by rewrite filter_cons_True.
  - rewrite bool_decide_false by done. destruct (update_first _ _ l) as [l' found].
    destruct (filter _ l) as [|r' rest]; destruct IH as [-> Hl]; [by rewrite Hl|]. by rewrite filter_cons_False.
Qed.

Section InvoiceOps.
Context {X : Type} `{Database X} (parse : string -> result string DecodedInvoice).
Implicit Types (w : World X) (h : PaymentHash).

Lemma wp_markAsPaid h (Q : Result WalletInvoiceWithOptionalLnInvoice -> World X -> Prop) w :
  (∀ e w', same_books w w' -> Q (Err e) w') ->
  (∀ i w', same_books w w' -> marked h w' -> Q (Ok i) w') -> wp (markAsPaid parse h) Q w.
Proof.
  intros HErr HOk. apply wp_bind_or, wp_catch, wp_db; [intros; by apply HErr|]. intros x. apply wp_bind, wp_gets.
  cbn [walletInvoices with_outside]. pose proof (mark_first true h w.(walletInvoices)) as Hm.
  destruct (update_first _ _ _) as [l' found]. apply wp_bind, wp_modify, wp_ret, wp_ret.
  destruct found as [r|]; [|by apply HErr]. destruct (invoice_of parse r); [|by apply HErr].
  apply HOk; [done|]. destruct (filter _ w.(walletInvoices)) as [|r0 rest]; [by destruct Hm|].
  destruct Hm as [[= ->] Hl]. by exists (mark_completed true r0), rest.
Qed.

Lemma wp_findInvoice h (Q : Result WalletInvoice -> World X -> Prop) w : (∀ e x, Q (Err e) (with_outside w x)) ->
  (∀ r rest i x, filter (fun r => r.(ir_id) = h) w.(walletInvoices) = r :: rest -> complete_invoice parse r = Ok i ->
     Q (Ok i) (with_outside w x)) ->
  wp (findInvoiceByPaymentHash parse h) Q w.
Proof.
  intros HErr HOk. apply wp_repo; [intros; by apply HErr|]. intros x. cbn [walletInvoices with_outside].
  destruct (filter _ _) as [|r rest] eqn:E; [by apply HErr|].
  destruct (complete_invoice parse r) eqn:Ei; [by eapply HOk|by apply HErr].
Qed.

End InvoiceOps.
