(* ===== verification/Accounts.v ===== *)
(** * Accounts

    Models the checks of [domain/accounts], [services/mongoose/accounts.ts] with the validators and
    the unique indexes of its schema, the updates of [app/accounts] (username, contacts, level, status,
    withdraw fee, default wallet), the wallet checks of [app/wallets/validate.ts], and the middleware
    [servers/middlewares/wallet-id.ts].  An update reads an account and later writes all of it. *)

From Stdlib Require Import Ascii.
From S2P Require Import Prelude JsNumber Shared Prices Fees Lightning PaymentFlow LedgerEntry TxMetadata.
From S2P Require Import LedgerTx TxHistory Limits World LedgerBook LedgerService Services Repositories WalletInvoices.
From S2P Require Import Money.

(** ** Checks *)

Definition checkedToUserId (userId : string) : Result UserId :=
  if UuidRegex userId then Ok userId else Err (InvalidUserId userId).

Definition checkedToAccountId (accountId : string) : Result AccountId :=
  if UuidRegex accountId then Ok accountId else Err (InvalidAccountIdError accountId).

Definition checkedToWalletId (walletId : string) : Result WalletId :=
  if UuidRegex walletId then Ok walletId else Err (InvalidWalletId walletId).

(** [UsernameRegex], which is the [match] of the ledger's [username] with its lengths *)
Definition checkedToUsername (username : string) : Result Username :=
  if valid_username (Some username) then Ok username else Err (InvalidUsername username).

(** [/^[0-9A-Za-z_]{3,50}$/i] *)
Definition ContactAliasRegex (alias : string) : bool :=
  (3 <=? String.length alias)%nat && (String.length alias <=? 50)%nat &&
  forallb word_char (String.list_ascii_of_string (lower_string alias)).

Definition checkedToContactAlias (alias : string) : Result string :=
  if ContactAliasRegex alias then Ok alias else Err (InvalidContactAlias alias).

Definition status_code (s : AccountStatus) : string :=
  match s with
  | StatusNew => "new" | AccountPending => "pending" | Active => "active" | Locked => "locked" | Closed => "closed"
  end.

Definition checkedAccountStatus (status : string) : Result AccountStatus :=
  match filter (fun s => status_code s = status) [StatusNew; AccountPending; Active; Locked; Closed] with
  | s :: _ => Ok s
  | [] => Err (InvalidAccountStatusError status)
  end.

Definition sanityCheckedDefaultAccountWithdrawFee (fee : number) : Result number :=
  if num_ltb fee (Number 0) || num_ltb (Number 100000) fee then Err InvalidWithdrawFeeError else Ok fee.

Definition checkedToAccountLevel (level : number) : Result AccountLevel :=
  if num_eqb level (Number 0) then Ok LevelZero else if num_eqb level (Number 1) then Ok LevelOne
  else if num_eqb level (Number 2) then Ok LevelTwo else Err InvalidAccountLevelError.

Definition quoted (s : string) : string :=
  let q := String (ascii_of_nat 34) EmptyString in (q ++ s ++ q)%string.

(** [AccountValidator(account)]: the account that the method [validateWalletForAccount] refers to *)
Definition AccountValidator (account : Account) : Result Account :=
  if decide (account.(acc_status) = Active) then Ok account else Err (InactiveAccountError account.(acc_id)).

Definition validateWalletForAccount (account : Account) (wallet : WalletDescriptor) : Result bool :=
  if decide (wallet.(w_accountId) = account.(acc_id)) then Ok true
  else Err (InvalidWalletId ("{" ++ quoted "accountId" ++ ":" ++ quoted account.(acc_id) ++ "," ++
              quoted "AccountIdFromWallet" ++ ":" ++ quoted wallet.(w_accountId) ++ "}")%string).

(** ** Changes of an account object *)

Definition with_username (u : Username) (a : Account) : Account :=
  mkAccount a.(acc_id) (Some u) a.(acc_level) a.(acc_status) a.(acc_statusHistory) a.(acc_contactEnabled)
    a.(acc_contacts) a.(acc_withdrawFee) a.(acc_kratosUserId) a.(acc_displayCurrency) a.(acc_defaultWalletId).
Definition with_level (l : AccountLevel) (a : Account) : Account :=
  mkAccount a.(acc_id) a.(acc_username) l a.(acc_status) a.(acc_statusHistory) a.(acc_contactEnabled)
    a.(acc_contacts) a.(acc_withdrawFee) a.(acc_kratosUserId) a.(acc_displayCurrency) a.(acc_defaultWalletId).
Definition with_statusHistory (h : list StatusEntry) (a : Account) : Account :=
  mkAccount a.(acc_id) a.(acc_username) a.(acc_level) a.(acc_status) h a.(acc_contactEnabled)
    a.(acc_contacts) a.(acc_withdrawFee) a.(acc_kratosUserId) a.(acc_displayCurrency) a.(acc_defaultWalletId).
Definition with_contacts (cs : list AccountContact) (a : Account) : Account :=
  mkAccount a.(acc_id) a.(acc_username) a.(acc_level) a.(acc_status) a.(acc_statusHistory) a.(acc_contactEnabled)
    cs a.(acc_withdrawFee) a.(acc_kratosUserId) a.(acc_displayCurrency) a.(acc_defaultWalletId).
Definition with_withdrawFee (f : number) (a : Account) : Account :=
  mkAccount a.(acc_id) a.(acc_username) a.(acc_level) a.(acc_status) a.(acc_statusHistory) a.(acc_contactEnabled)
    a.(acc_contacts) (Some f) a.(acc_kratosUserId) a.(acc_displayCurrency) a.(acc_defaultWalletId).
Definition with_displayCurrency (c : DisplayCurrency) (a : Account) : Account :=
  mkAccount a.(acc_id) a.(acc_username) a.(acc_level) a.(acc_status) a.(acc_statusHistory) a.(acc_contactEnabled)
    a.(acc_contacts) a.(acc_withdrawFee) a.(acc_kratosUserId) c a.(acc_defaultWalletId).
Definition with_defaultWalletId (id : WalletId) (a : Account) : Account :=
  mkAccount a.(acc_id) a.(acc_username) a.(acc_level) a.(acc_status) a.(acc_statusHistory) a.(acc_contactEnabled)
    a.(acc_contacts) a.(acc_withdrawFee) a.(acc_kratosUserId) a.(acc_displayCurrency) (Some id).

(** One more transaction with a contact, which is new or not. *)
Fixpoint count_contact (contactUsername : Username) (contacts : list AccountContact) : list AccountContact :=
  match contacts with
  | [] => [mkAccountContact contactUsername "" 1]
  | c :: cs => if decide (c.(ac_username) = contactUsername)
               then mkAccountContact c.(ac_username) c.(ac_alias) (c.(ac_transactionsCount) + 1) :: cs
               else c :: count_contact contactUsername cs
  end.

Fixpoint set_alias (username alias : string) (contacts : list AccountContact) : option (list AccountContact * AccountContact) :=
  match contacts with
  | [] => None
  | c :: cs => if decide (c.(ac_username) = username)
               then let c' := mkAccountContact c.(ac_username) alias c.(ac_transactionsCount) in Some (c' :: cs, c')
               else '(cs', c') ← set_alias username alias cs; Some (c :: cs', c')
  end.

(** ** The repository *)

(** The validators of the schema, which also run on an update. *)
Definition AccountSchema (a : Account) : bool :=
  valid_username a.(acc_username) &&
  match a.(acc_withdrawFee) with Some fee => negb (num_ltb fee (Number 0)) | None => true end.

(** The record [old] after the update with [a]. *)
Definition update_record (a : Account) (old : AccountRecord) : AccountRecord := {|
  ar_id := old.(ar_id);
  ar_username := set_field a.(acc_username) old.(ar_username);
  ar_level := a.(acc_level);
  ar_statusHistory := a.(acc_statusHistory);
  ar_contactEnabled := a.(acc_contactEnabled);
  ar_contacts := map (fun c => mkContactRecord c.(ac_username) (Some c.(ac_alias)) c.(ac_transactionsCount)) a.(acc_contacts);
  ar_withdrawFee := set_field a.(acc_withdrawFee) old.(ar_withdrawFee);
  ar_kratosUserId := a.(acc_kratosUserId);
  ar_displayCurrency := Some a.(acc_displayCurrency);
  ar_defaultWalletId := set_field a.(acc_defaultWalletId) old.(ar_defaultWalletId);
|}.

(** The same username up to case, which is what its index compares and what a lookup matches. *)
Definition same_username (u v : option Username) : bool :=
  match u, v with Some u, Some v => bool_decide (lower_string u = lower_string v) | _, _ => false end.

(** Another account has the username or the user of [r]. *)
Definition conflicts (r r' : AccountRecord) : bool :=
  bool_decide (r'.(ar_id) ≠ r.(ar_id)) &&
  (same_username r'.(ar_username) r.(ar_username) || bool_decide (r'.(ar_kratosUserId) = r.(ar_kratosUserId))).

Section AccountsRepository.
Context {X : Type} `{Database X}.

Definition account_of (r : AccountRecord) : Result Account :=
  match translateToAccount r with Ok account => Ok account | Err msg => Err (RepositoryError msg) end.

(** The username is part of a regular expression without being escaped: usernames have word
    characters only. *)
Definition findByUsername (username : Username) : IO X (Result Account) :=
  repo (fun w => match filter (fun r => same_username r.(ar_username) (Some username) = true) w.(accounts) with
                 | [] => Err (CouldNotFindAccountFromUsernameError username)
                 | r :: _ => account_of r
                 end).

Definition findByUserId (kratosUserId : UserId) : IO X (Result Account) :=
  repo (fun w => match filter (fun r => r.(ar_kratosUserId) = kratosUserId) w.(accounts) with
                 | [] => Err (CouldNotFindAccountFromKratosIdError kratosUserId)
                 | r :: _ => account_of r
                 end).

(** The accounts that [listAccountsByStatus] goes through. *)
Definition accounts_with (status : AccountStatus) (l : list AccountRecord) : list AccountRecord :=
  filter (fun r => se_status <$> last r.(ar_statusHistory) = Some status) l.

Definition updateAccount (a : Account) : IO X (Result Account) :=
  if negb (AccountSchema a) then mret (Err (RepositoryError "ValidationError")) else
  result ←? catch_as RepositoryError (db
    (l ← gets accounts;
     match update_first (fun r => bool_decide (r.(ar_id) = a.(acc_id))) (fun r => Some (update_record a r)) l with
     | (_, None) => mret (Err (RepositoryError "Couldn't update account"))
     | (l', Some r) =>
         if existsb (conflicts r) l then mret (Err DuplicateKeyForPersistError)
         else _ ← modify (fun w => with_accounts w l'); mret (Ok r)
     end));
  mret (r ← result; account_of r).

(** ** The application *)

Definition hasPermissions (accountId : AccountId) (walletId : WalletId) : IO X (Result bool) :=
  wallet ←? findWalletById walletId;
  mret (Ok (bool_decide (accountId = wallet.(w_accountId)))).

Definition validateIsBtcWallet (walletId : WalletId) : IO X (Result bool) :=
  wallet ←? findWalletById walletId;
  mret (if decide (wallet.(w_currency) = Usd) then Err MismatchedCurrencyForWalletError else Ok true).

Definition validateIsUsdWallet (walletId : WalletId) : IO X (Result bool) :=
  wallet ←? findWalletById walletId;
  mret (if decide (wallet.(w_currency) = Btc) then Err MismatchedCurrencyForWalletError else Ok true).

Definition usernameAvailable (username : Username) : IO X (Result bool) :=
  checkedUsername ←! checkedToUsername username;
  account ← findByUsername checkedUsername;
  mret (match account with
        | Err e => if is_CouldNotFindError e then Ok true else Err e
        | Ok _ => Ok false
        end).

Definition setUsername (accountIdRaw username : string) : IO X (Result Account) :=
  checkedUsername ←! checkedToUsername username;
  accountId ←! checkedToAccountId accountIdRaw;
  account ←? findAccountById accountId;
  if truthy account.(acc_username) then mret (Err UsernameIsImmutableError) else
  isAvailable ←? usernameAvailable checkedUsername;
  if negb isAvailable then mret (Err UsernameNotAvailableError) else
  updateAccount (with_username checkedUsername account).

Definition updateContactAlias (accountIdRaw username alias : string) : IO X (Result AccountContact) :=
  accountId ←! checkedToAccountId accountIdRaw;
  aliasChecked ←! checkedToContactAlias alias;
  account ←? findAccountById accountId;
  match set_alias username aliasChecked account.(acc_contacts) with
  | None => mret (Err ContactNotExistentError)
  | Some (contacts, contact) =>
      _ ←? updateAccount (with_contacts contacts account);
      mret (Ok contact)
  end.

Definition updateDefaultWalletId (accountId : AccountId) (walletId : WalletId) : IO X (Result Account) :=
  account ←? findAccountById accountId;
  wallets ←? listByAccountId account.(acc_id);
  if negb (existsb (fun w : Wallet => bool_decide (w.(w_id) = walletId)) wallets)
  then mret (Err (InvalidWalletId "")) else
  updateAccount (with_defaultWalletId walletId account).

Definition updateAccountLevel (accountIdRaw : string) (level : AccountLevel) : IO X (Result Account) :=
  accountId ←! checkedToAccountId accountIdRaw;
  account ←? findAccountById accountId;
  _ ←! AccountValidator account;
  updateAccount (with_level level account).

Definition updateAccountStatus (accountIdRaw status : string) (updatedByPrivilegedClientId comment : option string)
    : IO X (Result Account) :=
  accountId ←! checkedToAccountId accountIdRaw;
  account ←? findAccountById accountId;
  statusChecked ←! checkedAccountStatus status;
  updateAccount (with_statusHistory
    (account.(acc_statusHistory) ++ [mkStatusEntry statusChecked updatedByPrivilegedClientId comment]) account).

Definition updateAccountWithdrawFee (accountIdRaw : string) (fee : number) : IO X (Result Account) :=
  checkedFee ←! sanityCheckedDefaultAccountWithdrawFee fee;
  accountId ←! checkedToAccountId accountIdRaw;
  account ←? findAccountById accountId;
  updateAccount (with_withdrawFee checkedFee account).

Definition addNewContact (accountId : AccountId) (contactUsername : Username) : IO X (Result Account) :=
  _ ←? findByUsername contactUsername;
  account ←? findAccountById accountId;
  let account := with_contacts (count_contact contactUsername account.(acc_contacts)) account in
  _ ←? updateAccount account;
  mret (Ok account).

Definition addContactsAfterSend (senderAccount recipientAccount : Account) : IO X (Result bool) :=
  if negb (senderAccount.(acc_contactEnabled) && recipientAccount.(acc_contactEnabled)) then mret (Ok true) else
  _ ←? match js_or_opt recipientAccount.(acc_username) None with
       | Some username => _ ←? addNewContact senderAccount.(acc_id) username; mret (Ok true)
       | None => mret (Ok true)
       end;
  _ ←? match js_or_opt senderAccount.(acc_username) None with
       | Some username => _ ←? addNewContact recipientAccount.(acc_id) username; mret (Ok true)
       | None => mret (Ok true)
       end;
  mret (Ok true).

Definition getContactByUsername (account : Account) (contactUsername : string) : Result AccountContact :=
  match filter (fun c => lower_string c.(ac_username) = contactUsername) account.(acc_contacts) with
  | contact :: _ => Ok contact
  | [] => Err NoContactForUsernameError
  end.

(** The middleware of the fields that act on a wallet.  [walletId] is the input, which a scalar may
    have refused; the mapping of errors to GraphQL is left out. *)
Definition validateWalletId {R} (resolve : IO X (Result R)) (walletId : option (Result WalletId))
    (domainAccount : option Account) : IO X (Result R) :=
  match walletId with
  | None => mret (Err (InvalidWalletId ""))
  | Some (Err e) => mret (Err e)
  | Some (Ok walletId) =>
      if negb (truthy walletId) then mret (Err (InvalidWalletId "")) else
      match domainAccount with
      | None => mret (Err InvalidAccountError)
      | Some account =>
          permitted ←? hasPermissions account.(acc_id) walletId;
          if negb permitted then mret (Err InvalidWalletForAccountError) else resolve
      end
  end.

Lemma keeps_updateAccount a : keeps same_books (updateAccount a).
Proof.
  unfold updateAccount. destruct (negb _); [solve_keeps|]. apply keeps_bind_or; [apply _| |intros r; solve_keeps].
  apply keeps_catch, keeps_db; [apply _..|]. apply keeps_bind; [apply _|solve_keeps|intros l].
  destruct (update_first _ _ l) as [l' [r|]]; [|solve_keeps]. destruct (existsb _ l); [solve_keeps|].
  apply keeps_bind; [apply _|by apply keeps_modify|intros _]. solve_keeps.
Qed.

(** The contacts are not part of the books. *)
Lemma keeps_addContactsAfterSend s r : keeps same_books (addContactsAfterSend s r).
Proof.
  assert (Hadd : ∀ id u, keeps same_books (addNewContact id u)).
  { intros id u. unfold addNewContact, findByUsername, findAccountById. apply keeps_bind_or; [apply _|solve_keeps|intros c].
    apply keeps_bind_or; [apply _|solve_keeps|intros a]. apply keeps_bind_or; [apply _|apply keeps_updateAccount|intros a']. solve_keeps. }
  unfold addContactsAfterSend. destruct (negb _); [solve_keeps|].
  apply keeps_bind_or; [apply _| |intros b]; [|apply keeps_bind_or; [apply _| |intros b'; solve_keeps]];
    (case_match; [apply keeps_bind_or; [apply _|apply Hadd|intros a; solve_keeps]|solve_keeps]).
Qed.

End AccountsRepository.

(** ** What every update keeps *)

(** No two accounts share an id, a username or a user. *)
Definition accounts_ok (l : list AccountRecord) : Prop :=
  NoDup (map ar_id l) ∧ ∀ r r', r ∈ l -> r' ∈ l -> conflicts r r' = false.

(** The account [r'] is the account [r] later on: its id, its user and a username it has stay, and
    its statuses are only added to. *)
Definition later (r r' : AccountRecord) : Prop :=
  r'.(ar_id) = r.(ar_id) ∧ r'.(ar_kratosUserId) = r.(ar_kratosUserId) ∧
  (∀ u, r.(ar_username) = Some u -> u ≠ "" -> r'.(ar_username) = Some u) ∧
  r.(ar_statusHistory) `prefix_of` r'.(ar_statusHistory).

Definition evolves (l l' : list AccountRecord) : Prop := Forall2 later l l' ∧ (accounts_ok l -> accounts_ok l').

Lemma later_refl r : later r r.
Proof. by split_and!. Qed.

Lemma later_all l : Forall2 later l l.
Proof. induction l; constructor; [apply later_refl|done]. Qed.

#[export] Instance evolves_preorder : PreOrder evolves.
Proof.
  split.
  - intros l. split; [apply later_all|done].
  - intros l1 l2 l3 [H1 O1] [H2 O2]. split; [|auto]. clear O1 O2. revert l3 H2.
    induction H1 as [|r1 r2 l1 l2 (I & K & U & P) _ IH]; intros l3 H2; inversion H2 as [|? r3 ? l3' (I' & K' & U' & P')]; subst; constructor.
    + split_and!; [congruence..|by eauto|by etrans].
    + by apply IH.
Qed.

Lemma conflicts_sym r r' : conflicts r r' = conflicts r' r.
Proof.
  assert (Hs : ∀ u v, same_username u v = same_username v u).
  { intros [u|] [v|]; try done. cbn. apply bool_decide_ext. split; congruence. }
  unfold conflicts. rewrite (Hs (ar_username r')). f_equal; [|f_equal]; apply bool_decide_ext; split; congruence.
Qed.

(** The update of one record of the list. *)
Lemma update_first_split (l : list AccountRecord) id (f : AccountRecord -> AccountRecord) :
  match update_first (fun r => bool_decide (r.(ar_id) = id)) (fun r => Some (f r)) l with
  | (_, None) => True
  | (l', Some r') => ∃ l1 r l2, l = l1 ++ r :: l2 ∧ l' = l1 ++ f r :: l2 ∧ r' = f r ∧ r.(ar_id) = id
  end.
Proof.
  induction l as [|r l IH]; cbn; [done|]. case_bool_decide as E; cbn.
  - by exists [], r, l.
  - destruct (update_first _ _ l) as [l' [r'|]]; [|done]. destruct IH as (l1 & r0 & l2 & -> & -> & -> & ?).
    by exists (r :: l1), r0, l2.
Qed.

Lemma evolves_one l1 r r' l2 : later r r' -> existsb (conflicts r') (l1 ++ r :: l2) = false ->
  evolves (l1 ++ r :: l2) (l1 ++ r' :: l2).
Proof.
  intros Hr Hc. assert (Hn : ∀ x, x ∈ l1 ++ r :: l2 -> conflicts r' x = false).
  { intros x Hx. destruct (conflicts r' x) eqn:E; [|done]. rewrite <- Hc. symmetry. apply existsb_exists.
    exists x. by rewrite <- list_elem_of_In. }
  split.
  - apply Forall2_app; [|constructor; [done|]]; apply later_all.
  - intros [Hd Hl]. destruct Hr as (Hid & _). split.
    + rewrite map_app in *. cbn in *. by rewrite Hid.
    + assert (Hself : conflicts r' r' = false) by (unfold conflicts; rewrite bool_decide_false by tauto; done).
      assert (Hin : ∀ x, x ∈ l1 ++ r' :: l2 -> x = r' ∨ x ∈ l1 ++ r :: l2) by set_solver.
      intros x y [->|Hx]%Hin [->|Hy]%Hin; [done|by apply Hn|rewrite conflicts_sym; by apply Hn|by apply Hl].
Qed.

Section Kept.
Context {X : Type} `{Database X}.
Implicit Types (w : World X).

(** The account object was read from a record of the list and changed since: its id and user are the
    record's, so is a username that the record has, and its statuses start with the record's. *)
Definition derived (l : list AccountRecord) (a : Account) : Prop :=
  ∀ r, r ∈ l -> r.(ar_id) = a.(acc_id) -> later r (update_record a r).

Definition keeps_accounts {A} (m : IO X A) : Prop := ∀ w, accounts_ok w.(accounts) ->
  wp m (fun _ w' => evolves w.(accounts) w'.(accounts)) w.

Lemma wp_updateAccount a (Q : Result Account -> World X -> Prop) w : derived w.(accounts) a ->
  (∀ r w', evolves w.(accounts) w'.(accounts) -> Q r w') -> wp (updateAccount a) Q w.
Proof.
  intros Ha HQ. unfold updateAccount. destruct (AccountSchema a); [|by apply wp_ret, HQ]. cbn [negb].
  apply wp_bind_or, wp_catch, wp_db; [intros; by apply HQ|]. intros x. apply wp_bind, wp_gets.
  cbn [accounts with_outside].
  pose proof (update_first_split w.(accounts) a.(acc_id) (update_record a)) as Hs.
  destruct (update_first _ _ _) as [l' [r'|]]; [|by apply wp_ret, wp_ret, HQ].
  destruct Hs as (l1 & r & l2 & E & -> & -> & Hid).
  destruct (existsb _ _) eqn:Ec; [by apply wp_ret, wp_ret, HQ|].
  apply wp_bind, wp_modify, wp_ret, wp_ret, HQ. cbn. rewrite E in *. apply evolves_one; [|done].
  apply Ha; [set_solver|done].
Qed.

Lemma account_of_fields r a : account_of r = Ok a -> a.(acc_id) = r.(ar_id) ∧ a.(acc_username) = r.(ar_username) ∧
  a.(acc_kratosUserId) = r.(ar_kratosUserId) ∧ a.(acc_statusHistory) = r.(ar_statusHistory).
Proof. unfold account_of, translateToAccount. destruct (last _); [|done]. by intros [= <-]. Qed.

(** Changes of [a] that an update may make. *)
Definition changes_of (l : list AccountRecord) (a : Account) : Prop :=
  ∀ f : Account -> Account, (f a).(acc_id) = a.(acc_id) -> (f a).(acc_kratosUserId) = a.(acc_kratosUserId) ->
    (∀ u, a.(acc_username) = Some u -> u ≠ "" -> (f a).(acc_username) = Some u) ->
    a.(acc_statusHistory) `prefix_of` (f a).(acc_statusHistory) -> derived l (f a).

(** A read account, changed by [f]. *)
Lemma read_changes l r a : accounts_ok l -> r ∈ l -> account_of r = Ok a -> changes_of l a.
Proof.
  intros [Hd _] Hr (Ei & Eu & Ek & Es)%account_of_fields f Fi Fk Fu Fs r' Hr' Hi'.
  assert (r' = r) as ->.
  { rewrite Fi, Ei in Hi'. apply list_elem_of_lookup in Hr as [i Hi]. apply list_elem_of_lookup in Hr' as [j Hj].
    assert (i = j) as ->; [|congruence]. apply (NoDup_lookup (map ar_id l) i j r.(ar_id)); [done|..];
      rewrite list_lookup_fmap; [by rewrite Hi|rewrite Hj; cbn; by rewrite Hi']. }
  unfold later, update_record. cbn. rewrite <- Es, Fk, Ek. split_and!; try done.
  intros u Hu Hn. rewrite <- Eu in Hu. by rewrite (Fu u Hu Hn).
Qed.

Lemma wp_findAccount (P : AccountRecord -> Prop) `{!∀ r, Decision (P r)} e0 (Q : Result Account -> World X -> Prop) w :
  accounts_ok w.(accounts) -> (∀ e x, Q (Err e) (with_outside w x)) ->
  (∀ a x, changes_of w.(accounts) a -> Q (Ok a) (with_outside w x)) ->
  wp (repo (fun w => match filter P w.(accounts) with [] => Err e0 | r :: _ => account_of r end)) Q w.
Proof.
  intros Hw HErr HOk. apply wp_repo; [intros; by apply HErr|]. intros x. cbn [accounts with_outside].
  destruct (filter _ _) as [|r rest] eqn:E; [by apply HErr|].
  assert (Hr : r ∈ filter P w.(accounts)) by (rewrite E; by left). apply list_elem_of_filter in Hr as [_ Hr].
  destruct (account_of r) as [a|e] eqn:Ea; [|by apply HErr]. apply HOk. by eapply read_changes.
Qed.

(** A program that reads an account and writes it with a change. *)
Lemma keeps_change {B} `{FromError B} id (k : Account -> IO X B) :
  (∀ a w, accounts_ok w.(accounts) -> changes_of w.(accounts) a ->
     wp (k a) (fun _ w' => evolves w.(accounts) w'.(accounts)) w) ->
  keeps_accounts (a ←? findAccountById id; k a).
Proof.
  intros Hk w Hw. apply wp_bind_or. apply (wp_findAccount (fun r => r.(ar_id) = id)); [done|done|]. intros a x Ha. exact (Hk a (with_outside w x) Hw Ha).
Qed.

Lemma keeps_accounts_ret {A} (a : A) : keeps_accounts (mret a).
Proof. intros w _. by apply wp_ret. Qed.

Lemma keeps_accounts_bind {A B} (m : IO X A) (k : A -> IO X B) :
  keeps_accounts m -> (∀ a, keeps_accounts (k a)) -> keeps_accounts (m ≫= k).
Proof.
  intros Hm Hk w Hw. apply wp_bind. eapply wp_mono; [by apply Hm|]. intros a w1 E1.
  eapply wp_mono; [apply Hk; by apply E1|]. intros b w2 E2. by transitivity (accounts w1).
Qed.

Lemma keeps_accounts_bind_or {A B} `{FromError B} (m : IO X (Result A)) (k : A -> IO X B) :
  keeps_accounts m -> (∀ a, keeps_accounts (k a)) -> keeps_accounts (bind_or m k).
Proof. intros Hm Hk. apply keeps_accounts_bind; [done|]. intros [a|e]; [apply Hk|apply keeps_accounts_ret]. Qed.

Lemma keeps_accounts_or_return {A B} `{FromError B} (r : Result A) (k : A -> IO X B) :
  (∀ a, keeps_accounts (k a)) -> keeps_accounts (or_return r k).
Proof. intros Hk. destruct r; [apply Hk|apply keeps_accounts_ret]. Qed.

Lemma keeps_accounts_repo {A} (f : World X -> Result A) : keeps_accounts (repo f).
Proof. intros w _. by apply wp_repo. Qed.

Lemma keeps_addNewContact id u : keeps_accounts (addNewContact id u).
Proof.
  apply keeps_accounts_bind_or; [apply keeps_accounts_repo|]. intros _. apply keeps_change. intros a w Hw Ha.
  cbn zeta. apply wp_bind_or, wp_updateAccount; [by apply (Ha (with_contacts _))|]. intros [b|e] w' E; [by apply wp_ret|done].
Qed.

Lemma wp_usernameAvailable u (Q : Result bool -> World X -> Prop) w :
  (∀ b w', w'.(accounts) = w.(accounts) -> Q (Ok b) w') -> (∀ e w', w'.(accounts) = w.(accounts) -> Q (Err e) w') ->
  wp (usernameAvailable u) Q w.
Proof.
  intros HOk HErr. unfold usernameAvailable. apply wp_or_return; [intros v _|intros; by apply HErr].
  apply wp_bind, wp_repo; [intros; apply wp_ret; by apply HErr|]. intros x. apply wp_ret.
  match goal with |- Q (match ?r with Ok _ => _ | Err _ => _ end) _ => destruct r as [a|e] end; [by apply HOk|].
  destruct (is_CouldNotFindError e); [by apply HOk|by apply HErr].
Qed.

(** The middleware of the wallet fields lets a resolver run only for a wallet of the account that asks: if it answers
    at all, the resolver was run on a stored wallet with the given id that belongs to the account. *)
Theorem wallet_guarded {R} (resolve : IO X (Result R)) walletId account w :
  wp (validateWalletId resolve walletId account) (fun r w' =>
    match r with
    | Ok _ => ∃ id a (wl : Wallet) w1, walletId = Some (Ok id) ∧ account = Some a ∧ wl ∈ w.(wallets) ∧ wl.(w_id) = id ∧
        wl.(w_accountId) = a.(acc_id) ∧ (∃ x, w1 = with_outside w x) ∧ (r, w') = resolve w1
    | Err _ => True
    end) w.
Proof.
  unfold validateWalletId. destruct walletId as [[id|e]|]; [|by apply wp_ret..].
  destruct (truthy id); [|by apply wp_ret]. cbn [negb]. destruct account as [a|]; [|by apply wp_ret].
  apply wp_bind_or, wp_bind_or, wp_repo; [done|]. intros x. cbn [wallets with_outside].
  destruct (filter _ _) as [|wl rest] eqn:E; [done|]. apply wp_ret. case_bool_decide as Ea; cbn [negb]; [|by apply wp_ret].
  assert (Hwl : wl ∈ filter (fun wl : Wallet => wl.(w_id) = id) w.(wallets)) by (rewrite E; by left).
  apply list_elem_of_filter in Hwl as [Hi Hwl]. unfold wp. destruct (resolve _) as [[b|e] w'] eqn:Er; [|done]. cbn.
  by exists id, a, wl, (with_outside w x); split_and!; try done; eexists.
Qed.

End Kept.

Module AccountExamples.
Import BookExamples.

Definition id1 : AccountId := "11111111-1111-4111-8111-111111111111".
Definition id2 : AccountId := "22222222-2222-4222-8222-222222222222".

Definition new_account (id : AccountId) (user : UserId) : AccountRecord :=
  mkAccountRecord id None LevelOne [mkStatusEntry Active None None] true [] None user None None.

Definition two : World nat :=
  mkWorld [] [] [] [] [] [] [new_account id1 "u1"; new_account id2 "u2"] [] [] [] start.(bankWallets) start.(outside).

Lemma two_ok : accounts_ok two.(accounts).
Proof.
  split; [cbn; repeat constructor; set_solver|]. intros r r'. cbn [two accounts]. rewrite !elem_of_cons, !elem_of_nil.
  intros [->|[->|[]]] [->|[->|[]]]; vm_compute; reflexivity.
Qed.

(** The steps of two updates of an account in between each other: a contact is added to an account that
    was read before it was locked.  All of the account is written, so it is active again. *)
Definition locked_meanwhile : World nat :=
  let '(r, w1) := findAccountById id1 two in
  let '(_, w2) := updateAccountStatus id1 "locked" (Some "admin") None w1 in
  match r with
  | Ok a => (updateAccount (with_contacts (count_contact "alice" a.(acc_contacts)) a) w2).2
  | Err _ => w2
  end.

Example lock_lost_to_contact :
  accounts_with Locked (updateAccountStatus id1 "locked" (Some "admin") None two).2.(accounts) ≠ [] ∧
  accounts_with Locked locked_meanwhile.(accounts) = [].
Proof. split; [|reflexivity]. vm_compute. discriminate. Qed.

End AccountExamples.
