(* ===== verification/AccountUpdates.v ===== *)
(** * Updates of accounts

    The updates of [app/accounts] that reach beyond the accounts: the display currency, which is one that the price service
    lists ([app/prices]), the deletion of an account, and the upgrade of a device account, which change the user too
    ([services/mongoose/users.ts]).  With those of [Accounts] they are all that [app/accounts] does to an account once it is created; creating one is not
    modelled.  The collections of users and of merchants, Kratos and the cache of the currencies are outside. *)

From S2P Require Import Prelude JsNumber Shared Prices Fees Lightning PaymentFlow LedgerEntry TxMetadata.
From S2P Require Import LedgerTx TxHistory Limits World LedgerBook LedgerService Services Repositories WalletInvoices.
From S2P Require Import Money Accounts.

(** ** The display currency *)

Record PriceCurrency := mkPriceCurrency {
  pc_code : DisplayCurrency;
  pc_symbol : string;
  pc_name : string;
  pc_flag : string;
  pc_fractionDigits : number;
  pc_countryCodes : list string;
}.

(** The call of the price service, and the node-cache under [CacheKeys.PriceCurrencies].  [Err msg] is a thrown error. *)
Class PriceCurrencies (X : Type) := {
  listPriceCurrencies : X -> result string (option (list PriceCurrency)) * X;
  localCache_get : X -> result string (option (list PriceCurrency)) * X;
  localCache_set : list PriceCurrency -> X -> unit * X;
}.

Section Currencies.
Context {X : Type} `{Database X} `{PriceCurrencies X}.

Definition handlePriceErrors (errMsg : string) : ApplicationError :=
  if includes "No connection established" errMsg then NoConnectionToPriceServiceError errMsg
  else UnknownPriceServiceError errMsg.

Definition PriceService_listCurrencies : IO X (Result (list PriceCurrency)) :=
  currencies ← ext listPriceCurrencies;
  mret (match currencies with
        | Err msg => Err (handlePriceErrors msg)
        | Ok None | Ok (Some []) => Err PriceCurrenciesNotAvailableError
        | Ok (Some currencies) => Ok currencies
        end).

(** [LocalCacheService().getOrSet]: an error of the cache is as no entry, and that of storing one is not looked at. *)
Definition listCurrencies : IO X (Result (list PriceCurrency)) :=
  cachedData ← ext localCache_get;
  match cachedData with
  | Ok (Some currencies) => mret (Ok currencies)
  | _ =>
      data ←? PriceService_listCurrencies;
      _ ← ext (localCache_set data);
      mret (Ok data)
  end.

Definition getCurrency (currency : string) : IO X (Result PriceCurrency) :=
  checkedDisplayCurrency ←! checkedToDisplayCurrency currency;
  currencies ←? listCurrencies;
  mret (match filter (fun c => toUpperCase c.(pc_code) = checkedDisplayCurrency) currencies with
        | priceCurrency :: _ => Ok priceCurrency
        | [] => Err InvalidPriceCurrencyError
        end).

Definition updateDisplayCurrency (accountId : AccountId) (currency : string) : IO X (Result Account) :=
  priceCurrency ←? getCurrency currency;
  account ←? findAccountById accountId;
  updateAccount (with_displayCurrency priceCurrency.(pc_code) account).

End Currencies.

(** ** Users *)

(** The metadata of a phone is not looked into. *)
Record UserRecord (PM : Type) := mkUserRecord {
  ur_userId : UserId;
  ur_phoneMetadata : option PM;
  ur_phone : option string;
  ur_deletedPhones : option (list string);
  ur_createdAt : Z;
  ur_deviceId : option string;
  ur_deletedEmails : option (list string);
}.
Arguments mkUserRecord {PM}.
Arguments ur_userId {PM}.
Arguments ur_phoneMetadata {PM}.
Arguments ur_phone {PM}.
Arguments ur_deletedPhones {PM}.
Arguments ur_createdAt {PM}.
Arguments ur_deviceId {PM}.
Arguments ur_deletedEmails {PM}.

Record User (PM : Type) := mkUser {
  u_id : UserId;
  u_phoneMetadata : option PM;
  u_phone : option string;
  u_deletedPhones : option (list string);
  u_createdAt : Z;
  u_deviceId : option string;
  u_deletedEmails : option (list string);
}.
Arguments mkUser {PM}.
Arguments u_id {PM}.
Arguments u_phoneMetadata {PM}.
Arguments u_phone {PM}.
Arguments u_deletedPhones {PM}.
Arguments u_createdAt {PM}.
Arguments u_deviceId {PM}.
Arguments u_deletedEmails {PM}.

(** The collections of users and of merchants, by the queries that are made, and the administration of Kratos.  An update of a user
    without a phone unsets it. *)
Class UserModel (PM X : Type) := {
  User_findOne : UserId -> X -> result string (option (UserRecord PM)) * X;
  User_findByDeletedPhones : list string -> X -> result string (list (UserRecord PM)) * X;
  User_findOneAndUpdate : User PM -> X -> result string (option (UserRecord PM)) * X;
}.
Class MerchantModel (X : Type) := {
  Merchant_findByUsername : Username -> X -> result string (list string) * X;
  Merchant_deleteOne : string -> X -> result string unit * X;
}.
Class KratosAdmin (X : Type) := kratosAdmin_deleteIdentity : UserId -> X -> result string unit * X.

Definition translateToUser {PM} (user : UserRecord PM) : User PM :=
  mkUser user.(ur_userId) user.(ur_phoneMetadata) user.(ur_phone) user.(ur_deletedPhones) user.(ur_createdAt)
    user.(ur_deviceId) user.(ur_deletedEmails).

Section Users.
Context {PM X : Type} `{Database X} `{UserModel PM X} `{MerchantModel X} `{KratosAdmin X}.

(** A user that is not stored has default values. *)
Definition users_findById (id : UserId) : IO X (Result (User PM)) :=
  result ←? catch_as RepositoryError (ext (User_findOne id));
  match result with
  | None =>
      now ← ext Date_now;
      mret (Ok (translateToUser (mkUserRecord id None None None now None None)))
  | Some user => mret (Ok (translateToUser user))
  end.

Definition findByDeletedPhones (deletedPhones : list string) : IO X (Result (list (User PM))) :=
  result ←? catch_as RepositoryError (ext (User_findByDeletedPhones deletedPhones));
  mret (Ok (map translateToUser result)).

Definition users_update (input : User PM) : IO X (Result (User PM)) :=
  result ←? catch_as RepositoryError (ext (User_findOneAndUpdate input));
  mret (match result with
        | None => Err (RepositoryError "Couldn't update user")
        | Some user => Ok (translateToUser user)
        end).

Fixpoint removeMerchants (merchants : list string) : IO X (Result bool) :=
  match merchants with
  | [] => mret (Ok true)
  | id :: merchants =>
      _ ←? catch_as RepositoryError (ext (Merchant_deleteOne id));
      removeMerchants merchants
  end.

(** The merchants by their ids; that there are none is an error. *)
Definition deleteMerchantByUsername (username : string) : IO X (Result bool) :=
  usernameChecked ←! checkedToUsername username;
  merchants ←? catch_as RepositoryError (ext (Merchant_findByUsername usernameChecked));
  match merchants with
  | [] => mret (Err (CouldNotFindMerchantFromUsernameError usernameChecked))
  | merchants => removeMerchants merchants
  end.

Definition deleteIdentity (id : UserId) : IO X (Result unit) :=
  catch_as UnknownKratosError (ext (kratosAdmin_deleteIdentity id)).

Definition upgradeAccountFromDeviceToPhone (userId : UserId) (phone : string) (phoneMetadata : option PM) : IO X (Result Account) :=
  user ←? users_findById userId;
  _ ←? users_update (mkUser user.(u_id) phoneMetadata (Some phone) user.(u_deletedPhones) user.(u_createdAt)
         user.(u_deviceId) user.(u_deletedEmails));
  accountDevice ←? findByUserId user.(u_id);
  updateAccount (with_level LevelOne accountDevice).

(** ** The deletion of an account *)

Context {M : Type} `{MediciEntry M} `{!MediciBook M X} `{Resolvers X} (maxDeletions : number).

Fixpoint check_balances (accountId : AccountId) (cancelIfPositiveBalance : bool) (wallets : list Wallet) : IO X (Result unit) :=
  match wallets with
  | [] => mret (Ok tt)
  | wallet :: wallets =>
      balance ←? getWalletBalance (M := M) wallet.(w_id);
      if num_ltb (Number 0) balance && cancelIfPositiveBalance
      then mret (Err (AccountHasPositiveBalanceError wallet.(w_id) balance accountId))
      else check_balances accountId cancelIfPositiveBalance wallets
  end.

(** The phone of the user is kept among those that were deleted, of which only so many may be used again. *)
Definition check_deletions (user : User PM) : IO X (Result unit) :=
  match option_list (js_or_opt user.(u_phone) None) ++ default [] user.(u_deletedPhones) with
  | [] => mret (Ok tt)
  | deletedPhones =>
      usersByPhones ←? findByDeletedPhones deletedPhones;
      mret (if num_leb maxDeletions (Number (Z.of_nat (length usersByPhones))) then Err InvalidAccountForDeletionError else Ok tt)
  end.

Definition delete_phone (user : User PM) : IO X (Result unit) :=
  match js_or_opt user.(u_phone) None with
  | None => mret (Ok tt)
  | Some phone =>
      _ ←? users_update (mkUser user.(u_id) user.(u_phoneMetadata) None (Some (default [] user.(u_deletedPhones) ++ [phone]))
             user.(u_createdAt) user.(u_deviceId) user.(u_deletedEmails));
      mret (Ok tt)
  end.

Definition markAccountForDeletion (accountId : AccountId) (cancelIfPositiveBalance : bool)
    (updatedByPrivilegedClientId : option string) : IO X (Result bool) :=
  account ←? findAccountById accountId;
  _ ←! AccountValidator account;
  wallets ←? listByAccountId account.(acc_id);
  _ ←? check_balances account.(acc_id) cancelIfPositiveBalance wallets;
  user ←? users_findById account.(acc_kratosUserId);
  _ ←? check_deletions user;
  _ ←? delete_phone user;
  let account := with_statusHistory
    (account.(acc_statusHistory) ++ [mkStatusEntry Closed updatedByPrivilegedClientId None]) account in
  _ ← match js_or_opt account.(acc_username) None with
      | Some username => _ ← deleteMerchantByUsername username; mret tt
      | None => mret tt
      end;
  _ ←? updateAccount account;
  _ ←? deleteIdentity account.(acc_kratosUserId);
  mret (Ok true).

End Users.

(** ** What every update keeps *)

Definition same_accounts {X} (w w' : World X) : Prop := w'.(accounts) = w.(accounts).

#[export] Instance same_accounts_frame X : Frame (@same_accounts X).
Proof. split; [split; [|done]|done..]. split; [done|]. unfold same_accounts. congruence. Qed.
#[export] Instance same_accounts_cache X : CacheFrame (@same_accounts X).
Proof. done. Qed.

Section Kept.
Context {PM M X : Type} `{MediciEntry M} `{!MediciBook M X} `{Database X} `{Resolvers X} `{PriceCurrencies X} `{UserModel PM X}
  `{MerchantModel X} `{KratosAdmin X} (maxDeletions : number).
Implicit Types (w : World X).

Lemma keeps_accounts_same {A} (m : IO X A) : keeps same_accounts m -> keeps_accounts m.
Proof. intros Hm w _. eapply wp_mono; [apply Hm|]. intros r w' E. by rewrite E. Qed.

Section Calls.
Context (R : relation (World X)) `{!Frame R} `{!CacheFrame R}.

Lemma keeps_getCurrency c : keeps R (getCurrency c).
Proof. unfold getCurrency, listCurrencies, PriceService_listCurrencies. solve_keeps. Qed.

Lemma keeps_getWalletBalance id : keeps R (getWalletBalance (M := M) id).
Proof.
  unfold getWalletBalance. apply keeps_bind_or; [apply _|solve_keeps|intros b]. apply keeps_bind_or; [apply _| |intros; solve_keeps].
  destruct (num_ltb _ _); [|solve_keeps]. apply keeps_catch; [apply _|].
  apply keeps_rejects; [apply _|apply keeps_cached; apply _|intros u].
  apply keeps_rejects; [apply _|apply keeps_cached; apply _|intros b']. solve_keeps.
Qed.

Lemma keeps_check_balances id cancel wls : keeps R (check_balances (M := M) id cancel wls).
Proof.
  induction wls as [|wl wls IH]; cbn; [solve_keeps|]. apply keeps_bind_or; [apply _|apply keeps_getWalletBalance|intros b].
  destruct (_ && _); [solve_keeps|apply IH].
Qed.

Lemma keeps_deleteMerchant username : keeps R (deleteMerchantByUsername username).
Proof.
  unfold deleteMerchantByUsername. apply keeps_or_return; [apply _|intros u]. apply keeps_bind_or; [apply _|solve_keeps|intros ids].
  destruct ids as [|id ids]; [solve_keeps|]. generalize (id :: ids). clear id ids. intros ids.
  induction ids as [|id ids IH]; cbn; [solve_keeps|]. apply keeps_bind_or; [apply _|solve_keeps|intros _; apply IH].
Qed.

Lemma keeps_user_steps (user : User PM) : keeps R (check_deletions maxDeletions user) ∧ keeps R (delete_phone user).
Proof. unfold check_deletions, delete_phone, findByDeletedPhones, users_update. split; solve_keeps. Qed.

End Calls.

(** A call that leaves the accounts as they are. *)
Lemma wp_same {A B} `{FromError B} (m : IO X (Result A)) (k : A -> IO X B) l w : w.(accounts) = l -> keeps same_accounts m ->
  (∀ a w', w'.(accounts) = l -> wp (k a) (fun _ w'' => evolves l w''.(accounts)) w') ->
  wp (bind_or m k) (fun _ w' => evolves l w'.(accounts)) w.
Proof.
  intros E Hm Hk. apply wp_bind_or. eapply wp_mono; [apply Hm|]. intros [a|e] w' E'; [apply Hk|]; rewrite E'; [done|by rewrite E].
Qed.

Lemma keeps_deletion id cancel by_ : keeps_accounts (markAccountForDeletion (PM := PM) (M := M) maxDeletions id cancel by_).
Proof.
  unfold markAccountForDeletion.
  apply keeps_change. intros a w Hw Ha. apply wp_or_return; [intros _ _|done].
  apply wp_same; [done|unfold listByAccountId; solve_keeps|intros wls w1 E1].
  apply wp_same; [done|apply keeps_check_balances; apply _|intros _ w2 E2].
  apply wp_same; [done|unfold users_findById; solve_keeps|intros user w3 E3].
  apply wp_same; [done|apply keeps_user_steps; apply _|intros _ w4 E4].
  apply wp_same; [done|apply keeps_user_steps; apply _|intros _ w5 E5]. cbn zeta.
  apply wp_bind, (wp_keeps same_accounts).
  { case_match; [|solve_keeps]. apply keeps_bind; [apply _|apply keeps_deleteMerchant; apply _|intros; solve_keeps]. }
  intros _ w6 E6. assert (E : w6.(accounts) = w.(accounts)) by (rewrite E6; exact E5). clear E1 E2 E3 E4 E5 E6.
  rewrite <- E in Ha |- *. apply wp_bind_or, wp_updateAccount; [apply (Ha (with_statusHistory _)); try done; by apply prefix_app_r|].
  intros [b|e] w7 E7; [|done]. apply wp_bind_or, (wp_keeps same_accounts); [unfold deleteIdentity; solve_keeps|].
  intros [[]|e] w8 E8; [apply wp_ret|]; by rewrite E8.
Qed.

Lemma keeps_addContacts s r : keeps_accounts (addContactsAfterSend s r).
Proof.
  unfold addContactsAfterSend.
  destruct (negb _); [apply keeps_accounts_ret|].
  assert (Hc : ∀ id (o : option Username), keeps_accounts (match js_or_opt o None with
    | Some username => _ ←? addNewContact id username; mret (Ok true) | None => mret (Ok true) end)).
  { intros id o. destruct (js_or_opt o None); [|apply keeps_accounts_ret].
    apply keeps_accounts_bind_or; [apply keeps_addNewContact|intros; apply keeps_accounts_ret]. }
  apply keeps_accounts_bind_or; [apply Hc|intros _]. apply keeps_accounts_bind_or; [apply Hc|intros _].
  apply keeps_accounts_ret.
Qed.

(** The updates of [app/accounts], of accounts that were created. *)
Inductive AccountOp :=
| SetUsername (accountId username : string)
| UpdateContactAlias (accountId username alias : string)
| UpdateDefaultWalletId (accountId : AccountId) (walletId : WalletId)
| UpdateAccountLevel (accountId : string) (level : AccountLevel)
| UpdateAccountStatus (accountId status : string) (by_ comment : option string)
| UpdateAccountWithdrawFee (accountId : string) (fee : number)
| AddContacts (senderAccount recipientAccount : Account)
| UpdateDisplayCurrency (accountId : AccountId) (currency : string)
| MarkAccountForDeletion (accountId : AccountId) (cancelIfPositiveBalance : bool) (by_ : option string)
| UpgradeAccountFromDeviceToPhone (userId : UserId) (phone : string) (phoneMetadata : option PM).

Definition perform (op : AccountOp) : IO X unit :=
  match op with
  | SetUsername id u => _ ← setUsername id u; mret tt
  | UpdateContactAlias id u a => _ ← updateContactAlias id u a; mret tt
  | UpdateDefaultWalletId id wid => _ ← updateDefaultWalletId id wid; mret tt
  | UpdateAccountLevel id l => _ ← updateAccountLevel id l; mret tt
  | UpdateAccountStatus id s b c => _ ← updateAccountStatus id s b c; mret tt
  | UpdateAccountWithdrawFee id f => _ ← updateAccountWithdrawFee id f; mret tt
  | AddContacts s r => _ ← addContactsAfterSend s r; mret tt
  | UpdateDisplayCurrency id c => _ ← updateDisplayCurrency id c; mret tt
  | MarkAccountForDeletion id cancel b => _ ← markAccountForDeletion (PM := PM) (M := M) maxDeletions id cancel b; mret tt
  | UpgradeAccountFromDeviceToPhone u p m => _ ← upgradeAccountFromDeviceToPhone u p m; mret tt
  end.

Lemma keeps_perform op : keeps_accounts (perform op).
Proof.
  destruct op; (apply keeps_accounts_bind; [|intros; apply keeps_accounts_ret]);
    unfold setUsername, updateContactAlias, updateAccountLevel, updateAccountStatus, updateAccountWithdrawFee,
      updateDisplayCurrency, upgradeAccountFromDeviceToPhone;
    repeat (apply keeps_accounts_or_return; intros ?).
  - apply keeps_change. intros a' w Hw Ha. destruct (truthy (acc_username a')) eqn:Eu; [by apply wp_ret|].
    apply wp_bind_or, wp_usernameAvailable; [|intros e w' E; cbn; by rewrite E].
    intros [] w' E; cbn [negb]; [|apply wp_ret; by rewrite E].
    apply wp_updateAccount; rewrite E; [|done]. apply (Ha (with_username _)); try done.
    intros v Ev Hv. rewrite Ev in Eu. change (bool_decide (v ≠ "") = false) in Eu. by apply bool_decide_eq_false in Eu.
  - apply keeps_change. intros a' w Hw Ha. destruct (set_alias _ _ _) as [[cs c]|]; [|by apply wp_ret].
    apply wp_bind_or, wp_updateAccount; [by apply (Ha (with_contacts _))|]. intros [b|e] w' E; [by apply wp_ret|done].
  - apply keeps_change. intros a' w Hw Ha. apply wp_bind_or, wp_repo; [done|]. intros x. case_match; [|done].
    destruct (existsb _ _); cbn [negb]; [|by apply wp_ret].
    apply wp_updateAccount; [by apply (Ha (with_defaultWalletId _))|done].
  - apply keeps_change. intros a' w Hw Ha. apply wp_or_return; [intros ? _|done].
    apply wp_updateAccount; [by apply (Ha (with_level _))|done].
  - apply keeps_change. intros a' w Hw Ha. apply wp_or_return; [intros ? _|done].
    apply wp_updateAccount; [|done]. apply (Ha (with_statusHistory _)); try done. by apply prefix_app_r.
  - apply keeps_change. intros a' w Hw Ha. apply wp_updateAccount; [by apply (Ha (with_withdrawFee _))|done].
  - apply keeps_addContacts.
  - apply keeps_accounts_bind_or; [apply keeps_accounts_same, keeps_getCurrency; apply _|intros c]. apply keeps_change. intros a w Hw Ha.
    apply wp_updateAccount; [by apply (Ha (with_displayCurrency _))|done].
  - apply keeps_deletion.
  - apply keeps_accounts_bind_or; [apply keeps_accounts_same; unfold users_findById; solve_keeps|intros u].
    apply keeps_accounts_bind_or; [apply keeps_accounts_same; unfold users_update; solve_keeps|intros u']. intros w Hw.
    apply wp_bind_or, (wp_findAccount (fun r => r.(ar_kratosUserId) = _)); [done|done|]. intros a x Ha.
    apply wp_updateAccount; [by apply (Ha (with_level _))|done].
Qed.

(** C38. Accounts keep their identity.  Whichever updates of accounts are made one after the other (of the username, the contacts, the
    default wallet, the level, the status, the withdraw fee and the display currency, the deletion of an account and the upgrade of a
    device account), and whatever fails, no two accounts come to share an id, a username (in any case of its letters) or a user; every
    account keeps its id, its user and a username that it has, and its statuses are only added to. *)
Theorem accounts_keep_identity (ops : list AccountOp) w (Hw : accounts_ok w.(accounts)) :
  wp (foldr (fun op m => _ ← perform op; m) (mret tt) ops)
    (fun _ w' => accounts_ok w'.(accounts) ∧ Forall2 later w.(accounts) w'.(accounts)) w.
Proof.
  assert (Hk : keeps_accounts (foldr (fun op m => _ ← perform op; m) (mret tt) ops)).
  { induction ops; [apply keeps_accounts_ret|]. apply keeps_accounts_bind; [apply keeps_perform|done]. }
  eapply wp_mono; [by apply Hk|]. intros _ w' [Hl Hok]. by auto.
Qed.

End Kept.

(** ** Examples *)
Module AccountUpdateExamples.
Import BookExamples AccountExamples.

(** The service lists one currency, and no user or merchant is stored. *)
#[local] Instance euros : PriceCurrencies nat := {
  listPriceCurrencies n := (Ok (Some [mkPriceCurrency "EUR" "E" "Euro" "" (Number 2) ["DE"]]), n);
  localCache_get n := (Ok None, n); localCache_set _ n := (tt, n);
}.
#[local] Instance no_users : UserModel unit nat := {
  User_findOne _ n := (Ok None, n); User_findByDeletedPhones _ n := (Ok [], n);
  User_findOneAndUpdate u n := (Ok (Some (mkUserRecord u.(u_id) u.(u_phoneMetadata) u.(u_phone) u.(u_deletedPhones) 0
    u.(u_deviceId) u.(u_deletedEmails))), n);
}.
#[local] Instance no_merchants : MerchantModel nat := {
  Merchant_findByUsername _ n := (Ok [], n); Merchant_deleteOne _ n := (Ok tt, n);
}.
#[local] Instance kratos : KratosAdmin nat := fun _ n => (Ok tt, n).

Definition wallets_of_two : World nat :=
  mkWorld [] [] [] [] [] [mkWalletRecord {| w_id := "w1"; w_currency := Btc; w_accountId := id1 |} []] two.(accounts) [] [] []
    start.(bankWallets) start.(outside).

(** The first account takes a username, which the second cannot take in other letters, and a currency, and is then deleted; the second one is
    upgraded. *)
Definition updates : list (AccountOp (PM := unit)) :=
  [SetUsername id1 "Alice"; SetUsername id2 "aLICE"; SetUsername id1 "bob"; UpdateDisplayCurrency id1 "eur";
   MarkAccountForDeletion id1 true None; UpgradeAccountFromDeviceToPhone "u2" "+491" None].
Definition updated : World nat :=
  (foldr (fun op m => _ ← perform (M := L0) (Number 2) op; m) (mret tt) updates wallets_of_two).2.

Lemma accounts_keep_identity_witness :
  map ar_username updated.(accounts) = [Some "Alice"; None] ∧ map ar_displayCurrency updated.(accounts) = [Some "EUR"; Some "USD"] ∧
  map (fun r => se_status <$> r.(ar_statusHistory)) updated.(accounts) = [[Active; Closed]; [Active]] ∧ accounts_ok updated.(accounts).
Proof.
  do 3 (split; [vm_compute; reflexivity|]).
  exact (proj1 (accounts_keep_identity (M := L0) (Number 2) updates wallets_of_two two_ok)).
Defined.

End AccountUpdateExamples.
