(* ===== verification/AccountLimits.v ===== *)
(** * Checking the limits of an account

    Models [app/accounts/account-limit.ts] and the queries of [services/ledger/facade/volume.ts] over
    the stored ledger, wallets and accounts.  Each query reads the clock for itself. *)

From S2P Require Import Prelude JsNumber Shared Prices Fees Lightning PaymentFlow LedgerEntry TxMetadata.
From S2P Require Import LedgerTx TxHistory Limits World LedgerBook LedgerService Services Repositories Money.

(** The fields of a document that the volume query reads. *)
Definition stored_tx (d : Doc) : StoredTx := {|
  st_accounts := d.(raw_accounts);
  st_type := d.(raw_type);
  st_timestamp := d.(raw_timestamp);
  st_datetime := d.(doc_datetime);
  st_journal := d.(raw_journal);
  st_original_journal := d.(doc_original_journal);
  st_debit := d.(raw_debit);
  st_credit := d.(raw_credit);
|}.

Inductive AccountLimitsType := LimitWithdrawal | LimitIntraLedger | LimitSelfTrade.

Section AccountLimits.
Context {X : Type} `{Database X} (accountLimits : YamlAccountLimits).

(** [timestampDaysAgo] of a whole number of days *)
Definition timestampDaysAgo (days : Z) : IO X Z :=
  now ← ext Date_now; mret (now - days * ImbalanceCalculator.MS_PER_DAY).

Definition txVolumeSince (walletId : WalletId) (timestamp : Z) (txnGroup : TxnGroup) : IO X (Result TxBaseVolume) :=
  now ← ext Date_now;
  catch_as UnknownLedgerError
    (db (gets (fun w => base_volume (map stored_tx w.(ledger)) now walletId timestamp txnGroup))).

Definition create (txnGroup : TxnGroup) (wallet : WalletDescriptor) (timestamp : Z) : IO X (Result TxBaseVolumeAmount) :=
  volume ←? txVolumeSince wallet.(w_id) timestamp txnGroup;
  mret (volume_amount volume wallet.(w_currency)).

(** A query of the facade: a group of transactions and a method of [VolumeCalculator]. *)
Definition volume_query (txnGroup : TxnGroup) (calc : TxBaseVolumeAmount -> Amount) (wallet : WalletDescriptor)
    (timestamp : Z) : IO X (Result Amount) :=
  txBaseVolumeAmount ←? create txnGroup wallet timestamp;
  mret (Ok (calc txBaseVolumeAmount)).

Definition netOutExternalPaymentVolumeAmountSince := volume_query externalPaymentVolumeSince netOut.
Definition outIntraledgerTxBaseVolumeAmountSince := volume_query intraledgerTxBaseVolumeSince outgoing.
Definition outTradeIntraAccountTxBaseVolumeAmountSince := volume_query tradeIntraAccountTxBaseVolumeSince outgoing.
Definition absoluteAllTxBaseVolumeAmountSince := volume_query allTxBaseVolumeSince absolute.
Definition netInOnChainTxBaseVolumeAmountSince := volume_query onChainTxBaseVolumeSince netIn.
Definition netInLightningTxBaseVolumeAmountSince := volume_query lightningTxBaseVolumeSince netIn.

(** The three limits are computed the same way from their query and their method of
    [AccountTxVolumeRemaining]. *)
Definition remainingLimit (volumeAmountSince : WalletDescriptor -> Z -> IO X (Result Amount))
    (remaining : IAccountLimits -> WalletPriceRatio.t -> list Amount -> Result Amount)
    (accountId : AccountId) (priceRatio : WalletPriceRatio.t) : IO X (Result Amount) :=
  timestamp1Day ← timestampDaysAgo 1;
  accountWalletDescriptors ←? findAccountWalletsByAccountId accountId;
  btcWalletVolume ←? volumeAmountSince accountWalletDescriptors.(BTC) timestamp1Day;
  usdWalletVolume ←? volumeAmountSince accountWalletDescriptors.(USD) timestamp1Day;
  account ←? findAccountById accountId;
  mret (remaining (getAccountLimits account.(acc_level) accountLimits) priceRatio [btcWalletVolume; usdWalletVolume]).

Definition checkLimits (remaining : AccountId -> WalletPriceRatio.t -> IO X (Result Amount))
    (check : IAccountLimits -> Amount -> Amount -> Result unit)
    (amt : Amount) (accountId : AccountId) (priceRatio : WalletPriceRatio.t) : IO X (Result unit) :=
  volumeRemaining ←? remaining accountId priceRatio;
  account ←? findAccountById accountId;
  mret (check (getAccountLimits account.(acc_level) accountLimits) amt volumeRemaining).

Definition remainingIntraLedgerLimit :=
  remainingLimit outIntraledgerTxBaseVolumeAmountSince AccountTxVolumeRemaining_intraLedger.
Definition checkIntraledgerLimits := checkLimits remainingIntraLedgerLimit checkIntraledger.

Definition remainingWithdrawalLimit :=
  remainingLimit netOutExternalPaymentVolumeAmountSince AccountTxVolumeRemaining_withdrawal.
Definition checkWithdrawalLimits := checkLimits remainingWithdrawalLimit checkWithdrawal.

Definition remainingTradeIntraAccountLimit :=
  remainingLimit outTradeIntraAccountTxBaseVolumeAmountSince AccountTxVolumeRemaining_tradeIntraAccount.
Definition checkTradeIntraAccountLimits := checkLimits remainingTradeIntraAccountLimit checkTradeIntraAccount.

Definition totalLimit (level : AccountLevel) (limitType : AccountLimitsType) : number :=
  let config := getAccountLimits level accountLimits in
  match limitType with
  | LimitIntraLedger => config.(intraLedgerLimit)
  | LimitWithdrawal => config.(withdrawalLimit)
  | LimitSelfTrade => config.(tradeIntraAccountLimit)
  end.

End AccountLimits.

(** A check of the limits writes nothing. *)
Section KeepsLimits.
Context {X : Type} `{Database X} (yaml : YamlAccountLimits) (R : relation (World X)) `{!Reads R}.

Lemma keeps_volume_query g calc wd t : keeps R (volume_query (X := X) g calc wd t).
Proof. unfold volume_query, create, txVolumeSince. solve_keeps. Qed.

Lemma keeps_checkLimits g calc remaining check amt id r :
  keeps R (checkLimits (X := X) yaml (remainingLimit yaml (volume_query g calc) remaining) check amt id r).
Proof.
  unfold checkLimits, remainingLimit, timestampDaysAgo, findAccountWalletsByAccountId, listByAccountId, findAccountById.
  apply keeps_bind_or; [apply _| |intros v; solve_keeps].
  apply keeps_bind; [apply _|solve_keeps|intros t]. apply keeps_bind_or; [apply _|solve_keeps|intros wds].
  do 2 (apply keeps_bind_or; [apply _|apply keeps_volume_query|intros ?]). solve_keeps.
Qed.

Lemma keeps_intraledgerLimits amt id r : keeps R (checkIntraledgerLimits (X := X) yaml amt id r).
Proof. apply keeps_checkLimits. Qed.
Lemma keeps_tradeLimits amt id r : keeps R (checkTradeIntraAccountLimits (X := X) yaml amt id r).
Proof. apply keeps_checkLimits. Qed.
Lemma keeps_withdrawalLimits amt id r : keeps R (checkWithdrawalLimits (X := X) yaml amt id r).
Proof. apply keeps_checkLimits. Qed.

End KeepsLimits.
#[export] Hint Resolve keeps_intraledgerLimits keeps_tradeLimits keeps_withdrawalLimits : keeps.

(** ** The limits hold *)

Lemma safe_stored L : exact_book L -> safe_ledger (map stored_tx L).
Proof.
  intros (Ha & Hd & Hc). unfold doc_debit, doc_credit in *. split.
  - rewrite Forall_map. exact Ha.
  - unfold debits. rewrite !map_map. exact Hd.
  - unfold credits. rewrite !map_map. exact Hc.
Qed.

Section Enforced.
Context {X : Type} `{Database X} (yaml : YamlAccountLimits).
Implicit Types (w : World X).

(** The account has one wallet of each currency, and a level. *)
Record standing (accountId : AccountId) w (wallets : AccountWalletDescriptors) (level : AccountLevel) : Prop := {
  sd_btc : map wl_descriptor (filter (fun wl : Wallet => wl.(w_currency) = Btc ∧ wl.(w_accountId) = accountId) w.(World.wallets))
           = [wallets.(BTC)];
  sd_usd : map wl_descriptor (filter (fun wl : Wallet => wl.(w_currency) = Usd ∧ wl.(w_accountId) = accountId) w.(World.wallets))
           = [wallets.(USD)];
  sd_level : ∃ r rest, filter (fun r : AccountRecord => r.(ar_id) = accountId) w.(accounts) = r :: rest ∧
             r.(ar_statusHistory) ≠ [] ∧ r.(ar_level) = level;
}.

Lemma standing_outside accountId w x wallets level : standing accountId w wallets level ->
  standing accountId (with_outside w x) wallets level.
Proof. by intros []. Qed.

Lemma standing_same accountId w w' wallets level : same_data w w' -> standing accountId w wallets level ->
  standing accountId w' wallets level.
Proof. intros [[_ Hw] Ha] [Hb Hu Hl]. split; [by rewrite Hw..|by rewrite Ha]. Qed.

(** An access to the database failed. *)
Definition db_failure (e : ApplicationError) : Prop :=
  match e with RepositoryError _ | UnknownLedgerError _ => True | _ => False end.

Lemma wp_findWallets accountId wallets level (Q : Result AccountWalletDescriptors -> World X -> Prop) w :
  standing accountId w wallets level -> (∀ e x, db_failure e -> Q (Err e) (with_outside w x)) ->
  (∀ x, Q (Ok wallets) (with_outside w x)) -> wp (findAccountWalletsByAccountId accountId) Q w.
Proof.
  intros [Hb Hu _] HErr HOk. apply wp_bind_or, wp_repo; [intros; by apply HErr|]. intros x. cbn [World.wallets with_outside].
  pose proof (list_filter_filter (fun wl : Wallet => wl.(w_currency) = Btc) (fun wl => wl.(w_accountId) = accountId) w.(World.wallets)) as Eb.
  pose proof (list_filter_filter (fun wl : Wallet => wl.(w_currency) = Usd) (fun wl => wl.(w_accountId) = accountId) w.(World.wallets)) as Eu.
  rewrite <- Eb in Hb. rewrite <- Eu in Hu. clear Eb Eu.
  destruct (filter _ w.(World.wallets)) as [|wl0 wls]; [done|]. apply wp_ret. unfold single_wallet.
  destruct (filter _ (wl0 :: wls)) as [|b [|]] in Hb |- *; try discriminate Hb.
  destruct (filter _ (wl0 :: wls)) as [|u [|]] in Hu |- *; try discriminate Hu.
  injection Hb as Hb. injection Hu as Hu. cbn. rewrite Hb, Hu. destruct wallets. apply HOk.
Qed.

Lemma wp_findLevel accountId wallets level (Q : Result Account -> World X -> Prop) w :
  standing accountId w wallets level -> (∀ e x, db_failure e -> Q (Err e) (with_outside w x)) ->
  (∀ a x, a.(acc_level) = level -> Q (Ok a) (with_outside w x)) -> wp (findAccountById accountId) Q w.
Proof.
  intros [_ _ (r & rest & E & Hs & Hl)] HErr HOk. apply wp_repo; [intros; by apply HErr|]. intros x. cbn [accounts with_outside].
  rewrite E. unfold translateToAccount. destruct (last _) eqn:El; [by apply HOk|]. by apply last_None in El.
Qed.

(** A query gives the sums of the transactions that match. *)
Lemma wp_volume_query g calc wallet t (Q : Result Amount -> World X -> Prop) w : exact_book w.(ledger) ->
  (∀ e x, db_failure e -> Q (Err e) (with_outside w x)) ->
  (∀ x (now := (Date_now w.(outside)).1),
     let txs := matched (map stored_tx w.(ledger)) now wallet.(w_id) t g in
     Q (Ok (calc {| outgoing := {| amount := debits txs; currency := wallet.(w_currency) |};
                    incoming := {| amount := credits txs; currency := wallet.(w_currency) |} |})) (with_outside w x)) ->
  wp (volume_query g calc wallet t) Q w.
Proof.
  intros Hex HErr HOk. apply wp_bind_or, wp_bind_or, wp_bind, wp_ext. intros now x Hx. apply wp_catch, wp_db.
  { intros msg x'. by apply (HErr _ x'). }
  intros x'. apply wp_gets, wp_ret. cbn [ledger with_outside]. rewrite volume_sums by (by apply safe_stored). apply wp_ret.
  specialize (HOk x'). by rewrite Hx in HOk.
Qed.

(** The limit of the account's level, and the volume that counts against it. *)
Definition spent (g : TxnGroup) (net : bool) (wallets : AccountWalletDescriptors) r (L : list Doc) t now now' : Z :=
  let volume n wallet :=
    let txs := matched (map stored_tx L) n wallet.(w_id) (t - ImbalanceCalculator.MS_PER_DAY) g in
    if net then debits txs - credits txs else debits txs in
  sent_in_cents r (volume now wallets.(BTC)) (volume now' wallets.(USD)).

Definition calc_of (net : bool) : TxBaseVolumeAmount -> Amount := if net then netOut else outgoing.

(** When a check in [w] reads the clock: [t] at its start, and, once the account's wallets are found, [now] in the
    query for the BTC wallet and [now'] in the one for the USD wallet. *)
Definition clock_read (accountId : AccountId) g net (wallets : AccountWalletDescriptors) w t now now' : Prop :=
  ∃ x0 x1 x2 volume, Date_now w.(outside) = (t, x0) ∧
    findAccountWalletsByAccountId accountId (with_outside w x0) = (Ok wallets, with_outside w x1) ∧ (Date_now x1).1 = now ∧
    volume_query g (calc_of net) wallets.(BTC) (t - ImbalanceCalculator.MS_PER_DAY) (with_outside w x1) = (Ok volume, with_outside w x2) ∧
    (Date_now x2).1 = now'.

(** What a check answers: the database failed, or the verdict of the limit. *)
Definition answers (accountId : AccountId) g net (limit : Z) (err : string -> ApplicationError) r amt w
    (wallets : AccountWalletDescriptors) (res : Result unit) : Prop :=
  (∃ e, res = Err e ∧ db_failure e) ∨
  ∃ t now now', clock_read accountId g net wallets w t now now' ∧
    res = if spent g net wallets r w.(ledger) t now now' + amt <=? limit then Ok tt
          else Err (err (limitErrMsg (Number limit))).

(** The account has not exceeded the limit with [amt] more cents, at the times that the check in [w] reads. *)
Definition allowed (accountId : AccountId) g net limit r amt w wallets : Prop :=
  ∃ t now now', clock_read accountId g net wallets w t now now' ∧ spent g net wallets r w.(ledger) t now now' + amt <= limit.

Lemma answers_within accountId g net limit err r amt w wallets u :
  answers accountId g net limit err r amt w wallets (Ok u) -> allowed accountId g net limit r amt w wallets.
Proof.
  intros [(e & [=] & _)|(t & now & now' & Hc & E)]. exists t, now, now'. split; [done|].
  revert E. destruct (Z.leb_spec (spent g net wallets r w.(ledger) t now now' + amt) limit); [done|discriminate].
Qed.

Lemma wp_checkLimits g net remaining check err (field : IAccountLimits -> number) limit accountId wallets level r amt w :
  (∀ l, remaining l = volumeRemaining (field l)) ->
  (∀ l a v, check l a v = if a.(amount) <=? v.(amount) then Ok tt else Err (err (limitErrMsg (field l)))) ->
  field (getAccountLimits level yaml) = Number limit -> safe_integer limit -> 0 < amt ->
  standing accountId w wallets level -> wallets.(BTC).(w_currency) = Btc -> wallets.(USD).(w_currency) = Usd ->
  exact_book w.(ledger) ->
  wp (checkLimits yaml (remainingLimit yaml (volume_query g (calc_of net)) remaining) check (UsdPaymentAmount amt) accountId r)
    (fun res w' => (∃ x, w' = with_outside w x) ∧ answers accountId g net limit err r amt w wallets res) w.
Proof.
  intros Hrem Hcheck Hlim Hsafe Hamt Hs Hbtc Husd Hex.
  assert (HErr : ∀ e x, db_failure e -> (∃ x', with_outside w x = with_outside w x') ∧
    answers accountId g net limit err r amt w wallets (Err e)) by (intros e x He; split; [eauto|left; eauto]).
  apply wp_bind_or, wp_bind, wp_bind, wp_ext. intros t0 x0 H0. apply wp_ret.
  apply wp_bind_or, wp_trace. eapply wp_findWallets; [repeat apply standing_outside; exact Hs|intros; by apply HErr|intros x1 H1].
  apply wp_bind_or, wp_trace, wp_volume_query; [done|intros; by apply HErr|intros x2 t1 txs1 H2].
  apply wp_bind_or, wp_volume_query; [done|intros; by apply HErr|intros x3 t2 txs2].
  apply wp_bind_or. eapply wp_findLevel; [repeat apply standing_outside; exact Hs|intros; by apply HErr|intros a x4 Ha].
  apply wp_ret. rewrite Hrem, Ha, Hlim.
  set (b := calc_of net _). set (u := calc_of net _).
  destruct (volumeRemaining_within limit r b u amt) as (v & -> & _ & Hv); [done..| | |].
  { subst b. by destruct net. }
  { subst u. by destruct net. }
  apply wp_bind_or. eapply wp_findLevel; [repeat apply standing_outside; exact Hs|intros; by apply HErr|intros a' x5 Ha'].
  apply wp_ret. split; [by eexists|]. right. exists t0, t1, t2. split; [by exists x0, x1, x2, b|].
  rewrite Hcheck, Ha', Hlim. cbn [amount UsdPaymentAmount].
  replace (spent _ _ _ _ _ _ _ _) with (sent_in_cents r b.(amount) u.(amount)) by (subst b u; by destruct net).
  destruct (Z.leb_spec amt v.(amount)), (Z.leb_spec (sent_in_cents r b.(amount) u.(amount) + amt) limit); first [done|lia].
Qed.

(** C37. The limits hold over the last day.  For an account with one wallet of each currency
    and a positive amount, a withdrawal is allowed exactly if what the account's wallets paid
    out in the last day, net of what came back and in cents at the given ratio, plus the amount
    is within the withdrawal limit of the account's level, the day being the one before the check reads the clock; a payment to another user and a
    trade within the account are allowed exactly if the debits of their kind in the last day
    plus the amount are within their limits.  Otherwise the error names the limit, unless an access to
    the database fails.  A check changes nothing. *)
Theorem limits_enforced accountId wallets level r amt w i out t (Hs : standing accountId w wallets level)
    (Hex : exact_book w.(ledger)) (Hamt : 0 < amt)
    (Hbtc : wallets.(BTC).(w_currency) = Btc) (Husd : wallets.(USD).(w_currency) = Usd)
    (Hlimits : getAccountLimits level yaml = mkLimits (Number i) (Number out) (Number t))
    (Hsafe : safe_integer i ∧ safe_integer out ∧ safe_integer t) :
  let checked check g net limit err :=
    wp (check yaml (UsdPaymentAmount amt) accountId r) (fun res w' =>
      (∃ x, w' = with_outside w x) ∧ answers accountId g net limit err r amt w wallets res) w in
  checked checkWithdrawalLimits externalPaymentVolumeSince true out WithdrawalLimitsExceededError ∧
  checked checkIntraledgerLimits intraledgerTxBaseVolumeSince false i IntraledgerLimitsExceededError ∧
  checked checkTradeIntraAccountLimits tradeIntraAccountTxBaseVolumeSince false t TradeIntraAccountLimitsExceededError.
Proof.
  destruct Hsafe as (? & ? & ?). cbn zeta. split_and!.
  - apply (wp_checkLimits _ true _ _ _ withdrawalLimit _ _ _ level); first [done | by rewrite Hlimits].
  - apply (wp_checkLimits _ false _ _ _ intraLedgerLimit _ _ _ level); first [done | by rewrite Hlimits].
  - apply (wp_checkLimits _ false _ _ _ tradeIntraAccountLimit _ _ _ level); first [done | by rewrite Hlimits].
Qed.

End Enforced.

(** ** The price of a check *)

Section LimitsPrice.
Context {X : Type} `{Database X} `{PriceServices X} `{Intl} (precision : number) (hedge : bool).
Implicit Types (w : World X) (p : AmountPair).

(** The ratio for the limits of a payment of [p] that is checked in [w]: the one of its amounts, and below 5000 satoshis
    the one of what these are worth at the mid price. *)
Definition limits_price p (r : WalletPriceRatio.t) w w1 : Prop :=
  if p.(btc).(amount) <? 5000 then
    ∃ mid, getMidPriceRatio precision hedge w = (Ok mid, w1) ∧
      r = PriceRatio.mk (PriceRatio.convertFromWallet mid (BtcPaymentAmount 5000)) (BtcPaymentAmount 5000)
  else w1 = w ∧ r = PriceRatio.mk p.(usd).(amount) p.(btc).

Lemma wp_getPriceRatioForLimits p w :
  wp (getPriceRatioForLimits precision hedge p) (fun res w1 => same_data w w1 ∧ ∀ r, res = Ok r -> limits_price p r w w1) w.
Proof.
  apply wp_and; [by apply (wp_keeps same_data); [auto with keeps|]|]. unfold getPriceRatioForLimits, limits_price. cbn zeta.
  change MIN_SATS_FOR_PRICE_RATIO_PRECISION with 5000.
  destruct (_ <? _); [|apply wp_ret; intros r Hr; split; [done|by apply wallet_ratio_made]].
  apply wp_bind_or, wp_bind_or, wp_result. intros [mid|e] w1 E; [|done].
  apply wp_ret, wp_ret. intros r Hr. exists mid. split; [done|]. by apply wallet_ratio_made in Hr.
Qed.

(** The payment of [p], of [amt] cents, was within the limit when it was checked in [w]. *)
Definition within_limit (accountId : AccountId) (g : TxnGroup) (net : bool) (limit : Z) p amt w (wallets : AccountWalletDescriptors) : Prop :=
  ∃ r w1, same_data w w1 ∧ limits_price p r w w1 ∧ allowed accountId g net limit r amt w1 wallets.

End LimitsPrice.

Module AccountLimitsExamples.
Import BookExamples.

(** 3 cents for 100 sats. *)
Definition ratio : WalletPriceRatio.t := PriceRatio.mk 3 (BtcPaymentAmount 100).

Definition wallets : AccountWalletDescriptors := {|
  BTC := {| w_id := "alice-btc"; w_currency := Btc; w_accountId := "a" |}; USD := LedgerExamples.alice |}.

Definition yaml : YamlAccountLimits := {|
  yaml_intraLedger _ := Number 200000; yaml_withdrawal _ := Number 10000; yaml_tradeIntraAccount _ := Number 500000;
|}.

(** Alice has paid 15 dollars. *)
Definition spent15 : World nat :=
  mkWorld sent.(ledger) [] [] [] [] [mkWalletRecord wallets.(BTC) []; mkWalletRecord wallets.(USD) []]
    [mkAccountRecord "a" None LevelOne [mkStatusEntry Active None None] false [] None "user" None None] [] [] [] start.(bankWallets) sent.(outside).

Lemma spent15_standing : standing "a" spent15 wallets LevelOne.
Proof. split; [done..|]. by eexists _, _. Qed.

Lemma base_Number z : 0 <= z < 2 ^ 53 -> base_amount (Number z).
Proof. intros Hz. by exists z. Qed.

(** Proves that a concrete book is exact. *)
Ltac concrete_book :=
  match goal with |- exact_book ?L => let L' := eval vm_compute in L in change (exact_book L') end;
  split; [|split; vm_compute; reflexivity];
  repeat constructor; cbn;
  match goal with |- base_amount ?n => let z := eval vm_compute in (amount_of n) in apply (base_Number z); lia end.

Lemma spent15_exact : exact_book spent15.(ledger).
Proof. concrete_book. Qed.

Lemma limits_safe : safe_integer 200000 ∧ safe_integer 10000 ∧ safe_integer 500000.
Proof. by vm_compute. Qed.

(** Of the limit of 100 dollars a day, 85 are left: they are allowed, and a cent above is not. *)
Lemma limits_enforced_witness :
  (checkWithdrawalLimits yaml (UsdPaymentAmount 8500) "a" ratio spent15).1 = Ok tt ∧
  allowed "a" externalPaymentVolumeSince true 10000 ratio 8500 spent15 wallets ∧
  ∃ t now now', clock_read "a" externalPaymentVolumeSince true wallets spent15 t now now' ∧
    10000 < spent externalPaymentVolumeSince true wallets ratio spent15.(ledger) t now now' + 8501.
Proof.
  assert (E : (checkWithdrawalLimits yaml (UsdPaymentAmount 8500) "a" ratio spent15).1 = Ok tt) by (vm_compute; reflexivity).
  assert (E' : (checkWithdrawalLimits yaml (UsdPaymentAmount 8501) "a" ratio spent15).1
    = Err (WithdrawalLimitsExceededError (limitErrMsg (Number 10000)))) by (vm_compute; reflexivity).
  destruct (wp_run _ _ _ _ (proj1 (limits_enforced yaml "a" wallets LevelOne ratio 8500 spent15 200000 10000 500000
    spent15_standing spent15_exact ltac:(lia) eq_refl eq_refl eq_refl limits_safe)) E) as [_ Hr].
  destruct (wp_run _ _ _ _ (proj1 (limits_enforced yaml "a" wallets LevelOne ratio 8501 spent15 200000 10000 500000
    spent15_standing spent15_exact ltac:(lia) eq_refl eq_refl eq_refl limits_safe)) E')
    as [_ [(e & He & Hf)|(t' & n & n' & Hc' & Hr')]]; [injection He as <-; destruct Hf|].
  split; [exact E|]. split; [exact (answers_within _ _ _ _ _ _ _ _ _ _ Hr)|exists t', n, n'].
  split; [exact Hc'|]. revert Hr'.
  destruct (Z.leb_spec (spent externalPaymentVolumeSince true wallets ratio spent15.(ledger) t' n n' + 8501) 10000); [discriminate|done].
Defined.

End AccountLimitsExamples.
