(* ===== verification/FlowBuilder.v ===== *)
(** * Building a payment flow in the application

    Models [app/payments/helpers.ts]: the builder of a Lightning payment with the prices of the dealer
    and the mid price, and the recipient that an invoice of the bank names.  The builder is run on
    services that answer when they are asked; every such run is a run of the builder on fixed
    prices, so the theorems of [LightningBuilder] hold of the flows that the application makes. *)

From S2P Require Import Prelude JsNumber Shared Prices Fees Lightning PaymentFlow LightningBuilder LedgerEntry.
From S2P Require Import TxMetadata LedgerTx TxHistory Limits Invoices World LedgerBook LedgerService Services Repositories.
From S2P Require Import WalletInvoices Money.
Import LPFB.

(** The random hash of a payment without an invoice. *)
Class RandomHash (X : Type) := generateIntraLedgerHash : X -> IntraLedgerHash * X.

Section Helpers.
Context {X : Type} `{Database X} `{PriceServices X} `{ILightningService X} `{Intl}.
Context (RATIO_PRECISION : number) (usdHedgeEnabled : bool).

(** The prices that are handed to the builder. *)
Definition mid_prices : ConversionFns (Async X) :=
  mkConversionFns (usdFromBtcMidPriceFn RATIO_PRECISION usdHedgeEnabled) (btcFromUsdMidPriceFn RATIO_PRECISION usdHedgeEnabled).
Definition immediate_buy : ConversionFns (Async X) :=
  mkConversionFns (fun a => ext (getCentsFromSatsForImmediateBuy a)) (fun a => ext (getSatsFromCentsForImmediateBuy a)).
Definition immediate_sell : ConversionFns (Async X) :=
  mkConversionFns (fun a => ext (getCentsFromSatsForImmediateSell a)) (fun a => ext (getSatsFromCentsForImmediateSell a)).
Definition future_buy : ConversionFns (Async X) :=
  mkConversionFns (fun a => ext (getCentsFromSatsForFutureBuy a)) (fun a => ext (getSatsFromCentsForFutureBuy a)).
Definition future_sell : ConversionFns (Async X) :=
  mkConversionFns (fun a => ext (getCentsFromSatsForFutureSell a)) (fun a => ext (getSatsFromCentsForFutureSell a)).

(** [builder.withConversion({ mid, hedgeBuyUsd, hedgeSellUsd })], whose promise is awaited next. *)
Definition converted (builder : Result WithRecipientWalletState) (buy sell : ConversionFns (Async X))
    : IO X (Result WithConversionState) :=
  state ←! builder;
  now ← ext Date_now;
  (withConversion (F := Async X) state (mkConversionArgs buy sell mid_prices) now : IO X (Result WithConversionState)).

Context (parsePaymentRequest : string -> result string DecodedInvoice).

Definition recipientDetailsFromInvoice (invoice : LnInvoice) : IO X (Result WithRecipientArgs) :=
  walletInvoice ←? findInvoiceByPaymentHash parsePaymentRequest invoice.(inv_paymentHash);
  if walletInvoice.(wi_paid) then mret (Err (AlreadyPaidError walletInvoice.(wi_paymentHash))) else
  recipientWallet ←? findWalletById walletInvoice.(wi_recipientWalletDescriptor).(w_id);
  let accountId := recipientWallet.(w_accountId) in
  accountWallets ←? findAccountWalletsByAccountId accountId;
  recipientAccount ←? findAccountById accountId;
  mret (Ok {|
    ra_defaultWalletCurrency := walletInvoice.(wi_recipientWalletDescriptor).(w_currency);
    ra_recipientWalletDescriptors := accountWallets;
    ra_pubkey := Some walletInvoice.(wi_pubkey);
    ra_usdPaymentAmount := walletInvoice.(wi_usdAmount);
    ra_username := recipientAccount.(acc_username);
    ra_userId := recipientAccount.(acc_kratosUserId) |}).

(** [getValuesToSkipProbe()] *)
Context (skipPubkey : list Pubkey) (skipChanId : list ChanId).

(** A builder that carries an error answers [isIntraLedger()] with a promise, which is not awaited and
    therefore counts as true. *)
Definition constructPaymentFlowBuilder (senderWallet : WalletDescriptor) (invoice : LnInvoice)
    (uncheckedAmount : option number) (buy sell : ConversionFns (Async X)) : IO X (Result WithConversionState) :=
  _ ←? ext LndService;
  localNodeIds ← ext listAllPubkeys;
  let cfg := mkConfig localNodeIds skipPubkey skipChanId in
  let builderWithInvoice :=
    match js_or_opt uncheckedAmount None with
    | Some uncheckedAmount => withNoAmountInvoice cfg invoice uncheckedAmount
    | None => withInvoice cfg invoice
    end in
  let builderWithSenderWallet := builderWithInvoice ≫= fun state => withSenderWallet state senderWallet in
  let isIntraLedger := match builderWithSenderWallet with Ok state => sender_isIntraLedger state | Err _ => true end in
  if isIntraLedger then
    recipientDetails ←? recipientDetailsFromInvoice invoice;
    converted (builderWithSenderWallet ≫= fun state => withRecipientWallet state recipientDetails) buy sell
  else converted (builderWithSenderWallet ≫= withoutRecipientWallet) buy sell.

End Helpers.

(** ** A run with asked prices is a run with fixed prices *)

(** What an answer to the amount [a] is relied on for: an amount of the other currency that is not
    negative, and one that floats hold if [a] is within the maximum. *)
Definition fair_answer (to : WalletCurrency) (a : Amount) (r : Result Amount) : Prop :=
  ∀ b, r = Ok b -> 0 < a.(amount) -> 0 <= b.(amount) ∧ b.(currency) = to ∧
    (a.(amount) <= Built.max_amount a.(currency) -> b.(amount) < 2 ^ 53).

(** Fixed prices with the answer [r] to [a] and no other. *)
Definition answering (a : Amount) (r : Result Amount) : Amount -> Result Amount :=
  fun b => if decide (b = a) then r else Err PriceNotAvailableError.

Definition one_cents (a : Amount) (r : Result Amount) : ConversionFns (result ApplicationError) :=
  mkConversionFns (answering a r) (fun _ => Err PriceNotAvailableError).
Definition one_sats (a : Amount) (r : Result Amount) : ConversionFns (result ApplicationError) :=
  mkConversionFns (fun _ => Err PriceNotAvailableError) (answering a r).

(** Fixed prices that are fair. *)
Record fair_prices (fns : ConversionFns (result ApplicationError)) : Prop := {
  fp_usd : ∀ a, fair_answer Usd a (usdFromBtc fns a);
  fp_btc : ∀ a, fair_answer Btc a (btcFromUsd fns a);
}.

Lemma fair_laws fns : fair_prices fns -> ConversionLaws fns.
Proof. intros [Hu Hb]. split; intros a b E Ha; [destruct (Hu a b E Ha)|destruct (Hb a b E Ha)]; tauto. Qed.

Lemma answering_same a r : answering a r a = r.
Proof. unfold answering. by rewrite decide_True. Qed.

Lemma answering_fair to a r : fair_answer to a r -> ∀ b, fair_answer to b (answering a r b).
Proof. intros Hr b. unfold answering. case_decide; [by subst|]. by intros ? [=]. Qed.

Lemma one_cents_fair a r : fair_answer Usd a r -> fair_prices (one_cents a r).
Proof. intros Hr. split; intros b; [by apply answering_fair|by intros ? [=]]. Qed.

Lemma one_sats_fair a r : fair_answer Btc a r -> fair_prices (one_sats a r).
Proof. intros Hr. split; intros b; [by intros ? [=]|by apply answering_fair]. Qed.

Section Asked.
Context {X : Type} (R : relation (World X)) `{!Reads R}.
Implicit Types (w : World X).

(** A service whose answers are fair, and that leaves the collections alone. *)
Record fair_service (fns : ConversionFns (Async X)) : Prop := {
  fs_usd : ∀ a w, wp (usdFromBtc fns a) (fun r w' => R w w' ∧ fair_answer Usd a r) w;
  fs_btc : ∀ a w, wp (btcFromUsd fns a) (fun r w' => R w w' ∧ fair_answer Btc a r) w;
}.

(** The run of [m] from [w] has the result of [direct] at some fair fixed prices. *)
Definition at_fixed {C} (m : Async X C) (direct : WithConversionArgs (result ApplicationError) -> Result C) : Prop :=
  ∀ w, wp m (fun res w' => R w w' ∧ ∃ h m', fair_prices h ∧ fair_prices m' ∧ ∀ args', args'.(hedgeBuyUsd) = h ->
    args'.(hedgeSellUsd) = h -> args'.(mid) = m' -> direct args' = res) w.

Definition no_prices : ConversionFns (result ApplicationError) := one_cents ZERO_SATS (Err PriceNotAvailableError).

Lemma no_prices_fair : fair_prices no_prices.
Proof. by apply one_cents_fair. Qed.

Lemma returns_bind {A B} (r : Result A) (k : A -> Result B) w :
  @mbind (Async X) calls_bind A B (fun a => returns (k a)) (returns r) w = (r ≫= k, w).
Proof. by destruct r. Qed.

Lemma at_fixed_returns {C} (r : Result C) : at_fixed (returns r) (fun _ => r).
Proof. intros w. apply wp_returns. split; [done|]. eauto 8 using no_prices_fair. Qed.

(** A question whose answer is used in a computation. *)
Lemma at_fixed_ask {C} to (ask : Async X Amount) a k (kk : Amount -> Async X C) direct :
  (∀ w, wp ask (fun r w' => R w w' ∧ fair_answer to a r) w) -> (∀ u w, kk u w = (k u, w)) ->
  (∀ r, fair_answer to a r -> ∃ h m, fair_prices h ∧ fair_prices m ∧ ∀ args', args'.(hedgeBuyUsd) = h ->
     args'.(hedgeSellUsd) = h -> args'.(mid) = m -> direct args' = (r ≫= k)) ->
  at_fixed (@mbind (Async X) calls_bind _ _ kk ask) direct.
Proof.
  intros Hask Hk Hdirect w. apply wp_async_bind. eapply wp_mono; [apply Hask|]. intros r w' [HR Hr].
  destruct (Hdirect r Hr) as (h & m & Hh & Hm & HE). destruct r as [u|e]; [|by split; [|exists h, m]].
  unfold wp. rewrite Hk. split; [done|]. by exists h, m.
Qed.

(** The dealer is asked first, the mid price only after the dealer's answer. *)
Lemma at_fixed_fallback {C} (m : Async X C) direct (next : Result C -> Async X C) dnext :
  (∀ h m1 m2, direct (mkConversionArgs h h m1) = direct (mkConversionArgs h h m2)) ->
  (∀ r h1 h2 m, dnext r (mkConversionArgs h1 h1 m) = dnext r (mkConversionArgs h2 h2 m)) ->
  at_fixed m direct -> (∀ r, at_fixed (next r) (dnext r)) ->
  at_fixed (handle (F := Async X) m next) (fun args' => dnext (direct args') args').
Proof using Reads0.
  intros Hd Hn Hm Hnext w. apply wp_handle. eapply wp_mono; [apply Hm|].
  intros r w1 (HR & h & m1 & Hh & _ & HE). eapply wp_mono; [apply Hnext|].
  intros res w2 (HR2 & h2 & m2 & _ & Hm2 & HE2). split; [by etrans|]. exists h, m2. split_and!; [done..|].
  intros [b' s' m'] Eb Es Em. cbn in Eb, Es, Em. subst b' s' m'.
  rewrite (Hd h m2 m1), (HE (mkConversionArgs h h m1)) by done.
  rewrite (Hn r h h2 m2). by apply HE2.
Qed.

Context (state : WithRecipientWalletState) (args : WithConversionArgs (Async X)) (now : Date).
Context (Hbuy : fair_service args.(hedgeBuyUsd)) (Hsell : fair_service args.(hedgeSellUsd)) (Hmid : fair_service args.(mid)).

Lemma fixed_btc_mid a f wd : at_fixed (updatedStateFromBtcPaymentAmountMid state args now a f wd)
  (fun args' => updatedStateFromBtcPaymentAmountMid state args' now a f wd).
Proof using Hmid.
  eapply (at_fixed_ask Usd _ a); [apply Hmid|intros u w; apply returns_bind|]. intros r Hr.
  exists no_prices, (one_cents a r). split_and!; [apply no_prices_fair|by apply one_cents_fair|].
  intros args' _ _ E. unfold updatedStateFromBtcPaymentAmountMid. rewrite E. direct_calls. cbn. by rewrite answering_same.
Qed.

Lemma fixed_btc_dealer a f : at_fixed (updatedStateFromBtcPaymentAmountDealer state args now a f)
  (fun args' => updatedStateFromBtcPaymentAmountDealer state args' now a f).
Proof using Hbuy Hsell.
  eapply (at_fixed_ask Usd _ a); [case_decide; [apply Hbuy|apply Hsell]|intros u w; apply returns_bind|]. intros r Hr.
  exists (one_cents a r), no_prices. split_and!; [by apply one_cents_fair|apply no_prices_fair|].
  intros args' Eb Es _. unfold updatedStateFromBtcPaymentAmountDealer. rewrite Eb, Es. direct_calls.
  case_decide; cbn; by rewrite answering_same.
Qed.

Lemma fixed_usd_mid a f : at_fixed (updatedStateFromUsdPaymentAmountMid state args now a f)
  (fun args' => updatedStateFromUsdPaymentAmountMid state args' now a f).
Proof using Hmid.
  eapply (at_fixed_ask Btc _ a); [apply Hmid|intros u w; apply returns_bind|]. intros r Hr.
  exists no_prices, (one_sats a r). split_and!; [apply no_prices_fair|by apply one_sats_fair|].
  intros args' _ _ E. unfold updatedStateFromUsdPaymentAmountMid. rewrite E. direct_calls. cbn. by rewrite answering_same.
Qed.

Lemma fixed_usd_dealer a f : at_fixed (updatedStateFromUsdPaymentAmountDealer state args now a f)
  (fun args' => updatedStateFromUsdPaymentAmountDealer state args' now a f).
Proof using Hbuy Hsell.
  eapply (at_fixed_ask Btc _ a); [case_decide; [apply Hbuy|apply Hsell]|intros u w; apply returns_bind|]. intros r Hr.
  exists (one_sats a r), no_prices. split_and!; [by apply one_sats_fair|apply no_prices_fair|].
  intros args' Eb Es _. unfold updatedStateFromUsdPaymentAmountDealer. rewrite Eb, Es. direct_calls.
  case_decide; cbn; by rewrite answering_same.
Qed.

Lemma fixed_btc_fallback a f : at_fixed (updatedStateFromBtcPaymentAmountDealerFallbackMid state args now a f)
  (fun args' => updatedStateFromBtcPaymentAmountDealerFallbackMid state args' now a f).
Proof using Hbuy Hsell Hmid Reads0.
  apply (at_fixed_fallback _ (fun args' => updatedStateFromBtcPaymentAmountDealer state args' now a f) _ (fun r args' => match r with
    | Ok c => Ok c
    | Err e => if negb (is_InvalidZeroAmountPriceRatioInputError e) then Err e else
        match BTC <$> state.(r_recipientWalletDescriptors) with
        | None => Err (InvalidLightningPaymentFlowBuilderStateError "expected recipient BTC wallet missing")
        | Some wd => if decide (wd.(w_id) = state.(r_sender).(s_senderWalletId)) then Err SubOneCentSatAmountForUsdSelfSendError
                     else updatedStateFromBtcPaymentAmountMid state args' now a f (Some wd)
        end end)); [done..|apply fixed_btc_dealer|].
  intros [c|e]; [apply at_fixed_returns|]. destruct (negb _); [apply at_fixed_returns|].
  destruct (BTC <$> _) as [wd|]; [|apply at_fixed_returns]. case_decide; [apply at_fixed_returns|apply fixed_btc_mid].
Qed.

Lemma fixed_conversion : at_fixed (withConversion state args now) (fun args' => withConversion state args' now).
Proof using Hbuy Hsell Hmid Reads0.
  unfold withConversion. cbn zeta. set (btcAmounts := match s_btcPaymentAmount _ with Some _ => _ | None => _ end).
  set (usdAmounts := match r_usdPaymentAmount _ with Some _ => _ | None => _ end). clearbody btcAmounts usdAmounts.
  destruct (noConversionRequired state), btcAmounts as [[]|], usdAmounts as [[]|]; direct_calls;
    try (destruct (isUsdRecipient state));
    first [apply at_fixed_returns | apply fixed_btc_mid | apply fixed_usd_mid | apply fixed_btc_fallback | apply fixed_usd_dealer].
Qed.

End Asked.

(** ** Amounts that floats hold *)

Section Bounded.
Context (state : WithRecipientWalletState) (args : WithConversionArgs (result ApplicationError)) (now : Date).
Context (Hbuy : fair_prices args.(hedgeBuyUsd)) (Hsell : fair_prices args.(hedgeSellUsd)) (Hmid : fair_prices args.(mid)).

Definition checked (a : Amount) : Prop := 0 < a.(amount) <= Built.max_amount a.(currency).

Lemma checked_small a : checked a -> a.(amount) < 2 ^ 53.
Proof. unfold checked, Built.max_amount. case_match; cbn; lia. Qed.

Definition small (c : WithConversionState) : Prop :=
  c.(c_btcPaymentAmount).(amount) < 2 ^ 53 ∧ c.(c_usdPaymentAmount).(amount) < 2 ^ 53.

Lemma small_btc_mid a f wd c : checked a ->
  updatedStateFromBtcPaymentAmountMid state args now a f wd = Ok c -> small c.
Proof using Hmid.
  intros Ha Hc. unfold updatedStateFromBtcPaymentAmountMid in Hc. direct_calls. result_inv.
  match goal with E : usdFromBtc _ a = Ok ?u |- _ => destruct (fp_usd _ Hmid a u E) as (_ & _ & Hu) end; [apply Ha|].
  split; cbn; [by apply checked_small|apply Hu, Ha].
Qed.

Lemma small_btc_dealer a f c : checked a -> updatedStateFromBtcPaymentAmountDealer state args now a f = Ok c -> small c.
Proof using Hbuy Hsell.
  intros Ha Hc. unfold updatedStateFromBtcPaymentAmountDealer in Hc. direct_calls.
  apply bind_Ok in Hc as (u & Hu & Hc). apply bind_Ok in Hc as (ratio & _ & [= <-]).
  assert (fair_answer Usd a (Ok u)) as Hf by (rewrite <- Hu; case_decide; [apply Hbuy|apply Hsell]).
  destruct (Hf u eq_refl) as (_ & _ & Hs); [apply Ha|]. split; cbn; [by apply checked_small|apply Hs, Ha].
Qed.

Lemma small_usd_mid a f c : checked a -> updatedStateFromUsdPaymentAmountMid state args now a f = Ok c -> small c.
Proof using Hmid.
  intros Ha Hc. unfold updatedStateFromUsdPaymentAmountMid in Hc. direct_calls. result_inv.
  match goal with E : btcFromUsd _ a = Ok ?u |- _ => destruct (fp_btc _ Hmid a u E) as (_ & _ & Hu) end; [apply Ha|].
  split; cbn; [apply Hu, Ha|by apply checked_small].
Qed.

Lemma small_usd_dealer a f c : checked a -> updatedStateFromUsdPaymentAmountDealer state args now a f = Ok c -> small c.
Proof using Hbuy Hsell.
  intros Ha Hc. unfold updatedStateFromUsdPaymentAmountDealer in Hc. direct_calls.
  apply bind_Ok in Hc as (u & Hu & Hc). apply bind_Ok in Hc as (ratio & _ & [= <-]).
  assert (fair_answer Btc a (Ok u)) as Hf by (rewrite <- Hu; case_decide; [apply Hbuy|apply Hsell]).
  destruct (Hf u eq_refl) as (_ & _ & Hs); [apply Ha|]. split; cbn; [apply Hs, Ha|by apply checked_small].
Qed.

Lemma small_btc_fallback a f c : checked a ->
  updatedStateFromBtcPaymentAmountDealerFallbackMid state args now a f = Ok c -> small c.
Proof using Hbuy Hsell Hmid.
  intros Ha. unfold updatedStateFromBtcPaymentAmountDealerFallbackMid. direct_calls.
  destruct (updatedStateFromBtcPaymentAmountDealer _ _ _ _ _) eqn:E.
  - intros [= <-]. by eapply small_btc_dealer.
  - repeat case_match; try done. by apply small_btc_mid.
Qed.

(** Amounts within the maximum are converted to amounts that floats hold. *)
Lemma conversion_small c : withConversion state args now = Ok c ->
  (∀ a, state.(r_sender).(s_btcPaymentAmount) = Some a -> checked a) ->
  (∀ u, state.(r_usdPaymentAmount) = Some u -> checked u) -> small c.
Proof using Hbuy Hsell Hmid.
  unfold withConversion. direct_calls.
  destruct (s_btcPaymentAmount (r_sender state)) as [a|], (s_btcProtocolAndBankFee (r_sender state)) as [f|],
    (r_usdPaymentAmount state) as [u|], (s_usdProtocolAndBankFee (r_sender state)) as [g|]; destruct (noConversionRequired state), (isUsdRecipient state);
    intros Hc Ha Hu; try discriminate Hc; try (specialize (Ha _ eq_refl)); try (specialize (Hu _ eq_refl)).
  all: first
    [ eapply small_btc_mid; [|exact Hc]; done | eapply small_btc_fallback; [|exact Hc]; done
    | eapply small_usd_mid; [|exact Hc]; done | eapply small_usd_dealer; [|exact Hc]; done
    | injection Hc as <-; split; cbn; by apply checked_small ].
Qed.

End Bounded.

(** An amount that the sender typed in is within the maximum of the sender's wallet. *)
Lemma sender_checked i sender s x : withSenderWallet i sender = Ok s -> i.(i_uncheckedAmount) = Some x -> valid x ->
  s.(s_senderWalletId) = sender.(w_id) ∧ s.(s_senderWalletCurrency) = sender.(w_currency) ∧
  s.(s_senderAccountId) = sender.(w_accountId) ∧ s.(s_invoice) = i ∧
  BigInt x = Some s.(s_inputAmount) ∧ 0 < s.(s_inputAmount) < 2 ^ 53 ∧
  (i.(i_btcPaymentAmount) = None -> ∀ a, s.(s_btcPaymentAmount) = Some a -> checked a) ∧
  ∀ u, s.(s_usdPaymentAmount) = Some u -> checked u.
Proof.
  unfold withSenderWallet. intros H Hx Hv. rewrite Hx in H.
  destruct (w_currency sender) eqn:Hc; apply bind_Ok in H as (a & Ha & [= <-]);
    [apply (Built.checked_pos Usd x a Hv) in Ha as (Hm & Hcur & HB)|apply (Built.checked_pos Btc x a Hv) in Ha as (Hm & Hcur & HB)];
    cbn; unfold Built.max_amount in Hm; (split_and!; try done; try (cbn in Hm; lia)); first [by intros ->|intros; simplify_eq; unfold checked; by rewrite Hcur].
Qed.

(** ** The flows that the application builds *)

Section Flows.
Context {X : Type} `{Database X} `{PriceServices X} `{Intl} (precision : number) (hedge : bool).
Context (R : relation (World X)) `{!Reads R}.

(** The prices of the services are fair. *)
Record fair_market (buy sell : ConversionFns (Async X)) : Prop := {
  fm_buy : fair_service R buy;
  fm_sell : fair_service R sell;
  fm_mid : fair_service R (mid_prices precision hedge);
}.

(** The recipient of a payment: the wallet that was asked for, or the BTC wallet of the account. *)
Definition pays (r : WithRecipientWalletState) (c : WithConversionState) : Prop :=
  c.(c_recipient) = r ∧
  ((c.(c_recipientWalletId) = r.(r_recipientWalletId) ∧ c.(c_recipientWalletCurrency) = r.(r_recipientWalletCurrency)) ∨
   (∃ ds, r.(r_recipientWalletDescriptors) = Some ds ∧ ds.(BTC).(w_id) ≠ r.(r_sender).(s_senderWalletId) ∧
      c.(c_recipientWalletId) = Some ds.(BTC).(w_id) ∧ c.(c_recipientWalletCurrency) = Some ds.(BTC).(w_currency))).

Lemma wp_converted buy sell cfg noAmount i s r sender w : fair_market buy sell ->
  Built.start cfg noAmount i -> withSenderWallet i sender = Ok s -> Built.recipient s r ->
  (∀ a, s.(s_btcPaymentAmount) = Some a -> checked a) -> (∀ u, r.(r_usdPaymentAmount) = Some u -> checked u) ->
  wp (converted precision hedge (Ok r) buy sell) (fun res w' => R w w' ∧
    ∀ c, res = Ok c -> Built.built cfg noAmount c ∧ pays r c ∧ small c) w.
Proof.
  intros [Hb Hs Hm] Hi Hse Hr Ha Hu. apply wp_or_return; [|done]. intros ? [= <-].
  apply wp_bind, (wp_keeps R); [auto with keeps|]. intros now w1 HR1.
  eapply wp_mono; [by apply (fixed_conversion R r (mkConversionArgs buy sell (mid_prices precision hedge)) now)|].
  intros res w2 (HR2 & h & m & Hh & Hm' & HE). split; [by etrans|]. intros c ->.
  specialize (HE (mkConversionArgs h h m) eq_refl eq_refl eq_refl). cbn beta in HE.
  assert (Hrs : r.(r_sender) = s).
  { destruct Hr as [ra r _ _ Hr|r _ Hr]; [by apply Built.withRecipientWallet_inv in Hr as (-> & _)|].
    unfold withoutRecipientWallet in Hr. case_decide; [done|]. by injection Hr as <-. }
  split_and!.
  - econstructor; [done..| |exact HE]. split; cbn; by apply fair_laws.
  - by eapply Built.conversion_recipient.
  - eapply conversion_small; [..|exact HE| |]; cbn; [done..|by rewrite Hrs|done].
Qed.

End Flows.

(** What a finished flow without a route says. *)
Lemma flow_amounts_of cfg noAmount c f : Built.built cfg noAmount c -> small c -> withoutRoute c = Ok f ->
  let s := c.(c_recipient).(r_sender) in
  senderWalletDescriptor f = {| w_id := s.(s_senderWalletId); w_currency := s.(s_senderWalletCurrency);
                                w_accountId := s.(s_senderAccountId) |} ∧
  valid_pair (paymentAmounts f) ∧ (∀ cur, 0 < amount_in (paymentAmounts f) cur) ∧
  (Built.intra s.(s_invoice) = true -> f.(btcProtocolAndBankFee).(amount) = 0 ∧ f.(usdProtocolAndBankFee).(amount) = 0) ∧
  amount_in (paymentAmounts f) (if noAmount then s.(s_senderWalletCurrency) else Btc) = s.(s_inputAmount).
Proof.
  intros Hb [Sb Su] Hf. unfold withoutRoute, paymentFromState in Hf. apply bind_Ok in Hf as (h & _ & [= <-]).
  apply Built.built_inv in Hb as ((Hb & Hbc) & (Hu & Huc) & Hfree & Hin). cbn.
  split; [done|]. split; [repeat split; cbn; first [done|lia]|]. split; [by intros []|]. split; [done|].
  destruct Hin as [(-> & Hc & _)|(-> & -> & -> & _)]; [|done]. destruct noAmount; [by rewrite Hc|done].
Qed.

Lemma recipient_fields f rcpt : recipientWalletDescriptor f = Some rcpt ->
  f.(recipientWalletId) = Some rcpt.(w_id) ∧ f.(recipientWalletCurrency) = Some rcpt.(w_currency) ∧
  f.(recipientAccountId) = Some rcpt.(w_accountId).
Proof. unfold recipientWalletDescriptor, js_or_opt. intros H. repeat case_match; by simplify_eq/=. Qed.

Lemma flow_recipient_of s ra r c f rcpt : withRecipientWallet s ra = Ok r -> pays r c -> withoutRoute c = Ok f ->
  Built.valid_descriptors ra.(ra_recipientWalletDescriptors) -> recipientWalletDescriptor f = Some rcpt ->
  rcpt.(w_id) ≠ s.(s_senderWalletId) ∧
  (rcpt = wallet_for ra.(ra_recipientWalletDescriptors) ra.(ra_defaultWalletCurrency) ∨ rcpt = ra.(ra_recipientWalletDescriptors).(BTC)).
Proof.
  intros Hr [Hcr Hp] Hf (Hb & Hu & Hacc) Hd. apply Built.withRecipientWallet_inv in Hr as (Hs & Hds & Hcur & Hid & Ha & Hne & _).
  apply Built.withoutRoute_fields in Hf as (_ & _ & _ & _ & _ & _ & _ & Fi & Fc & Fa & _). rewrite Hcr in Fa.
  apply recipient_fields in Hd as (Ei & Ec & Ea). destruct rcpt as [id cur acc]. cbn in *.
  assert (HB : ∀ c, w_accountId (wallet_for (ra_recipientWalletDescriptors ra) c) = w_accountId (BTC (ra_recipientWalletDescriptors ra))).
  { by intros []. }
  assert (HC : ∀ c, w_currency (wallet_for (ra_recipientWalletDescriptors ra) c) = c) by (by intros []).
  destruct Hp as [[Gi Gc]|(ds & Eds & Hne' & Gi & Gc)].
  - split; [congruence|]. left. specialize (HC (ra_defaultWalletCurrency ra)).
    destruct (wallet_for _ _) eqn:Ew; cbn in *. f_equal; congruence.
  - assert (ds = ra_recipientWalletDescriptors ra) as -> by congruence. split; [congruence|]. right.
    rewrite HB in Ha. destruct (BTC _) eqn:Ew; cbn in *. f_equal; congruence.
Qed.

(** ** A market *)
Module MarketExamples.

#[export] Instance free_locks : Redlock nat := {
  acquire _ n := (None, n); timelock _ n := (None, n); release _ n := (None, n); signal_aborted n := (false, n);
}.

(** Three cents for a hundred satoshis, for everyone. *)
Definition ratio : WalletPriceRatio.t := PriceRatio.mk 3 (BtcPaymentAmount 100).
Definition cents (a : Amount) (n : nat) : Result Amount * nat := (Ok (WalletPriceRatio.convertFromBtc ratio a), n).
Definition sats (a : Amount) (n : nat) : Result Amount * nat := (Ok (WalletPriceRatio.convertFromUsd ratio a), n).
#[export] Instance prices : PriceServices nat := {
  getRealTimePrice _ _ n := (Ok (Number 1), n);
  getCentsFromSatsForImmediateBuy := cents; getCentsFromSatsForImmediateSell := cents;
  getSatsFromCentsForImmediateBuy := sats; getSatsFromCentsForImmediateSell := sats;
  getCentsFromSatsForFutureBuy := cents; getCentsFromSatsForFutureSell := cents;
  getSatsFromCentsForFutureBuy := sats; getSatsFromCentsForFutureSell := sats;
  getCentsPerSatsExchangeMidRate n := (Ok ratio, n);
  cache_get _ n := (None, n); cache_set _ _ n := (tt, n);
}.
#[export] Instance two_digits : Intl := fun _ => Some 2.
#[export] Instance hashes : RandomHash nat := fun n => ("ih", n).

(** A node that pays every invoice for ten satoshis. *)
#[export] Instance node : ILightningService nat := {
  LndService n := (Ok "node", n); listAllPubkeys n := (["node"], n);
  payInvoiceViaRoutes _ _ _ n := (Err LnPaymentPendingError, n);
  payInvoiceViaPaymentDetails _ _ _ n := (Ok (mkPayInvoiceResult (Number 10) "secret" "node"), n);
  findRouteForInvoice _ _ n := (Err LookupPaymentTimedOutError, n);
  lookupPayment _ n := (Err LookupPaymentTimedOutError, n);
  lookupInvoice _ _ n := (Err InvoiceNotFoundError, n); settleInvoice _ _ n := (Ok tt, n); cancelInvoice _ _ n := (Ok tt, n);
}.

Lemma ratio_positive : positive_ratio ratio.
Proof. by repeat split. Qed.

Lemma cents_fair a : fair_answer Usd a (Ok (WalletPriceRatio.convertFromBtc ratio a)).
Proof.
  intros b [= <-] Ha. pose proof (convertFromWallet_pos ratio ratio_positive a Ha) as (Hq & _ & Hb).
  change (amount (PriceRatio.walletAmount ratio)) with 100 in Hb. change (PriceRatio.other ratio) with 3 in Hb.
  change (amount (WalletPriceRatio.convertFromBtc ratio a)) with (PriceRatio.convertFromWallet ratio a).
  split; [lia|]. split; [done|]. unfold Built.max_amount, MAX_SATS, MAX_CENTS. case_match; cbn [amount]; lia.
Qed.

Lemma sats_fair a : fair_answer Btc a (Ok (WalletPriceRatio.convertFromUsd ratio a)).
Proof.
  intros b [= <-] Ha. pose proof (convertFromOther_pos ratio ratio_positive a.(amount) Ha) as (Hq & _ & Hb).
  change (amount (PriceRatio.walletAmount ratio)) with 100 in Hb. change (PriceRatio.other ratio) with 3 in Hb.
  unfold WalletPriceRatio.convertFromUsd. split; [lia|]. split; [by rewrite convertFromOther_currency|].
  unfold Built.max_amount, MAX_SATS, MAX_CENTS. case_match; cbn [amount]; lia.
Qed.

Lemma market_fair (R : relation (World nat)) `{!Reads R} :
  fair_market (Number 1000000) true R immediate_buy immediate_sell ∧ fair_market (Number 1000000) true R future_buy future_sell.
Proof.
  split; (split; split; intros a w; (split; [first [by apply reads_outside|done]|first [apply cents_fair|apply sats_fair]])).
Qed.

End MarketExamples.
