(* ===== verification/SendLightning.v ===== *)
(** * Sending a Lightning payment

    Models the steps of [app/payments/send-lightning.ts] that run under the lock of the sender's
    wallet ([lockedPaymentViaLnSteps]), with the fee reimbursement of [reimburse-fee.ts] and the
    results of [ln-send-result.ts].  The Lightning node is the interface [ILightningService] of
    [domain/bitcoin/lightning].  The theorem follows the money through every outcome, with a
    database that may fail at any access. *)

From S2P Require Import Prelude JsNumber Shared Prices Fees Lightning PaymentFlow LedgerEntry TxMetadata.
From S2P Require Import LedgerTx TxHistory Limits World LedgerBook LedgerService Services Repositories Money.

(** An exception is the [AttemptErr] of a [JsThrow]. *)
Inductive LnSendAttemptResult :=
| AttemptOk (journalId : string)
| AttemptPending (journalId : string)
| AttemptAlreadyPaid (journalId : string)
| AttemptErrWithJournal (journalId : string) (error : ApplicationError)
| AttemptErr (error : ApplicationError).

#[export] Instance FromError_LnSend : FromError LnSendAttemptResult := AttemptErr.
#[export] Instance Throws_LnSend : Throws LnSendAttemptResult :=
  fun r => match r with AttemptErr (JsThrow msg) => Some msg | _ => None end.

(** A payment flow where its amounts and fees are asked for. *)
Definition flow_amounts (f : PaymentFlowCommonState) : AmountsAndFees := {|
  aaf_btcPaymentAmount := f.(btcPaymentAmount);
  aaf_usdPaymentAmount := f.(usdPaymentAmount);
  aaf_btcProtocolAndBankFee := f.(btcProtocolAndBankFee);
  aaf_usdProtocolAndBankFee := f.(usdProtocolAndBankFee);
|}.

(** [paymentFlow.paymentSentAndPending = true] *)
Definition sent_and_pending (f : PaymentFlowState) : PaymentFlowState :=
  let c := f.(pf_common) in {|
  pf_common := {|
    senderWalletId := c.(senderWalletId); senderWalletCurrency := c.(senderWalletCurrency);
    senderAccountId := c.(senderAccountId); settlementMethod := c.(settlementMethod);
    paymentInitiationMethod := c.(paymentInitiationMethod); createdAt := c.(createdAt);
    paymentSentAndPending := true; inputAmount := c.(inputAmount);
    btcPaymentAmount := c.(btcPaymentAmount); usdPaymentAmount := c.(usdPaymentAmount);
    btcProtocolAndBankFee := c.(btcProtocolAndBankFee); usdProtocolAndBankFee := c.(usdProtocolAndBankFee);
    recipientWalletId := c.(recipientWalletId); recipientWalletCurrency := c.(recipientWalletCurrency);
    recipientAccountId := c.(recipientAccountId); recipientPubkey := c.(recipientPubkey);
    recipientUsername := c.(recipientUsername); recipientUserId := c.(recipientUserId);
    outgoingNodePubkey := c.(outgoingNodePubkey); cachedRoute := c.(cachedRoute) |};
  paymentHash := f.(paymentHash); intraLedgerHash := f.(intraLedgerHash);
  descriptionFromInvoice := f.(descriptionFromInvoice);
  skipProbeForDestination := f.(skipProbeForDestination) |}.

Section Send.
Context {M X : Type} `{MediciEntry M} `{!MediciBook M X} `{Database X} `{Resolvers X}.
Context `{Redlock X} `{PriceServices X} `{ILightningService X} `{Intl} (RATIO_PRECISION : number).

Definition reimburseFee (paymentFlow : PaymentFlowState) (senderDisplayAmount : number)
    (senderDisplayCurrency : DisplayCurrency) (journalId : string) (actualFee : number)
    (revealedPreImage : option string) : IO X (Result bool) :=
  actualFeeAmount ←! paymentAmountFromNumber actualFee Btc;
  let maxFeeAmounts := {| btc := paymentFlow.(btcProtocolAndBankFee);
                          usd := paymentFlow.(usdProtocolAndBankFee) |} in
  priceRatio ←! WalletPriceRatio.make paymentFlow.(usdPaymentAmount) paymentFlow.(btcPaymentAmount);
  match FeeReimbursement.getReimbursement maxFeeAmounts priceRatio actualFeeAmount with
  | Err _ => mret (Ok true)
  | Ok feeDifference =>
      if feeDifference.(btc).(amount) =? 0 then mret (Ok true) else
      displayAmount ←! displayAmountFromNumber senderDisplayAmount senderDisplayCurrency;
      displayPriceRatio ←! DisplayPriceRatio.make displayAmount paymentFlow.(btcPaymentAmount);
      let paymentAmounts := {|
        aaf_btcPaymentAmount := feeDifference.(btc);
        aaf_usdPaymentAmount := feeDifference.(usd);
        aaf_btcProtocolAndBankFee := ZERO_SATS;
        aaf_usdProtocolAndBankFee := ZERO_CENTS |} in
      reimburse ←! DisplayAmountsConverter.convert displayPriceRatio paymentAmounts;
      hash ←! paymentHashForFlow paymentFlow;
      let md := LnFeeReimbursementReceiveLedgerMetadata paymentAmounts hash journalId {|
        dt_displayAmount := toDisplayBaseAmount reimburse.(da_displayAmount);
        dt_displayFee := toDisplayBaseAmount reimburse.(da_displayFee);
        dt_displayCurrency := senderDisplayCurrency |} in
      _ ←? recordReceiveOffChain (M := M) "fee reimbursement" (senderWalletDescriptor paymentFlow)
        feeDifference None None md.(metadata) md.(creditAccountAdditionalMetadata)
        md.(internalAccountsAdditionalMetadata) (Some hash) revealedPreImage;
      mret (Ok true)
  end.

(** [updateMetadataByHash] of the facade *)
Definition updateMetadataByHash (hash : string) (revealedPreImage : option string) : IO X (Result bool) :=
  updateByHash hash revealedPreImage.

(** "Execute payment" *)
Definition pay (decodedInvoice : LnInvoice) (paymentFlow : PaymentFlowState)
    (walletPriceRatio : WalletPriceRatio.t) (rawRoute : option RawRoute)
    (outgoingNodePubkey : option Pubkey) : IO X (Result PayInvoiceResult) :=
  match rawRoute with
  | Some rawRoute => ext (payInvoiceViaRoutes decodedInvoice.(inv_paymentHash) rawRoute outgoingNodePubkey)
  | None =>
      let isFromNoAmountInvoice :=
        match decodedInvoice.(inv_amount) with Some a => num_eqb a (Number 0) | None => true end in
      match LnFees.verifyMaxFee paymentFlow.(btcProtocolAndBankFee) paymentFlow.(btcPaymentAmount)
              paymentFlow.(usdPaymentAmount) walletPriceRatio
              (senderWalletDescriptor paymentFlow).(w_currency) isFromNoAmountInvoice with
      | Err maxFeeCheck => mret (Err maxFeeCheck)
      | Ok _ => ext (payInvoiceViaPaymentDetails decodedInvoice paymentFlow.(btcPaymentAmount)
                       paymentFlow.(btcProtocolAndBankFee))
      end
  end.

(** What is noted of a payment that was made now; the errors of these writes are ignored. *)
Definition note_payment (decodedInvoice : LnInvoice) (sentFrom : Pubkey)
    (payResult : Result PayInvoiceResult) : IO X unit :=
  match payResult with
  | Err LnAlreadyPaidError => mret tt
  | _ =>
      _ ← persistNewLnPayment {| lp_paymentHash := decodedInvoice.(inv_paymentHash);
            lp_paymentRequest := Some decodedInvoice.(paymentRequest); lp_sentFromPubkey := Some sentFrom |};
      match payResult with
      | Ok res =>
          _ ← updateMetadataByHash decodedInvoice.(inv_paymentHash) (Some res.(revealedPreImage));
          mret tt
      | Err _ => mret tt
      end
  end.

(** The entries that follow the result of the payment. *)
Definition conclude (paymentFlow : PaymentFlowState) (hash : PaymentHash) (rawRoute : option RawRoute)
    (senderDisplayAmount : number) (senderDisplayCurrency : DisplayCurrency) (walletIds : list WalletId)
    (journalId : string) (payResult : Result PayInvoiceResult) : IO X LnSendAttemptResult :=
  match payResult with
  | Err LnPaymentPendingError =>
      _ ← updateLightningPaymentFlow (sent_and_pending paymentFlow);
      _ ←? updateLnPaymentState (M := M) walletIds hash journalId;
      mret (AttemptPending journalId)
  | Err error =>
      _ ←? settlePendingLnSend hash;
      _ ←? recordLnSendRevert (M := M) journalId hash;
      _ ←? updateLnPaymentState (M := M) walletIds hash journalId;
      mret (match error with
            | LnAlreadyPaidError => AttemptAlreadyPaid journalId
            | _ => AttemptErrWithJournal journalId error
            end)
  | Ok res =>
      _ ←? settlePendingLnSend hash;
      _ ←? match rawRoute with
        | Some _ => mret (Ok true)
        | None => reimburseFee paymentFlow senderDisplayAmount senderDisplayCurrency journalId
                    res.(roundedUpFee) (Some res.(revealedPreImage))
        end;
      _ ←? updateLnPaymentState (M := M) walletIds hash journalId;
      mret (AttemptOk journalId)
  end.

Definition lockedPaymentViaLnSteps (decodedInvoice : LnInvoice) (paymentFlow : PaymentFlowState)
    (senderDisplayCurrency : DisplayCurrency) (memo : option string) (walletIds : list WalletId)
    : IO X LnSendAttemptResult :=
  let hash := decodedInvoice.(inv_paymentHash) in
  let '(rawRoute, outgoingNodePubkey) := routeDetails paymentFlow in
  let sender := senderWalletDescriptor paymentFlow in
  ledgerTransactions ←? getTransactionsByHash hash;
  if existsb lt_pendingConfirmation ledgerTransactions then
    mret (AttemptErr LnPaymentRequestInTransitError) else
  balance ←? getWalletBalanceAmount (M := M) sender;
  _ ←! checkBalanceForSend paymentFlow balance;
  defaultPubkey ←? ext LndService;
  displayPriceRatio ←? getCurrentPriceAsDisplayPriceRatio RATIO_PRECISION senderDisplayCurrency;
  display ←! DisplayAmountsConverter.convert displayPriceRatio (flow_amounts paymentFlow);
  aborted ← ext signal_aborted;
  if (aborted : bool) then mret (AttemptErr ResourceExpiredLockServiceError) else
  let md := LnSendLedgerMetadata hash (js_or outgoingNodePubkey defaultPubkey) (flow_amounts paymentFlow) {|
      dt_displayAmount := toDisplayBaseAmount display.(da_displayAmount);
      dt_displayFee := toDisplayBaseAmount display.(da_displayFee);
      dt_displayCurrency := senderDisplayCurrency |}
    (bool_decide (is_Some rawRoute)) (Some (js_or memo paymentFlow.(descriptionFromInvoice))) in
  walletPriceRatio ←! WalletPriceRatio.make paymentFlow.(usdPaymentAmount) paymentFlow.(btcPaymentAmount);
  journal ←? recordSendOffChain (M := M) (js_or (Some paymentFlow.(descriptionFromInvoice)) (js_or memo ""))
    sender
    {| btc := {| currency := paymentFlow.(btcPaymentAmount).(currency);
                 amount := paymentFlow.(btcPaymentAmount).(amount) + paymentFlow.(btcProtocolAndBankFee).(amount) |};
       usd := {| currency := paymentFlow.(usdPaymentAmount).(currency);
                 amount := paymentFlow.(usdPaymentAmount).(amount) + paymentFlow.(usdProtocolAndBankFee).(amount) |} |}
    None md.(metadata) md.(debitAccountAdditionalMetadata) md.(internalAccountsAdditionalMetadata);
  let journalId := journal.(LedgerEntry.journalId) in
  payResult ← pay decodedInvoice paymentFlow walletPriceRatio rawRoute outgoingNodePubkey;
  _ ← note_payment decodedInvoice (js_or outgoingNodePubkey defaultPubkey) payResult;
  conclude paymentFlow hash rawRoute (toDisplayBaseAmount display.(da_displayAmount))
    senderDisplayCurrency walletIds journalId payResult.

(** The steps under the lock of the sender's wallet. *)
Definition lockedPaymentViaLn (decodedInvoice : LnInvoice) (paymentFlow : PaymentFlowState)
    (senderDisplayCurrency : DisplayCurrency) (memo : option string) (walletIds : list WalletId)
    : IO X (Result LnSendAttemptResult) :=
  lockWalletId paymentFlow.(senderWalletId)
    (lockedPaymentViaLnSteps decodedInvoice paymentFlow senderDisplayCurrency memo walletIds).

End Send.

(** ** Where the money goes *)

(** The amounts of a flow that can be sent: not negative, in their currencies, and small enough for
    floats, the fee in cents included. *)
Record payable (f : PaymentFlowState) : Prop := {
  py_total : valid_pair (totalAmountsForPayment f);
  py_amounts : valid_pair (paymentAmounts f);
  py_fee : 0 <= f.(btcProtocolAndBankFee).(amount) < 2 ^ 53;
  py_cents : ∀ r, WalletPriceRatio.make f.(usdPaymentAmount) f.(btcPaymentAmount) = Ok r ->
    (WalletPriceRatio.convertFromBtcToCeil r f.(btcProtocolAndBankFee)).(amount) < 2 ^ 53;
}.

(** What the sender pays, in the currency of the wallet. *)
Definition total (f : PaymentFlowState) : Z := amount_in (totalAmountsForPayment f) f.(senderWalletCurrency).

(** What the sender gets back when the payment cost [actualFee]. *)
Definition reimbursement (f : PaymentFlowState) (actualFee : number) : Z :=
  match paymentAmountFromNumber actualFee Btc,
        WalletPriceRatio.make f.(usdPaymentAmount) f.(btcPaymentAmount) with
  | Ok fee, Ok r =>
      match FeeReimbursement.getReimbursement
              {| btc := f.(btcProtocolAndBankFee); usd := f.(usdProtocolAndBankFee) |} r fee with
      | Ok p => if p.(btc).(amount) =? 0 then 0 else amount_in p f.(senderWalletCurrency)
      | Err _ => 0
      end
  | _, _ => 0
  end.

Section Outcomes.
Context {M X : Type} `{MediciEntry M} `{!MediciLaws M} `{!MediciBook M X} `{!MediciBookLaws M X}
  `{Database X} `{Resolvers X} `{Redlock X} `{PriceServices X} `{ILightningService X}
  `{!LightningServiceLaws X} `{Intl} (RATIO_PRECISION : number).
Context (bankOwner dealerBtc dealerUsd : WalletId).
Context (inv : LnInvoice) (f : PaymentFlowState) (Hf : payable f)
  (Hs : user_wallet bankOwner dealerBtc dealerUsd (senderWalletDescriptor f)).
Implicit Types (w : World X).
Abbreviation ready w := (bank_ready bankOwner dealerBtc dealerUsd w.(bankWallets)).

Definition sender_account : LedgerAccountId := toLedgerAccountId f.(senderWalletId).

(** The change of the sender's account. *)
Definition charge (D : Change) : Z := D sender_account f.(senderWalletCurrency).

(** The node was asked to pay the invoice and did, for [fee]. *)
Definition paid_for (fee : number) : Prop :=
  ∃ x res x', payInvoiceViaPaymentDetails inv f.(btcPaymentAmount) f.(btcProtocolAndBankFee) x = (Ok res, x')
    ∧ fee = res.(roundedUpFee).

(** The reimbursement is a valid pair of amounts. *)
Lemma reimbursement_valid z r p : 0 <= z < 2 ^ 53 ->
  WalletPriceRatio.make f.(usdPaymentAmount) f.(btcPaymentAmount) = Ok r ->
  FeeReimbursement.getReimbursement
    {| btc := f.(btcProtocolAndBankFee); usd := f.(usdProtocolAndBankFee) |} r {| amount := z; currency := Btc |} = Ok p ->
  valid_pair p.
Proof using Hf.
  intros Hz Er Ep. destruct Hf as [_ (_ & Hc & Hu & Hb) Hfee Hcents]. specialize (Hcents r Er).
  apply make_wallet_ratio in Er as [[Hpos _] _]; [|cbn in *; lia..|done].
  apply getReimbursement_ok in Ep as (? & ? & ? & Hsum & ?); [|done|cbn; lia]. cbn in Hsum.
  split_and!; try done; cbn in *; lia.
Qed.

Lemma wp_reimburseFee damt dcur j z pre w : ready w -> 0 <= z < 2 ^ 53 ->
  wp (reimburseFee (M := M) f damt dcur j (Number z) pre) (fun r w' => ∃ D, moved D w w' ∧
    match r with Ok _ => charge D = - reimbursement f (Number z) | Err _ => ∀ a c, D a c = 0 end) w.
Proof using Hf Hs MediciLaws0 MediciBookLaws0.
  intros Hw Hz. assert (Hnone : moved nothing w w) by (by apply shifted_moved, same_shifted).
  unfold reimburseFee, reimbursement. rewrite paymentAmountFromNumber_Number by (unfold safe_integer; lia).
  apply wp_or_return; [|done]. intros ? [= <-].
  apply wp_or_return; [|by intros; exists nothing]. intros r Er. rewrite Er.
  destruct (FeeReimbursement.getReimbursement _ r _) as [p|] eqn:Ep; [|by apply wp_ret; exists nothing].
  destruct (amount (btc p) =? 0); [by apply wp_ret; exists nothing|].
  do 4 (apply wp_or_return; [intros ? ?|by intros; exists nothing]). cbn zeta.
  pose proof (reimbursement_valid z r p Hz Er Ep) as Hp.
  match goal with |- context [recordReceiveOffChain ?a ?b ?c ?d ?e ?f ?g ?h] =>
    destruct (receive_nets (MainBook_entry (X := X)) bankOwner dealerBtc dealerUsd entry_empty true a b c d e f g h)
      as (Hbal & HR & _) end; [done|done|done| |].
  { destruct Hp as (_ & _ & ? & ?). intros []; cbn; lia. }
  apply wp_bind_or. eapply wp_mono; [apply (wp_record bankOwner dealerBtc dealerUsd
    (fun ids => receive_entry _ _ ids _ _ _ _ _ _ _ _)); done|].
  intros [jr|e] w'; [|by intros Hsame; exists nothing; split; [apply shifted_moved, same_shifted|]].
  intros [Hm _]. apply wp_ret. eexists. split; [exact Hm|]. exact HR.
Qed.

(** What each outcome of the payment means for the sender and the books. *)
Definition outcome (w : World X) (r : LnSendAttemptResult) (w' : World X) : Prop :=
  ∃ D, moved D w w' ∧
  match r with
  | AttemptPending _ => charge D = total f
  | AttemptOk _ =>
      match (routeDetails f).1 with
      | Some _ => charge D = total f
      | None => ∃ fee, paid_for fee ∧ charge D = total f - reimbursement f fee
      end
  | AttemptAlreadyPaid _ | AttemptErrWithJournal _ _ => ∀ a c, D a c = 0
  | AttemptErr _ => charge D = 0 ∨ charge D = total f ∨
      ∃ fee, paid_for fee ∧ charge D = total f - reimbursement f fee
  end.

Lemma outcome_err w w' e : shifted w w' -> outcome w (AttemptErr e) w'.
Proof. intros Hw. exists nothing. split; [by apply shifted_moved|by left]. Qed.

(** A world in which the payment was recorded under journal [j]. *)
Definition recorded (j : string) w w' : Prop :=
  ∃ D, moved D w w' ∧ journal_moves j D w'.(ledger) ∧ charge D = total f.

Lemma recorded_shifted j w w1 w2 : recorded j w w1 -> shifted w1 w2 -> recorded j w w2.
Proof.
  intros (D & Hm & Hj & Hc) Hw. exists D.
  split_and!; [by eapply moved_shifted|by eapply shifted_journal|done].
Qed.

Lemma recorded_total j w w' r : recorded j w w' ->
  r = AttemptPending j ∨ (∃ e, r = AttemptErr e) ∨ (∃ rt, (routeDetails f).1 = Some rt ∧ r = AttemptOk j) ->
  outcome w r w'.
Proof.
  intros (D & Hm & _ & Hc) Hr. exists D. split; [done|].
  destruct Hr as [->|[[e ->]|(rt & Hrt & ->)]]; [done|by right; left|]. by rewrite Hrt.
Qed.

Lemma recorded_ready j w w' : recorded j w w' -> ready w -> ready w'.
Proof. intros (D & (-> & _) & _). done. Qed.

(** The payment failed: its entries are reverted. *)
Lemma wp_revert hash ws j error w w1 : recorded j w w1 ->
  (∀ w2, (∃ D, moved D w w2 ∧ ∀ a c, D a c = 0) -> outcome w error w2) ->
  wp (_ ←? settlePendingLnSend hash;
      _ ←? recordLnSendRevert (M := M) j hash;
      _ ←? updateLnPaymentState (M := M) ws hash j;
      mret error) (outcome w) w1.
Proof using MediciBookLaws0.
  intros Hrec Herror. apply wp_bind_or, wp_settlePendingLnSend. intros rs w2 Hset.
  apply (recorded_shifted _ _ _ w2) in Hrec; [|done].
  destruct rs; [|by eapply recorded_total; eauto]. pose proof Hrec as (D & Hm & Hj & Hc).
  apply wp_bind_or. eapply wp_mono; [by apply (wp_recordLnSendRevert j hash D)|].
  intros [b|e] w3 Hthen; [|eapply recorded_total; [eapply recorded_shifted; [done|by apply same_shifted]|eauto]].
  pose proof (moved_trans _ _ _ _ _ Hm Hthen) as Hm3.
  apply wp_bind_or, wp_updateLnPaymentState. intros ru w4 Hupd. pose proof (moved_shifted _ _ _ _ Hm3 Hupd) as Hm4.
  destruct ru; [|by eexists; split; [exact Hm4|left; unfold charge; lia]].
  apply wp_ret, Herror. eexists. split; [exact Hm4|]. intros acc cur. cbn. lia.
Qed.

(** The payment was made. *)
Lemma wp_complete hash ws damt dcur j res w w1 : ready w -> recorded j w w1 ->
  ((routeDetails f).1 = None -> paid_for res.(roundedUpFee)) ->
  wp (conclude (M := M) f hash (routeDetails f).1 damt dcur ws j (Ok res)) (outcome w) w1.
Proof using Hf Hs MediciLaws0 MediciBookLaws0 LightningServiceLaws0.
  intros Hw Hrec Hpaid. cbn [conclude]. apply wp_bind_or, wp_settlePendingLnSend. intros rs w2 Hset.
  apply (recorded_shifted _ _ _ w2) in Hrec; [|done]. destruct rs; [|by eapply recorded_total; eauto].
  apply wp_bind_or. destruct (routeDetails f).1 as [rt|] eqn:Ert.
  - apply wp_ret, wp_bind_or, wp_updateLnPaymentState. intros ru w3 Hthen.
    apply (recorded_shifted _ _ _ w3) in Hrec; [|done].
    destruct ru; [apply wp_ret|]; eapply recorded_total; eauto 10.
  - specialize (Hpaid eq_refl). pose proof Hpaid as (x & res' & x' & Epay & Efee).
    destruct (fee_whole _ _ _ _ _ _ Epay) as (z & Hz & Hzb). rewrite <- Efee in Hz. rewrite Hz in *.
    eapply wp_mono; [apply wp_reimburseFee; [by eapply recorded_ready|done]|].
    destruct Hrec as (D & Hm & _ & Hc). intros rr w3 (D' & Hm' & Hc').
    pose proof (moved_trans _ _ _ _ _ Hm Hm') as Hm3.
    destruct rr as [b|e]; [|eexists; split; [exact Hm3|]; right; left; unfold charge in *; rewrite Hc'; lia].
    apply wp_bind_or, wp_updateLnPaymentState. intros ru w4 Hupd. pose proof (moved_shifted _ _ _ _ Hm3 Hupd) as Hm4.
    assert (∃ fee, paid_for fee ∧ charge (fun a c => D a c + D' a c) = total f - reimbursement f fee)
      by (exists (Number z); split; [done|unfold charge in *; lia]).
    destruct ru; [apply wp_ret|]; (eexists; split; [exact Hm4|]).
    + by rewrite Ert.
    + by right; right.
Qed.

Lemma wp_conclude hash ws damt dcur j payResult w w1 : ready w -> recorded j w w1 ->
  (∀ res, payResult = Ok res -> (routeDetails f).1 = None -> paid_for res.(roundedUpFee)) ->
  wp (conclude (M := M) f hash (routeDetails f).1 damt dcur ws j payResult) (outcome w) w1.
Proof using Hf Hs MediciLaws0 MediciBookLaws0 LightningServiceLaws0.
  intros Hw Hrec Hpaid. destruct payResult as [res|e]; [by apply wp_complete; [..|apply Hpaid]|].
  assert (Hback : ∀ r w2, (∃ D, moved D w w2 ∧ ∀ a c, D a c = 0) ->
    r = AttemptAlreadyPaid j ∨ r = AttemptErrWithJournal j e -> outcome w r w2).
  { intros r w2 (D & Hm & HD) [-> | ->]; by exists D. }
  destruct e; cbn [conclude]; try (apply (wp_revert hash ws j); [done|by eauto]).
  apply wp_bind, (wp_keeps same_books); [auto with keeps|]. intros r2 w2 Hsame%same_shifted.
  apply wp_bind_or, wp_updateLnPaymentState. intros ru w3 Hupd.
  assert (recorded j w w3) by (by do 2 (eapply recorded_shifted; [|done])).
  destruct ru; [apply wp_ret|]; eapply recorded_total; eauto.
Qed.

(** What [pay] answers, and that it leaves the ledger alone. *)
Lemma wp_pay ratio (Q : Result PayInvoiceResult -> World X -> Prop) w :
  (∀ r w', same_books w w' ->
     (∀ res, r = Ok res -> (routeDetails f).1 = None -> paid_for res.(roundedUpFee)) -> Q r w') ->
  wp (pay inv f ratio (routeDetails f).1 (routeDetails f).2) Q w.
Proof.
  intros HQ. unfold pay. destruct (routeDetails f).1 as [rt|] eqn:Ert.
  - apply wp_ext. intros r x _. by apply HQ.
  - destruct (LnFees.verifyMaxFee _ _ _ _ _ _); [|by apply wp_ret, HQ].
    apply wp_ext. intros r x E. apply HQ; [done|]. intros res -> _. by exists w.(outside), res, x.
Qed.

Lemma keeps_note_payment sentFrom r : keeps same_books (note_payment (X := X) inv sentFrom r).
Proof.
  assert (∀ m : IO X unit, keeps same_books m -> keeps same_books (_ ← persistNewLnPayment {| lp_paymentHash := inv.(inv_paymentHash);
    lp_paymentRequest := Some inv.(paymentRequest); lp_sentFromPubkey := Some sentFrom |}; m))
    by (intros; apply keeps_bind; [apply _|auto with keeps..]).
  unfold note_payment, updateMetadataByHash. destruct r as [res|e]; [|destruct e; auto with keeps].
  auto with keeps.
Qed.

(** Recording the payment. *)
Lemma wp_recordSend description md w w1 (amt := totalAmountsForPayment f) : ready w -> same_books w w1 ->
  wp (recordSendOffChain (M := M) description (senderWalletDescriptor f) amt None md.(metadata)
        md.(debitAccountAdditionalMetadata) md.(internalAccountsAdditionalMetadata))
    (fun r w' => match r with Ok j => recorded j.(journalId) w w' | Err e => outcome w (AttemptErr e) w' end) w1.
Proof using Hf Hs MediciLaws0 MediciBookLaws0.
  intros Hw Hsame. destruct (send_nets (MainBook_entry (X := X)) bankOwner dealerBtc dealerUsd entry_empty true
    description (senderWalletDescriptor f) amt None md.(metadata) md.(debitAccountAdditionalMetadata)
    md.(internalAccountsAdditionalMetadata)) as (Hbal & HS & _); [apply Hf|done|done|].
  eapply wp_mono; [apply (wp_record bankOwner dealerBtc dealerUsd (fun ids => send_entry _ _ ids _ _ _ _ _ _ _));
    [by destruct Hsame as [_ ->]|done]|].
  intros [j|e] w2; [|intros Hsame2; by apply outcome_err, same_shifted; transitivity w1].
  intros [Hm Hj]. eexists. split_and!; [|exact Hj|exact HS].
  eapply shifted_then; [by apply same_shifted|exact Hm].
Qed.

Lemma wp_lockedPaymentViaLnSteps w dcur memo ws : ready w ->
  wp (lockedPaymentViaLnSteps (M := M) RATIO_PRECISION inv f dcur memo ws) (outcome w) w.
Proof using Hf Hs MediciLaws0 MediciBookLaws0 LightningServiceLaws0.
  intros Hw.
  assert (Herr : ∀ w' e, same_books w w' -> outcome w (AttemptErr e) w')
    by (intros; by apply outcome_err, same_shifted).
  unfold lockedPaymentViaLnSteps. rewrite (surjective_pairing (routeDetails f)). cbn zeta.
  apply wp_bind_or, (wp_keeps same_books); [auto with keeps|]. intros [txns|e] w1 S1; [|by apply Herr].
  destruct (existsb _ txns); [by apply wp_ret, Herr|].
  apply wp_bind_or, (wp_getWalletBalanceAmount bankOwner dealerBtc dealerUsd); [by destruct S1 as [_ ->]|].
  intros [bal|e] w2 S2; [|by apply Herr; transitivity w1].
  apply wp_or_return; [intros _ _|by intros; apply Herr; transitivity w1].
  apply wp_bind_or, (wp_keeps same_books); [auto with keeps|]. intros [node|e] w3 S3; [|by apply Herr; etrans; [etrans|]].
  apply wp_bind_or, (wp_keeps same_books); [auto with keeps|].
  intros [ratio|e] w4 S4; [|by apply Herr; do 3 (etrans; [|eassumption])].
  assert (S : same_books w w4) by (by do 3 (etrans; [|eassumption])). clear S1 S2 S3 S4.
  apply wp_or_return; [intros display _|by intros; apply Herr].
  apply wp_bind, (wp_keeps same_books); [auto with keeps|]. intros [] w5 S5; [by apply wp_ret, Herr; transitivity w4|].
  apply wp_or_return; [intros wratio _|by intros; apply Herr; transitivity w4].
  apply wp_bind_or. eapply wp_mono; [apply wp_recordSend; [done|by transitivity w4]|].
  intros [j|e] w6; [|done]. intros Hrec.
  apply wp_bind, wp_pay. intros r w7 S7%same_shifted Hpaid.
  apply wp_bind, (wp_keeps same_books); [apply keeps_note_payment|]. intros _ w8 S8%same_shifted.
  apply wp_conclude; [done| |done]. by do 2 (eapply recorded_shifted; [|done]).
Qed.

(** C1. Whatever a Lightning payment meets, a database that fails at any access, a node that pays,
    refuses or does not answer, a lock that was lost, the books stay balanced in both currencies,
    and the sender's account says what the result says.  A pending payment has charged the amount
    and the full fee; so has one that went through a known route, while one without a route charged
    the fee less what the node did not use.  A payment that failed or had been made before has
    changed no account at all.  An error without a journal left the account as it was, or charged
    one of those amounts. *)
Theorem lightning_payment_charges w dcur memo ws (Hw : ready w) :
  wp (lockedPaymentViaLnSteps (M := M) RATIO_PRECISION inv f dcur memo ws) (outcome w) w.
Proof using Hf Hs MediciLaws0 MediciBookLaws0 LightningServiceLaws0. by apply wp_lockedPaymentViaLnSteps. Qed.

End Outcomes.

Module SendExamples.
Import BookExamples.

#[local] Instance free_locks : Redlock nat := {
  acquire _ n := (None, n); timelock _ n := (None, n); release _ n := (None, n); signal_aborted n := (false, n);
}.
#[local] Instance fixed_prices : PriceServices nat := {
  getRealTimePrice _ _ n := (Ok (Number 1), n);
  getCentsFromSatsForImmediateBuy _ n := (Err PriceNotAvailableError, n);
  getCentsFromSatsForImmediateSell _ n := (Err PriceNotAvailableError, n);
  getSatsFromCentsForImmediateBuy _ n := (Err PriceNotAvailableError, n);
  getSatsFromCentsForImmediateSell _ n := (Err PriceNotAvailableError, n);
  getCentsFromSatsForFutureBuy _ n := (Err PriceNotAvailableError, n);
  getCentsFromSatsForFutureSell _ n := (Err PriceNotAvailableError, n);
  getSatsFromCentsForFutureBuy _ n := (Err PriceNotAvailableError, n);
  getSatsFromCentsForFutureSell _ n := (Err PriceNotAvailableError, n);
  getCentsPerSatsExchangeMidRate n := (Err PriceNotAvailableError, n);
  cache_get _ n := (None, n); cache_set _ _ n := (tt, n);
}.
#[local] Instance two_digits : Intl := fun _ => Some 2.

(** A node that pays every invoice for ten satoshis. *)
#[local] Instance node : ILightningService nat := {
  LndService n := (Ok "node", n);
  listAllPubkeys n := (["node"], n);
  payInvoiceViaRoutes _ _ _ n := (Err LnPaymentPendingError, n);
  payInvoiceViaPaymentDetails _ _ _ n := (Ok (mkPayInvoiceResult (Number 10) "secret" "node"), n);
  findRouteForInvoice _ _ n := (Err LookupPaymentTimedOutError, n);
  lookupPayment _ n := (Err LookupPaymentTimedOutError, n);
  lookupInvoice _ _ n := (Err InvoiceNotFoundError, n); settleInvoice _ _ n := (Ok tt, n); cancelInvoice _ _ n := (Ok tt, n);
}.
#[local] Instance node_laws : LightningServiceLaws nat.
Proof. intros inv amt max x res x' [= <- _]. exists 10. split; [done|lia]. Qed.

Definition invoice : LnInvoice :=
  mkLnInvoice "destination" "hash" "lnbc" "" (Number 10000000) (Some (Number 10000)) (Some (BtcPaymentAmount 10000))
    "" None [] [] 0 false.

Definition flow : PaymentFlowState := {| pf_common :=
    {| senderWalletId := "bob"; senderWalletCurrency := Btc; senderAccountId := "b";
       settlementMethod := SettleLightning; paymentInitiationMethod := InitLightning; createdAt := 0;
       paymentSentAndPending := false; inputAmount := 10000; btcPaymentAmount := BtcPaymentAmount 10000;
       usdPaymentAmount := UsdPaymentAmount 300; btcProtocolAndBankFee := BtcPaymentAmount 50;
       usdProtocolAndBankFee := UsdPaymentAmount 2; recipientWalletId := None;
       recipientWalletCurrency := None; recipientAccountId := None; recipientPubkey := None;
       recipientUsername := None; recipientUserId := None; outgoingNodePubkey := None;
       cachedRoute := None |};
    paymentHash := Some "hash"; intraLedgerHash := None; descriptionFromInvoice := "";
    skipProbeForDestination := false |}.

Lemma flow_payable : payable flow.
Proof. split; [by repeat split..|done|]. intros r [= <-]. reflexivity. Qed.

(** Bob has received 50000 satoshis. *)
Definition funded : World nat :=
  (recordReceiveOffChain (M := L0) "" LedgerExamples.bob LedgerExamples.amt None None
     (<["type" := MString "invoice"]> (<["pending" := MBool false]> ∅)) ∅ ∅ None None start).2.

Abbreviation send := (lockedPaymentViaLnSteps (M := L0) (X := nat) (Number 1000000) invoice flow "USD" None ["bob"]).

(** The payment of 10000 and the fee of 10 leave Bob's account; 40 of the fee came back. *)
Lemma lightning_payment_charges_witness :
  (send funded).1 = AttemptOk "journal-1" ∧
  book_account_net "Liabilities:bob" Btc (send funded).2.(ledger) = -50000 + 10010.
Proof.
  assert (E : (send funded).1 = AttemptOk "journal-1") by (vm_compute; reflexivity).
  assert (Hw : bank_ready "bank" "dealer-btc" "dealer-usd" funded.(bankWallets)) by (vm_compute; by repeat split).
  assert (B : book_account_net "Liabilities:bob" Btc funded.(ledger) = -50000) by (vm_compute; reflexivity).
  split; [exact E|].
  destruct (wp_run _ _ _ _ (lightning_payment_charges (M := L0) (Number 1000000) "bank" "dealer-btc" "dealer-usd"
    invoice flow flow_payable LedgerExamples.user_bob funded "USD" None ["bob"] Hw) E) as (D & (_ & _ & HD) & Hfee).
  destruct Hfee as (fee & (x & res & x' & Epay & ->) & Hc). injection Epay as <- _.
  etransitivity; [exact (HD "Liabilities:bob" Btc)|]. rewrite B. f_equal. etransitivity; [exact Hc|].
  vm_compute. reflexivity.
Defined.

End SendExamples.
