(* ===== verification/SendIntraledger.v ===== *)
(** * Paying another wallet of the bank

    Models [app/payments/send-intraledger.ts]: the checks of the two wallets, the flow, the limits, the
    entries under the lock of the sender's wallet, the notifications and the contacts.  The
    theorems follow the money through every outcome and say that a payment is within the
    sender's balance and limits. *)

From S2P Require Import Prelude JsNumber Shared Prices Fees Lightning PaymentFlow LightningBuilder LedgerEntry.
From S2P Require Import TxMetadata LedgerTx TxHistory Limits Invoices World LedgerBook LedgerService Services Repositories.
From S2P Require Import WalletInvoices Money Accounts AccountLimits FlowBuilder SendLightning.
Import LPFB.

Inductive PaymentSendStatus := SendSuccess | SendFailure | SendPending | SendAlreadyPaid.

(** The transaction of a payment that was made before is looked for, and may be missing. *)
Record PaymentSendResult := mkPaymentSendResult {
  ps_status : PaymentSendStatus;
  ps_transaction : option WalletTransaction;
}.

Section Send.
Context {M X : Type} `{MediciEntry M} `{!MediciBook M X} `{Database X} `{Resolvers X}.
Context `{Redlock X} `{PriceServices X} `{ILightningService X} `{RandomHash X} `{Intl}.
Context (RATIO_PRECISION : number) (usdHedgeEnabled : bool) (memoSharingConfig : MemoSharingConfig).
Context (accountLimits : YamlAccountLimits) (skipPubkey : list Pubkey) (skipChanId : list ChanId).

(** [NotificationsService().sendTransaction(...)], which is not awaited *)
Definition sendTransaction (recipient : NotificationRecipient) (transaction : WalletTransaction) : IO X unit :=
  modify (fun w => with_notified w (w.(notified) ++ [(recipient, transaction)])).

Definition notificationRecipient (account : Account) (walletId : WalletId) : NotificationRecipient :=
  {| nr_accountId := account.(acc_id); nr_walletId := walletId; nr_userId := account.(acc_kratosUserId);
     nr_level := account.(acc_level) |}.

Definition validateIntraledgerPaymentInputs (uncheckedSenderWalletId uncheckedRecipientWalletId : string)
    : IO X (Result (Wallet * Wallet * Account)) :=
  senderWalletId ←! checkedToWalletId uncheckedSenderWalletId;
  senderWallet ←? findWalletById senderWalletId;
  senderAccount ←? findAccountById senderWallet.(w_accountId);
  _ ←! AccountValidator senderAccount;
  recipientWalletId ←! checkedToWalletId uncheckedRecipientWalletId;
  recipientWallet ←? findWalletById recipientWalletId;
  recipientAccount ←? findAccountById recipientWallet.(w_accountId);
  _ ←! AccountValidator recipientAccount;
  mret (Ok (senderWallet, recipientWallet, recipientAccount)).

Definition missing_recipient : ApplicationError :=
  InvalidLightningPaymentFlowBuilderStateError "Expected recipient details missing".

(** The metadata of a payment between two accounts, or within one. *)
Definition walletid_metadata (paymentFlow : PaymentFlowState) (sender recipient : WalletDescriptor)
    (senderDisplay recipientDisplay : DisplayAmounts) (senderCurrency recipientCurrency : DisplayCurrency)
    (senderUsername recipientUsername : option Username) (memo : option string) : LedgerMetadata :=
  if bool_decide (sender.(w_accountId) = recipient.(w_accountId)) then
    WalletIdTradeIntraAccountLedgerMetadata (flow_amounts paymentFlow) (js_or_opt memo None) {|
      s_senderAmountDisplayCurrency := toDisplayBaseAmount senderDisplay.(da_displayAmount);
      s_senderFeeDisplayCurrency := toDisplayBaseAmount senderDisplay.(da_displayFee);
      s_senderDisplayCurrency := senderCurrency |}
  else
    WalletIdIntraledgerLedgerMetadata (flow_amounts paymentFlow) (js_or_opt memo None) senderUsername recipientUsername {|
      senderAmountDisplayCurrency := toDisplayBaseAmount senderDisplay.(da_displayAmount);
      senderFeeDisplayCurrency := toDisplayBaseAmount senderDisplay.(da_displayFee);
      senderDisplayCurrency := senderCurrency;
      recipientAmountDisplayCurrency := toDisplayBaseAmount recipientDisplay.(da_displayAmount);
      recipientFeeDisplayCurrency := toDisplayBaseAmount recipientDisplay.(da_displayFee);
      recipientDisplayCurrency := recipientCurrency |}.

Definition lockedPaymentViaIntraledgerSteps (paymentFlow : PaymentFlowState) (senderAccount recipientAccount : Account)
    (memo : option string) : IO X (Result string) :=
  let sender := senderWalletDescriptor paymentFlow in
  match recipientWalletDescriptor paymentFlow with
  | None => mret (Err missing_recipient)
  | Some recipient =>
      balance ←? getWalletBalanceAmount (M := M) sender;
      _ ←! checkBalanceForSend paymentFlow balance;
      senderDisplayPriceRatio ←? getCurrentPriceAsDisplayPriceRatio RATIO_PRECISION senderAccount.(acc_displayCurrency);
      senderDisplay ←! DisplayAmountsConverter.convert senderDisplayPriceRatio (flow_amounts paymentFlow);
      recipientDisplayPriceRatio ←? getCurrentPriceAsDisplayPriceRatio RATIO_PRECISION recipientAccount.(acc_displayCurrency);
      recipientDisplay ←! DisplayAmountsConverter.convert recipientDisplayPriceRatio (flow_amounts paymentFlow);
      aborted ← ext signal_aborted;
      if (aborted : bool) then mret (Err ResourceExpiredLockServiceError) else
      let md := walletid_metadata paymentFlow sender recipient senderDisplay recipientDisplay
        senderAccount.(acc_displayCurrency) recipientAccount.(acc_displayCurrency)
        senderAccount.(acc_username) recipientAccount.(acc_username) memo in
      journal ←? recordIntraledger (M := M) paymentFlow.(descriptionFromInvoice) sender recipient
        {| btc := paymentFlow.(btcPaymentAmount); usd := paymentFlow.(usdPaymentAmount) |}
        md.(metadata) md.(debitAccountAdditionalMetadata) md.(creditAccountAdditionalMetadata)
        md.(internalAccountsAdditionalMetadata);
      mret (Ok journal.(LedgerEntry.journalId))
  end.

(** The transactions of both sides, which are notified. *)
Definition notify_parties (senderAccount recipientAccount : Account) (senderWalletId recipientWalletId : WalletId)
    (journalId : string) : IO X (Result PaymentSendResult) :=
  recipientWalletTransaction ←? getWalletTransactionByJournalId (M := M) memoSharingConfig recipientWalletId journalId;
  _ ← sendTransaction (notificationRecipient recipientAccount recipientWalletId) recipientWalletTransaction;
  senderWalletTransaction ←? getWalletTransactionByJournalId (M := M) memoSharingConfig senderWalletId journalId;
  _ ← sendTransaction (notificationRecipient senderAccount senderWalletId) senderWalletTransaction;
  mret (Ok (mkPaymentSendResult SendSuccess (Some senderWalletTransaction))).

(** The limits of a payment between the two accounts. *)
Definition check_intraledger_limits (paymentFlow : PaymentFlowCommonState) (senderAccount recipientAccount : Account)
    : IO X (Result unit) :=
  priceRatioForLimits ←? getPriceRatioForLimits RATIO_PRECISION usdHedgeEnabled (paymentAmounts paymentFlow);
  (if bool_decide (senderAccount.(acc_id) = recipientAccount.(acc_id)) then checkTradeIntraAccountLimits
   else checkIntraledgerLimits) accountLimits paymentFlow.(usdPaymentAmount) senderAccount.(acc_id) priceRatioForLimits.

Definition executePaymentViaIntraledger (paymentFlow : PaymentFlowState) (senderAccount : Account)
    (senderWalletId : WalletId) (recipientAccount : Account) (memo : option string) : IO X (Result PaymentSendResult) :=
  _ ←? check_intraledger_limits paymentFlow senderAccount recipientAccount;
  match (recipientDetails paymentFlow).(rd_walletDescriptor) with
  | None => mret (Err missing_recipient)
  | Some recipient =>
      result ←? lockWalletId senderWalletId
        (lockedPaymentViaIntraledgerSteps paymentFlow senderAccount recipientAccount memo);
      journalId ←! result;
      notify_parties senderAccount recipientAccount senderWalletId recipient.(w_id) journalId
  end.

(** The contacts of both, after a payment between two accounts; an error is only noted. *)
Definition add_contacts (senderAccount recipientAccount : Account) : IO X unit :=
  if bool_decide (senderAccount.(acc_id) = recipientAccount.(acc_id)) then mret tt
  else _ ← addContactsAfterSend senderAccount recipientAccount; mret tt.

Definition intraledgerPaymentSendWalletId (recipientWalletId : string) (senderAccount : Account) (amount : number)
    (memo : option string) (senderWalletId : string) : IO X (Result PaymentSendResult) :=
  validated ←? validateIntraledgerPaymentInputs senderWalletId recipientWalletId;
  let '(senderWallet, recipientWallet, recipientAccount) := validated in
  hash ← ext generateIntraLedgerHash;
  let cfg := mkConfig [] skipPubkey skipChanId in
  let builderWithSenderWallet :=
    withoutInvoice cfg hash amount (js_or memo "") ≫= fun state => withSenderWallet state senderWallet in
  wallets ←? findAccountWalletsByAccountId recipientAccount.(acc_id);
  let recipientArgsForBuilder := {|
    ra_defaultWalletCurrency := recipientWallet.(w_currency);
    ra_recipientWalletDescriptors := wallets;
    ra_username := recipientAccount.(acc_username);
    ra_userId := recipientAccount.(acc_kratosUserId);
    ra_pubkey := None;
    ra_usdPaymentAmount := None |} in
  builderWithConversion ←? converted RATIO_PRECISION usdHedgeEnabled
    (builderWithSenderWallet ≫= fun state => withRecipientWallet state recipientArgsForBuilder)
    immediate_buy immediate_sell;
  paymentFlow ←! withoutRoute builderWithConversion;
  paymentSendResult ←? executePaymentViaIntraledger paymentFlow senderAccount senderWallet.(w_id) recipientAccount memo;
  _ ← add_contacts senderAccount recipientAccount;
  mret (Ok paymentSendResult).

Definition intraledgerPaymentSendWalletIdForBtcWallet (recipientWalletId : string) (senderAccount : Account)
    (amount : number) (memo : option string) (senderWalletId : string) : IO X (Result PaymentSendResult) :=
  _ ←? validateIsBtcWallet senderWalletId;
  intraledgerPaymentSendWalletId recipientWalletId senderAccount amount memo senderWalletId.

Definition intraledgerPaymentSendWalletIdForUsdWallet (recipientWalletId : string) (senderAccount : Account)
    (amount : number) (memo : option string) (senderWalletId : string) : IO X (Result PaymentSendResult) :=
  _ ←? validateIsUsdWallet senderWalletId;
  intraledgerPaymentSendWalletId recipientWalletId senderAccount amount memo senderWalletId.

End Send.

(** ** Where the money goes *)

Section Transfer.
Context {M X : Type} `{MediciEntry M} `{!MediciLaws M} `{!MediciBook M X} `{!MediciBookLaws M X}
  `{Database X} `{Resolvers X} `{Redlock X} `{PriceServices X} `{ILightningService X} `{RandomHash X} `{Intl}.
Context (precision : number) (hedge : bool) (memoCfg : MemoSharingConfig) (yaml : YamlAccountLimits).
Context (skipPubkey : list Pubkey) (skipChanId : list ChanId).
Context (bankOwner dealerBtc dealerUsd funder : WalletId).
Implicit Types (w : World X) (f : PaymentFlowState) (rcpt : WalletDescriptor).
Abbreviation user := (user_wallet bankOwner dealerBtc dealerUsd).
Abbreviation all_ready := (all_ready bankOwner dealerBtc dealerUsd funder).

(** A flow that can be recorded between two wallets of users, free of fees. *)
Record transferable (f : PaymentFlowCommonState) rcpt : Prop := {
  tf_recipient : recipientWalletDescriptor f = Some rcpt;
  tf_amounts : valid_pair (paymentAmounts f);
  tf_free : f.(btcProtocolAndBankFee).(amount) = 0 ∧ f.(usdProtocolAndBankFee).(amount) = 0;
  tf_distinct : f.(senderWalletId) ≠ rcpt.(w_id);
  tf_users : user (senderWalletDescriptor f) ∧ user rcpt;
}.

(** [D] takes the amount from the sender, who has it, and gives it to the recipient, each in the currency
    of their wallet. *)
Definition transfers (f : PaymentFlowCommonState) rcpt w (D : Change) : Prop :=
  D (toLedgerAccountId f.(senderWalletId)) f.(senderWalletCurrency) = amount_in (paymentAmounts f) f.(senderWalletCurrency) ∧
  D (toLedgerAccountId rcpt.(w_id)) rcpt.(w_currency) = - amount_in (paymentAmounts f) rcpt.(w_currency) ∧
  (exact_book w.(ledger) ->
     amount_in (paymentAmounts f) f.(senderWalletCurrency) <= book_balance (toLiabilitiesWalletId f.(senderWalletId)) w.(ledger)).

Lemma transfers_same (f : PaymentFlowCommonState) rcpt w w1 D : same_books w w1 -> transfers f rcpt w1 D -> transfers f rcpt w D.
Proof. unfold transfers. by intros [-> _]. Qed.

(** The balance that is read covers the payment and its fees. *)
Lemma wp_covers (f : PaymentFlowCommonState) w : all_ready w ->
  wp (getWalletBalanceAmount (M := M) (senderWalletDescriptor f)) (fun r w' => same_books w w' ∧
    ∀ b ok, r = Ok b -> checkBalanceForSend f b = Ok ok -> exact_book w.(ledger) ->
      amount_in (totalAmountsForPayment f) f.(senderWalletCurrency) <= book_balance (toLiabilitiesWalletId f.(senderWalletId)) w.(ledger)) w.
Proof using MediciBookLaws0.
  intros [Hb _].
  eapply wp_mono; [apply wp_and; [apply (wp_getWalletBalanceAmount bankOwner dealerBtc dealerUsd _ (fun _ w' => same_books w w')); done|
    apply (wp_impl (exact_book w.(ledger))); intros Hex; by apply (getWalletBalanceAmount_exact bankOwner dealerBtc dealerUsd)]|].
  intros r w' [S HE]. split; [done|]. intros b ok -> Hok Hbook.
  destruct (HE Hbook) as [_ [[= ->]|[? [=]]]]. revert Hok. unfold checkBalanceForSend. cbn [currency amount w_currency senderWalletDescriptor].
  rewrite bool_decide_true by done. cbn [negb]. unfold amount_in, totalAmountsForPayment.
  destruct (senderWalletCurrency f) eqn:Ec;
    [rewrite decide_False by done|rewrite decide_True by done]; cbn; case_match; try done; zbool; lia.
Qed.

Lemma wp_covered (f : PaymentFlowCommonState) rcpt w : transferable f rcpt -> all_ready w ->
  wp (getWalletBalanceAmount (M := M) (senderWalletDescriptor f)) (fun r w' => same_books w w' ∧
    ∀ b ok, r = Ok b -> checkBalanceForSend f b = Ok ok -> exact_book w.(ledger) ->
      amount_in (paymentAmounts f) f.(senderWalletCurrency) <= book_balance (toLiabilitiesWalletId f.(senderWalletId)) w.(ledger)) w.
Proof using MediciBookLaws0.
  intros [_ _ [Hfb Hfu] _ _] Hw. eapply wp_mono; [by apply wp_covers|]. intros r w' [S HE]. split; [done|].
  intros b ok Hr Hok Hbook. specialize (HE b ok Hr Hok Hbook). revert HE.
  unfold amount_in, totalAmountsForPayment, paymentAmounts. case_match; cbn; lia.
Qed.

(** Recording the payment. *)
Lemma wp_transfer description (f : PaymentFlowCommonState) rcpt md dmd cmd imd w : transferable f rcpt -> all_ready w ->
  wp (recordIntraledger (M := M) description (senderWalletDescriptor f) rcpt (paymentAmounts f) md dmd cmd imd)
    (fun r w' => match r with
       | Ok _ => ∃ D, moved D w w' ∧
           D (toLedgerAccountId f.(senderWalletId)) f.(senderWalletCurrency) = amount_in (paymentAmounts f) f.(senderWalletCurrency) ∧
           D (toLedgerAccountId rcpt.(w_id)) rcpt.(w_currency) = - amount_in (paymentAmounts f) rcpt.(w_currency)
       | Err _ => same_books w w'
       end) w.
Proof using MediciLaws0 MediciBookLaws0.
  intros [_ Ha _ Hne [Hs Hr]] [Hb _].
  destruct (intraledger_nets (MainBook_entry (X := X)) bankOwner dealerBtc dealerUsd entry_empty description
    (senderWalletDescriptor f) rcpt (paymentAmounts f) md dmd cmd imd) as (Hbal & HS & HR); [done..|].
  eapply wp_mono; [apply (wp_record bankOwner dealerBtc dealerUsd (fun ids => intraledger_entry _ ids _ _ _ _ _ _ _ _)); done|].
  intros [j|e] w'; [|done]. intros [Hm _]. eexists. split; [exact Hm|]. split; [exact HS|exact HR].
Qed.

(** What the steps of a transfer leave, under the lock of the sender's wallet. *)
Definition transferred (f : PaymentFlowCommonState) rcpt w (r : Result string) w' : Prop :=
  match r with Ok _ => ∃ D, moved D w w' ∧ transfers f rcpt w D | Err _ => same_books w w' end.

Lemma wp_locked f rcpt sa ra memo w : transferable f rcpt -> all_ready w ->
  wp (lockedPaymentViaIntraledgerSteps (M := M) precision f sa ra memo) (transferred f rcpt w) w.
Proof using MediciLaws0 MediciBookLaws0.
  intros Hf Hw. unfold lockedPaymentViaIntraledgerSteps. rewrite (tf_recipient _ _ Hf).
  apply wp_bind_or. eapply wp_mono; [by eapply wp_covered|]. intros [b|e] w1 [S1 Hcov]; [|done].
  apply wp_or_return; [intros ok Hok|done]. specialize (Hcov b ok eq_refl Hok).
  apply wp_bind_or, (wp_keeps same_books); [auto with keeps|]. intros [sr|e] w2 S2; [|exact (transitivity S1 S2)].
  apply wp_or_return; [intros sd _|intros; exact (transitivity S1 S2)].
  apply wp_bind_or, (wp_keeps same_books); [auto with keeps|]. assert (S2' : same_books w w2) by (by etrans).
  intros [rr|e] w3 S3; [|exact (transitivity S2' S3)]. assert (S : same_books w w3) by (by etrans).
  apply wp_or_return; [intros rd _|done].
  apply wp_bind, (wp_keeps same_books); [auto with keeps|]. intros [] w4 S4; [exact (transitivity S S4)|]. cbn zeta.
  apply wp_bind_or. eapply wp_mono; [apply (wp_transfer _ f rcpt); [done|eapply all_ready_same; [done|by etrans]]|].
  assert (S' : same_books w w4) by (by etrans).
  intros [j|e] w5; [|intros S5; exact (transitivity S' S5)]. intros (D & Hm & HS & HR). apply wp_ret. exists D.
  split; [by eapply shifted_then; [apply same_shifted|]|]. by split.
Qed.

(** The money moved as [P] says, or the call failed and moved none. *)
Definition settles {A} (P : Change -> Prop) w (r : Result A) w' : Prop :=
  ∃ D, moved D w w' ∧ (P D ∨ (∃ e, r = Err e) ∧ ∀ a c, D a c = 0).

Lemma settles_err {A} P w w' e : same_books w w' -> settles (A := A) P w (Err e) w'.
Proof. intros S. exists nothing. split; [by apply shifted_moved, same_shifted|]. right. eauto. Qed.

Lemma settles_from {A} P w w1 w' (r : Result A) : same_books w w1 -> settles P w1 r w' -> settles P w r w'.
Proof. intros S (D & Hm & HP). exists D. split; [|done]. by eapply shifted_then; [apply same_shifted|]. Qed.

Lemma wp_notify_parties sa ra s r j w : all_ready w ->
  wp (notify_parties (M := M) memoCfg sa ra s r j) (fun _ w' => same_books w w') w.
Proof.
  intros Hw. unfold notify_parties, sendTransaction.
  apply wp_bind_or, (wp_getWalletTransactionByJournalId bankOwner dealerBtc dealerUsd funder); [done|].
  intros [t|e] w1 S1; [|done]. apply wp_bind, wp_modify.
  apply wp_bind_or, (wp_getWalletTransactionByJournalId bankOwner dealerBtc dealerUsd funder).
  { eapply all_ready_same; [exact Hw|exact S1]. }
  intros [t'|e] w2 S2; [|exact (transitivity S1 S2)]. apply wp_bind, wp_modify, wp_ret. exact (transitivity S1 S2).
Qed.

Definition transfers_to (f : PaymentFlowCommonState) w (D : Change) : Prop := ∃ rcpt, recipientWalletDescriptor f = Some rcpt ∧ transfers f rcpt w D.

(** The lock, the steps of the transfer, and the notifications of both parties. *)
Lemma wp_lock_and_notify (f : PaymentFlowCommonState) rcpt sa ra wid (steps : IO X (Result string)) w w1 :
  recipientWalletDescriptor f = Some rcpt -> (∀ w2, all_ready w2 -> wp steps (transferred f rcpt w2) w2) ->
  all_ready w -> same_books w w1 ->
  wp (result ←? lockWalletId wid steps; journalId ←! result; notify_parties (M := M) memoCfg sa ra wid rcpt.(w_id) journalId)
    (settles (transfers_to f w) w) w1.
Proof.
  intros Hr Hsteps Hw S1. apply wp_bind_or, wp_redlock; [intros e x; by apply settles_err|]. intros x.
  eapply wp_mono; [apply Hsteps; by eapply all_ready_same|]. intros r w2 Hres x'.
  assert (Hto : ∀ D, transfers f rcpt (with_outside w1 x) D -> transfers_to f w D)
    by (intros D Ht; exists rcpt; split; [done|by eapply transfers_same]).
  split; [|intros e; destruct r as [j|e']].
  - apply wp_or_return; [intros j ->|intros e ->; apply settles_err; by etrans].
    destruct Hres as (D & Hm & Ht). eapply wp_mono; [apply wp_notify_parties|].
    + destruct Hm as [Hb _], S1 as [_ Hb1]. unfold Money.all_ready in *. cbn in *. by rewrite Hb, Hb1.
    + intros r' w3 S3%same_shifted. exists D. split; [|left; by apply Hto].
      eapply shifted_then; [by apply same_shifted|]. by eapply moved_shifted; [|exact S3].
  - destruct Hres as (D & Hm & Ht). exists D. split; [|left; by apply Hto].
    eapply shifted_then; [by apply same_shifted|exact Hm].
  - apply settles_err. by etrans.
Qed.

Lemma keeps_intraledger_check (R : relation (World X)) `{!Reads R} (f : PaymentFlowCommonState) sa ra :
  keeps R (check_intraledger_limits (X := X) precision hedge yaml f sa ra).
Proof. apply keeps_bind_or; [apply _|auto with keeps|]. intros r. case_match; auto with keeps. Qed.

Lemma wp_execute f sa wid ra memo w : (∀ rcpt, recipientWalletDescriptor f = Some rcpt -> transferable f rcpt) -> all_ready w ->
  wp (executePaymentViaIntraledger (M := M) precision hedge memoCfg yaml f sa wid ra memo)
    (settles (transfers_to f w) w) w.
Proof using MediciLaws0 MediciBookLaws0.
  intros Hf Hw. unfold executePaymentViaIntraledger. apply wp_bind_or, (wp_keeps same_books); [apply keeps_intraledger_check, _|].
  intros [[]|e] w1 S1; [|by apply settles_err].
  cbn [recipientDetails rd_walletDescriptor]. destruct (recipientWalletDescriptor f) as [rcpt|] eqn:Hr; [|by apply wp_ret, settles_err].
  apply wp_lock_and_notify; [done| |done..]. intros w2 Hw2. by apply wp_locked; [apply Hf|].
Qed.

(** The two wallets that are named, and those of the recipient's account, are wallets of users. *)
Record parties (senderId recipientId : WalletId) w : Prop := {
  pt_ready : all_ready w;
  pt_sender : ∀ wl : Wallet, wl ∈ w.(wallets) -> wl.(w_id) = senderId -> user wl;
  pt_recipient : ∀ wl wl' : Wallet, wl ∈ w.(wallets) -> wl'∈ w.(wallets) -> wl.(w_id) = recipientId ->
    wl'.(w_accountId) = wl.(w_accountId) -> user wl';
}.

(** The payment of [x] from the wallet [senderId] to the wallet [recipientId]: the sender, who has it, is
    debited exactly the amount; the wallet that was named, or the BTC wallet of the same account in place
    of its USD wallet, is credited, and with the same amount if the currency is the same. *)
Definition pays_wallet (x : number) (senderId recipientId : WalletId) w (D : Change) : Prop :=
  ∃ (sender asked : Wallet) (rcpt : WalletDescriptor) n,
    sender ∈ w.(wallets) ∧ sender.(w_id) = senderId ∧ asked ∈ w.(wallets) ∧ asked.(w_id) = recipientId ∧
    (rcpt = asked ∨ asked.(w_currency) = Usd ∧ rcpt.(w_currency) = Btc ∧ rcpt.(w_accountId) = asked.(w_accountId)) ∧
    rcpt.(w_id) ≠ senderId ∧ BigInt x = Some n ∧ 0 < n ∧
    D (toLedgerAccountId senderId) sender.(w_currency) = n ∧
    D (toLedgerAccountId rcpt.(w_id)) rcpt.(w_currency) < 0 ∧
    (sender.(w_currency) = rcpt.(w_currency) -> D (toLedgerAccountId rcpt.(w_id)) rcpt.(w_currency) = - n) ∧
    (exact_book w.(ledger) -> n <= book_balance (toLiabilitiesWalletId senderId) w.(ledger)).

Lemma wp_validate senderId recipientId w :
  wp (validateIntraledgerPaymentInputs senderId recipientId) (fun r w' => same_state w w' ∧
    ∀ sender asked acc, r = Ok (sender, asked, acc) -> sender ∈ w.(wallets) ∧ sender.(w_id) = senderId ∧
      asked ∈ w.(wallets) ∧ asked.(w_id) = recipientId ∧ acc.(acc_id) = asked.(w_accountId)) w.
Proof.
  unfold validateIntraledgerPaymentInputs, checkedToWalletId.
  apply wp_or_return; [intros ? E1|done]. case_match; [|done]. injection E1 as <-.
  apply wp_bind_or, wp_findWalletById; [done|]. intros sender x1 Hs Hsi.
  apply wp_bind_or, wp_findAccountById; [done|]. intros a x2 _. apply wp_or_return; [intros _ _|done].
  apply wp_or_return; [intros ? E2|done]. case_match; [|done]. injection E2 as <-.
  apply wp_bind_or, wp_findWalletById; [done|]. intros asked x3 Ha Hai.
  apply wp_bind_or, wp_findAccountById; [done|]. intros acc x4 Hacc. apply wp_or_return; [intros _ _|done].
  apply wp_ret. split; [done|]. intros ? ? ? [= <- <- <-]. done.
Qed.

(** The flow of a payment of [x] to one of the wallets [ds]. *)
Record flow_for (x : number) (sender : WalletDescriptor) (ds : AccountWalletDescriptors) (cur : WalletCurrency) f : Prop := {
  ff_sender : senderWalletDescriptor f = sender;
  ff_amounts : valid_pair (paymentAmounts f);
  ff_positive : ∀ c, 0 < amount_in (paymentAmounts f) c;
  ff_free : f.(btcProtocolAndBankFee).(amount) = 0 ∧ f.(usdProtocolAndBankFee).(amount) = 0;
  ff_input : BigInt x = Some (amount_in (paymentAmounts f) sender.(w_currency));
  ff_recipient : ∀ rcpt, recipientWalletDescriptor f = Some rcpt -> rcpt.(w_id) ≠ sender.(w_id) ∧
    (rcpt = wallet_for ds cur ∨ rcpt = ds.(BTC));
}.

Lemma wp_flow cfg hash x memo sender ra w : fair_market precision hedge (@same_state X) immediate_buy immediate_sell ->
  valid x -> Built.valid_descriptors ra.(ra_recipientWalletDescriptors) -> ra.(ra_usdPaymentAmount) = None ->
  wp (converted precision hedge ((withoutInvoice cfg hash x memo ≫= fun state => withSenderWallet state sender)
        ≫= fun state => withRecipientWallet state ra) immediate_buy immediate_sell)
    (fun res w' => same_state w w' ∧ ∀ c f, res = Ok c -> withoutRoute c = Ok f ->
       flow_for x sender ra.(ra_recipientWalletDescriptors) ra.(ra_defaultWalletCurrency) f) w.
Proof.
  intros Hfair Hx Hds Hra. destruct (withoutInvoice cfg hash x memo) as [i|e] eqn:Ei; [|done]. cbn [mbind result_bind].
  destruct (withSenderWallet i sender) as [s|e] eqn:Es; [|by apply wp_ret].
  cbn [mbind result_bind]. destruct (withRecipientWallet s ra) as [r|e] eqn:Er; [|by apply wp_ret].
  assert (Hi : i.(i_uncheckedAmount) = Some x ∧ i.(i_btcPaymentAmount) = None ∧ Built.intra i = true) by (by injection Ei as <-).
  destruct Hi as (Hix & Hib & Hii).
  destruct (sender_checked i sender s x Es Hix Hx) as (Hid & Hcur & Hacc & Hsi & Hin & Hpos & Hb & Hu).
  pose proof (Built.withRecipientWallet_inv _ _ _ Er) as (Hrs & _ & _ & _ & _ & _ & Hru).
  eapply wp_mono; [eapply (wp_converted precision hedge same_state _ _ cfg true i s r sender w Hfair);
    [by eapply Built.start_intraledger|done| |by apply Hb|by rewrite Hru, Hra]|].
  { eapply Built.recipient_internal; [|..|exact Er].
    - unfold sender_isIntraLedger. rewrite Hsi. exact Hii.
    - split_and!; [done|by rewrite Hra|done]. }
  intros res w' [S Hc]. split; [done|]. intros c f -> Hf. specialize (Hc c eq_refl) as (Hbuilt & Hp & Hsm).
  destruct (flow_amounts_of cfg true c f Hbuilt Hsm Hf) as (Fs & Fv & Fp & Ff & Fi).
  rewrite (proj1 Hp), Hrs in Fs, Ff, Fi. rewrite Hsi in Ff. split; try done; [|by apply Ff| |].
  - rewrite Fs, Hid, Hcur, Hacc. by destruct sender.
  - rewrite <- Hcur, Fi. exact Hin.
  - intros rcpt Hr. rewrite <- Hid. by eapply (flow_recipient_of s ra r c f).
Qed.

Lemma wp_send senderId recipientId sa x memo w : parties senderId recipientId w ->
  fair_market precision hedge (@same_state X) immediate_buy immediate_sell -> valid x ->
  wp (intraledgerPaymentSendWalletId (M := M) precision hedge memoCfg yaml skipPubkey skipChanId recipientId sa x memo senderId)
    (settles (pays_wallet x senderId recipientId w) w) w.
Proof using MediciLaws0 MediciBookLaws0.
  intros [Hw Hus Hur] Hfair Hx. unfold intraledgerPaymentSendWalletId.
  apply wp_bind_or. eapply wp_mono; [apply wp_validate|]. intros [[[sender asked] acc]|e] w1 [[S1 W1] Hv]; [|by apply settles_err].
  destruct (Hv _ _ _ eq_refl) as (Hs & Hsi & Ha & Hai & Hacc). clear Hv.
  apply wp_bind, wp_ext. intros hash x1 _. cbn zeta.
  apply wp_bind_or, wp_findAccountWallets; [intros e x2; by apply settles_err|]. intros ds x2 [(wb & Hwb & Eb) (wu & Hwu & Eu) [Cb Cu] [Ab Au] Honly].
  cbn [wallets with_outside] in Hwb, Hwu, Honly. rewrite W1 in Hwb, Hwu, Honly.
  apply wp_bind_or. eapply wp_mono; [apply wp_flow; [done..| |done]; cbn; split_and!; congruence|].
  cbn [ra_recipientWalletDescriptors ra_defaultWalletCurrency]. intros [c|e] w3 [S3 Hf]; [|apply settles_err; exact (transitivity S1 (proj1 S3))].
  assert (S : same_books w w3) by exact (transitivity S1 (proj1 S3)).
  apply wp_or_return; [intros f Ef|intros; by apply settles_err]. specialize (Hf c f eq_refl Ef) as [Fs Fa Fp Ff Fi Fr].
  assert (Hasked : wallet_for ds asked.(w_currency) = asked.(wl_descriptor)) by (symmetry; by apply Honly).
  rewrite Hasked in Fr. assert (Fid : f.(senderWalletId) = senderId) by (by rewrite <- Hsi, <- Fs).
  assert (Fcur : f.(senderWalletCurrency) = sender.(w_currency)) by (by rewrite <- Fs).
  apply wp_bind_or. eapply wp_mono; [apply wp_execute; [|by eapply all_ready_same]|].
  { intros rcpt Hr. destruct (Fr rcpt Hr) as [Hne Hrcpt]. split; [done..| |].
    - rewrite Fid, <- Hsi. congruence.
    - rewrite Fs. split; [by apply Hus|]. destruct Hrcpt as [->| ->]; [by apply (Hur asked asked)|].
      rewrite Eb. apply (Hur asked wb); [done..|congruence]. }
  intros r w4 Hset. apply (settles_from _ w) in Hset; [|done]. destruct Hset as (D & Hm & HD).
  assert (HP : transfers_to f w3 D -> pays_wallet x senderId recipientId w D).
  { intros (rcpt & Hr & Hd & Hc & Hbal). destruct (Fr rcpt Hr) as [Hne Hrcpt]. rewrite Fid, Fcur in *. destruct S as [Sl _].
    exists sender, asked, rcpt, (amount_in (paymentAmounts f) sender.(w_currency)).
    split_and!; try done; [|congruence|rewrite Hc; pose proof (Fp rcpt.(w_currency)); lia|by rewrite Hc; intros ->|by rewrite <- Sl].
    destruct Hrcpt as [->|Hb]; [by left|]. destruct (w_currency asked) eqn:Ec; [right|left]; subst rcpt; [split_and!; congruence|done]. }
  destruct r as [res|e]; [|by exists D; split; [|destruct HD as [HD|HD]; [left; auto|right]]].
  apply wp_bind, (wp_keeps same_books).
  { unfold add_contacts. case_match; [solve_keeps|]. apply keeps_bind; [apply _|apply keeps_addContactsAfterSend|intros; solve_keeps]. }
  intros _ w5 S5%same_shifted. apply wp_ret. exists D. split; [by eapply moved_shifted|].
  destruct HD as [HD|[[? [=]] _]]. left. auto.
Qed.

(** C12. A payment between two wallets of the bank, from a BTC or a USD wallet.  Whatever fails on the way, the
    books stay balanced; the call answers with an error and no account has changed, or the sender's
    wallet is debited exactly the amount that was given and the recipient is credited: the
    wallet that was named, or the BTC wallet of its account in place of its USD wallet.  The
    recipient is not the sender, gets the same amount if the currencies are the same, and the sender's
    balance was at least the amount.  A successful answer is always of the second kind. *)
Theorem intraledger_payment senderId recipientId sa x memo w (Hw : parties senderId recipientId w)
    (Hfair : fair_market precision hedge (@same_state X) immediate_buy immediate_sell) (Hx : valid x) :
  let pay := fun send => wp (send recipientId sa x memo senderId) (settles (pays_wallet x senderId recipientId w) w) w in
  pay (intraledgerPaymentSendWalletIdForBtcWallet (M := M) precision hedge memoCfg yaml skipPubkey skipChanId) ∧
  pay (intraledgerPaymentSendWalletIdForUsdWallet (M := M) precision hedge memoCfg yaml skipPubkey skipChanId).
Proof using MediciLaws0 MediciBookLaws0.
  cbn zeta. split; (apply wp_bind_or, wp_bind_or, wp_findWalletById; [intros; by apply settles_err|]; intros wl x' _ _;
    apply wp_ret; case_decide; [by apply settles_err|];
    (eapply wp_mono; [apply (wp_send senderId recipientId); [|done..]; by destruct Hw|]); by intros r w' (D & Hm & HP); exists D).
Qed.

(** C13. No payment between wallets exceeds the limit: if the books have changed, then the debits of
    the last day in the sender's BTC and USD wallets, of payments to other users or of trades within
    the account as the recipient is another account or the same, plus the amount in cents, were within the
    limit of the sender's level.  The satoshis are counted in cents at the ratio of the payment's own amounts, or, if it is of less
    than 5000 satoshis, at the mid price that was asked for, and the day ends when the check reads the clock. *)
Theorem intraledger_within_limits f sa wid ra memo w wallets level i out t amt (limit := if bool_decide (sa.(acc_id) = ra.(acc_id)) then t else i)
    (Hs : standing sa.(acc_id) w wallets level) (Hex : exact_book w.(ledger)) (Hamt : 0 < amt)
    (Hf : f.(usdPaymentAmount) = UsdPaymentAmount amt)
    (Hbtc : wallets.(BTC).(w_currency) = Btc) (Husd : wallets.(USD).(w_currency) = Usd)
    (Hlimits : getAccountLimits level yaml = mkLimits (Number i) (Number out) (Number t))
    (Hsafe : safe_integer i ∧ safe_integer t) :
  wp (executePaymentViaIntraledger (M := M) precision hedge memoCfg yaml f sa wid ra memo) (fun r w' =>
    (∃ e, r = Err e) ∧ same_books w w' ∨
    within_limit precision hedge sa.(acc_id)
      (if bool_decide (sa.(acc_id) = ra.(acc_id)) then tradeIntraAccountTxBaseVolumeSince else intraledgerTxBaseVolumeSince)
      false limit (paymentAmounts f) amt w wallets) w.
Proof.
  subst limit. destruct Hsafe as [Hi Ht]. unfold executePaymentViaIntraledger, check_intraledger_limits.
  apply wp_bind_or, wp_bind_or. eapply wp_mono; [apply wp_getPriceRatioForLimits|]. intros [ratio|e] w1 [S1 Hr]; [|left; split; [eauto|apply S1]].
  rewrite Hf. assert (Hs1 : standing sa.(acc_id) w1 wallets level) by (by eapply standing_same).
  pose proof S1 as [[[L1 B1] _] _]. set (g := if bool_decide _ then tradeIntraAccountTxBaseVolumeSince else _). set (limit := if bool_decide _ then t else i).
  apply (wp_mono _ (fun (res : Result unit) w2 => (∃ x, w2 = with_outside w1 x) ∧ ∃ err, answers sa.(acc_id) g false limit err ratio amt w1 wallets res)).
  - subst g limit. destruct (bool_decide _).
    + eapply wp_mono; [apply (wp_checkLimits yaml tradeIntraAccountTxBaseVolumeSince false _ _ TradeIntraAccountLimitsExceededError
        tradeIntraAccountLimit t _ wallets level); try done; [by rewrite Hlimits|by rewrite L1]|]. naive_solver.
    + eapply wp_mono; [apply (wp_checkLimits yaml intraledgerTxBaseVolumeSince false _ _ IntraledgerLimitsExceededError
        intraLedgerLimit i _ wallets level); try done; [by rewrite Hlimits|by rewrite L1]|]. naive_solver.
  - intros [[]|e] w2 [[x ->] (err & Hans)]; [right|left; split; [eauto|apply S1]].
    apply answers_within in Hans. exists ratio, w1. split; [done|]. split; [by apply Hr|exact Hans].
Qed.

End Transfer.

Module IntraledgerExamples.
Import BookExamples MarketExamples.

Definition alice_btc : WalletDescriptor := {| w_id := "11111111-1111-4111-8111-111111111111"; w_currency := Btc; w_accountId := "a" |}.
Definition alice_usd : WalletDescriptor := {| w_id := "22222222-2222-4222-8222-222222222222"; w_currency := Usd; w_accountId := "a" |}.
Definition bob_btc : WalletDescriptor := {| w_id := "33333333-3333-4333-8333-333333333333"; w_currency := Btc; w_accountId := "b" |}.
Definition bob_usd : WalletDescriptor := {| w_id := "44444444-4444-4444-8444-444444444444"; w_currency := Usd; w_accountId := "b" |}.

Definition record_of (id : AccountId) (user : UserId) : AccountRecord :=
  mkAccountRecord id None LevelOne [mkStatusEntry Active None None] true [] None user None None.
Definition account_of_record (id : AccountId) (user : UserId) : Account :=
  mkAccount id None LevelOne Active [mkStatusEntry Active None None] true [] None user "USD" None.

(** Alice has received 50000 satoshis. *)
Definition receipt : World nat :=
  (recordReceiveOffChain (M := L0) "" alice_btc LedgerExamples.amt None None
     (<["type" := MString "invoice"]> (<["pending" := MBool false]> ∅)) ∅ ∅ None None start).2.
Definition funded : World nat :=
  mkWorld receipt.(ledger) [] [] [] [] (map (fun wd => mkWalletRecord wd []) [alice_btc; alice_usd; bob_btc; bob_usd])
    [record_of "a" "alice"; record_of "b" "bob"] [] [] [] start.(bankWallets) receipt.(outside).

Definition memos : MemoSharingConfig := mkMemoSharing (Number 0) (Number 0) [].
Abbreviation send := (intraledgerPaymentSendWalletIdForBtcWallet (M := L0) (X := nat) (Number 1000000) true memos
  AccountLimitsExamples.yaml [] [] bob_usd.(w_id) (account_of_record "a" "alice") (Number 10000) None alice_btc.(w_id)).

Lemma users_funded (wl : Wallet) : wl ∈ funded.(wallets) -> user_wallet "bank" "dealer-btc" "dealer-usd" wl.
Proof.
  cbn [funded wallets map]. rewrite !elem_of_cons, elem_of_nil. unfold user_wallet.
  intros [->|[->|[->|[->|[]]]]]; vm_compute; set_solver.
Qed.

Lemma funded_parties : parties "bank" "dealer-btc" "dealer-usd" "funder" alice_btc.(w_id) bob_usd.(w_id) funded.
Proof. split; [by repeat split|by intros; apply users_funded|by intros; apply users_funded]. Qed.

(** Alice pays 10000 satoshis to Bob's USD wallet, which gets 300 cents. *)
Lemma intraledger_payment_witness :
  is_ok (send funded).1 = true ∧
  book_account_net (toLedgerAccountId alice_btc.(w_id)) Btc (send funded).2.(ledger) = -50000 + 10000 ∧
  book_account_net (toLedgerAccountId bob_usd.(w_id)) Usd (send funded).2.(ledger) = -300.
Proof.
  assert (E : is_ok (send funded).1 = true) by (vm_compute; reflexivity).
  assert (Eb : book_account_net (toLedgerAccountId bob_usd.(w_id)) Usd (send funded).2.(ledger) = -300) by (vm_compute; reflexivity).
  assert (E0 : book_account_net (toLedgerAccountId alice_btc.(w_id)) Btc funded.(ledger) = -50000) by (vm_compute; reflexivity).
  split; [exact E|]. split; [|exact Eb].
  destruct (proj1 (intraledger_payment (M := L0) (Number 1000000) true memos AccountLimitsExamples.yaml [] []
    "bank" "dealer-btc" "dealer-usd" "funder" alice_btc.(w_id) bob_usd.(w_id) (account_of_record "a" "alice") (Number 10000) None funded
    funded_parties (proj1 (market_fair _)) eq_refl)) as (D & (_ & _ & Hm) & [HP|[[e He] _]]).
  - destruct HP as (sender & asked & rcpt & n & Hs & Hsi & _ & _ & _ & _ & Hn & _ & HD & _).
    injection Hn as <-. etransitivity; [exact (Hm _ _)|]. rewrite E0. f_equal.
    assert (w_currency sender = Btc) as <-; [|exact HD].
    cbn [funded wallets map] in Hs. rewrite !elem_of_cons, elem_of_nil in Hs.
    destruct Hs as [->|[->|[->|[->|[]]]]]; [done|discriminate Hsi..].
  - pose proof (eq_trans (eq_sym (f_equal is_ok He)) E) as F. discriminate F.
Defined.

Definition flow : PaymentFlowState := {| pf_common :=
    {| senderWalletId := alice_btc.(w_id); senderWalletCurrency := Btc; senderAccountId := "a";
       settlementMethod := SettleIntraLedger; paymentInitiationMethod := InitIntraLedger; createdAt := 0;
       paymentSentAndPending := false; inputAmount := 10000; btcPaymentAmount := BtcPaymentAmount 10000;
       usdPaymentAmount := UsdPaymentAmount 300; btcProtocolAndBankFee := BtcPaymentAmount 0;
       usdProtocolAndBankFee := UsdPaymentAmount 0; recipientWalletId := Some bob_usd.(w_id);
       recipientWalletCurrency := Some Usd; recipientAccountId := Some "b"; recipientPubkey := None;
       recipientUsername := None; recipientUserId := None; outgoingNodePubkey := None;
       cachedRoute := None |};
    paymentHash := None; intraLedgerHash := Some "ih"; descriptionFromInvoice := "";
    skipProbeForDestination := false |}.

Definition alice_wallets : AccountWalletDescriptors := {| BTC := alice_btc; USD := alice_usd |}.

Lemma funded_standing : standing "a" funded alice_wallets LevelOne.
Proof. split; [done..|]. by eexists _, _. Qed.

Lemma funded_exact : exact_book funded.(ledger).
Proof. AccountLimitsExamples.concrete_book. Qed.

Lemma limits_whole : safe_integer 200000 ∧ safe_integer 500000.
Proof. by vm_compute. Qed.

Abbreviation execute := (executePaymentViaIntraledger (M := L0) (X := nat) (Number 1000000) true memos AccountLimitsExamples.yaml flow
  (account_of_record "a" "alice") alice_btc.(w_id) (account_of_record "b" "bob") None).

(** The payment is made, so the three dollars are within Alice's limit of 2000 dollars a day. *)
Lemma intraledger_within_limits_witness :
  is_ok (execute funded).1 = true ∧
  within_limit (Number 1000000) true "a" intraledgerTxBaseVolumeSince false 200000 (paymentAmounts flow) 300 funded alice_wallets.
Proof.
  assert (E : is_ok (execute funded).1 = true) by (vm_compute; reflexivity). split; [exact E|].
  destruct (intraledger_within_limits (M := L0) (Number 1000000) true memos AccountLimitsExamples.yaml flow
    (account_of_record "a" "alice") alice_btc.(w_id) (account_of_record "b" "bob") None funded alice_wallets LevelOne
    200000 10000 500000 300 funded_standing funded_exact ltac:(lia) eq_refl eq_refl eq_refl eq_refl limits_whole)
    as [[[e He] _]|Hle].
  - pose proof (eq_trans (eq_sym (f_equal is_ok He)) E) as F. discriminate F.
  - exact Hle.
Defined.

(** A payment of 1500 dollars, at a price at which Alice has them. *)
Definition large : PaymentFlowState := {| pf_common :=
    {| senderWalletId := alice_btc.(w_id); senderWalletCurrency := Btc; senderAccountId := "a";
       settlementMethod := SettleIntraLedger; paymentInitiationMethod := InitIntraLedger; createdAt := 0;
       paymentSentAndPending := false; inputAmount := 10000; btcPaymentAmount := BtcPaymentAmount 10000;
       usdPaymentAmount := UsdPaymentAmount 150000; btcProtocolAndBankFee := BtcPaymentAmount 0;
       usdProtocolAndBankFee := UsdPaymentAmount 0; recipientWalletId := Some bob_btc.(w_id);
       recipientWalletCurrency := Some Btc; recipientAccountId := Some "b"; recipientPubkey := None;
       recipientUsername := None; recipientUserId := None; outgoingNodePubkey := None;
       cachedRoute := None |};
    paymentHash := None; intraLedgerHash := Some "ih"; descriptionFromInvoice := "";
    skipProbeForDestination := false |}.

(** The limits are checked before the lock is taken.  Two payments whose checks both run before either takes
    the lock are both made, and exceed the limit of 2000 dollars that each was checked against. *)
Definition two_at_once : IO nat (Result unit * Result unit * Result string * Result string) :=
  let alice := account_of_record "a" "alice" in let bob := account_of_record "b" "bob" in
  let check := check_intraledger_limits (Number 1000000) true AccountLimitsExamples.yaml large alice bob in
  let locked := lockedPaymentViaIntraledgerSteps (M := L0) (X := nat) (Number 1000000) large alice bob None in
  c1 ← check; c2 ← check; r1 ← locked; r2 ← locked; mret (c1, c2, r1, r2).

Example limits_not_atomic :
  (two_at_once funded).1 = (Ok tt, Ok tt, Ok "journal-1", Ok "journal-2") ∧
  (check_intraledger_limits (Number 1000000) true AccountLimitsExamples.yaml large (account_of_record "a" "alice")
     (account_of_record "b" "bob") (two_at_once funded).2).1
    = Err (IntraledgerLimitsExceededError (limitErrMsg (Number 200000))) ∧
  200000 < sent_in_cents (PriceRatio.mk 150000 (BtcPaymentAmount 10000))
    (book_account_net (toLedgerAccountId alice_btc.(w_id)) Btc (two_at_once funded).2.(ledger)
     - book_account_net (toLedgerAccountId alice_btc.(w_id)) Btc funded.(ledger)) 0.
Proof. split_and!; vm_compute; reflexivity. Qed.

End IntraledgerExamples.
