(* ===== verification/PayInvoice.v ===== *)
(** * Paying an invoice

    Models the rest of [app/payments/send-lightning.ts]: the checks of an invoice and its payer, the flow,
    the payment to another wallet of the bank under the lock of the payer's wallet, the payment
    over Lightning with its limits, and the answers.  The steps of a Lightning payment under the lock
    are those of [SendLightning]. *)

From S2P Require Import Prelude JsNumber Shared Prices Fees Lightning PaymentFlow LightningBuilder LedgerEntry.
From S2P Require Import TxMetadata LedgerTx TxHistory Limits Invoices World LedgerBook LedgerService Services Repositories.
From S2P Require Import WalletInvoices Money Accounts AccountLimits FlowBuilder SendLightning SendIntraledger.
Import LPFB.

(** An exception is the [IntraErr] of a [JsThrow]. *)
Inductive IntraLedgerSendAttemptResult :=
| IntraOk (journalId : string)
| IntraAlreadyPaid
| IntraErr (error : ApplicationError).

#[export] Instance FromError_Intra : FromError IntraLedgerSendAttemptResult := IntraErr.
#[export] Instance Throws_Intra : Throws IntraLedgerSendAttemptResult :=
  fun r => match r with IntraErr (JsThrow msg) => Some msg | _ => None end.

(** What [validateInvoicePaymentInputs] and [validateNoAmountInvoicePaymentInputs] give. *)
Record PaymentInputs := mkPaymentInputs {
  pi_senderWallet : Wallet;
  pi_decodedInvoice : LnInvoice;
  pi_inputPaymentAmount : Amount;
  pi_uncheckedAmount : option number;
}.

Section Pay.
Context {M X : Type} `{MediciEntry M} `{!MediciBook M X} `{Database X} `{Resolvers X}.
Context `{Redlock X} `{PriceServices X} `{ILightningService X} `{Intl}.
Context (RATIO_PRECISION : number) (usdHedgeEnabled : bool) (memoSharingConfig : MemoSharingConfig).
Context (accountLimits : YamlAccountLimits) (skipPubkey : list Pubkey) (skipChanId : list ChanId).
Context (parsePaymentRequest : string -> result string DecodedInvoice).

(** [getTransactionsForWalletByPaymentHash] of [app/wallets] *)
Definition getWalletTransactionsByPaymentHash (walletId : WalletId) (paymentHash : PaymentHash)
    : IO X (Result (list WalletTransaction)) :=
  ledgerTransactions ←? getTransactionsForWalletByPaymentHash walletId paymentHash;
  nonEndUserWalletIds ←? uncaught getNonEndUserWalletIds;
  mret (traverse (fun txn => translateLedgerTxnToWalletTxn txn nonEndUserWalletIds memoSharingConfig) ledgerTransactions).

Definition getPaymentSendResponse (walletId : WalletId) (paymentHash : PaymentHash) (status : PaymentSendStatus)
    : IO X (Result PaymentSendResult) :=
  transactions ←? getWalletTransactionsByPaymentHash walletId paymentHash;
  let sent := head (filter (fun t => num_ltb t.(wt_settlementAmount) (Number 0) = true) transactions) in
  mret (Ok (mkPaymentSendResult status (match sent with Some t => Some t | None => head transactions end))).

Definition getAlreadyPaidResponse (walletId : WalletId) (paymentHash : PaymentHash) : IO X (Result PaymentSendResult) :=
  getPaymentSendResponse walletId paymentHash SendAlreadyPaid.

Definition getPendingPaymentResponse (walletId : WalletId) (paymentHash : PaymentHash) : IO X (Result PaymentSendResult) :=
  getPaymentSendResponse walletId paymentHash SendPending.

(** [lnInvoiceAmount && lnInvoiceAmount.amount > 0n] *)
Definition has_amount (invoice : LnInvoice) : option Amount :=
  match invoice.(paymentAmount) with
  | Some a => if 0 <? a.(amount) then Some a else None
  | None => None
  end.

Definition validateInvoicePaymentInputs (uncheckedPaymentRequest uncheckedSenderWalletId : string)
    : IO X (Result PaymentInputs) :=
  senderWalletId ←! checkedToWalletId uncheckedSenderWalletId;
  decodedInvoice ←! decodeInvoice parsePaymentRequest uncheckedPaymentRequest;
  match has_amount decodedInvoice with
  | None => mret (Err LnPaymentRequestNonZeroAmountRequiredError)
  | Some lnInvoiceAmount =>
      senderWallet ←? findWalletById senderWalletId;
      senderAccount ←? findAccountById senderWallet.(w_accountId);
      account ←! AccountValidator senderAccount;
      _ ←! validateWalletForAccount account senderWallet;
      mret (Ok {| pi_senderWallet := senderWallet; pi_decodedInvoice := decodedInvoice;
                  pi_inputPaymentAmount := lnInvoiceAmount; pi_uncheckedAmount := None |})
  end.

Definition validateNoAmountInvoicePaymentInputs (uncheckedPaymentRequest : string) (amount : number)
    (uncheckedSenderWalletId : string) (senderAccount : Account) : IO X (Result PaymentInputs) :=
  senderWalletId ←! checkedToWalletId uncheckedSenderWalletId;
  decodedInvoice ←! decodeInvoice parsePaymentRequest uncheckedPaymentRequest;
  match has_amount decodedInvoice with
  | Some _ => mret (Err LnPaymentRequestZeroAmountRequiredError)
  | None =>
      senderWallet ←? findWalletById senderWalletId;
      account ←! AccountValidator senderAccount;
      _ ←! validateWalletForAccount account senderWallet;
      inputPaymentAmount ←! (match senderWallet.(w_currency) with
                             | Btc => checkedToBtcPaymentAmount (Some amount)
                             | Usd => checkedToUsdPaymentAmount (Some amount)
                             end);
      mret (Ok {| pi_senderWallet := senderWallet; pi_decodedInvoice := decodedInvoice;
                  pi_inputPaymentAmount := inputPaymentAmount; pi_uncheckedAmount := Some amount |})
  end.

Definition getPaymentFlow (inputs : PaymentInputs) : IO X (Result PaymentFlowState) :=
  let invoice := inputs.(pi_decodedInvoice) in
  paymentFlow ← findLightningPaymentFlow defaultTimeToExpiryInSeconds inputs.(pi_senderWallet).(w_id)
    (Some invoice.(inv_paymentHash)) None inputs.(pi_inputPaymentAmount).(amount);
  match paymentFlow with
  | Err CouldNotFindLightningPaymentFlowError =>
      builderWithConversion ←? constructPaymentFlowBuilder RATIO_PRECISION usdHedgeEnabled parsePaymentRequest
        skipPubkey skipChanId inputs.(pi_senderWallet) invoice inputs.(pi_uncheckedAmount) immediate_buy immediate_sell;
      paymentFlow ←! withoutRoute builderWithConversion;
      _ ←? persistNewFlow paymentFlow;
      mret (Ok paymentFlow)
  | _ => mret paymentFlow
  end.

(** The metadata of a payment between two accounts, or within one. *)
Definition ln_metadata (paymentHash : PaymentHash) (pubkey : Pubkey) (paymentFlow : PaymentFlowState)
    (sender recipient : WalletDescriptor) (senderDisplay recipientDisplay : DisplayAmounts)
    (senderCurrency recipientCurrency : DisplayCurrency) (senderUsername recipientUsername : option Username)
    (memo : option string) : LedgerMetadata :=
  if bool_decide (sender.(w_accountId) = recipient.(w_accountId)) then
    LnTradeIntraAccountLedgerMetadata paymentHash pubkey (flow_amounts paymentFlow) (js_or_opt memo None) {|
      s_senderAmountDisplayCurrency := toDisplayBaseAmount senderDisplay.(da_displayAmount);
      s_senderFeeDisplayCurrency := toDisplayBaseAmount senderDisplay.(da_displayFee);
      s_senderDisplayCurrency := senderCurrency |}
  else
    LnIntraledgerLedgerMetadata paymentHash pubkey (flow_amounts paymentFlow) (js_or_opt memo None)
      senderUsername recipientUsername {|
      senderAmountDisplayCurrency := toDisplayBaseAmount senderDisplay.(da_displayAmount);
      senderFeeDisplayCurrency := toDisplayBaseAmount senderDisplay.(da_displayFee);
      senderDisplayCurrency := senderCurrency;
      recipientAmountDisplayCurrency := toDisplayBaseAmount recipientDisplay.(da_displayAmount);
      recipientFeeDisplayCurrency := toDisplayBaseAmount recipientDisplay.(da_displayFee);
      recipientDisplayCurrency := recipientCurrency |}.

(** The steps after the check that the payment is not recorded yet. *)
Definition settle_intraledger (paymentHash : PaymentHash) (paymentFlow : PaymentFlowState)
    (recipient : WalletDescriptor) (recipientPubkey : Pubkey) (senderAccount recipientAccount : Account)
    (memo : option string) : IO X IntraLedgerSendAttemptResult :=
  let sender := senderWalletDescriptor paymentFlow in
  balance ←? getWalletBalanceAmount (M := M) sender;
  _ ←! checkBalanceForSend paymentFlow balance;
  senderDisplayPriceRatio ←? getCurrentPriceAsDisplayPriceRatio RATIO_PRECISION senderAccount.(acc_displayCurrency);
  senderDisplay ←! DisplayAmountsConverter.convert senderDisplayPriceRatio (flow_amounts paymentFlow);
  recipientDisplayPriceRatio ←? getCurrentPriceAsDisplayPriceRatio RATIO_PRECISION recipientAccount.(acc_displayCurrency);
  recipientDisplay ←! DisplayAmountsConverter.convert recipientDisplayPriceRatio (flow_amounts paymentFlow);
  aborted ← ext signal_aborted;
  if (aborted : bool) then mret (IntraErr ResourceExpiredLockServiceError) else
  let md := ln_metadata paymentHash recipientPubkey paymentFlow sender recipient senderDisplay recipientDisplay
    senderAccount.(acc_displayCurrency) recipientAccount.(acc_displayCurrency)
    senderAccount.(acc_username) recipientAccount.(acc_username) memo in
  journal ←? recordIntraledger (M := M) paymentFlow.(descriptionFromInvoice) sender recipient
    {| btc := paymentFlow.(btcPaymentAmount); usd := paymentFlow.(usdPaymentAmount) |}
    md.(metadata) md.(debitAccountAdditionalMetadata) md.(creditAccountAdditionalMetadata)
    md.(internalAccountsAdditionalMetadata);
  _ ←? ext LndService;
  _ ←? ext (cancelInvoice recipientPubkey paymentHash);
  _ ←? markAsPaid parsePaymentRequest paymentHash;
  mret (IntraOk journal.(LedgerEntry.journalId)).

Definition lockedPaymentViaIntraledgerSteps (paymentHash : PaymentHash) (paymentFlow : PaymentFlowState)
    (senderAccount recipientAccount : Account) (memo : option string) : IO X IntraLedgerSendAttemptResult :=
  let details := recipientDetails paymentFlow in
  match details.(rd_walletDescriptor), js_or_opt details.(rd_recipientPubkey) None with
  | Some recipient, Some recipientPubkey =>
      recorded ←? isLnTxRecorded paymentHash;
      if (recorded : bool) then mret IntraAlreadyPaid else
      settle_intraledger paymentHash paymentFlow recipient recipientPubkey senderAccount recipientAccount memo
  | _, _ => mret (IntraErr missing_recipient)
  end.

Definition executePaymentViaIntraledger (paymentFlow : PaymentFlowState) (senderAccount : Account)
    (senderWalletId : WalletId) (recipientAccount : Account) (memo : option string) : IO X (Result PaymentSendResult) :=
  priceRatioForLimits ←? getPriceRatioForLimits RATIO_PRECISION usdHedgeEnabled (paymentAmounts paymentFlow);
  paymentHash ←! paymentHashForFlow paymentFlow;
  _ ←? (if bool_decide (senderAccount.(acc_id) = recipientAccount.(acc_id)) then checkTradeIntraAccountLimits
        else checkIntraledgerLimits) accountLimits paymentFlow.(usdPaymentAmount) senderAccount.(acc_id) priceRatioForLimits;
  match (recipientDetails paymentFlow).(rd_walletDescriptor) with
  | None => mret (Err missing_recipient)
  | Some recipient =>
      _ ←? findUserById senderAccount.(acc_kratosUserId);
      result ←? lockWalletId senderWalletId
        (lockedPaymentViaIntraledgerSteps paymentHash paymentFlow senderAccount recipientAccount memo);
      match result with
      | IntraErr error => mret (Err error)
      | IntraAlreadyPaid => getAlreadyPaidResponse senderWalletId paymentHash
      | IntraOk journalId =>
          notify_parties (M := M) memoSharingConfig senderAccount recipientAccount senderWalletId recipient.(w_id) journalId
      end
  end.

(** The answer to an attempt, after the payer has been notified of what it recorded. *)
Definition answer_attempt (paymentHash : PaymentHash) (senderAccount : Account) (senderWalletId : WalletId)
    (attempt : LnSendAttemptResult) : IO X (Result PaymentSendResult) :=
  match attempt with
  | AttemptErr error => mret (Err error)
  | AttemptOk journalId | AttemptPending journalId | AttemptAlreadyPaid journalId | AttemptErrWithJournal journalId _ =>
      walletTransaction ←? getWalletTransactionByJournalId (M := M) memoSharingConfig senderWalletId journalId;
      _ ← sendTransaction (notificationRecipient senderAccount senderWalletId) walletTransaction;
      match attempt with
      | AttemptErrWithJournal _ error => mret (Err error)
      | AttemptPending _ => getPendingPaymentResponse senderWalletId paymentHash
      | AttemptAlreadyPaid _ => getAlreadyPaidResponse senderWalletId paymentHash
      | _ => mret (Ok (mkPaymentSendResult SendSuccess (Some walletTransaction)))
      end
  end.

Definition executePaymentViaLn (decodedInvoice : LnInvoice) (paymentFlow : PaymentFlowState) (senderAccount : Account)
    (memo : option string) : IO X (Result PaymentSendResult) :=
  let senderWalletId := (senderWalletDescriptor paymentFlow).(w_id) in
  let hash := decodedInvoice.(inv_paymentHash) in
  priceRatioForLimits ←? getPriceRatioForLimits RATIO_PRECISION usdHedgeEnabled (paymentAmounts paymentFlow);
  _ ←? checkWithdrawalLimits accountLimits paymentFlow.(usdPaymentAmount) senderAccount.(acc_id) priceRatioForLimits;
  accountWalletDescriptors ←? findAccountWalletsByAccountId senderAccount.(acc_id);
  let walletIds := [accountWalletDescriptors.(BTC).(w_id); accountWalletDescriptors.(USD).(w_id)] in
  attempt ←? lockedPaymentViaLn (M := M) RATIO_PRECISION decodedInvoice paymentFlow senderAccount.(acc_displayCurrency) memo walletIds;
  answer_attempt hash senderAccount senderWalletId attempt.

(** What both ways to pay an invoice do with the result of their checks. *)
Definition pay_validated (uncheckedPaymentRequest uncheckedSenderWalletId : string)
    (validatedPaymentInputs : Result PaymentInputs) (memo : option string) (senderAccount : Account)
    : IO X (Result PaymentSendResult) :=
  match validatedPaymentInputs with
  | Err (AlreadyPaidError _) =>
      decodedInvoice ←! decodeInvoice parsePaymentRequest uncheckedPaymentRequest;
      getAlreadyPaidResponse uncheckedSenderWalletId decodedInvoice.(inv_paymentHash)
  | Err error => mret (Err error)
  | Ok inputs =>
      paymentFlow ←? getPaymentFlow inputs;
      let senderWalletId := inputs.(pi_senderWallet).(w_id) in
      if negb (bool_decide (paymentFlow.(settlementMethod) = SettleIntraLedger)) then
        executePaymentViaLn inputs.(pi_decodedInvoice) paymentFlow senderAccount memo
      else
      match (recipientDetails paymentFlow).(rd_walletDescriptor) with
      | None => mret (Err missing_recipient)
      | Some recipient =>
          recipientAccount ←? findAccountById recipient.(w_accountId);
          _ ←! AccountValidator recipientAccount;
          paymentSendResult ←? executePaymentViaIntraledger paymentFlow senderAccount senderWalletId recipientAccount memo;
          _ ← add_contacts senderAccount recipientAccount;
          mret (Ok paymentSendResult)
      end
  end.

Definition payInvoiceByWalletId (uncheckedPaymentRequest : string) (memo : option string)
    (uncheckedSenderWalletId : string) (senderAccount : Account) : IO X (Result PaymentSendResult) :=
  validatedPaymentInputs ← validateInvoicePaymentInputs uncheckedPaymentRequest uncheckedSenderWalletId;
  pay_validated uncheckedPaymentRequest uncheckedSenderWalletId validatedPaymentInputs memo senderAccount.

Definition payNoAmountInvoiceByWalletId (uncheckedPaymentRequest : string) (amount : number) (memo : option string)
    (uncheckedSenderWalletId : string) (senderAccount : Account) : IO X (Result PaymentSendResult) :=
  validatedPaymentInputs ← validateNoAmountInvoicePaymentInputs uncheckedPaymentRequest amount uncheckedSenderWalletId senderAccount;
  pay_validated uncheckedPaymentRequest uncheckedSenderWalletId validatedPaymentInputs memo senderAccount.

Definition payNoAmountInvoiceByWalletIdForBtcWallet (uncheckedPaymentRequest : string) (amount : number) (memo : option string)
    (uncheckedSenderWalletId : string) (senderAccount : Account) : IO X (Result PaymentSendResult) :=
  _ ←? validateIsBtcWallet uncheckedSenderWalletId;
  payNoAmountInvoiceByWalletId uncheckedPaymentRequest amount memo uncheckedSenderWalletId senderAccount.

Definition payNoAmountInvoiceByWalletIdForUsdWallet (uncheckedPaymentRequest : string) (amount : number) (memo : option string)
    (uncheckedSenderWalletId : string) (senderAccount : Account) : IO X (Result PaymentSendResult) :=
  _ ←? validateIsUsdWallet uncheckedSenderWalletId;
  payNoAmountInvoiceByWalletId uncheckedPaymentRequest amount memo uncheckedSenderWalletId senderAccount.

End Pay.

(** An answer about a payment that was made before leaves the books alone. *)
Section Responses.
Context {M X : Type} `{MediciEntry M} `{!MediciBook M X} `{Database X} `{Resolvers X} `{Intl}.
Context (memoCfg : MemoSharingConfig) (bankOwner dealerBtc dealerUsd funder : WalletId).

Lemma wp_sendResponse wid h status (w : World X) : all_ready bankOwner dealerBtc dealerUsd funder w ->
  wp (getPaymentSendResponse memoCfg wid h status) (fun r w' => same_books w w' ∧ ∀ res, r = Ok res -> res.(ps_status) = status) w.
Proof.
  intros Hw. unfold getPaymentSendResponse, getWalletTransactionsByPaymentHash.
  apply wp_bind_or, wp_bind_or, (wp_keeps same_books); [unfold getTransactionsForWalletByPaymentHash, MainBook_ledger; solve_keeps|].
  intros [txns|e] w1 S1; [|done].
  apply wp_bind_or, (wp_getNonEndUserWalletIds bankOwner dealerBtc dealerUsd funder); [by eapply all_ready_same|].
  intros ids. apply wp_ret. destruct (traverse _ _); [|done]. apply wp_ret. split; [done|]. by intros ? [= <-].
Qed.

End Responses.

(** ** An invoice of the bank is paid once *)

Section Once.
Context {M X : Type} `{MediciEntry M} `{!MediciLaws M} `{!MediciBook M X} `{!MediciBookLaws M X}
  `{Database X} `{Resolvers X} `{Redlock X} `{PriceServices X} `{ILightningService X} `{Intl}.
Context (precision : number) (hedge : bool) (memoCfg : MemoSharingConfig) (yaml : YamlAccountLimits).
Context (parse : string -> result string DecodedInvoice).
Context (bankOwner dealerBtc dealerUsd funder : WalletId).
Implicit Types (w : World X) (f : PaymentFlowState) (rcpt : WalletDescriptor) (h : PaymentHash).
Abbreviation transferable := (transferable bankOwner dealerBtc dealerUsd).
Abbreviation all_ready := (all_ready bankOwner dealerBtc dealerUsd funder).
Abbreviation locked := (lockedPaymentViaIntraledgerSteps (M := M) (X := X) precision parse).

(** Every document of the payment has its hash, and none is pending. *)
Lemma ln_metadata_labels h pk f s rcpt sd rd sc rc su ru memo ids description amt :
  let md := ln_metadata h pk f s rcpt sd rd sc rc su ru memo in
  Forall (fun tx => tx.(tx_meta) !! "hash" = Some (MString h) ∧ tx.(tx_meta) !! "pending" = Some (MBool false))
    (transactions (intraledger_entry (MainBook_entry (X := X)) ids description s rcpt amt md.(metadata)
       md.(debitAccountAdditionalMetadata) md.(creditAccountAdditionalMetadata) md.(internalAccountsAdditionalMetadata))).
Proof using MediciLaws0 MediciBookLaws0.
  cbn zeta. unfold ln_metadata.
  case_bool_decide; (apply (intraledger_Forall _ entry_empty); intros; cbn [tx_meta]; rewrite !with_currency_lookup by done; done).
Qed.

(** Documents that change an account are there. *)
Lemma changed_documents a c (L : list Doc) : book_account_net a c L ≠ 0 -> ∃ d, d ∈ L.
Proof. destruct L as [|d L]; [done|]. exists d. by left. Qed.

Lemma wp_transfer_paid h f rcpt description md dmd cmd imd w : transferable f rcpt -> all_ready w -> clear h w ->
  amount_in (paymentAmounts f) f.(senderWalletCurrency) ≠ 0 ->
  (∀ ids, Forall (fun tx => tx.(tx_meta) !! "hash" = Some (MString h) ∧ tx.(tx_meta) !! "pending" = Some (MBool false))
     (transactions (intraledger_entry (MainBook_entry (X := X)) ids description (senderWalletDescriptor f) rcpt
        (paymentAmounts f) md dmd cmd imd))) ->
  wp (recordIntraledger (M := M) description (senderWalletDescriptor f) rcpt (paymentAmounts f) md dmd cmd imd)
    (fun r w' => ∀ j, r = Ok j -> paid h w') w.
Proof using MediciLaws0 MediciBookLaws0.
  intros [_ Ha _ Hne [Hs Hr]] [Hb _] Hc Hnz Hall.
  destruct (intraledger_nets (MainBook_entry (X := X)) bankOwner dealerBtc dealerUsd entry_empty description
    (senderWalletDescriptor f) rcpt (paymentAmounts f) md dmd cmd imd) as (_ & HS & _); [done..|].
  apply wp_bind_or, (wp_staticAccountIds bankOwner dealerBtc dealerUsd); [done|].
  apply wp_persistAndReturnEntry; [|done]. intros j w' (new & Hl & _ & _ & _ & Hn & Hlab) _ j' _.
  specialize (Hall (ids bankOwner dealerBtc dealerUsd)). apply Forall_and in Hall as [Hh Hp]. apply (labels_hash _ _ h Hlab) in Hh. apply (labels_pending _ _ false Hlab) in Hp.
  split; [by eapply clear_new|].
  destruct (changed_documents (toLedgerAccountId f.(senderWalletId)) f.(senderWalletCurrency) new) as [d Hd].
  { rewrite Hn. intros E. apply Hnz. etransitivity; [symmetry; exact HS|exact E]. }
  rewrite Forall_forall in Hh, Hp. exists d. split; [rewrite Hl; apply elem_of_app; by left|]. by split; [apply Hp|apply Hh].
Qed.

(** The payment is made, and is then the only one of the invoice; or nothing was recorded. *)
Definition paid_or_unchanged h f rcpt w (r : IntraLedgerSendAttemptResult) w' : Prop :=
  same_books w w' ∧ (∀ j, r ≠ IntraOk j) ∨
  (∃ D, moved D w w' ∧ transfers f rcpt w D) ∧ (clear h w -> amount_in (paymentAmounts f) f.(senderWalletCurrency) ≠ 0 -> paid h w').

Lemma wp_settle_intraledger h f rcpt pk sa ra memo w : transferable f rcpt -> all_ready w ->
  wp (settle_intraledger (M := M) precision parse h f rcpt pk sa ra memo) (paid_or_unchanged h f rcpt w) w.
Proof using MediciLaws0 MediciBookLaws0.
  intros Hf Hw. assert (HE : ∀ e w', same_books w w' -> paid_or_unchanged h f rcpt w (IntraErr e) w') by (by left).
  unfold settle_intraledger.
  apply wp_bind_or. eapply wp_mono; [by eapply wp_covered|]. intros [b|e] w1 [S1 Hcov]; [|by apply HE].
  apply wp_or_return; [intros ok Hok|by intros; apply HE]. specialize (Hcov b ok eq_refl Hok).
  apply wp_bind_or, (wp_keeps same_books); [auto with keeps|]. intros [sr|e] w2 S2; [|apply HE; exact (transitivity S1 S2)].
  assert (S2' : same_books w w2) by exact (transitivity S1 S2). apply wp_or_return; [intros sd _|by intros; apply HE].
  apply wp_bind_or, (wp_keeps same_books); [auto with keeps|]. intros [rr|e] w3 S3; [|apply HE; exact (transitivity S2' S3)].
  assert (S : same_books w w3) by exact (transitivity S2' S3). apply wp_or_return; [intros rd _|by intros; apply HE].
  apply wp_bind, (wp_keeps same_books); [auto with keeps|]. intros [] w4 S4; [apply HE; exact (transitivity S S4)|]. cbn zeta.
  assert (S' : same_books w w4) by exact (transitivity S S4). assert (Hw4 : all_ready w4) by (by eapply all_ready_same).
  apply wp_bind_or. eapply wp_mono; [apply wp_and; [apply (wp_transfer bankOwner dealerBtc dealerUsd funder _ f rcpt); done|]|].
  { apply (wp_impl (clear h w4 ∧ amount_in (paymentAmounts f) f.(senderWalletCurrency) ≠ 0)). intros [Hc Hnz].
    apply (wp_transfer_paid h); [done..|]. intros ids. apply ln_metadata_labels. }
  intros [j|e] w5; [|intros [S5 _]; apply HE; exact (transitivity S' S5)]. intros [(D & Hm & HS & HR) Hp].
  assert (Hdone : ∀ r w6, same_books w5 w6 -> paid_or_unchanged h f rcpt w r w6).
  { intros r w6 S6. right. split; [exists D; split; [|by split]|].
    - eapply shifted_then; [by apply same_shifted|]. eapply moved_shifted; [exact Hm|by apply same_shifted].
    - intros Hc Hnz. apply (paid_same h w5); [apply S6|]. apply (Hp (conj (clear_same h w w4 (proj1 S') Hc) Hnz) j eq_refl). }
  apply wp_bind_or, (wp_keeps same_books); [auto with keeps|]. intros [?|e] w6 S6; [|by apply Hdone].
  apply wp_bind_or, (wp_keeps same_books); [auto with keeps|]. intros [?|e] w7 S7; [|apply Hdone; exact (transitivity S6 S7)].
  assert (S67 : same_books w5 w7) by exact (transitivity S6 S7).
  apply wp_bind_or, wp_markAsPaid; [|intros i w8 S8 _]; intros; apply Hdone; by etrans.
Qed.

Lemma wp_locked_invoice h f rcpt sa ra memo w : transferable f rcpt -> all_ready w ->
  wp (locked h f sa ra memo) (paid_or_unchanged h f rcpt w) w.
Proof using MediciLaws0 MediciBookLaws0.
  intros Hf Hw. unfold lockedPaymentViaIntraledgerSteps. cbn [recipientDetails rd_walletDescriptor].
  rewrite (tf_recipient _ _ _ _ _ Hf). destruct (js_or_opt _ _) as [pk|]; [|by left].
  apply wp_bind_or, wp_isLnTxRecorded. intros [[]|e] w1 [S1 _] _ _; [by left| |by left].
  eapply wp_mono; [apply wp_settle_intraledger; [exact Hf|by eapply all_ready_same]|].
  intros r w2 [[S2 Hr]|[(D & Hm & Ht) Hp]]; [left; split; [by etrans|done]|right]. split.
  - exists D. split; [by eapply shifted_then; [apply same_shifted|]|by eapply transfers_same].
  - intros Hc Hnz. apply Hp; [|done]. apply (clear_same h w); [apply S1|done].
Qed.

(** A payment that is recorded is not made again, by whom ever and with whatever flow. *)
Lemma wp_locked_again h f sa ra memo w : paid h w ->
  wp (locked h f sa ra memo) (fun r w' => same_ledger w w' ∧ (r = IntraAlreadyPaid ∨ ∃ e, r = IntraErr e)) w.
Proof.
  intros Hp. unfold lockedPaymentViaIntraledgerSteps. destruct (rd_walletDescriptor _) as [rcpt|]; [|by apply wp_ret; split; [|right; eexists]].
  destruct (js_or_opt _ _) as [pk|]; [|by apply wp_ret; split; [|right; eexists]].
  apply wp_bind_or, wp_isLnTxRecorded. intros [b|e] w1 [[S1 _] _] _ Hb; [|by split; [|right; eexists]].
  rewrite (proj2 (Hb b eq_refl) Hp). by apply wp_ret; split; [|left].
Qed.

(** C10. An invoice of the bank is paid once between its wallets.  While no payment of the invoice is on the
    way over Lightning, an attempt to pay it under the lock either records nothing, or debits the
    payer, who has the amount, and credits the recipient; after that every other attempt,
    of any payer, in any account and with any flow, leaves the ledger as it is and never
    answers with success, even if the first attempt failed after recording the payment. *)
Theorem invoice_paid_once h f rcpt sa ra memo w (Hf : transferable f rcpt) (Hw : all_ready w) (Hc : clear h w)
    (Ha : amount_in (paymentAmounts f) f.(senderWalletCurrency) ≠ 0) :
  wp (lockedPaymentViaIntraledgerSteps (M := M) precision parse h f sa ra memo) (fun r w1 =>
    same_books w w1 ∧ (∀ j, r ≠ IntraOk j) ∨
    (∃ D, moved D w w1 ∧ transfers f rcpt w D) ∧
    ∀ f' sa' ra' memo', wp (lockedPaymentViaIntraledgerSteps (M := M) precision parse h f' sa' ra' memo')
      (fun r' w2 => same_ledger w1 w2 ∧ (r' = IntraAlreadyPaid ∨ ∃ e, r' = IntraErr e)) w1) w.
Proof using MediciLaws0 MediciBookLaws0.
  eapply wp_mono; [by apply wp_locked_invoice|]. intros r w1 [Hs|[Hm Hp]]; [by left|right].
  split; [done|]. intros. by apply wp_locked_again, Hp.
Qed.

End Once.

(** ** Paying an invoice of the bank *)

(** The collections that a payment is built from. *)
Definition same_payees {X} (w w' : World X) : Prop := same_state w w' ∧ same_invoices w w'.

#[export] Instance same_payees_frame X : Frame (@same_payees X).
Proof.
  split; [split; [|done]|done..]. split; [done|]. intros w1 w2 w3 [S1 E1] [S2 E2]. split; [by etrans|]. unfold same_invoices in *. congruence.
Qed.
#[export] Hint Resolve same_payees_frame : keeps.

Lemma payees_sym {X} (w w' : World X) : same_payees w w' -> same_payees w' w.
Proof. intros [[[] ?] ?]. repeat split; unfold same_invoices in *; congruence. Qed.

(** The sender stage says whose wallet pays. *)
Lemma sender_fields i sender s : withSenderWallet i sender = Ok s ->
  s.(s_senderWalletId) = sender.(w_id) ∧ s.(s_senderWalletCurrency) = sender.(w_currency) ∧
  s.(s_senderAccountId) = sender.(w_accountId) ∧ s.(s_invoice) = i.
Proof. unfold withSenderWallet. intros H. repeat case_match; result_inv; done. Qed.

(** The amount that is asked for: that of the invoice, in satoshis, or the payer's own. *)
Inductive asks (inv : LnInvoice) : option number -> Z -> Prop :=
| asks_invoice a : inv.(paymentAmount) = Some a -> checked a -> a.(currency) = Btc -> asks inv None a.(amount)
| asks_input x n : inv.(paymentAmount) = None -> valid x -> BigInt x = Some n -> 0 < n < 2 ^ 53 -> asks inv (Some x) n.

(** An input that may be asked for; the payer's own has yet to be checked. *)
Definition askable (inv : LnInvoice) (uncheckedAmount : option number) : Prop :=
  match uncheckedAmount with
  | None => ∀ a, inv.(paymentAmount) = Some a -> checked a ∧ a.(currency) = Btc
  | Some x => inv.(paymentAmount) = None ∧ valid x
  end.

Definition is_input (uncheckedAmount : option number) : bool := match uncheckedAmount with Some _ => true | None => false end.

Lemma asks_same inv ua n n' : asks inv ua n -> asks inv ua n' -> n = n'.
Proof. destruct 1; inversion 1; congruence. Qed.

Lemma askable_asks inv ua n : asks inv ua n -> askable inv ua.
Proof. destruct 1; cbn; [|done]. intros ? ?. by simplify_eq. Qed.

Lemma asks_currency inv ua n (c : WalletCurrency) : asks inv ua n ->
  match inv.(paymentAmount) with Some _ => Btc | None => c end = if is_input ua then c else Btc.
Proof. by intros [a ->|x m ->]. Qed.

Lemma asks_small inv ua n : asks inv ua n -> 0 < n < 2 ^ 53.
Proof. intros [a _ Ha _|x m _ _ _ Hm]; [|done]. split; [apply Ha|by apply checked_small]. Qed.

Lemma has_amount_Some inv a : has_amount inv = Some a -> inv.(paymentAmount) = Some a ∧ 0 < a.(amount).
Proof. unfold has_amount. intros H. repeat case_match; simplify_eq. by zbool. Qed.

Lemma own_destination cfg d : d ∈ cfg.(localNodeIds) ->
  settlementMethodFromDestination cfg (Some d) = (SettleIntraLedger, Some LnFees.intraLedgerFees.(btc), Some LnFees.intraLedgerFees.(usd)).
Proof. intros Hd. unfold settlementMethodFromDestination. by rewrite (decide_True _ _ Hd). Qed.

Lemma invoice_stages cfg inv ua sender i s : inv.(destination) ∈ cfg.(localNodeIds) -> askable inv ua ->
  match js_or_opt ua None with Some x => withNoAmountInvoice cfg inv x | None => withInvoice cfg inv end = Ok i ->
  withSenderWallet i sender = Ok s ->
  asks inv ua s.(s_inputAmount) ∧ Built.start cfg (is_input ua) i ∧ Built.intra i = true ∧
  (∀ a, s.(s_btcPaymentAmount) = Some a -> checked a) ∧ ∀ u, s.(s_usdPaymentAmount) = Some u -> checked u.
Proof.
  intros Hd Hask Hi Hs. destruct ua as [x|].
  - destruct Hask as [Ha Hx]. unfold js_or_opt in Hi. destruct (truthy (Some x)) eqn:Ht; [|unfold withInvoice in Hi; by rewrite Ha in Hi].
    assert (Hst : Built.start cfg true i) by (by eapply Built.start_no_amount).
    assert (Hin : Built.intra i = true ∧ i.(i_btcPaymentAmount) = None ∧ i.(i_uncheckedAmount) = Some x).
    { unfold withNoAmountInvoice in Hi. rewrite own_destination in Hi by done. by result_inv. }
    destruct Hin as (Hintra & Hb & Hu). destruct (sender_checked i sender s x Hs Hu Hx) as (_ & _ & _ & _ & HB & Hpos & Hcb & Hcu).
    split_and!; try done; [by apply asks_input|by apply Hcb].
  - cbn in Hi. destruct (inv.(paymentAmount)) as [a|] eqn:Ha; [|unfold withInvoice in Hi; by rewrite Ha in Hi].
    destruct (Hask a Ha) as [Hmax Hc]. assert (Hpos : 0 < a.(amount)) by apply Hmax.
    assert (Hst : Built.start cfg false i) by (by eapply Built.start_invoice).
    assert (Hin : Built.intra i = true ∧ i.(i_btcPaymentAmount) = Some a ∧ i.(i_inputAmount) = Some a.(amount) ∧ i.(i_uncheckedAmount) = None).
    { unfold withInvoice in Hi. rewrite Ha, own_destination in Hi by done. by result_inv. }
    destruct Hin as (Hintra & Hb & Hn & Hu). unfold withSenderWallet in Hs. rewrite Hu, Hb, Hn in Hs.
    unfold js_or_opt, truthy, truthy_option, truthy, truthy_bigint in Hs.
    rewrite (proj2 (Z.eqb_neq _ _)) in Hs by lia. injection Hs as <-. cbn.
    split_and!; try done; [by apply asks_invoice|by intros ? [= <-]].
Qed.

Section Invoice.
Context {M X : Type} `{MediciEntry M} `{!MediciLaws M} `{!MediciBook M X} `{!MediciBookLaws M X}
  `{Database X} `{Resolvers X} `{Redlock X} `{PriceServices X} `{ILightningService X} `{Intl}.
Context (precision : number) (hedge : bool) (memoCfg : MemoSharingConfig) (yaml : YamlAccountLimits).
Context (skipPubkey : list Pubkey) (skipChanId : list ChanId) (parse : string -> result string DecodedInvoice).
Context (bankOwner dealerBtc dealerUsd funder : WalletId).
Implicit Types (w : World X) (f : PaymentFlowState) (rcpt : WalletDescriptor) (h : PaymentHash) (inv : LnInvoice).
Abbreviation user := (user_wallet bankOwner dealerBtc dealerUsd).
Abbreviation transferable := (transferable bankOwner dealerBtc dealerUsd).
Abbreviation all_ready := (all_ready bankOwner dealerBtc dealerUsd funder).

(** The invoice that is stored under the hash. *)
Definition stored_invoice h w (i : WalletInvoice) : Prop :=
  ∃ r rest, filter (fun r => r.(ir_id) = h) w.(walletInvoices) = r :: rest ∧ complete_invoice parse r = Ok i.

(** A wallet that a payment of the invoice may go to: one of the account of the wallet the invoice was made
    for, in the currency of the invoice, or its BTC wallet. *)
Definition invoice_wallet h w rcpt : Prop :=
  ∃ i (asked : Wallet), stored_invoice h w i ∧ asked ∈ w.(wallets) ∧ asked.(w_id) = i.(wi_recipientWalletDescriptor).(w_id) ∧
    rcpt.(w_accountId) = asked.(w_accountId) ∧ (∃ wl : Wallet, wl ∈ w.(wallets) ∧ rcpt = wl.(wl_descriptor)) ∧
    (rcpt.(w_currency) = i.(wi_recipientWalletDescriptor).(w_currency) ∨ rcpt.(w_currency) = Btc).

(** A flow that pays the invoice from the wallet [senderId], for an input of [n]. *)
Record invoice_flow inv (senderId : WalletId) (n : Z) w f : Prop := {
  if_sender : ∃ wl : Wallet, wl ∈ w.(wallets) ∧ wl.(w_id) = senderId ∧ senderWalletDescriptor f = wl.(wl_descriptor);
  if_method : f.(settlementMethod) = SettleIntraLedger;
  if_amounts : valid_pair (paymentAmounts f);
  if_positive : ∀ c, 0 < amount_in (paymentAmounts f) c;
  if_free : f.(btcProtocolAndBankFee).(amount) = 0 ∧ f.(usdProtocolAndBankFee).(amount) = 0;
  if_given : f.(inputAmount) = n;
  if_input : amount_in (paymentAmounts f) (match inv.(paymentAmount) with Some _ => Btc | None => f.(senderWalletCurrency) end) = n;
  if_recipient : ∀ rcpt, recipientWalletDescriptor f = Some rcpt ->
    rcpt.(w_id) ≠ senderId ∧ invoice_wallet inv.(inv_paymentHash) w rcpt;
}.

Lemma wallet_same h w w' rcpt : same_payees w w' -> invoice_wallet h w' rcpt <-> invoice_wallet h w rcpt.
Proof. unfold invoice_wallet, stored_invoice. intros [[_ Ew] Ei]. unfold same_invoices in Ei. by rewrite Ew, Ei. Qed.

Lemma flow_same inv id n w w' f : same_payees w w' -> invoice_flow inv id n w' f -> invoice_flow inv id n w f.
Proof.
  intros S [Hs ? ? ? ? ? ? Hr]. split; try done; [destruct S as [[_ Ew] _]; by rewrite <- Ew|].
  intros rcpt E. destruct (Hr rcpt E) as [? ?]. split; [done|]. by eapply (wallet_same _ w w').
Qed.

(** Stored amounts in cents are within the maximum, and only of invoices for USD wallets. *)
Definition sound_invoice (i : WalletInvoice) : Prop :=
  ∀ u, i.(wi_usdAmount) = Some u -> checked u ∧ u.(currency) = Usd ∧ i.(wi_recipientWalletDescriptor).(w_currency) = Usd.

Lemma wp_recipientDetails inv w : (∀ i, stored_invoice inv.(inv_paymentHash) w i -> sound_invoice i) ->
  wp (recipientDetailsFromInvoice parse inv) (fun r w' => (∃ x, w' = with_outside w x) ∧ ∀ ra, r = Ok ra ->
    Built.valid_recipient ra ∧ (∀ u, ra.(ra_usdPaymentAmount) = Some u -> checked u) ∧
    ∀ rcpt, rcpt = wallet_for ra.(ra_recipientWalletDescriptors) ra.(ra_defaultWalletCurrency) ∨ rcpt = ra.(ra_recipientWalletDescriptors).(BTC) ->
      invoice_wallet inv.(inv_paymentHash) w rcpt) w.
Proof.
  intros Hsound. assert (Hw : ∀ x, ∃ x', with_outside w x = with_outside w x') by eauto.
  unfold recipientDetailsFromInvoice. apply wp_bind_or, wp_findInvoice; [intros e x; split; [apply Hw|done]|].
  intros r rest i x0 Hr Hi. assert (Hst : stored_invoice inv.(inv_paymentHash) w i) by (by exists r, rest).
  destruct (wi_paid i); [apply wp_ret; split; [apply Hw|done]|].
  apply wp_bind_or, wp_findWalletById; [intros e x; split; [apply Hw|done]|]. intros asked x Hasked Hid.
  apply wp_bind_or, wp_findAccountWallets; [intros e x'; split; [apply Hw|done]|]. intros ds x2 [(wb & Hwb & Eb) (wu & Hwu & Eu) [Cb Cu] [Ab Au] _].
  apply wp_bind_or, wp_findAccountById; [intros e x'; split; [apply Hw|done]|]. intros acc x3 _. apply wp_ret. split; [apply Hw|]. intros ra [= <-].
  cbn [ra_usdPaymentAmount ra_recipientWalletDescriptors ra_defaultWalletCurrency]. cbn [wallets with_outside] in *.
  pose proof (Hsound i Hst) as Hs. split_and!.
  - split_and!; cbn; [split_and!; cbn; congruence| |].
    + intros u Hu. destruct (Hs u Hu) as ([? _] & ? & _). done.
    + intros Hc. destruct (wi_usdAmount i) as [u|] eqn:Eu'; [|done]. destruct (Hs u Eu') as (_ & _ & ?). congruence.
  - intros u Hu. by apply (Hs u Hu).
  - intros rcpt Hrcpt. exists i, asked. split_and!; [done..| | |].
    + destruct Hrcpt as [->| ->]; [destruct (w_currency (wi_recipientWalletDescriptor i))|]; cbn; congruence.
    + destruct Hrcpt as [->| ->]; [destruct (w_currency (wi_recipientWalletDescriptor i))|]; cbn; eauto.
    + destruct Hrcpt as [->| ->]; [left; by destruct (w_currency (wi_recipientWalletDescriptor i))|by right].
Qed.

(** The flow that is converted once the sender and the recipient are known.  The prices may leave more alone than the
    wallets and the invoices. *)
Lemma wp_internal (R : relation (World X)) `{!Reads R} buy sell inv ua (sender : Wallet) cfg i s ra w : fair_market precision hedge R buy sell ->
  asks inv ua s.(s_inputAmount) -> Built.start cfg (is_input ua) i -> Built.intra i = true -> withSenderWallet i sender = Ok s ->
  (∀ a, s.(s_btcPaymentAmount) = Some a -> checked a) -> (∀ u, s.(s_usdPaymentAmount) = Some u -> checked u) ->
  Built.valid_recipient ra -> (∀ u, ra.(ra_usdPaymentAmount) = Some u -> checked u) ->
  (∀ rcpt, rcpt = wallet_for ra.(ra_recipientWalletDescriptors) ra.(ra_defaultWalletCurrency) ∨ rcpt = ra.(ra_recipientWalletDescriptors).(BTC) ->
     invoice_wallet inv.(inv_paymentHash) w rcpt) -> sender ∈ w.(wallets) ->
  wp (converted precision hedge (withRecipientWallet s ra) buy sell)
    (fun r w' => R w w' ∧ (∀ c, r = Ok c -> isIntraLedger c = true) ∧ ∀ c f, r = Ok c -> withoutRoute c = Ok f -> invoice_flow inv sender.(w_id) s.(s_inputAmount) w f) w.
Proof.
  intros Hfair Hask Hst Hii Hs Hb Hu Hval Hcu Hwal Hin.
  destruct (sender_fields i sender s Hs) as (Hid & Hcur & Hacc & Hsi).
  destruct (withRecipientWallet s ra) as [r|e] eqn:Er; [|done].
  pose proof (Built.withRecipientWallet_inv _ _ _ Er) as (Hrs & _ & _ & _ & _ & _ & Hru).
  eapply wp_mono; [eapply (wp_converted precision hedge R _ _ cfg (is_input ua) i s r sender w Hfair Hst Hs); [|exact Hb|]|].
  { eapply Built.recipient_internal; [|exact Hval|exact Er]. unfold sender_isIntraLedger. by rewrite Hsi. }
  { rewrite Hru. unfold js_or_opt. intros u. case_match; [apply Hcu|apply Hu]. }
  intros res w3 [S3 Hc]. split; [done|]. split.
  { intros c ->. destruct (Hc c eq_refl) as (_ & [E _] & _). unfold isIntraLedger. by rewrite E, Hrs, Hsi. }
  intros c f -> Hf. specialize (Hc c eq_refl) as (Hbuilt & Hp & Hsm).
  destruct (flow_amounts_of cfg (is_input ua) c f Hbuilt Hsm Hf) as (Fs & Fv & Fp & Ff & Fi).
  pose proof (Built.withoutRoute_fields c f Hf) as (_ & _ & _ & _ & Fm & Fc & _ & _ & _ & _ & Fn).
  rewrite (proj1 Hp), Hrs in Fs, Ff, Fi, Fm, Fc, Fn. rewrite Hsi in Ff, Fm. split; try done.
  - exists sender. split_and!; [done..|]. rewrite Fs, Hid, Hcur, Hacc. by destruct (wl_descriptor sender).
  - rewrite Fm. by apply bool_decide_eq_true in Hii.
  - by apply Ff.
  - by rewrite (asks_currency inv ua _ _ Hask), Fc, Fi.
  - intros rcpt Hr. destruct (flow_recipient_of s ra r c f rcpt Er Hp Hf (proj1 Hval) Hr) as [Hne Hrcpt]. rewrite Hid in Hne.
    split; [done|by apply Hwal].
Qed.

(** The flow that is built for an invoice of the bank. *)
Lemma wp_construct (R : relation (World X)) `{!Reads R} buy sell inv ua (sender : Wallet) w :
  (∀ w w', R w w' -> same_payees w w') -> fair_market precision hedge R buy sell ->
  askable inv ua -> (∀ x, inv.(destination) ∈ (listAllPubkeys x).1) ->
  (∀ i, stored_invoice inv.(inv_paymentHash) w i -> sound_invoice i) -> sender ∈ w.(wallets) ->
  wp (constructPaymentFlowBuilder precision hedge parse skipPubkey skipChanId sender inv ua buy sell)
    (fun r w' => R w w' ∧ (∀ c, r = Ok c -> isIntraLedger c = true) ∧ ∀ c f, r = Ok c -> withoutRoute c = Ok f -> ∃ n, asks inv ua n ∧ invoice_flow inv sender.(w_id) n w f) w.
Proof.
  intros HR Hfair Hask Hown Hsound Hin. unfold constructPaymentFlowBuilder.
  apply wp_bind_or, (wp_keeps R); [auto with keeps|]. intros [node|e] w1 S1; [|by split]. pose proof (HR _ _ S1) as [_ I1]. unfold same_invoices in I1.
  apply wp_bind, wp_ext. intros ids x Eids. set (cfg := mkConfig ids skipPubkey skipChanId). cbn zeta.
  assert (Hcfg : inv.(destination) ∈ cfg.(localNodeIds)) by (pose proof (Hown w1.(outside)) as Hx; by rewrite Eids in Hx).
  set (first := match js_or_opt ua None with Some _ => _ | None => _ end).
  set (second := first ≫= fun state => withSenderWallet state sender).
  assert (Hsecond : ∀ s, second = Ok s -> ∃ i, first = Ok i ∧ withSenderWallet i sender = Ok s) by (intros s (i & ? & ?)%bind_Ok; eauto).
  assert (Hstage : ∀ i s, first = Ok i -> withSenderWallet i sender = Ok s -> _) by (intros i s; by apply (invoice_stages cfg inv ua)).
  clearbody first second.
  assert (Hintra : match second with Ok state => sender_isIntraLedger state | Err _ => true end = true).
  { destruct second as [s|e]; [|done]. destruct (Hsecond s eq_refl) as (i & Hi & Hs).
    destruct (Hstage i s Hi Hs) as (_ & _ & Hintra & _). destruct (sender_fields i sender s Hs) as (_ & _ & _ & Ei).
    unfold sender_isIntraLedger. by rewrite Ei. }
  rewrite Hintra. assert (S1' : R w (with_outside w1 x)) by (etrans; [exact S1|apply reads_outside]).
  apply wp_bind_or. eapply wp_mono; [apply wp_recipientDetails|].
  { intros i (r & rest & Hr & Hi). apply Hsound. exists r, rest. by rewrite <- I1. }
  intros [ra|e] w2 [[x' ->] Hra]; [|split; [etrans; [exact S1'|apply reads_outside]|done]].
  destruct (Hra ra eq_refl) as (Hval & Hcu & Hwal). assert (S : R w (with_outside (with_outside w1 x) x')) by (etrans; [exact S1'|apply reads_outside]).
  destruct second as [s|e]; [|by split]. destruct (Hsecond s eq_refl) as (i & Hi & Hs). cbn [mbind result_bind].
  destruct (Hstage i s Hi Hs) as (Hn & Hst & Hii & Hb & Hu).
  eapply wp_mono; [apply (wp_internal R buy sell inv ua sender cfg i s ra); try done|].
  - by destruct (HR _ _ S) as [[_ ->] _].
  - intros r w3 (S3 & Hii' & Hc). split; [exact (transitivity S S3)|]. split; [done|]. intros c f Ec Hf. eexists. split; [exact Hn|]. eapply flow_same; [exact (HR _ _ S)|]. by eapply Hc.
Qed.

(** An invoice of the bank that a user pays from the wallet [senderId]. *)
Record payable_invoice inv (senderId : WalletId) w : Prop := {
  pv_ready : all_ready w;
  pv_sender : ∀ wl : Wallet, wl ∈ w.(wallets) -> wl.(w_id) = senderId -> user wl;
  pv_recipient : ∀ rcpt, invoice_wallet inv.(inv_paymentHash) w rcpt -> user rcpt;
  pv_own : ∀ x, inv.(destination) ∈ (listAllPubkeys x).1;
  pv_amount : ∀ a, inv.(paymentAmount) = Some a -> checked a ∧ a.(currency) = Btc;
  pv_invoice : ∀ i, stored_invoice inv.(inv_paymentHash) w i -> sound_invoice i;
  pv_flows : ∀ n raw f, 0 < n < 2 ^ 53 -> raw ∈ w.(paymentFlows) -> flow_index (Some inv.(inv_paymentHash), None) senderId n raw = true ->
    paymentFlowFromRaw raw = Ok f -> invoice_flow inv senderId n w f;
}.

Lemma wp_storedFlow inv senderId n w : payable_invoice inv senderId w -> 0 < n < 2 ^ 53 ->
  wp (findLightningPaymentFlow defaultTimeToExpiryInSeconds senderId (Some inv.(inv_paymentHash)) None n)
    (fun r w' => same_payees w w' ∧ ∀ f, r = Ok f -> invoice_flow inv senderId n w f) w.
Proof.
  intros Hp Hsm. unfold findLightningPaymentFlow, flow_hash. cbn [truthy truthy_option].
  destruct (truthy _); [|by apply wp_ret].
  apply wp_bind_or, wp_catch, wp_db; [done|]. intros x. apply wp_gets. cbn [paymentFlows with_outside].
  destruct (head _) as [raw|] eqn:Hraw; [|by apply wp_ret].
  apply wp_or_return; [intros f Hf|done]. apply wp_bind, wp_ext. intros now x' _. destruct (isExpired _ _ _).
  - apply wp_bind, (wp_keeps same_payees); [unfold deleteLightningPaymentFlow; solve_keeps|]. intros _ w' S. by apply wp_ret.
  - apply wp_ret. split; [done|]. intros ? [= <-]. apply head_Some_elem_of, list_elem_of_filter in Hraw as [Hi Hraw].
    by eapply (pv_flows _ _ _ Hp).
Qed.

Lemma wp_getPaymentFlow (p : PaymentInputs) n w (inv := p.(pi_decodedInvoice)) (senderId := p.(pi_senderWallet).(w_id)) :
  fair_market precision hedge (@same_payees X) immediate_buy immediate_sell -> payable_invoice inv senderId w ->
  asks inv p.(pi_uncheckedAmount) n -> p.(pi_inputPaymentAmount).(amount) = n -> p.(pi_senderWallet) ∈ w.(wallets) ->
  wp (getPaymentFlow precision hedge skipPubkey skipChanId parse p)
    (fun r w' => same_payees w w' ∧ ∀ f, r = Ok f -> invoice_flow inv senderId n w f) w.
Proof.
  intros Hfair Hp Hask Hn Hin. unfold getPaymentFlow. fold inv senderId. rewrite Hn.
  apply wp_bind. eapply wp_mono; [apply wp_storedFlow; [done|by eapply asks_small]|]. intros r w1 [S1 Hr].
  destruct r as [f|[]]; try (by apply wp_ret).
  apply wp_bind_or. eapply wp_mono; [apply (wp_construct same_payees immediate_buy immediate_sell inv p.(pi_uncheckedAmount)); [done|done|by apply askable_asks in Hask|apply Hp| |]|].
  - intros i (r & rest & Er & Ei). apply (pv_invoice _ _ _ Hp). exists r, rest. destruct S1 as [_ Es]. unfold same_invoices in Es. by rewrite <- Es.
  - by destruct S1 as [[_ ->] _].
  - intros [c|e] w2 (S2 & _ & Hc); [|split; [exact (transitivity S1 S2)|done]]. assert (S : same_payees w w2) by exact (transitivity S1 S2).
    apply wp_or_return; [intros f Hf|by split]. apply wp_bind_or, (wp_keeps same_payees); [unfold persistNewFlow; solve_keeps|].
    intros [f'|e] w3 S3; (split; [exact (transitivity S S3)|]); [|done]. intros ? [= <-].
    destruct (Hc c f eq_refl Hf) as (n' & Hn' & Hflow). rewrite (asks_same _ _ _ _ Hask Hn'). exact (flow_same _ _ _ _ _ _ S1 Hflow).
Qed.

(** The money moved as [P] says, or none moved and the call failed or answered that the invoice was paid before. *)
Definition pays_or_not (P : Change -> Prop) w (r : Result PaymentSendResult) w' : Prop :=
  ∃ D, moved D w w' ∧ (P D ∨ (∀ a c, D a c = 0) ∧ ∀ res, r = Ok res -> res.(ps_status) = SendAlreadyPaid).

Lemma pays_nothing P w w' r : same_books w w' -> (∀ res, r = Ok res -> res.(ps_status) = SendAlreadyPaid) -> pays_or_not P w r w'.
Proof. intros S Hr. exists nothing. split; [by apply shifted_moved, same_shifted|]. by right. Qed.

Lemma pays_error P w w' e : same_books w w' -> pays_or_not P w (Err e) w'.
Proof. intros S. by apply pays_nothing. Qed.

Lemma pays_from P w w1 w' r : same_books w w1 -> pays_or_not P w1 r w' -> pays_or_not P w r w'.
Proof. intros S (D & Hm & HP). exists D. split; [|done]. by eapply shifted_then; [apply same_shifted|]. Qed.

Lemma wp_execute_invoice f sa wid ra memo w : (∀ rcpt, recipientWalletDescriptor f = Some rcpt -> transferable f rcpt) -> all_ready w ->
  wp (executePaymentViaIntraledger (M := M) precision hedge memoCfg yaml parse f sa wid ra memo)
    (pays_or_not (transfers_to f w) w) w.
Proof using MediciLaws0 MediciBookLaws0.
  intros Hf Hw. unfold executePaymentViaIntraledger.
  apply wp_bind_or, (wp_keeps same_books); [auto with keeps|]. intros [ratio|e] w1 S1; [|by apply pays_error].
  apply wp_or_return; [intros h _|by intros; apply pays_error].
  apply wp_bind_or, (wp_keeps same_books); [case_match; auto with keeps|].
  intros [[]|e] w2 S2; [|apply pays_error; exact (transitivity S1 S2)]. assert (S : same_books w w2) by exact (transitivity S1 S2).
  cbn [recipientDetails rd_walletDescriptor]. destruct (recipientWalletDescriptor f) as [rcpt|] eqn:Hr; [|by apply wp_ret, pays_error].
  specialize (Hf rcpt eq_refl). apply wp_bind_or, wp_repo; [intros; by apply pays_error|]. intros x0.
  apply wp_bind_or, wp_redlock; [intros e x; by apply pays_error|]. intros x.
  eapply wp_mono; [eapply (wp_locked_invoice _ _ _ _ _ _ h f rcpt); [exact Hf|by eapply all_ready_same]|]. intros r w3 Hres x'.
  assert (Hto : ∀ D, moved D (with_outside w2 x) w3 -> transfers f rcpt (with_outside w2 x) D ->
    ∀ r' w4, shifted w3 w4 -> pays_or_not (transfers_to f w) w r' w4).
  { intros D Hm Ht r' w4 S4. exists D. split; [|left; exists rcpt; split; [done|by eapply transfers_same]].
    eapply shifted_then; [by apply same_shifted|]. by eapply moved_shifted. }
  assert (Hw3 : all_ready (with_outside w3 x')).
  { assert (Eb : w3.(bankWallets) = w2.(bankWallets)) by (destruct Hres as [[[_ ->] _]|[(D & [-> _] & _) _]]; done).
    destruct S as [_ Eb2]. unfold Money.all_ready in *. cbn. by rewrite Eb, Eb2. }
  split; [|intros e].
  - destruct Hres as [[S3 Hno]|[(D & Hm & Ht) _]].
    + assert (S3' : same_books w (with_outside w3 x')) by (etrans; [exact S|exact S3]).
      destruct r as [j| |e]; [by destruct (Hno j)| |by apply wp_ret, pays_error].
      eapply wp_mono; [by apply (wp_sendResponse memoCfg bankOwner dealerBtc dealerUsd funder)|]. intros r w4 [S4 Hst]. apply pays_nothing; [exact (transitivity S3' S4)|done].
    + destruct r as [j| |e]; [| |by eapply Hto; [..|apply same_shifted]].
      * eapply wp_mono; [by apply (wp_notify_parties memoCfg bankOwner dealerBtc dealerUsd funder)|]. intros r w4 S4.
        by eapply Hto; [..|apply same_shifted].
      * eapply wp_mono; [by apply (wp_sendResponse memoCfg bankOwner dealerBtc dealerUsd funder)|]. intros r w4 [S4 _]. by eapply Hto; [..|apply same_shifted].
  - destruct Hres as [[S3 _]|[(D & Hm & Ht) _]]; [apply pays_error; by etrans|]. by eapply Hto; [..|apply same_shifted].
Qed.

(** The payment of the invoice for [n]: the payer, who has it, is debited, and a wallet of the invoice, which is
    not the payer's, is credited; the side whose currency [n] is given in, by exactly [n]. *)
Definition pays_invoice inv (senderId : WalletId) (n : Z) w (D : Change) : Prop :=
  ∃ (sender : Wallet) rcpt s m (cur := match inv.(paymentAmount) with Some _ => Btc | None => sender.(w_currency) end),
    sender ∈ w.(wallets) ∧ sender.(w_id) = senderId ∧ invoice_wallet inv.(inv_paymentHash) w rcpt ∧ rcpt.(w_id) ≠ senderId ∧
    D (toLedgerAccountId senderId) sender.(w_currency) = s ∧ 0 < s ∧ (sender.(w_currency) = cur -> s = n) ∧
    D (toLedgerAccountId rcpt.(w_id)) rcpt.(w_currency) = - m ∧ 0 < m ∧ (rcpt.(w_currency) = cur -> m = n) ∧
    (exact_book w.(ledger) -> s <= book_balance (toLiabilitiesWalletId senderId) w.(ledger)).

Lemma transfers_invoice inv senderId n w w1 f D : same_books w w1 -> invoice_flow inv senderId n w f ->
  transfers_to f w1 D -> pays_invoice inv senderId n w D.
Proof.
  intros [Sl _] [(sender & Hin & Hid & Fs) _ Fv Fp _ _ Fi Fr] (rcpt & Hr & Hd & Hc & Hbal).
  assert (Fid : f.(senderWalletId) = senderId) by (by rewrite <- Hid, <- Fs).
  assert (Fcur : f.(senderWalletCurrency) = sender.(w_currency)) by (by rewrite <- Fs). rewrite Fid, Fcur in *.
  destruct (Fr rcpt Hr) as [Hne Hrcpt].
  exists sender, rcpt, (amount_in (paymentAmounts f) sender.(w_currency)), (amount_in (paymentAmounts f) rcpt.(w_currency)).
  cbn zeta. rewrite Sl in Hbal. split_and!; try done; by intros ->.
Qed.

Lemma wp_pay_validated req uid (p : PaymentInputs) n memo sa w (inv := p.(pi_decodedInvoice)) (senderId := p.(pi_senderWallet).(w_id)) :
  fair_market precision hedge (@same_payees X) immediate_buy immediate_sell -> payable_invoice inv senderId w ->
  asks inv p.(pi_uncheckedAmount) n -> p.(pi_inputPaymentAmount).(amount) = n -> p.(pi_senderWallet) ∈ w.(wallets) ->
  wp (pay_validated (M := M) precision hedge memoCfg yaml skipPubkey skipChanId parse req uid (Ok p) memo sa)
    (pays_or_not (pays_invoice inv senderId n w) w) w.
Proof using MediciLaws0 MediciBookLaws0.
  intros Hfair Hp Hask Hn Hin. unfold pay_validated.
  apply wp_bind_or. eapply wp_mono; [by apply (wp_getPaymentFlow p n)|]. fold inv senderId.
  intros [f|e] w1 [S1 Hf]; [|apply pays_error, S1]. specialize (Hf f eq_refl). cbn zeta.
  pose proof Hf as [(wl & Hwl & Hid & Fs) Fm Fv _ Ff _ _ Fr]. rewrite bool_decide_true by done. cbn [negb].
  cbn [recipientDetails rd_walletDescriptor]. destruct (recipientWalletDescriptor f) as [rcpt|] eqn:Er; [|apply wp_ret, pays_error, S1].
  apply wp_bind_or, wp_findAccountById; [intros; apply pays_error, S1|]. intros ra x _.
  apply wp_or_return; [intros ? _|intros; apply pays_error, S1].
  assert (S : same_books w (with_outside w1 x)) by apply S1.
  apply wp_bind_or. eapply wp_mono; [apply wp_execute_invoice; [|eapply all_ready_same; [apply Hp|exact S]]|].
  { intros r Hr. rewrite Er in Hr. destruct (Fr r Hr) as [Hne Hrcpt]. split; [congruence|done..|by rewrite <- Hid, <- Fs in Hne; apply not_eq_sym|]. split; [rewrite Fs; by apply Hp|by apply Hp]. }
  intros r w2 (D & Hm & HD). assert (Hm' : moved D w w2) by (by eapply shifted_then; [apply same_shifted|]).
  assert (HP : transfers_to f (with_outside w1 x) D -> pays_invoice inv senderId n w D) by (by apply transfers_invoice).
  destruct r as [res|e]; [|exists D; split; [done|]; destruct HD as [HD|HD]; [left; auto|by right]].
  apply wp_bind, (wp_keeps same_books).
  { unfold add_contacts. case_match; [solve_keeps|]. apply keeps_bind; [apply _|apply keeps_addContactsAfterSend|intros; solve_keeps]. }
  intros _ w3 S3%same_shifted. apply wp_ret. exists D. split; [by eapply moved_shifted|]. destruct HD as [HD|HD]; [left; auto|by right].
Qed.

(** A program that leaves wallets and invoices alone keeps an invoice payable if the flows it stores pay the invoice. *)
Lemma payable_keeps inv senderId w w' : payable_invoice inv senderId w -> same_payees w w' ->
  (∀ n raw f, 0 < n < 2 ^ 53 -> raw ∈ w'.(paymentFlows) -> flow_index (Some inv.(inv_paymentHash), None) senderId n raw = true ->
     paymentFlowFromRaw raw = Ok f -> invoice_flow inv senderId n w f) -> payable_invoice inv senderId w'.
Proof.
  intros [Hw Hs Hr Hown Ha Hi _] S Hf. pose proof S as [[Sb Ew] Ei]. unfold same_invoices in Ei.
  split; try done.
  - by eapply all_ready_same.
  - by rewrite Ew.
  - intros rcpt Hrcpt. apply Hr. by apply (wallet_same _ _ _ _ S).
  - intros i (r & rest & E & Hc). apply Hi. exists r, rest. by rewrite <- Ei.
  - intros n raw f Hn Hraw Hix Ef. eapply flow_same; [apply payees_sym, S|]. by eapply Hf.
Qed.

Lemma payable_outside inv senderId w x : payable_invoice inv senderId w -> payable_invoice inv senderId (with_outside w x).
Proof. intros Hp. apply (payable_keeps _ _ w); [done..|]. by apply Hp. Qed.

(** What is done after the checks, with the inputs or their error. *)
Lemma wp_pay_or_fail req uid inv senderId (v : Result PaymentInputs) memo sa w x :
  fair_market precision hedge (@same_payees X) immediate_buy immediate_sell -> payable_invoice inv senderId w ->
  (∀ p, v = Ok p -> p.(pi_decodedInvoice) = inv ∧ p.(pi_senderWallet) ∈ w.(wallets) ∧ p.(pi_senderWallet).(w_id) = senderId ∧
     asks inv p.(pi_uncheckedAmount) p.(pi_inputPaymentAmount).(amount)) ->
  wp (pay_validated (M := M) precision hedge memoCfg yaml skipPubkey skipChanId parse req uid v memo sa)
    (pays_or_not (fun D => ∃ p, v = Ok p ∧ pays_invoice inv senderId p.(pi_inputPaymentAmount).(amount) w D) w) (with_outside w x).
Proof using MediciLaws0 MediciBookLaws0.
  intros Hfair Hp Hv. destruct v as [p|e].
  - destruct (Hv p eq_refl) as (<- & Hin & <- & Hask).
    eapply wp_mono; [eapply (wp_pay_validated req uid p); [done|by apply payable_outside|done..]|].
    intros r w' (D & Hm & HD). exists D. split; [exact Hm|]. destruct HD as [HD|HD]; [left|by right]. exists p. by split.
  - cbn [pay_validated]. destruct e; try (by apply wp_ret, pays_error). apply wp_or_return; [intros i _|intros; by apply pays_error].
    eapply wp_mono; [apply (wp_sendResponse memoCfg bankOwner dealerBtc dealerUsd funder); by apply Hp|]. intros r w' [S Hr]. by apply pays_nothing.
Qed.

Lemma wp_validateInvoice req inv senderId w : decodeInvoice parse req = Ok inv -> payable_invoice inv senderId w ->
  wp (validateInvoicePaymentInputs parse req senderId) (fun v w' => (∃ x, w' = with_outside w x) ∧
    ∀ p, v = Ok p -> p.(pi_decodedInvoice) = inv ∧ p.(pi_senderWallet) ∈ w.(wallets) ∧ p.(pi_senderWallet).(w_id) = senderId ∧
      asks inv p.(pi_uncheckedAmount) p.(pi_inputPaymentAmount).(amount) ∧ has_amount inv = Some p.(pi_inputPaymentAmount)) w.
Proof.
  intros Hd Hp. assert (Hw : ∀ x, ∃ x', with_outside w x = with_outside w x') by eauto.
  assert (Hw0 : ∃ x, w = with_outside w x) by (exists w.(outside); by destruct w).
  unfold validateInvoicePaymentInputs, checkedToWalletId.
  apply wp_or_return; [intros ? E1|done]. case_match; [|done]. injection E1 as <-.
  apply wp_or_return; [intros ? E2|done]. assert (a = inv) as -> by congruence.
  destruct (has_amount inv) as [amt|] eqn:Ea; [|by apply wp_ret].
  apply wp_bind_or, wp_findWalletById; [intros; split; [apply Hw|done]|]. intros sender x Hin Hid.
  apply wp_bind_or, wp_findAccountById; [intros; split; [apply Hw|done]|]. intros acc x' _.
  do 2 (apply wp_or_return; [intros ? _|intros; split; [apply Hw|done]]). apply wp_ret. split; [apply Hw|]. intros p [= <-]. cbn.
  split_and!; [done..| |done]. apply has_amount_Some in Ea as [Ea _]. by apply asks_invoice; [|apply (pv_amount _ _ _ Hp)..].
Qed.

Lemma wp_validateNoAmountInvoice req inv senderId x sa w : decodeInvoice parse req = Ok inv -> payable_invoice inv senderId w -> valid x ->
  wp (validateNoAmountInvoicePaymentInputs parse req x senderId sa) (fun v w' => (∃ o, w' = with_outside w o) ∧
    ∀ p, v = Ok p -> p.(pi_decodedInvoice) = inv ∧ p.(pi_senderWallet) ∈ w.(wallets) ∧ p.(pi_senderWallet).(w_id) = senderId ∧
      asks inv p.(pi_uncheckedAmount) p.(pi_inputPaymentAmount).(amount) ∧ has_amount inv = None ∧
      BigInt x = Some p.(pi_inputPaymentAmount).(amount)) w.
Proof.
  intros Hd Hp Hx. assert (Hw : ∀ x, ∃ x', with_outside w x = with_outside w x') by eauto.
  assert (Hw0 : ∃ x, w = with_outside w x) by (exists w.(outside); by destruct w).
  unfold validateNoAmountInvoicePaymentInputs, checkedToWalletId.
  apply wp_or_return; [intros ? E1|done]. case_match; [|done]. injection E1 as <-.
  apply wp_or_return; [intros ? E2|done]. assert (a = inv) as -> by congruence.
  destruct (has_amount inv) as [amt|] eqn:Ea; [by apply wp_ret|].
  apply wp_bind_or, wp_findWalletById; [intros; split; [apply Hw|done]|]. intros sender o Hin Hid.
  do 2 (apply wp_or_return; [intros ? _|intros; split; [apply Hw|done]]). apply wp_or_return; [intros amt Hamt|intros; split; [apply Hw|done]].
  apply wp_ret. split; [apply Hw|]. intros p [= <-]. cbn.
  assert (Hno : inv.(paymentAmount) = None).
  { destruct (inv.(paymentAmount)) as [b|] eqn:Hb; [|done]. destruct (pv_amount _ _ _ Hp b Hb) as [[Hpos _] _].
    unfold has_amount in Ea. rewrite Hb in Ea. by rewrite (proj2 (Z.ltb_lt _ _)) in Ea. }
  destruct (Built.checked_pos (w_currency sender) x amt Hx) as ([Hpos Hmax] & _ & HB).
  { unfold validated. destruct (w_currency sender); by rewrite Hamt. }
  split_and!; try done. apply asks_input; [done..|]. unfold Built.max_amount in Hmax. destruct (w_currency sender); cbn in Hmax; lia.
Qed.

(** C2. Paying an invoice of the bank, with its own amount or with the payer's, from a BTC or a USD wallet, whether a
    flow was stored for it or one is built.  Whatever fails on the way, the books stay balanced.
    Either no account has changed, and the call failed or answered that the invoice was paid before; or the
    payer's wallet, which had the amount, is debited, and the wallet of the invoice, or the BTC
    wallet of its account, is credited, where the side in the currency of the given amount
    changes by exactly that amount. *)
Theorem invoice_payment req inv senderId sa x memo w (Hd : decodeInvoice parse req = Ok inv) (Hw : payable_invoice inv senderId w)
    (Hfair : fair_market precision hedge (@same_payees X) immediate_buy immediate_sell) (Hx : valid x) :
  let input := fun pay => wp (pay req x memo senderId sa)
    (pays_or_not (fun D => has_amount inv = None ∧ ∃ n, BigInt x = Some n ∧ pays_invoice inv senderId n w D) w) w in
  wp (payInvoiceByWalletId (M := M) precision hedge memoCfg yaml skipPubkey skipChanId parse req memo senderId sa)
    (pays_or_not (fun D => ∃ a, has_amount inv = Some a ∧ pays_invoice inv senderId a.(amount) w D) w) w ∧
  input (payNoAmountInvoiceByWalletIdForBtcWallet (M := M) precision hedge memoCfg yaml skipPubkey skipChanId parse) ∧
  input (payNoAmountInvoiceByWalletIdForUsdWallet (M := M) precision hedge memoCfg yaml skipPubkey skipChanId parse).
Proof using MediciLaws0 MediciBookLaws0.
  cbn zeta. split.
  - apply wp_bind. eapply wp_mono; [by apply wp_validateInvoice|]. intros v w1 [[o ->] Hv].
    eapply wp_mono; [apply (wp_pay_or_fail req senderId inv senderId v); [done..|]|].
    { intros p Ep. destruct (Hv p Ep) as (? & ? & ? & ? & _). done. }
    intros r w' (D & Hm & HD). exists D. split; [exact Hm|]. destruct HD as [(p & Ep & HD)|HD]; [left|by right].
    destruct (Hv p Ep) as (_ & _ & _ & _ & Ha). eauto.
  - split; (apply wp_bind_or, wp_bind_or, wp_findWalletById; [intros; by apply pays_error|]; intros wl o _ _;
      apply wp_ret; case_decide; [by apply pays_error|]; apply wp_bind;
      (eapply wp_mono; [apply (wp_validateNoAmountInvoice req inv senderId x sa); [done|by apply payable_outside|done]|]); intros v w1 [[o' ->] Hv];
      (eapply wp_mono; [apply (wp_pay_or_fail req senderId inv senderId v _ _ w o'); [done..|]|];
       [intros p Ep; by destruct (Hv p Ep) as (? & ? & ? & ? & _)|]);
      intros r w' (D & Hm & HD); exists D; (split; [exact Hm|]); (destruct HD as [(p & Ep & HD)|HD]; [left|by right]);
      destruct (Hv p Ep) as (_ & _ & _ & _ & Ha & HB); eauto).
Qed.

End Invoice.

(** ** Paying over Lightning *)

Section ViaLn.
Context {M X : Type} `{MediciEntry M} `{!MediciLaws M} `{!MediciBook M X} `{!MediciBookLaws M X}
  `{Database X} `{Resolvers X} `{Redlock X} `{PriceServices X} `{ILightningService X} `{!LightningServiceLaws X} `{Intl}.
Context (precision : number) (hedge : bool) (memoCfg : MemoSharingConfig) (yaml : YamlAccountLimits).
Context (bankOwner dealerBtc dealerUsd funder : WalletId).
Context (inv : LnInvoice) (f : PaymentFlowState) (Hf : payable f)
  (Hs : user_wallet bankOwner dealerBtc dealerUsd (senderWalletDescriptor f)).
Implicit Types (w : World X).
Abbreviation all_ready := (all_ready bankOwner dealerBtc dealerUsd funder).

(** The payer was charged, by a payment through a known route or one for which the node charged less than the cap. *)
Definition charged (D : Change) : Prop :=
  match (routeDetails f).1 with
  | Some _ => charge f D = total f
  | None => ∃ fee, paid_for inv f fee ∧ charge f D = total f - reimbursement f fee
  end.

(** What the answer to a payment over Lightning says of the money. *)
Definition answered w (r : Result PaymentSendResult) w' : Prop :=
  ∃ D, moved D w w' ∧
  match r with
  | Ok res => match res.(ps_status) with
              | SendSuccess => charged D
              | SendPending => charge f D = total f
              | SendAlreadyPaid => ∀ a c, D a c = 0
              | SendFailure => False
              end
  | Err _ => charge f D = 0 ∨ charge f D = total f ∨ ∃ fee, paid_for inv f fee ∧ charge f D = total f - reimbursement f fee
  end.

Lemma answered_error w w' e : same_books w w' -> answered w (Err e) w'.
Proof. intros S. exists nothing. split; [by apply shifted_moved, same_shifted|by left]. Qed.

(** An outcome, followed by an error. *)
Lemma outcome_error w r w1 w' e : outcome inv f w r w1 -> same_books w1 w' -> answered w (Err e) w'.
Proof.
  intros (D & Hm & HD) S. exists D. split; [by eapply moved_shifted; [|apply same_shifted]|].
  destruct r; [destruct (routeDetails f).1| | | |]; unfold charge in *; auto.
Qed.

Lemma wp_answer h r sa w w1 : all_ready w1 -> outcome inv f w r w1 ->
  wp (answer_attempt (M := M) memoCfg h sa f.(senderWalletId) r) (answered w) w1.
Proof.
  intros Hw Ho. assert (HE : ∀ e w', same_books w1 w' -> answered w (Err e) w') by (intros; by eapply outcome_error).
  pose proof Ho as (D & Hm & HD). assert (HS : ∀ w', same_books w1 w' -> moved D w w').
  { intros w' S. by eapply moved_shifted; [|apply same_shifted]. }
  destruct r as [j|j|j|j e|e]; try (by apply wp_ret, HE).
  all: apply wp_bind_or, (wp_getWalletTransactionByJournalId bankOwner dealerBtc dealerUsd funder); [done|];
    (intros [tx|err] w2 S2; [|by apply HE]); apply wp_bind, wp_modify.
  2, 3: eapply wp_mono; [apply (wp_sendResponse memoCfg bankOwner dealerBtc dealerUsd funder); by eapply all_ready_same|];
    (intros [res|e] w3 [S3 Hr]; [|apply HE; by etrans]); exists D; (split; [apply HS; by etrans|]); by rewrite (Hr res eq_refl).
  - apply wp_ret. exists D. by split; [apply HS|].
  - by apply wp_ret, HE.
Qed.

Lemma outcome_ready w r w1 : all_ready w -> outcome inv f w r w1 -> all_ready w1.
Proof. intros Hw (D & (Eb & _) & _). unfold Money.all_ready in *. by rewrite Eb. Qed.

Lemma answered_from w w1 r w' : same_books w w1 -> answered w1 r w' -> answered w r w'.
Proof. intros S (D & Hm & HD). exists D. split; [|done]. by eapply shifted_then; [apply same_shifted|]. Qed.

(** C11. Sending a payment over Lightning, from the check of the limits to the answer.  If the books have changed, then
    what the payer's BTC and USD wallets paid out in the last day, net of what came back, plus the amount in cents,
    was within the withdrawal limit of the payer's level, the satoshis being counted in cents at the ratio of the payment's own
    amounts, or, if it is of less than 5000 satoshis, at the mid price that was asked for.  A successful answer says that the payer was charged,
    the whole fee through a known route and otherwise the fee that the node took; a pending one, the
    amount and the full fee; one that the invoice was paid before, that no account has changed.  An error left the
    payer's account as it was, or charged one of those amounts.  The books stay balanced. *)
Theorem lightning_send sa memo w wallets level i out t amt (Hw : all_ready w)
    (Hst : standing sa.(acc_id) w wallets level) (Hex : exact_book w.(ledger)) (Hamt : 0 < amt)
    (Hcents : f.(usdPaymentAmount) = UsdPaymentAmount amt)
    (Hbtc : wallets.(BTC).(w_currency) = Btc) (Husd : wallets.(USD).(w_currency) = Usd)
    (Hlimits : getAccountLimits level yaml = mkLimits (Number i) (Number out) (Number t)) (Hsafe : safe_integer out) :
  wp (executePaymentViaLn (M := M) precision hedge memoCfg yaml inv f sa memo) (fun r w' => answered w r w' ∧
    ((∃ e, r = Err e) ∧ same_books w w' ∨
     within_limit precision hedge sa.(acc_id) externalPaymentVolumeSince true out (paymentAmounts f) amt w wallets)) w.
Proof using Hf Hs MediciLaws0 MediciBookLaws0 LightningServiceLaws0.
  assert (HE : ∀ e w' (P : Prop), same_books w w' -> answered w (Err e) w' ∧ ((∃ e', Err e = @Err _ PaymentSendResult e') ∧ same_books w w' ∨ P))
    by (intros; split; [by apply answered_error|left; eauto]).
  unfold executePaymentViaLn. cbn zeta.
  apply wp_bind_or. eapply wp_mono; [apply wp_getPriceRatioForLimits|]. intros [ratio|e] w1 [S1 Hr]; [|apply HE, S1].
  rewrite Hcents. assert (Hs1 : standing sa.(acc_id) w1 wallets level) by (by eapply standing_same).
  pose proof S1 as [[[L1 B1] _] _]. apply wp_bind_or.
  eapply wp_mono; [apply (wp_checkLimits yaml externalPaymentVolumeSince true _ _ WithdrawalLimitsExceededError withdrawalLimit out _ wallets level);
    first [done|by rewrite Hlimits|by rewrite L1]|].
  intros [[]|e] w2 [[x ->] Hans]; [|apply HE, S1]. apply answers_within in Hans.
  eapply wp_mono; [|intros r w' Ha; split; [exact Ha|right; exists ratio, w1; auto]].
  assert (S : same_books w (with_outside w1 x)) by apply S1.
  apply wp_bind_or, wp_findAccountWallets; [intros; by apply answered_error|]. intros ds x2 _.
  apply wp_bind_or, wp_redlock; [intros; by apply answered_error|]. intros x3.
  assert (Hw3 : all_ready (with_outside w1 x3)) by (eapply all_ready_same; [exact Hw|exact S]).
  eapply wp_mono; [apply (wp_lockedPaymentViaLnSteps precision bankOwner dealerBtc dealerUsd inv f Hf Hs); apply Hw3|].
  intros r w4 Ho x4. split; [|intros e; eapply answered_from; [exact S|by eapply outcome_error]].
  eapply wp_mono; [eapply (wp_answer _ _ _ (with_outside w1 x3)); [by eapply outcome_ready|exact Ho]|].
  intros r' w5 Ha. by eapply answered_from.
Qed.

End ViaLn.

Module PayExamples.
Import BookExamples MarketExamples IntraledgerExamples.

(** Bob has made an invoice for 10000 satoshis. *)
Definition parse (request : string) : result string DecodedInvoice :=
  if bool_decide (request = "lnbc") then
    Ok (mkDecoded (Some "secret") None 0 None (Some (Number 10000)) None None "hash" "node" None)
  else Err "Not a payment request".
Definition record : WalletInvoiceRecord :=
  mkInvoiceRecord "hash" "secret" bob_btc.(w_id) "b" Btc true "node" false None 0 false "hash" (Some "lnbc").
Definition invoice : LnInvoice :=
  mkLnInvoice "node" "hash" "lnbc" "secret" (Number 10000000) (Some (Number 10000)) (Some (BtcPaymentAmount 10000))
    "" None [] [] 0 false.
Definition billed : World nat :=
  mkWorld funded.(ledger) [] [] [] [record] funded.(wallets) funded.(accounts) [] [] [] funded.(bankWallets) funded.(outside).

Definition alice : Account := account_of_record "a" "alice".
Definition bob : Account := account_of_record "b" "bob".

Lemma invoice_decoded : decodeInvoice parse "lnbc" = Ok invoice.
Proof. vm_compute. reflexivity. Qed.

Lemma billed_payable : payable_invoice parse "bank" "dealer-btc" "dealer-usd" "funder" invoice alice_btc.(w_id) billed.
Proof.
  split.
  - by repeat split.
  - intros wl Hwl _. exact (users_funded wl Hwl).
  - intros rcpt (i & asked & _ & _ & _ & _ & (wl & Hwl & ->) & _). exact (users_funded wl Hwl).
  - intros x. by left.
  - intros a [= <-]. split; [by vm_compute|done].
  - intros i (r & rest & Hr & Hi) u Hu. vm_compute in Hr. injection Hr as <- <-. vm_compute in Hi. injection Hi as <-. discriminate Hu.
  - intros n raw f _ Hraw. by apply not_elem_of_nil in Hraw.
Qed.

Abbreviation pay := (payInvoiceByWalletId (M := L0) (X := nat) (Number 1000000) true memos AccountLimitsExamples.yaml [] []
  parse "lnbc" None alice_btc.(w_id) alice).

(** Alice pays Bob's invoice. *)
Lemma invoice_payment_witness :
  (∃ tx, (pay billed).1 = Ok (mkPaymentSendResult SendSuccess tx)) ∧
  book_account_net (toLedgerAccountId alice_btc.(w_id)) Btc (pay billed).2.(ledger) = -50000 + 10000.
Proof.
  assert (E : ∃ tx, (pay billed).1 = Ok (mkPaymentSendResult SendSuccess tx)) by (eexists; vm_compute; reflexivity).
  assert (E0 : book_account_net (toLedgerAccountId alice_btc.(w_id)) Btc billed.(ledger) = -50000) by (vm_compute; reflexivity).
  split; [exact E|]. destruct E as [tx E].
  destruct (proj1 (invoice_payment (M := L0) (Number 1000000) true memos AccountLimitsExamples.yaml [] [] parse
    "bank" "dealer-btc" "dealer-usd" "funder" "lnbc" invoice alice_btc.(w_id) alice (Number 10000) None billed
    invoice_decoded billed_payable (proj1 (market_fair _)) eq_refl)) as (D & (_ & _ & Hm) & [HP|[_ Hno]]).
  - destruct HP as (a & Ha & sender & rcpt & s & m & Hs & Hid & _ & _ & HD & _ & Hsn & _). injection Ha as <-.
    etransitivity; [exact (Hm _ _)|]. rewrite E0. f_equal.
    assert (Hc : w_currency sender = Btc).
    { cbn [billed funded wallets map] in Hs. rewrite !elem_of_cons, elem_of_nil in Hs.
      destruct Hs as [->|[->|[->|[->|[]]]]]; [done|discriminate Hid..]. }
    rewrite Hc in HD, Hsn. etransitivity; [exact HD|]. by apply Hsn.
  - pose proof (Hno _ E) as F. discriminate F.
Defined.

(** The flow of that payment, from the wallet [sender]. *)
Definition flow_from (sender : WalletDescriptor) : PaymentFlowState := {| pf_common :=
    {| senderWalletId := sender.(w_id); senderWalletCurrency := Btc; senderAccountId := sender.(w_accountId);
       settlementMethod := SettleIntraLedger; paymentInitiationMethod := InitLightning; createdAt := 0;
       paymentSentAndPending := false; inputAmount := 10000; btcPaymentAmount := BtcPaymentAmount 10000;
       usdPaymentAmount := UsdPaymentAmount 300; btcProtocolAndBankFee := BtcPaymentAmount 0;
       usdProtocolAndBankFee := UsdPaymentAmount 0; recipientWalletId := Some bob_btc.(w_id);
       recipientWalletCurrency := Some Btc; recipientAccountId := Some "b"; recipientPubkey := Some "node";
       recipientUsername := None; recipientUserId := None; outgoingNodePubkey := None;
       cachedRoute := None |};
    paymentHash := Some "hash"; intraLedgerHash := None; descriptionFromInvoice := "";
    skipProbeForDestination := false |}.

Lemma flow_transferable : transferable "bank" "dealer-btc" "dealer-usd" (flow_from alice_btc) bob_btc.
Proof. split; [done|by repeat split..|done|]. split; (unfold user_wallet; vm_compute; set_solver). Qed.

Lemma billed_clear : clear "hash" billed.
Proof. vm_compute. reflexivity. Qed.

Abbreviation locked sender acc := (lockedPaymentViaIntraledgerSteps (M := L0) (X := nat) (Number 1000000) parse "hash"
  (flow_from sender) acc bob None).

(** Alice pays, and nobody pays again. *)
Lemma invoice_paid_once_witness :
  (locked alice_btc alice billed).1 = IntraOk "journal-1" ∧
  let w1 := (locked alice_btc alice billed).2 in same_ledger w1 (locked alice_btc alice w1).2.
Proof.
  assert (E : (locked alice_btc alice billed).1 = IntraOk "journal-1") by (vm_compute; reflexivity). split; [exact E|].
  destruct (invoice_paid_once (M := L0) (Number 1000000) parse "bank" "dealer-btc" "dealer-usd" "funder" "hash"
    (flow_from alice_btc) bob_btc alice bob None billed flow_transferable (pv_ready _ _ _ _ _ _ _ _ billed_payable) billed_clear ltac:(done))
    as [[_ Hno]|[_ Hag]].
  - destruct (Hno "journal-1" E).
  - exact (proj1 (Hag (flow_from alice_btc) alice bob None)).
Defined.

(** Each payer only locks a wallet of their own.  Two payers who both look for the payment before either
    has recorded it both pay, and Bob is credited twice for the invoice. *)
Definition carol_btc : WalletDescriptor := {| w_id := "55555555-5555-4555-8555-555555555555"; w_currency := Btc; w_accountId := "c" |}.
Definition both_funded : World nat :=
  (recordReceiveOffChain (M := L0) "" carol_btc LedgerExamples.amt None None
     (<["type" := MString "invoice"]> (<["pending" := MBool false]> ∅)) ∅ ∅ None None billed).2.
Definition two_payers : IO nat (Result bool * Result bool * IntraLedgerSendAttemptResult * IntraLedgerSendAttemptResult) :=
  let settle sender acc := settle_intraledger (M := L0) (X := nat) (Number 1000000) parse "hash" (flow_from sender) bob_btc "node" acc bob None in
  c1 ← isLnTxRecorded "hash"; c2 ← isLnTxRecorded "hash";
  r1 ← settle alice_btc alice; r2 ← settle carol_btc (account_of_record "c" "carol");
  mret (c1, c2, r1, r2).

Example paid_twice_by_two_payers :
  (two_payers both_funded).1 = (Ok false, Ok false, IntraOk "journal-2", IntraOk "journal-3") ∧
  book_account_net (toLedgerAccountId bob_btc.(w_id)) Btc (two_payers both_funded).2.(ledger)
    = book_account_net (toLedgerAccountId bob_btc.(w_id)) Btc both_funded.(ledger) - 2 * 10000.
Proof. split; vm_compute; reflexivity. Qed.

#[local] Instance node_laws : LightningServiceLaws nat.
Proof. intros inv amt max x res x' [= <- _]. exists 10. split; [done|lia]. Qed.

(** A payment of Alice over Lightning, with a fee of at most 50 satoshis. *)
Definition ln_flow : PaymentFlowState := {| pf_common :=
    {| senderWalletId := alice_btc.(w_id); senderWalletCurrency := Btc; senderAccountId := "a";
       settlementMethod := SettleLightning; paymentInitiationMethod := InitLightning; createdAt := 0;
       paymentSentAndPending := false; inputAmount := 10000; btcPaymentAmount := BtcPaymentAmount 10000;
       usdPaymentAmount := UsdPaymentAmount 300; btcProtocolAndBankFee := BtcPaymentAmount 50;
       usdProtocolAndBankFee := UsdPaymentAmount 2; recipientWalletId := None;
       recipientWalletCurrency := None; recipientAccountId := None; recipientPubkey := None;
       recipientUsername := None; recipientUserId := None; outgoingNodePubkey := None;
       cachedRoute := None |};
    paymentHash := Some "hash"; intraLedgerHash := None; descriptionFromInvoice := "";
    skipProbeForDestination := false |}.

Lemma ln_flow_payable : payable ln_flow.
Proof. split; [by repeat split..|done|]. intros r [= <-]. reflexivity. Qed.

Lemma alice_user : user_wallet "bank" "dealer-btc" "dealer-usd" (senderWalletDescriptor ln_flow).
Proof. unfold user_wallet. vm_compute. set_solver. Qed.

Lemma billed_standing : standing "a" billed alice_wallets LevelOne.
Proof. split; [done..|]. by eexists _, _. Qed.

Lemma billed_exact : exact_book billed.(ledger).
Proof. AccountLimitsExamples.concrete_book. Qed.

Lemma limit_whole : safe_integer 10000.
Proof. by vm_compute. Qed.

Abbreviation send_ln := (executePaymentViaLn (M := L0) (X := nat) (Number 1000000) true memos AccountLimitsExamples.yaml
  SendExamples.invoice ln_flow alice None).

(** Alice sends 10000 satoshis, for a fee of ten, and is within the limit of 100 dollars a day. *)
Lemma lightning_send_witness :
  is_ok (send_ln billed).1 = true ∧
  within_limit (Number 1000000) true "a" externalPaymentVolumeSince true 10000 (paymentAmounts ln_flow) 300 billed alice_wallets.
Proof.
  assert (E : is_ok (send_ln billed).1 = true) by (vm_compute; reflexivity). split; [exact E|].
  destruct (lightning_send (M := L0) (Number 1000000) true memos AccountLimitsExamples.yaml "bank" "dealer-btc" "dealer-usd" "funder"
    SendExamples.invoice ln_flow ln_flow_payable alice_user alice None billed alice_wallets LevelOne
    200000 10000 500000 300 (pv_ready _ _ _ _ _ _ _ _ billed_payable) billed_standing billed_exact ltac:(lia) eq_refl eq_refl eq_refl eq_refl limit_whole)
    as [_ [[[e He] _]|Hle]].
  - pose proof (eq_trans (eq_sym (f_equal is_ok He)) E) as F. discriminate F.
  - exact Hle.
Defined.

End PayExamples.
