(* ===== verification/FeeProbe.v ===== *)
(** * Estimating the fee of a Lightning payment

    Models [app/payments/get-protocol-fee.ts]: the fee that is shown before an invoice is paid, for which a
    route is probed and the flow of the payment is stored, with [app/partial-result.ts].  The payment that
    follows, of [PayInvoice], finds the stored flow; the theorem says that an invoice that can be
    paid can still be paid after its fee was estimated. *)

From S2P Require Import Prelude JsNumber Shared Prices Fees Lightning PaymentFlow LightningBuilder LedgerEntry.
From S2P Require Import TxMetadata LedgerTx TxHistory Limits Invoices World LedgerBook LedgerService Services Repositories.
From S2P Require Import WalletInvoices Money Accounts AccountLimits FlowBuilder SendLightning SendIntraledger PayInvoice.
Import LPFB.

(** A result, a result with the error that was met on the way, or an error. *)
Inductive PartialResult (A : Type) :=
| PartialOk (res : A)
| PartialPartial (res : A) (error : ApplicationError)
| PartialErr (error : ApplicationError).
Arguments PartialOk {A}.
Arguments PartialPartial {A}.
Arguments PartialErr {A}.

#[export] Instance FromError_Partial A : FromError (PartialResult A) := PartialErr.

(** The result that is shown. *)
Definition shown {A} (r : PartialResult A) : option A :=
  match r with PartialOk a | PartialPartial a _ => Some a | PartialErr _ => None end.

Section Estimate.
Context {X : Type} `{Database X} `{PriceServices X} `{ILightningService X} `{Intl}.
Context (RATIO_PRECISION : number) (usdHedgeEnabled : bool) (accountLimits : YamlAccountLimits).
Context (skipPubkey : list Pubkey) (skipChanId : list ChanId).
Context (parsePaymentRequest : string -> result string DecodedInvoice).

(** A route for the payment, unless its destination is not to be probed.  Without a route, the flow is
    stored without waiting for the answer. *)
Definition probe_route (invoice : LnInvoice) (builder : WithConversionState)
    : IO X (PartialResult Amount + Result PaymentFlowState) :=
  let stored (partial : Amount -> PartialResult Amount) :=
    match withoutRoute builder with
    | Err error => mret (inl (PartialErr error))
    | Ok paymentFlow =>
        _ ← persistNewFlow paymentFlow;
        mret (inl (partial (protocolAndBankFeeInSenderWalletCurrency paymentFlow)))
    end in
  lndService ← ext LndService;
  match lndService with
  | Err error => mret (inl (PartialErr error))
  | Ok _ =>
      if builder.(c_recipient).(r_sender).(s_invoice).(i_skipProbeForDestination) then stored PartialOk else
      routeResult ← ext (findRouteForInvoice invoice builder.(c_btcPaymentAmount));
      match routeResult with
      | Err error => stored (fun fee => PartialPartial fee error)
      | Ok (pubkey, rawRoute) => mret (inr (withRoute builder pubkey rawRoute))
      end
  end.

(** The limits of the payment, by its kind, and its flow. *)
Definition checked_flow (invoice : LnInvoice) (accountId : AccountId) (builder : WithConversionState)
    (priceRatioForLimits : WalletPriceRatio.t) : IO X (PartialResult Amount + Result PaymentFlowState) :=
  let usdPaymentAmount := builder.(c_usdPaymentAmount) in
  let limited check next :=
    limitCheck ← check accountLimits usdPaymentAmount accountId priceRatioForLimits;
    match limitCheck with Err error => mret (inl (PartialErr error)) | Ok _ => next end in
  if isTradeIntraAccount builder then limited checkTradeIntraAccountLimits (mret (inr (withoutRoute builder)))
  else if isIntraLedger builder then limited checkIntraledgerLimits (mret (inr (withoutRoute builder)))
  else limited checkWithdrawalLimits (probe_route invoice builder).

Definition estimateLightningFee (uncheckedSenderWalletId : string) (invoice : LnInvoice) (uncheckedAmount : option number)
    : IO X (PartialResult Amount) :=
  senderWalletId ←! checkedToWalletId uncheckedSenderWalletId;
  senderWallet ←? findWalletById senderWalletId;
  builder ←? constructPaymentFlowBuilder RATIO_PRECISION usdHedgeEnabled parsePaymentRequest skipPubkey skipChanId
    senderWallet invoice uncheckedAmount future_buy future_sell;
  priceRatioForLimits ←? getPriceRatioForLimits RATIO_PRECISION usdHedgeEnabled
    {| btc := builder.(c_btcPaymentAmount); usd := builder.(c_usdPaymentAmount) |};
  flow ← checked_flow invoice senderWallet.(w_accountId) builder priceRatioForLimits;
  match flow with
  | inl answer => mret answer
  | inr flow =>
      paymentFlow ←! (flow : Result PaymentFlowState);
      persistedPayment ← persistNewFlow paymentFlow;
      match (persistedPayment : Result PaymentFlowState) with
      | Err error => mret (PartialPartial (protocolAndBankFeeInSenderWalletCurrency paymentFlow) error)
      | Ok persisted => mret (PartialOk (protocolAndBankFeeInSenderWalletCurrency persisted))
      end
  end.

Definition getLightningFeeEstimation (walletId uncheckedPaymentRequest : string) : IO X (PartialResult Amount) :=
  decodedInvoice ←! decodeInvoice parsePaymentRequest uncheckedPaymentRequest;
  match decodedInvoice.(paymentAmount) with
  | None => mret (PartialErr LnPaymentRequestNonZeroAmountRequiredError)
  | Some _ => estimateLightningFee walletId decodedInvoice None
  end.

Definition getNoAmountLightningFeeEstimation (walletId uncheckedPaymentRequest : string) (amount : number)
    : IO X (PartialResult Amount) :=
  decodedInvoice ←! decodeInvoice parsePaymentRequest uncheckedPaymentRequest;
  match js_or_opt decodedInvoice.(inv_amount) None with
  | Some lnInvoiceAmount =>
      if num_ltb (Number 0) lnInvoiceAmount then mret (PartialErr LnPaymentRequestZeroAmountRequiredError)
      else estimateLightningFee walletId decodedInvoice (Some amount)
  | None => estimateLightningFee walletId decodedInvoice (Some amount)
  end.

Definition getLightningFeeEstimationForBtcWallet (walletId uncheckedPaymentRequest : string) : IO X (PartialResult Amount) :=
  walletIdChecked ←! checkedToWalletId walletId;
  _ ←? validateIsBtcWallet walletIdChecked;
  getLightningFeeEstimation walletId uncheckedPaymentRequest.

Definition getLightningFeeEstimationForUsdWallet (walletId uncheckedPaymentRequest : string) : IO X (PartialResult Amount) :=
  walletIdChecked ←! checkedToWalletId walletId;
  _ ←? validateIsUsdWallet walletIdChecked;
  getLightningFeeEstimation walletId uncheckedPaymentRequest.

Definition getNoAmountLightningFeeEstimationForBtcWallet (walletId uncheckedPaymentRequest : string) (amount : number)
    : IO X (PartialResult Amount) :=
  walletIdChecked ←! checkedToWalletId walletId;
  _ ←? validateIsBtcWallet walletIdChecked;
  getNoAmountLightningFeeEstimation walletId uncheckedPaymentRequest amount.

Definition getNoAmountLightningFeeEstimationForUsdWallet (walletId uncheckedPaymentRequest : string) (amount : number)
    : IO X (PartialResult Amount) :=
  walletIdChecked ←! checkedToWalletId walletId;
  _ ←? validateIsUsdWallet walletIdChecked;
  getNoAmountLightningFeeEstimation walletId uncheckedPaymentRequest amount.

End Estimate.

(** ** After an estimate, the invoice can be paid *)

(** Everything that a payment is built from, with the stored flows. *)
Definition same_flows {X} (w w' : World X) : Prop := same_payees w w' ∧ w'.(paymentFlows) = w.(paymentFlows).

#[export] Instance same_flows_reads X : Reads (@same_flows X).
Proof.
  split; [|done]. split; [done|]. intros w1 w2 w3 [S1 E1] [S2 E2]. split; [by etrans|congruence].
Qed.
#[export] Hint Resolve same_flows_reads : keeps.

Lemma or_undefined_twice `{Truthy A} (o : option A) : js_or_opt (or_undefined o) None = js_or_opt o None.
Proof. unfold or_undefined, js_or_opt. destruct (truthy o) eqn:E; [by rewrite E|]. by destruct (truthy None). Qed.

Section Sound.
Context {X : Type} `{Database X} `{PriceServices X} `{ILightningService X} `{Intl}.
Context (precision : number) (hedge : bool) (yaml : YamlAccountLimits).
Context (skipPubkey : list Pubkey) (skipChanId : list ChanId) (parse : string -> result string DecodedInvoice).
Context (bankOwner dealerBtc dealerUsd funder : WalletId).
Implicit Types (w : World X) (f : PaymentFlowState) (inv : LnInvoice).
Abbreviation invoice_flow := (invoice_flow parse).
Abbreviation payable_invoice := (payable_invoice parse bankOwner dealerBtc dealerUsd funder).

(** A flow that pays an invoice does so after it was stored and read. *)
Lemma flow_reread inv senderId n w f raw f' : invoice_flow inv senderId n w f -> 0 < n < 2 ^ 53 ->
  rawFromPaymentFlow f = Ok raw -> paymentFlowFromRaw (paymentFlowStateSchema raw) = Ok f' ->
  invoice_flow inv senderId n w f'.
Proof.
  intros [Hs Hm Hv Hp Hfree Hg Hi Hr] Hn Eraw Ef'. unfold rawFromPaymentFlow in Eraw.
  destruct (flow_hash _ _) as [[ph ih]|]; [|done]. injection Eraw as <-.
  destruct Hv as (Cu & Cb & Su & Sb). destruct Hfree as [F1 F2]. cbn [paymentAmounts usd btc] in Cu, Cb, Su, Sb.
  unfold paymentFlowFromRaw, paymentFlowStateSchema in Ef'.
  cbn [fr_inputAmount fr_paymentHash fr_intraLedgerHash fr_btcPaymentAmount fr_usdPaymentAmount
       fr_btcProtocolAndBankFee fr_usdProtocolAndBankFee] in Ef'.
  rewrite F1, F2, safeBigInt_Number, !paymentAmountFromNumber_Number in Ef' by (unfold safe_integer; rewrite ?Hg; lia).
  cbn [mbind result_bind] in Ef'. destruct (flow_hash ph ih) as [[]|]; [|done]. injection Ef' as <-.
  split; try done. intros rcpt. unfold recipientWalletDescriptor. cbn. rewrite !or_undefined_twice. apply Hr.
Qed.

(** Storing such a flow leaves the invoice payable. *)
Lemma wp_persistFlow inv senderId n w f : payable_invoice inv senderId w -> invoice_flow inv senderId n w f -> 0 < n < 2 ^ 53 ->
  wp (persistNewFlow f) (fun r w' => same_books w w' ∧ payable_invoice inv senderId w' ∧
    ∀ f', r = Ok f' -> (protocolAndBankFeeInSenderWalletCurrency f').(amount) = 0) w.
Proof.
  intros Hp Hf Hn. unfold persistNewFlow. apply wp_or_return; [intros raw Eraw|done].
  apply wp_bind_or, wp_catch, wp_db; [intros e x; split; [done|split; [by apply payable_outside|done]]|]. intros x. apply wp_modify, wp_ret.
  split; [done|]. split.
  - apply (payable_keeps _ _ _ _ _ _ _ w); [done..|]. intros n' raw' f' Hn' Hraw' Hix Ef'. cbn [paymentFlows with_paymentFlows with_outside] in Hraw'.
    apply elem_of_app in Hraw' as [Hraw'|Hraw']; [by eapply (pv_flows _ _ _ _ _ _ _ _ Hp)|].
    apply list_elem_of_singleton in Hraw' as ->. pose proof (flow_reread _ _ _ _ _ _ _ Hf Hn Eraw Ef') as Hf'.
    enough (n' = n) as -> by done.
    unfold flow_index in Hix. apply andb_true_iff in Hix as [_ Hix]. unfold rawFromPaymentFlow in Eraw.
    destruct (flow_hash _ _) as [[]|]; [|done]. injection Eraw as <-. cbn in Hix. rewrite (if_given _ _ _ _ _ _ Hf) in Hix.
    rewrite num_eqb_Number in Hix by (unfold safe_integer; lia). by zbool.
  - intros f' Ef'. pose proof (flow_reread _ _ _ _ _ _ _ Hf Hn Eraw Ef') as Hf'.
    unfold protocolAndBankFeeInSenderWalletCurrency. case_decide; apply (if_free _ _ _ _ _ _ Hf').
Qed.

(** What an estimate leaves behind, and the fee it shows. *)
Definition estimated inv senderId w (r : PartialResult Amount) w' : Prop :=
  same_books w w' ∧ payable_invoice inv senderId w' ∧ ∀ fee, shown r = Some fee -> fee.(amount) = 0.

Lemma estimated_error inv senderId w w' e : payable_invoice inv senderId w -> same_flows w w' -> estimated inv senderId w (PartialErr e) w'.
Proof.
  intros Hp [S E]. split; [apply S|]. split; [|done]. apply (payable_keeps _ _ _ _ _ _ _ w); [done..|]. rewrite E. apply Hp.
Qed.

Lemma wp_estimate inv senderId ua w : payable_invoice inv senderId w -> askable inv ua ->
  fair_market precision hedge (@same_flows X) future_buy future_sell ->
  wp (estimateLightningFee precision hedge yaml skipPubkey skipChanId parse senderId inv ua) (estimated inv senderId w) w.
Proof.
  intros Hp Hask Hfair. assert (HE : ∀ e w', same_flows w w' -> estimated inv senderId w (PartialErr e) w') by (intros; by apply estimated_error).
  unfold estimateLightningFee, checkedToWalletId. apply wp_or_return; [intros ? E|intros; by apply HE].
  case_match; [|done]. injection E as <-.
  apply wp_bind_or, wp_findWalletById; [intros; by apply HE|]. intros sender x Hin Hid.
  assert (S0 : same_flows w (with_outside w x)) by done.
  apply wp_bind_or. eapply wp_mono; [eapply (wp_construct _ _ _ _ _ same_flows); [by intros ? ? []|done|done|apply Hp| |done]|].
  { apply Hp. }
  intros [c|e] w1 (S1 & Hintra & Hflow); [|apply HE; by etrans]. specialize (Hintra c eq_refl).
  apply wp_bind_or, (wp_keeps same_flows); [auto with keeps|]. intros [ratio|e] w2 S2; [|apply HE; by do 2 (etrans; [|eassumption])].
  assert (S : same_flows w w2) by (by do 2 (etrans; [|eassumption])). apply wp_bind.
  apply (wp_mono _ (fun res w' => same_flows w w' ∧ (res = inr (withoutRoute c) ∨ ∃ e, res = inl (PartialErr e)))).
  { unfold checked_flow. rewrite Hintra. destruct (isTradeIntraAccount c);
      (apply wp_bind, (wp_keeps same_flows); [auto with keeps|]; intros [u|e] w3 S3; apply wp_ret; (split; [by etrans|]); eauto). }
  intros res w3 [S3 [->|[e ->]]]; [|by apply wp_ret, HE]. apply wp_or_return; [intros f Hf|intros; by apply HE].
  destruct (Hflow c f eq_refl Hf) as (n & Hn & Hif). rewrite Hid in Hif.
  assert (Hif3 : invoice_flow inv senderId n w3 f) by (eapply flow_same; [apply payees_sym, S3|exact (flow_same _ _ _ _ _ _ _ (proj1 S0) Hif)]).
  assert (Hp3 : payable_invoice inv senderId w3) by (by eapply (HE PriceNotAvailableError)).
  apply wp_bind. eapply wp_mono; [apply (wp_persistFlow inv senderId n); [done|done|by eapply asks_small]|].
  intros [f'|e] w4 (S4 & Hp4 & Hfee); apply wp_ret; (split; [etrans; [apply S3|exact S4]|]); (split; [done|]); intros fee [= <-].
  - by apply Hfee.
  - unfold protocolAndBankFeeInSenderWalletCurrency. case_decide; apply (if_free _ _ _ _ _ _ Hif).
Qed.

(** A decoded invoice whose amount is not positive has no amount to pay. *)
Lemma decoded_no_amount req inv : decodeInvoice parse req = Ok inv -> (∀ a, inv.(paymentAmount) = Some a -> checked a) ->
  (∀ x, inv.(inv_amount) = Some x -> valid x) ->
  (∀ x, js_or_opt inv.(inv_amount) None = Some x -> num_ltb (Number 0) x = false) -> inv.(paymentAmount) = None.
Proof.
  intros Hd Hc Hv Hx. unfold decodeInvoice in Hd. apply bind_Ok in Hd as (dec & _ & Hd). case_match; [|done].
  apply bind_Ok in Hd as (o & Ho & [= <-]). cbn [inv_amount paymentAmount] in *.
  destruct o as [a|]; [|done]. exfalso. specialize (Hc a eq_refl) as [Hpos _].
  destruct (js_or_opt (js_or_opt _ None) None) as [x|] eqn:Ex; [|done]. specialize (Hx x eq_refl).
  destruct (paymentAmountFromNumber x Btc) as [b|] eqn:Hb; [|done]. injection Ho as ->.
  apply bind_Ok in Hb as (z & Hz & [= <-]). unfold safeBigInt in Hz. destruct (BigInt x) as [z'|] eqn:EB; [|done]. injection Hz as ->.
  assert (Hvx : valid x).
  { apply Hv. unfold js_or_opt in Ex |- *. destruct (truthy _) in Ex; [done|]. by destruct (truthy None) in Ex. }
  destruct (guards_integer x z 0 Hvx EB) as (_ & _ & Hg). rewrite Hx, andb_false_r in Hg. cbn in Hpos. symmetry in Hg. zbool. lia.
Qed.

(** C14. An estimate of the fee moves no money and leaves the invoice payable.  For an invoice of the bank, with an amount or
    without one, the fee shown is zero, even when storing the flow fails; and the flow that is
    stored for the payment, at the prices of the future, satisfies all that the theorem on the
    payment of the invoice asks of stored flows, so that paying after an estimate is
    covered by it. *)
Theorem estimate_then_payable req inv senderId x w (Hd : decodeInvoice parse req = Ok inv) (Hw : payable_invoice inv senderId w)
    (Hfair : fair_market precision hedge (@same_flows X) future_buy future_sell) (Hx : valid x)
    (Hnum : ∀ y, inv.(inv_amount) = Some y -> valid y) :
  let estimates := fun m => wp m (estimated inv senderId w) w in
  estimates (getLightningFeeEstimationForBtcWallet precision hedge yaml skipPubkey skipChanId parse senderId req) ∧
  estimates (getLightningFeeEstimationForUsdWallet precision hedge yaml skipPubkey skipChanId parse senderId req) ∧
  estimates (getNoAmountLightningFeeEstimationForBtcWallet precision hedge yaml skipPubkey skipChanId parse senderId req x) ∧
  estimates (getNoAmountLightningFeeEstimationForUsdWallet precision hedge yaml skipPubkey skipChanId parse senderId req x).
Proof.
  assert (HE : ∀ e w', same_flows w w' -> estimated inv senderId w (PartialErr e) w') by (intros; by apply estimated_error).
  assert (Hest : ∀ ua o, askable inv ua -> wp (estimateLightningFee precision hedge yaml skipPubkey skipChanId parse senderId inv ua)
    (estimated inv senderId w) (with_outside w o)).
  { intros ua o Ha. eapply wp_mono; [apply wp_estimate; [by apply payable_outside|done..]|]. by intros r w' (S & Hr). }
  assert (Hamt : ∀ o, wp (getLightningFeeEstimation precision hedge yaml skipPubkey skipChanId parse senderId req) (estimated inv senderId w) (with_outside w o)).
  { intros o. apply wp_or_return; [intros ? E|intros; by apply HE]. assert (a = inv) as -> by congruence.
    case_match; [|by apply wp_ret, HE]. apply Hest. intros a' Ha'. by apply (pv_amount _ _ _ _ _ _ _ _ Hw). }
  assert (Hno : ∀ o, wp (getNoAmountLightningFeeEstimation precision hedge yaml skipPubkey skipChanId parse senderId req x) (estimated inv senderId w) (with_outside w o)).
  { intros o. apply wp_or_return; [intros ? E|intros; by apply HE]. assert (a = inv) as -> by congruence.
    assert (Hnone := decoded_no_amount req inv Hd (fun a Ha => proj1 (pv_amount _ _ _ _ _ _ _ _ Hw a Ha)) Hnum).
    destruct (js_or_opt _ _) as [y|]; [destruct (num_ltb _ y) eqn:Ey; [by apply wp_ret, HE|]|];
      apply Hest; (split; [|done]); apply Hnone; [by intros ? [= <-]|done]. }
  cbn zeta. split_and!; (apply wp_or_return; [intros ? E|intros; by apply HE]; unfold checkedToWalletId in E; case_match; [|done]; injection E as <-;
    apply wp_bind_or, wp_bind_or, wp_findWalletById; [intros; by apply HE|]; intros wl o _ _; apply wp_ret; case_decide; [by apply HE|]; done).
Qed.

End Sound.

Module ProbeExamples.
Import BookExamples MarketExamples IntraledgerExamples PayExamples.

Abbreviation estimate := (getLightningFeeEstimationForBtcWallet (X := nat) (Number 1000000) true AccountLimitsExamples.yaml [] []
  parse alice_btc.(w_id) "lnbc").

Lemma invoice_number y : invoice.(inv_amount) = Some y -> valid y.
Proof. by intros [= <-]. Qed.

(** Alice asks for the fee of Bob's invoice, which is free; the flow is stored, and Alice pays with it. *)
Lemma estimate_then_payable_witness :
  (estimate billed).1 = PartialOk (BtcPaymentAmount 0) ∧ length (estimate billed).2.(paymentFlows) = 1%nat ∧
  is_ok (pay (estimate billed).2).1 = true ∧
  payable_invoice parse "bank" "dealer-btc" "dealer-usd" "funder" invoice alice_btc.(w_id) (estimate billed).2.
Proof.
  split; [vm_compute; reflexivity|]. split; [vm_compute; reflexivity|]. split; [vm_compute; reflexivity|].
  destruct (proj1 (estimate_then_payable (X := nat) (Number 1000000) true AccountLimitsExamples.yaml [] [] parse
    "bank" "dealer-btc" "dealer-usd" "funder" "lnbc" invoice alice_btc.(w_id) (Number 10000) billed
    invoice_decoded billed_payable (proj2 (market_fair _)) eq_refl invoice_number)) as (_ & Hp & _).
  exact Hp.
Defined.

End ProbeExamples.
