(* ===== verification/PendingPayments.v ===== *)
(** * Updating pending Lightning payments

    Models [app/payments/update-pending-payments.ts]: the payments whose outcome was not known when
    they were sent are looked up in the node and settled, reverted or reimbursed, with
    [reimburse-failed-usd.ts], [translations.ts] and
    [app/wallets/get-transaction-by-journal-id.ts].  Span attributes and logs are left out; so is the
    decoding of the invoice, which only goes there. *)

From S2P Require Import Prelude JsNumber Shared Prices Fees Lightning PaymentFlow LedgerEntry TxMetadata.
From S2P Require Import LedgerTx TxHistory Limits World LedgerBook LedgerService Services Repositories Money.
From S2P Require Import SendLightning.

Definition FAILED_USD_MEMO : string := "Usd payment canceled".

Definition inputAmountFromLedgerTransaction (txn : LedgerTransaction) : Result Z :=
  match (if decide (txn.(lt_currency) = Usd) then txn.(lt_centsFee) else txn.(lt_satsFee)) with
  | None => Err InvalidLedgerTransactionStateError
  | Some fee => safeBigInt (num_sub txn.(lt_debit) fee)
  end.

Definition PaymentFlowFromLedgerTransaction (ledgerTxn : LedgerTransaction) (senderAccountId : AccountId)
    : Result PaymentFlowState :=
  if negb (bool_decide (ledgerTxn.(lt_type) = Payment)) then Err NonLnPaymentTransactionForPaymentFlowError else
  match ledgerTxn.(lt_walletId), ledgerTxn.(lt_paymentHash), ledgerTxn.(lt_satsAmount),
        ledgerTxn.(lt_centsAmount), ledgerTxn.(lt_satsFee), ledgerTxn.(lt_centsFee) with
  | Some walletId, Some hash, Some satsAmount, Some centsAmount, Some satsFee, Some centsFee =>
      btcAmount ← paymentAmountFromNumber satsAmount Btc;
      usdAmount ← paymentAmountFromNumber centsAmount Usd;
      btcFee ← paymentAmountFromNumber satsFee Btc;
      usdFee ← paymentAmountFromNumber centsFee Usd;
      Ok {|
        pf_common := {|
          senderWalletId := walletId;
          senderWalletCurrency := ledgerTxn.(lt_currency);
          senderAccountId := senderAccountId;
          settlementMethod := SettleLightning;
          paymentInitiationMethod := InitLightning;
          createdAt := ledgerTxn.(lt_timestamp);
          paymentSentAndPending := true;
          inputAmount := if decide (ledgerTxn.(lt_currency) = Usd) then usdAmount.(amount) else btcAmount.(amount);
          btcPaymentAmount := btcAmount;
          usdPaymentAmount := usdAmount;
          btcProtocolAndBankFee := btcFee;
          usdProtocolAndBankFee := usdFee;
          recipientWalletId := None; recipientWalletCurrency := None; recipientAccountId := None;
          recipientPubkey := None; recipientUsername := None; recipientUserId := None;
          outgoingNodePubkey := None; cachedRoute := None |};
        paymentHash := Some hash;
        intraLedgerHash := None;
        descriptionFromInvoice := "";
        skipProbeForDestination := false |}
  | _, _, _, _, _, _ => Err MissingPropsInTransactionForPaymentFlowError
  end.

Section Pending.
Context {M X : Type} `{MediciEntry M} `{!MediciBook M X} `{Database X} `{Resolvers X}.
Context `{Redlock X} `{ILightningService X} `{Intl} (memoSharingConfig : MemoSharingConfig).

Definition finalizePaymentUpdate (result : bool) (walletIds : list WalletId) (hash : PaymentHash)
    (journalId : string) (recipient : NotificationRecipient) : IO X (Result bool) :=
  _ ←? updateLnPaymentState (M := M) walletIds hash journalId;
  walletTransaction ←? getWalletTransactionByJournalId (M := M) memoSharingConfig recipient.(nr_walletId) journalId;
  _ ← modify (fun w => with_notified w (w.(notified) ++ [(recipient, walletTransaction)]));
  mret (Ok result).

(** The first BTC wallet of the account, unless the wallet is one itself. *)
Definition btc_wallet_of (recipientWallet : Wallet) : IO X (Result Wallet) :=
  if decide (recipientWallet.(w_currency) = Btc) then mret (Ok recipientWallet) else
  recipientWallets ←? listByAccountId recipientWallet.(w_accountId);
  mret (match filter (fun wl : Wallet => wl.(w_currency) = Btc) recipientWallets with
        | [] => Err (CouldNotFindBtcWalletForAccountError recipientWallet.(w_accountId))
        | wl :: _ => Ok wl
        end).

Definition reimburseFailedUsdPayment (walletId : WalletId) (paymentFlow : PaymentFlowState)
    (pendingPayment : LedgerTransaction) : IO X (Result bool) :=
  displayCurrency ←? match pendingPayment.(lt_displayCurrency) with
    | Some displayCurrency => mret (Ok displayCurrency)
    | None =>
        wallet ←? findWalletById walletId;
        account ←? findAccountById wallet.(w_accountId);
        mret (Ok account.(acc_displayCurrency))
    end;
  hash ←! paymentHashForFlow paymentFlow;
  let md := LnFailedPaymentReceiveLedgerMetadata (flow_amounts paymentFlow) hash pendingPayment.(lt_journalId) {|
    dt_displayAmount := js_or pendingPayment.(lt_displayAmount) (Number 0);
    dt_displayFee := js_or pendingPayment.(lt_displayFee) (Number 0);
    dt_displayCurrency := displayCurrency |} in
  recipientWallet ←? findWalletById (senderWalletDescriptor paymentFlow).(w_id);
  recipientBtcWallet ←? btc_wallet_of recipientWallet;
  _ ←? recordReceiveOffChain (M := M) FAILED_USD_MEMO recipientBtcWallet.(wl_descriptor)
    (totalAmountsForPayment paymentFlow) None None md.(metadata) md.(creditAccountAdditionalMetadata)
    md.(internalAccountsAdditionalMetadata) (Some hash) None;
  mret (Ok true).

Definition is_pending_send (nonEndUserWalletIds : list WalletId) (tx : LedgerTransaction) : bool :=
  tx.(lt_pendingConfirmation) && bool_decide (tx.(lt_type) = Payment) && num_ltb (Number 0) tx.(lt_debit) &&
  match tx.(lt_walletId) with Some walletId => bool_decide (walletId ∉ nonEndUserWalletIds) | None => false end.

Definition has_input (c : WalletCurrency) (inputAmount : number) (tx : LedgerTransaction) : bool :=
  match (if decide (c = Btc) then tx.(lt_satsAmount) else tx.(lt_centsAmount)) with
  | Some a => num_eqb a inputAmount
  | None => false
  end.

Definition reconstructPendingPaymentFlow (hash : PaymentHash) (inputAmount : number)
    : IO X (Result PaymentFlowState) :=
  ledgerTxns ←? getTransactionsByHash hash;
  nonEndUserWalletIds ←? uncaught getNonEndUserWalletIds;
  let payments := filter (fun tx => is_pending_send nonEndUserWalletIds tx = true) ledgerTxns in
  match payments with
  | [] => mret (Err CouldNotFindTransactionError)
  | payment :: _ =>
      if negb (truthy payment.(lt_walletId)) then mret (Err MissingPropsInTransactionForPaymentFlowError) else
      senderWallet ←? findWalletById (default "" payment.(lt_walletId));
      senderAccount ←? findAccountById senderWallet.(w_accountId);
      mret (match filter (fun tx => has_input senderWallet.(w_currency) inputAmount tx = true) payments with
            | [] => Err CouldNotFindTransactionError
            | [payment] => PaymentFlowFromLedgerTransaction payment senderAccount.(acc_id)
            | _ => Err MultiplePendingPaymentsForHashError
            end)
  end.

(** The flow of the payment: the stored one, which is no longer pending, or else a reconstruction. *)
Definition pendingPaymentFlow (hash : PaymentHash) (walletId : WalletId) (inputAmount : Z)
    : IO X (Result PaymentFlowState) :=
  paymentFlow ← markLightningPaymentFlowNotPending walletId (Some hash) None inputAmount;
  match paymentFlow with
  | Ok f => mret (Ok f)
  | Err _ => reconstructPendingPaymentFlow hash (Number inputAmount)
  end.

Definition lookup_fee (l : LnPaymentLookup) : number :=
  match l.(lk_status) with
  | PaymentFailed => Number 0
  | _ => js_or (cd_roundedUpFee <$> l.(lk_confirmedDetails)) (Number 0)
  end.

(** The payment failed, or is another attempt than the one that was recorded. *)
Definition lookup_failed (l : LnPaymentLookup) (f : PaymentFlowState) : bool :=
  bool_decide (l.(lk_status) = PaymentFailed) ||
  negb (num_eqb (num_sub l.(lk_roundedUpAmount) (lookup_fee l)) (Number f.(btcPaymentAmount).(amount))).

(** What follows the settlement of the payment. *)
Definition settled_steps (hash : PaymentHash) (pendingPayment : LedgerTransaction)
    (lnPaymentLookup : LnPaymentLookup) (walletIds : list WalletId) (recipient : NotificationRecipient)
    (paymentFlow : PaymentFlowState) : IO X (Result bool) :=
  let journalId := pendingPayment.(lt_journalId) in
  let walletId := recipient.(nr_walletId) in
  if lookup_failed lnPaymentLookup paymentFlow then
    result ←? (if decide (paymentFlow.(senderWalletCurrency) = Btc)
               then recordLnSendRevert (M := M) journalId hash
               else reimburseFailedUsdPayment walletId paymentFlow pendingPayment);
    finalizePaymentUpdate result walletIds hash journalId recipient
  else
    let revealedPreImage := or_undefined (cd_revealedPreImage <$> lnPaymentLookup.(lk_confirmedDetails)) in
    _ ← match revealedPreImage with
        | Some preImage => _ ← updateByHash hash (Some preImage); mret tt
        | None => mret tt
        end;
    if pendingPayment.(lt_feeKnownInAdvance) then finalizePaymentUpdate true walletIds hash journalId recipient else
    if negb (truthy pendingPayment.(lt_displayAmount)) || negb (truthy pendingPayment.(lt_displayFee))
       || negb (truthy pendingPayment.(lt_displayCurrency))
    then mret (Err MissingExpectedDisplayAmountsForTransactionError) else
    result ←? reimburseFee (M := M) paymentFlow (default (Number 0) pendingPayment.(lt_displayAmount))
      (default "" pendingPayment.(lt_displayCurrency)) journalId (lookup_fee lnPaymentLookup)
      (cd_revealedPreImage <$> lnPaymentLookup.(lk_confirmedDetails));
    finalizePaymentUpdate result walletIds hash journalId recipient.

Definition lockedPendingPaymentSteps (hash : PaymentHash) (pendingPayment : LedgerTransaction)
    (lnPaymentLookup : LnPaymentLookup) (walletIds : list WalletId) (recipient : NotificationRecipient)
    : IO X (Result bool) :=
  let walletId := recipient.(nr_walletId) in
  recorded ←? isLnTxRecorded hash;
  if (recorded : bool) then mret (Ok true) else
  inputAmount ←! inputAmountFromLedgerTransaction pendingPayment;
  paymentFlow ←? pendingPaymentFlow hash walletId inputAmount;
  _ ←? settlePendingLnSend hash;
  settled_steps hash pendingPayment lnPaymentLookup walletIds recipient paymentFlow.

Definition updatePendingPayment (walletId : WalletId) (pendingPayment : LedgerTransaction) : IO X (Result bool) :=
  if negb (truthy pendingPayment.(lt_paymentHash)) then
    mret (Err (InconsistentDataError "paymentHash missing from payment transaction")) else
  if negb (truthy pendingPayment.(lt_pubkey)) then
    mret (Err (InconsistentDataError "pubkey missing from payment transaction")) else
  let hash := default "" pendingPayment.(lt_paymentHash) in
  _ ← findByPaymentHash hash;
  _ ←? ext LndService;
  lnPaymentLookup ←? ext (lookupPayment hash);
  if decide (lnPaymentLookup.(lk_status) = PaymentPending) then mret (Ok true) else
  senderWallet ←? findWalletById walletId;
  senderAccount ←? findAccountById senderWallet.(w_accountId);
  senderUser ←? findUserById senderAccount.(acc_kratosUserId);
  let recipient := {| nr_accountId := senderWallet.(w_accountId); nr_walletId := walletId;
                      nr_userId := senderUser; nr_level := senderAccount.(acc_level) |} in
  wallets ←? findAccountWalletsByAccountId senderAccount.(acc_id);
  r ←? lockWalletId walletId (lockedPendingPaymentSteps hash pendingPayment lnPaymentLookup
         [wallets.(BTC).(w_id); wallets.(USD).(w_id)] recipient);
  mret r.

(** The results are not looked at; an exception ends the loop. *)
Fixpoint update_each (walletId : WalletId) (payments : list LedgerTransaction) : IO X (Result unit) :=
  match payments with
  | [] => mret (Ok tt)
  | payment :: payments =>
      r ← updatePendingPayment walletId payment;
      match thrown r with
      | Some msg => mret (Err (JsThrow msg))
      | None => update_each walletId payments
      end
  end.

Definition updatePendingPaymentsByWalletId (walletId : WalletId) : IO X (Result unit) :=
  count ←? getPendingPaymentsCount walletId;
  if (count =? 0)%nat then mret (Ok tt) else
  pendingPayments ←? listPendingPayments walletId;
  update_each walletId pendingPayments.

Definition updatePendingPaymentByHash (hash : PaymentHash) : IO X (Result unit) :=
  walletId ←? getWalletIdByPaymentHash hash;
  updatePendingPaymentsByWalletId walletId.

End Pending.

(** ** A payment is settled once *)

Section Once.
Context {M X : Type} `{MediciEntry M} `{!MediciLaws M} `{!MediciBook M X} `{!MediciBookLaws M X}
  `{Database X} `{Resolvers X} `{Redlock X} `{ILightningService X} `{Intl} (cfg : MemoSharingConfig).
Implicit Types (w : World X) (h : PaymentHash).

Lemma keeps_pendingPaymentFlow h walletId a : keeps same_ledger (pendingPaymentFlow (X := X) h walletId a).
Proof.
  unfold pendingPaymentFlow, markLightningPaymentFlowNotPending. apply keeps_bind; [apply _|solve_keeps|].
  intros [f|e]; [apply keeps_ret; apply _|]. unfold reconstructPendingPaymentFlow.
  apply keeps_bind_or; [apply _|auto with keeps|]. intros txns.
  apply keeps_bind_or; [apply _|auto with keeps|]. intros ids.
  unfold findWalletById, findAccountById. solve_keeps.
Qed.

(** With nothing pending, settling fails and changes nothing. *)
Lemma wp_settle_clear h (Q : Result bool -> World X -> Prop) w : clear h w ->
  (∀ e w', same_ledger w w' -> Q (Err e) w') -> wp (settlePendingLnSend h) Q w.
Proof.
  intros Hc HQ. unfold settlePendingLnSend. apply wp_bind_or, wp_catch, wp_updateMany; [intros; by apply HQ|].
  intros w' Hl _. change (map _ _) with (map (settled_doc h) w.(ledger)) in Hl.
  assert (same_ledger w w') by (unfold same_ledger; by rewrite Hl, settled_none).
  erewrite (list_filter_iff _ (pending_with h)).
  2: { intros d. rewrite bool_decide_eq_true, set_pending_same. unfold pending_with. destruct (raw_pending d); naive_solver. }
  rewrite Hc. by apply wp_ret, HQ.
Qed.

(** Otherwise nothing is pending afterwards, and the documents of a journal of the payment are not. *)
Lemma wp_settle h (Q : Result bool -> World X -> Prop) w :
  (∀ e w', same_ledger w w' -> Q (Err e) w') ->
  (∀ w', w'.(ledger) = map (settled_doc h) w.(ledger) -> clear h w' -> Q (Ok true) w') ->
  wp (settlePendingLnSend h) Q w.
Proof.
  intros HErr HOk. unfold settlePendingLnSend. apply wp_bind_or, wp_catch, wp_updateMany; [intros; by apply HErr|].
  intros w' Hl _. apply wp_ret. case_match eqn:E.
  - apply HOk; [exact Hl|]. unfold clear. rewrite Hl. apply filter_none, Forall_forall. intros d2 Hd (Hh & Hp).
    apply list_elem_of_fmap in Hd as (d & -> & _). revert Hh Hp. by case_bool_decide.
  - apply HErr. unfold same_ledger. rewrite Hl. apply update_count. apply Nat.ltb_ge in E. lia.
Qed.

Lemma wp_updateState_clear ws h j (Q : Result bool -> World X -> Prop) w : clear h w ->
  (∀ r w', clear h w' -> Q r w') -> wp (updateLnPaymentState (M := M) ws h j) Q w.
Proof.
  intros Hc HQ. unfold updateLnPaymentState. apply wp_bind_or, (wp_keeps same_ledger); [auto with keeps|].
  intros [txns|e] w1 Hs; [|by apply HQ, (clear_same h w)]. apply (clear_same h w w1) in Hc; [|done].
  destruct (determine txns); [|by apply wp_ret, HQ].
  unfold updateStateByRelatedJournal, with_objectId. apply wp_bind_or, wp_catch.
  destruct (isValidObjectId j); [|by apply wp_ret, HQ]. apply wp_updateMany.
  - intros msg w' Hl _. by apply HQ, (clear_same h w1).
  - intros w' Hl _. apply wp_ret, HQ. unfold clear. rewrite Hl. apply filter_none, Forall_forall.
    intros d2 Hd Hp. apply list_elem_of_fmap in Hd as (d & -> & Hin).
    apply (filter_nil_not_elem_of _ _ d Hc); [|done]. revert Hp. by case_match.
Qed.

Lemma wp_finalize_clear b ws h j rc w : clear h w ->
  wp (finalizePaymentUpdate (M := M) (X := X) cfg b ws h j rc) (fun _ w' => clear h w') w.
Proof.
  intros Hc. unfold finalizePaymentUpdate. apply wp_bind_or, wp_updateState_clear; [done|].
  intros [u|e] w1 Hc1; [|done]. eapply wp_keeps; [|intros r w' Hs; by apply (clear_same h w1)].
  apply keeps_bind_or; [apply _|auto with keeps|intros tx]. solve_keeps.
Qed.

(** Recording a receipt whose metadata is not pending. *)
Lemma wp_receive_clear h description recipient amt fee ext md cmd imd hash pre (Q : Result LedgerJournal -> World X -> Prop) w :
  clear h w -> md !! "pending" = Some (MBool false) -> cmd !! "pending" = None -> imd !! "pending" = None ->
  (∀ r w', clear h w' -> Q r w') ->
  wp (recordReceiveOffChain (M := M) description recipient amt fee ext md cmd imd hash pre) Q w.
Proof using MediciLaws0 MediciBookLaws0.
  intros Hc Hm Hcm Him HQ. unfold recordReceiveOffChain. apply wp_bind_or, (wp_keeps same_ledger).
  { auto with keeps. }
  intros [ids|e] w1 Hs; [|by apply HQ, (clear_same h w)]. apply (clear_same h w w1) in Hc; [|done].
  apply wp_persistAndReturnEntry; [|intros err w' Hl _; by apply HQ, (clear_same h w1)].
  intros j w' (new & Hl & _ & _ & _ & _ & Hp) _. apply HQ. eapply (clear_new h); [exact Hl| |exact Hc].
  by eapply labels_pending, (receive_pending _ entry_empty).
Qed.

Lemma wp_reimburseFee_clear h f damt dcur j fee pre w : clear h w ->
  wp (reimburseFee (M := M) f damt dcur j fee pre) (fun _ w' => clear h w') w.
Proof using MediciLaws0 MediciBookLaws0.
  intros Hc. unfold reimburseFee. do 2 (apply wp_or_return; [intros ? _|done]).
  case_match; [|done]. case_match; [done|]. do 4 (apply wp_or_return; [intros ? _|done]).
  apply wp_bind_or, (wp_receive_clear h); [done..|]. by intros [].
Qed.

Lemma wp_reimburseFailed_clear h walletId f p w : clear h w ->
  wp (reimburseFailedUsdPayment (M := M) walletId f p) (fun _ w' => clear h w') w.
Proof using MediciLaws0 MediciBookLaws0.
  intros Hc. unfold reimburseFailedUsdPayment, btc_wallet_of, findWalletById, findAccountById, listByAccountId.
  apply wp_bind_or, (wp_keeps same_ledger); [solve_keeps|].
  intros [c|e] w1 S1; apply (clear_same h w w1) in Hc; try done. apply wp_or_return; [intros hash _|done].
  apply wp_bind_or, (wp_keeps same_ledger); [solve_keeps|].
  intros [wl|e] w2 S2; apply (clear_same h w1 w2) in Hc; try done.
  apply wp_bind_or, (wp_keeps same_ledger); [solve_keeps|].
  intros [btc|e] w3 S3; apply (clear_same h w2 w3) in Hc; try done.
  apply wp_bind_or, (wp_receive_clear h); [done..|]. by intros [].
Qed.

(** Reverting a journal whose documents are not pending. *)
Lemma wp_revert_clear h j w : clear h w -> Forall (fun d : Doc => d.(raw_pending) = false) (of_journal j w.(ledger)) ->
  wp (recordLnSendRevert (M := M) j h) (fun _ w' => clear h w') w.
Proof using MediciBookLaws0.
  intros Hc Hj. unfold recordLnSendRevert.
  apply wp_bind_or, wp_catch, wp_void; [|intros msg w' Hl _; by apply (clear_same h w)].
  intros s w1 new Hl _ _ _ Hr. apply wp_bind, wp_persistAll. intros r w' Hl' _. apply wp_ret.
  eapply (clear_new h); [by rewrite Hl'|by eapply reverts_pending|exact Hc].
Qed.

Lemma settled_journal h j L : Forall (fun d : Doc => d.(raw_hash) = Some h) (of_journal j L) ->
  Forall (fun d : Doc => d.(raw_pending) = false) (of_journal j (map (settled_doc h) L)).
Proof.
  intros Hj. apply Forall_forall. intros d2 Hd. apply list_elem_of_filter in Hd as [Hjd Hd].
  apply list_elem_of_fmap in Hd as (d & -> & Hin). rewrite Forall_forall in Hj.
  assert (Hh : d.(raw_hash) = Some h).
  { apply Hj, list_elem_of_filter. split; [|done]. revert Hjd. unfold settled_doc. by case_bool_decide. }
  unfold settled_doc. by rewrite bool_decide_true.
Qed.

(** An update either leaves the ledger as it was, or leaves nothing of the payment pending. *)
Lemma wp_update_clears h p l ws rc w :
  Forall (fun d : Doc => d.(raw_hash) = Some h) (of_journal p.(lt_journalId) w.(ledger)) ->
  wp (lockedPendingPaymentSteps (M := M) cfg h p l ws rc) (fun _ w' => same_ledger w w' ∨ clear h w') w.
Proof using MediciLaws0 MediciBookLaws0.
  intros Hj. unfold lockedPendingPaymentSteps, isLnTxRecorded, MainBook_ledger.
  apply wp_bind_or, (wp_keeps same_ledger); [solve_keeps|]. intros [[]|e] w1 S1; [by left| |by left].
  apply wp_or_return; [intros a _|by left]. apply wp_bind_or, (wp_keeps same_ledger).
  { apply keeps_pendingPaymentFlow. }
  intros [f|e] w2 S2; [|left; by etrans]. assert (S : same_ledger w w2) by (by etrans).
  apply wp_bind_or, wp_settle; [intros e w3 S3; left; by etrans|]. intros w3 Hl Hc. rewrite S in Hl. unfold settled_steps.
  assert (Hfin : ∀ b w4, clear h w4 -> wp (finalizePaymentUpdate (M := M) cfg b ws h p.(lt_journalId) rc)
    (fun _ w' => same_ledger w w' ∨ clear h w') w4).
  { intros b w4 Hc4. eapply wp_mono; [by apply wp_finalize_clear|]. by right. }
  case_match.
  - apply wp_bind_or. eapply (wp_mono _ (fun _ => clear h)); [|intros [] w4 Hc4; [by apply Hfin|by right]].
    case_decide; [|by apply wp_reimburseFailed_clear]. apply wp_revert_clear; [done|]. rewrite Hl. by apply settled_journal.
  - apply wp_bind, (wp_keeps same_ledger); [case_match; solve_keeps; auto with keeps|].
    intros _ w4 S4. apply (clear_same h w3 w4) in Hc; [|done]. case_match; [by apply Hfin|].
    case_match; [by apply wp_ret; right|]. apply wp_bind_or.
    eapply wp_mono; [by apply wp_reimburseFee_clear|]. intros [] w5 Hc5; [by apply Hfin|by right].
Qed.

(** C16. Money moves at most once for a pending payment.  An update of it, whatever the node answered
    and whatever fails on the way, either leaves the ledger as it was, or makes every later update
    of the same payment leave the ledger as it then is, whatever the node says then. *)
Theorem pending_payment_once h p l ws rc w
    (Hj : Forall (fun d : Doc => d.(raw_hash) = Some h) (of_journal p.(lt_journalId) w.(ledger))) :
  wp (lockedPendingPaymentSteps (M := M) cfg h p l ws rc) (fun _ w1 =>
    w1.(ledger) = w.(ledger) ∨
    ∀ p' l' ws' rc', wp (lockedPendingPaymentSteps (M := M) cfg h p' l' ws' rc')
      (fun _ w2 => w2.(ledger) = w1.(ledger)) w1) w.
Proof using MediciLaws0 MediciBookLaws0.
  eapply wp_mono; [by apply wp_update_clears|]. intros r w1 [Hs|Hc]; [by left|right]. intros p' l' ws' rc'.
  unfold lockedPendingPaymentSteps, isLnTxRecorded, MainBook_ledger.
  apply wp_bind_or, (wp_keeps same_ledger); [solve_keeps|]. intros [[]|e] w2 S2; [done| |done].
  apply wp_or_return; [intros a _|done]. apply wp_bind_or, (wp_keeps same_ledger).
  { apply keeps_pendingPaymentFlow. }
  intros [f|e] w3 S3; [|by etrans]. assert (S : same_ledger w1 w3) by (by etrans).
  apply wp_bind_or, wp_settle_clear; [by apply (clear_same h w1)|]. intros e w4 S4. by transitivity w3.(ledger).
Qed.

End Once.

(** ** What an update moves *)

Lemma update_first_result {A} (matches : A -> bool) u (l l' : list A) y :
  update_first matches u l = (l', Some y) -> ∃ x, x ∈ l ∧ y = default x (u x) ∧ matches x = true.
Proof.
  revert l'. induction l as [|x l IH]; intros l'; [done|]. cbn. destruct (matches x) eqn:Ex.
  - intros [= _ <-]. exists x. split; [by left|done].
  - destruct (update_first matches u l) as [l2 found] eqn:E. intros [= _ ->].
    destruct (IH _ eq_refl) as (z & Hz & -> & Ez). exists z. split; [by right|done].
Qed.

Section Moves.
Context {M X : Type} `{MediciEntry M} `{!MediciLaws M} `{!MediciBook M X} `{!MediciBookLaws M X}
  `{Database X} `{Resolvers X} `{Redlock X} `{ILightningService X} `{Intl} (cfg : MemoSharingConfig).
Context (bankOwner dealerBtc dealerUsd funder : WalletId).
Implicit Types (w : World X) (h : PaymentHash) (f : PaymentFlowState).

Abbreviation all_ready := (all_ready bankOwner dealerBtc dealerUsd funder).

Definition good f : Prop := payable f ∧ user_wallet bankOwner dealerBtc dealerUsd (senderWalletDescriptor f).

(** The flow of a payment: one that is stored with its hash, or read from a document with it. *)
Definition known h w f : Prop :=
  (∃ raw, raw ∈ w.(paymentFlows) ∧ raw.(fr_paymentHash) = Some h ∧
          paymentFlowFromRaw (with_flow_pending false raw) = Ok f) ∨
  (∃ (d : Doc) account, d ∈ w.(ledger) ∧ d.(raw_hash) = Some h ∧
          PaymentFlowFromLedgerTransaction (translateToLedgerTx d) account = Ok f).

(** The flows of the payment and the wallets are of users. *)
Record sound h w : Prop := {
  so_ready : all_ready w;
  so_flows : ∀ f, known h w f -> good f;
  so_wallets : ∀ wl : Wallet, wl ∈ w.(wallets) -> user_wallet bankOwner dealerBtc dealerUsd wl.(wl_descriptor);
}.

Lemma wp_getTransactionsByHash h (Q : Result (list LedgerTransaction) -> World X -> Prop) w :
  (∀ e w', same_state w w' -> Q (Err e) w') ->
  (∀ txns w', same_state w w' -> Forall (fun tx => ∃ d : Doc, d ∈ w.(ledger) ∧ d.(raw_hash) = Some h ∧ tx = translateToLedgerTx d) txns -> Q (Ok txns) w') ->
  wp (getTransactionsByHash h) Q w.
Proof.
  intros HErr HOk. unfold getTransactionsByHash, MainBook_ledger.
  apply wp_bind_or, wp_catch, wp_db; [intros; by apply HErr|]. intros x. apply wp_gets, wp_ret, HOk; [done|].
  apply Forall_forall. intros tx Htx. apply list_elem_of_fmap in Htx as (d & -> & Hd).
  apply list_elem_of_filter in Hd as [[_ Hh%bool_decide_eq_true]%andb_true_iff Hd]. by exists d.
Qed.

Lemma wp_reconstruct h a (Q : Result PaymentFlowState -> World X -> Prop) w : all_ready w ->
  (∀ r w', same_state w w' -> (∀ f, r = Ok f -> ∃ (d : Doc) account, d ∈ w.(ledger) ∧ d.(raw_hash) = Some h ∧
     PaymentFlowFromLedgerTransaction (translateToLedgerTx d) account = Ok f) -> Q r w') ->
  wp (reconstructPendingPaymentFlow h a) Q w.
Proof.
  intros Hw HQ. unfold reconstructPendingPaymentFlow. apply wp_bind_or, wp_getTransactionsByHash; [intros; by apply HQ|].
  intros txns w1 S1 Htx. apply wp_bind_or, (wp_getNonEndUserWalletIds bankOwner dealerBtc dealerUsd funder).
  { destruct S1. by eapply all_ready_same. }
  intros ids. destruct (filter _ txns) as [|p ps] eqn:Ep; [by apply wp_ret, HQ|].
  case_match; [by apply wp_ret, HQ|]. unfold findWalletById, findAccountById.
  apply wp_bind_or, (wp_keeps same_state); [auto with keeps|]. intros [wl|e] w2 S2; [|apply HQ; [by etrans|done]].
  apply wp_bind_or, (wp_keeps same_state); [auto with keeps|].
  intros [acc|e] w3 S3; [|apply HQ; [by do 2 (etrans; [|eassumption])|done]].
  apply wp_ret, HQ; [by do 2 (etrans; [|eassumption])|]. intros f Hf.
  destruct (filter _ (p :: ps)) as [|q [|]] eqn:Eq; [done| |done].
  assert (Hq : q ∈ txns).
  { assert (Hin : q ∈ [q]) by by left. rewrite <- Eq in Hin. apply list_elem_of_filter in Hin as [_ Hin].
    rewrite <- Ep in Hin. by apply list_elem_of_filter in Hin as [_ ?]. }
  rewrite Forall_forall in Htx. destruct (Htx q Hq) as (d & Hd & Hh & ->). eauto.
Qed.

Lemma wp_pendingPaymentFlow h walletId a (Q : Result PaymentFlowState -> World X -> Prop) w : all_ready w ->
  (∀ r w', same_state w w' -> (∀ f, r = Ok f -> known h w f) -> Q r w') ->
  wp (pendingPaymentFlow h walletId a) Q w.
Proof.
  intros Hw HQ. assert (Hre : ∀ w', same_state w w' -> wp (reconstructPendingPaymentFlow h (Number a)) Q w').
  { intros w' S. apply wp_reconstruct; [destruct S; by eapply all_ready_same|]. intros r w2 S2 Hr.
    apply HQ; [by etrans|]. intros f Hf. right. destruct S as [[El _] _]. rewrite <- El. by apply Hr. }
  unfold pendingPaymentFlow, markLightningPaymentFlowNotPending, flow_hash. apply wp_bind.
  destruct (truthy (Some h)); [|by apply wp_ret, Hre].
  apply wp_bind_or, wp_catch, wp_db; [intros; by apply Hre|].
  intros x. apply wp_bind, wp_gets. cbn [paymentFlows with_outside].
  destruct (update_first _ _ _) as [l' found] eqn:Eu. apply wp_bind, wp_modify, wp_ret, wp_ret.
  destruct found as [raw|]; [|by apply Hre].
  destruct (paymentFlowFromRaw raw) as [f|e] eqn:Ef; [|by apply Hre].
  apply wp_ret, HQ; [done|]. intros f' [= <-]. apply update_first_result in Eu as (r0 & Hr0 & -> & Hm).
  unfold flow_index in Hm. cbn in Hm. apply andb_true_iff in Hm as [[Hh%bool_decide_eq_true _]%andb_true_iff _].
  left. by exists r0.
Qed.

(** The node has paid the invoice, with the amount of the flow. *)
Definition delivered (l : LnPaymentLookup) f : Prop :=
  l.(lk_status) ≠ PaymentFailed ∧
  num_eqb (num_sub l.(lk_roundedUpAmount) (js_or (cd_roundedUpFee <$> l.(lk_confirmedDetails)) (Number 0)))
    (Number f.(btcPaymentAmount).(amount)) = true.

Lemma lookup_failed_spec l f : if lookup_failed l f then ¬ delivered l f else delivered l f.
Proof.
  unfold lookup_failed, delivered, lookup_fee. destruct l.(lk_status) eqn:E; cbn.
  2: by intros [[] _].
  all: case_match; [intros [_ Hn]; rewrite Hn in *; done|]; split; [done|];
    by apply negb_false_iff.
Qed.

(** What the update does to the accounts, by what the node said of the payment: a failed payment
    from a BTC wallet undoes its journal, which moved [D0]; one from a USD wallet pays its amount and
    fee to the BTC wallet of an account; a payment that succeeded gets back the fee it did not use,
    unless the fee was known in advance. *)
Definition resolves (D0 : Change) (p : LedgerTransaction) (l : LnPaymentLookup) w f (D : Change) : Prop :=
  (¬ delivered l f ->
    if decide (f.(senderWalletCurrency) = Btc) then ∀ a c, D a c = - D0 a c
    else ∃ wl : Wallet, wl ∈ w.(wallets) ∧ wl.(w_currency) = Btc ∧
           D (toLedgerAccountId wl.(w_id)) Btc = - (totalAmountsForPayment f).(btc).(amount)) ∧
  (delivered l f ->
    if p.(lt_feeKnownInAdvance) then ∀ a c, D a c = 0 else charge f D = - reimbursement f (lookup_fee l)).

Lemma wp_btc_wallet_of (recipientWallet : Wallet) (Q : Result Wallet -> World X -> Prop) w :
  recipientWallet ∈ w.(wallets) -> (∀ e w', same_state w w' -> Q (Err e) w') ->
  (∀ wl : Wallet, wl ∈ w.(wallets) -> wl.(w_currency) = Btc -> ∀ w', same_state w w' -> Q (Ok wl) w') ->
  wp (btc_wallet_of recipientWallet) Q w.
Proof.
  intros Hin HErr HOk. unfold btc_wallet_of. case_decide; [by apply wp_ret, HOk|].
  apply wp_bind_or, wp_repo; [intros; by apply HErr|]. intros x. cbn [wallets with_outside].
  destruct (filter _ w.(wallets)) as [|wl0 wls] eqn:E0; [by apply HErr|]. rewrite <- E0. apply wp_ret.
  destruct (filter _ (filter _ _)) as [|wl wls'] eqn:E1; [by apply HErr|].
  assert (Hwl : wl ∈ wl :: wls') by by left. rewrite <- E1 in Hwl. apply list_elem_of_filter in Hwl as [Hc Hwl].
  apply list_elem_of_filter in Hwl as [_ Hwl]. by apply HOk.
Qed.

Lemma wp_reimburseFailed walletId f p w : all_ready w -> payable f ->
  (∀ wl : Wallet, wl ∈ w.(wallets) -> user_wallet bankOwner dealerBtc dealerUsd wl.(wl_descriptor)) ->
  wp (reimburseFailedUsdPayment (M := M) walletId f p) (fun r w' => ∃ D, moved D w w' ∧
    match r with
    | Ok _ => ∃ wl : Wallet, wl ∈ w.(wallets) ∧ wl.(w_currency) = Btc ∧
                D (toLedgerAccountId wl.(w_id)) Btc = - (totalAmountsForPayment f).(btc).(amount)
    | Err _ => ∀ a c, D a c = 0
    end) w.
Proof using MediciLaws0 MediciBookLaws0.
  intros Hw [Ht _ _ _] Hus. set (Q := fun _ _ => _).
  assert (HErr : ∀ e w', same_state w w' -> Q (Err e) w')
    by (intros e w' [Hs _]; exists nothing; split; [by apply shifted_moved, same_shifted|done]).
  unfold reimburseFailedUsdPayment. apply wp_bind_or, (wp_keeps same_state).
  { unfold findWalletById, findAccountById. solve_keeps. }
  intros [dc|e] w1 S1; [|by apply HErr]. apply wp_or_return; [intros hash _|by intros; apply HErr].
  apply wp_bind_or, wp_findWalletById; [by intros; apply HErr|]. intros rw x Hrw _.
  assert (S12 : same_state w (with_outside w1 x)) by done.
  apply wp_bind_or, wp_btc_wallet_of; [done|intros; apply HErr; by etrans|].
  intros wl Hwl Hcur w3 S3. assert (S : same_state w w3) by (by etrans). destruct S12 as [_ Ew]. rewrite Ew in Hwl.
  cbn zeta. match goal with |- context [recordReceiveOffChain ?a ?b ?c ?d ?e ?f ?g ?h] =>
    destruct (receive_nets (MainBook_entry (X := X)) bankOwner dealerBtc dealerUsd entry_empty true a b c d e f g h)
      as (Hbal & HR & _) end; [done|done|by apply Hus| |].
  { destruct Ht as (_ & _ & ? & ?). intros []; cbn in *; lia. }
  apply wp_bind_or. eapply wp_mono; [apply (wp_record bankOwner dealerBtc dealerUsd
    (fun ids => receive_entry _ _ ids _ _ _ _ _ _ _ _)); [|exact Hbal]; destruct S; by eapply all_ready_same|].
  intros [j|e] w4; [|intros S4; exists nothing; split; [|done]; apply shifted_moved, same_shifted;
    destruct S as [S _]; by etrans].
  intros [Hm _]. apply wp_ret. eexists. split; [eapply shifted_then; [apply same_shifted, S|exact Hm]|].
  exists wl. split_and!; [done|done|]. rewrite Hcur in HR. exact HR.
Qed.

Lemma wp_finalize b ws h j rc (Q : Result bool -> World X -> Prop) w : all_ready w ->
  (∀ r w', shifted w w' -> Q r w') -> wp (finalizePaymentUpdate (M := M) cfg b ws h j rc) Q w.
Proof.
  intros Hw HQ. unfold finalizePaymentUpdate.
  apply wp_bind_or, wp_updateLnPaymentState. intros [u|e] w1 S1; [|by apply HQ].
  apply wp_bind_or, (wp_getWalletTransactionByJournalId bankOwner dealerBtc dealerUsd funder).
  { destruct S1 as [Hb _]. unfold Money.all_ready. by rewrite Hb. }
  intros [tx|e] w2 S2; [|by apply HQ; eapply shifted_same].
  apply wp_bind, wp_modify, wp_ret, HQ. by eapply shifted_same.
Qed.

Definition settles_as (D0 : Change) h p l w (r : Result bool) (w' : World X) : Prop :=
  ∃ D, moved D w w' ∧
  match r with
  | Ok _ => (clear h w ∧ ∀ a c, D a c = 0) ∨ ∃ f, known h w f ∧ resolves D0 p l w f D
  | Err _ => (∀ a c, D a c = 0) ∨ ∃ f, known h w f ∧ resolves D0 p l w f D
  end.

Lemma settled_err D0 h p l w e w' : shifted w w' -> settles_as D0 h p l w (Err e) w'.
Proof. intros Hs. exists nothing. split; [by apply shifted_moved|by left]. Qed.

(** Once the money has moved as the lookup asks for, the rest does not change it. *)
Lemma wp_finalize_moved D0 D h p l b ws rc f w w1 : all_ready w -> moved D w w1 -> known h w f ->
  resolves D0 p l w f D ->
  wp (finalizePaymentUpdate (M := M) cfg b ws h p.(lt_journalId) rc) (settles_as D0 h p l w) w1.
Proof.
  intros Hw Hm Hg HD. apply wp_finalize; [destruct Hm as [Hb _]; unfold Money.all_ready; by rewrite Hb|].
  intros r w2 S2. exists D. split; [by eapply moved_shifted|]. destruct r; right; eauto.
Qed.

Lemma wp_settlePendingLnSend_wallets h (Q : Result bool -> World X -> Prop) w :
  (∀ r w', shifted w w' -> w'.(wallets) = w.(wallets) -> Q r w') -> wp (settlePendingLnSend h) Q w.
Proof.
  intros HQ. unfold settlePendingLnSend, updateMany. apply wp_bind_or, wp_catch, wp_db.
  - intros msg x. by apply HQ; [apply same_shifted|].
  - intros x. apply wp_bind, wp_gets, wp_bind, wp_modify, wp_ret, wp_ret, HQ; [|done].
    split; [done|]. by apply relabels_update.
Qed.

(** The steps that follow the settlement. *)
Lemma wp_resolve D0 h p l ws rc f w w1 :
  sound h w -> shifted w w1 -> w1.(wallets) = w.(wallets) -> all_ready w1 -> known h w f ->
  journal_moves p.(lt_journalId) D0 w1.(ledger) -> whole_fee (lookup_fee l) ->
  wp (settled_steps (M := M) cfg h p l ws rc f) (settles_as D0 h p l w) w1.
Proof using MediciLaws0 MediciBookLaws0.
  intros Hw B Ew Hr1 Hk Hj (z & Hz & Hzb). pose proof (so_flows _ _ Hw _ Hk) as Hg. assert (Hr : all_ready w) by apply Hw. unfold settled_steps.
  assert (Hback : ∀ D w2 e, moved D w1 w2 -> (∀ a c, D a c = 0) -> settles_as D0 h p l w (Err e) w2)
    by (intros D w2 e Hm HD; exists D; split; [by eapply shifted_then|by left]).
  pose proof (lookup_failed_spec l f) as Hfail. destruct (lookup_failed l f).
  - apply wp_bind_or. case_decide as Hc.
    + eapply wp_mono; [by apply (wp_recordLnSendRevert _ h D0)|]. intros [b|e] w2 Hm.
      * eapply wp_finalize_moved; [done|by eapply shifted_then|done|]. split; [|done]. intros _. by rewrite decide_True.
      * apply settled_err. by eapply shifted_same.
    + eapply wp_mono; [apply wp_reimburseFailed; [done|apply Hg|rewrite Ew; apply Hw]|].
      intros [b|e] w2 (D & Hm & HD); [|by eapply Hback]. rewrite Ew in HD.
      eapply wp_finalize_moved; [done|by eapply shifted_then|done|]. split; [|done]. intros _. by rewrite decide_False.
  - apply wp_bind, (wp_keeps same_books).
    { case_match; [|auto with keeps]. apply keeps_bind; [apply _|auto with keeps|]. intros. apply keeps_ret; apply _. }
    intros _ w2 S2. assert (B2 : shifted w w2) by (by eapply shifted_same).
    assert (Hr2 : all_ready w2) by (destruct S2 as [_ Hb]; unfold Money.all_ready; by rewrite Hb).
    destruct p.(lt_feeKnownInAdvance) eqn:Ek.
    { eapply wp_finalize_moved; [done|by apply shifted_moved|done|]. split; [done|]. by rewrite Ek. }
    case_match; [by apply wp_ret, settled_err|]. apply wp_bind_or. rewrite Hz.
    eapply wp_mono; [apply (wp_reimburseFee bankOwner dealerBtc dealerUsd); [apply Hg|apply Hg|apply Hr2|done]|].
    intros [b|e] w3 (D & Hm & HD).
    + eapply wp_finalize_moved; [done|by eapply shifted_then|done|]. split; [done|]. by rewrite Ek, Hz.
    + exists D. split; [by eapply shifted_then|]. by left.
Qed.

(** C15. What updating a pending payment moves.  The books stay balanced, whatever fails; and the
    accounts change as the node's answer asks for: not at all when the payment had been settled
    before, as the opposite of the payment's journal when a payment from a BTC wallet failed, by the
    amount and the fee to a BTC wallet of a user when one from a USD wallet failed, and by the part of the
    fee that was not used when it succeeded, or by nothing when the fee was known.  An update that
    reports an error has changed nothing, or has done just that. *)
Theorem pending_payment_resolved D0 h p l ws rc w (Hw : sound h w)
    (Hj : journal_moves p.(lt_journalId) D0 w.(ledger)) (Hfee : whole_fee (lookup_fee l)) :
  wp (lockedPendingPaymentSteps (M := M) cfg h p l ws rc) (settles_as D0 h p l w) w.
Proof using MediciLaws0 MediciBookLaws0.
  unfold lockedPendingPaymentSteps. apply wp_bind_or, wp_isLnTxRecorded. intros r w1 S1 Ef Hrec.
  assert (B1 : shifted w w1) by apply same_shifted, S1.
  destruct r as [[]|e]; [|clear Hrec|by apply settled_err].
  { apply wp_ret. exists nothing. split; [by apply shifted_moved|]. left. split; [by apply (Hrec true)|done]. }
  apply wp_or_return; [intros a _|by intros; apply settled_err].
  pose proof S1 as [[El _] _].
  apply wp_bind_or, wp_pendingPaymentFlow; [destruct S1; by eapply all_ready_same; [apply Hw|]|]. intros r w2 S2 Hk.
  assert (S : same_state w w2) by (by etrans). clear S2 S1 B1.
  destruct r as [f|e]; [|apply settled_err, same_shifted, S]. specialize (Hk f eq_refl).
  assert (Hkw : known h w f) by (unfold known in Hk; by rewrite Ef, El in Hk).
  apply wp_bind_or, wp_settlePendingLnSend_wallets. intros r w3 S3 Ew3.
  assert (B : shifted w w3).
  { destruct S as [[El2 Eb2] _], S3 as [Hb3 Hl3]. split; [congruence|by rewrite <- El2]. }
  destruct r as [u|e]; [|by apply settled_err]. destruct S as [_ Ew2]. rewrite Ew2 in Ew3.
  assert (Hr3 : all_ready w3) by (destruct B as [Hb _]; unfold Money.all_ready; rewrite Hb; apply Hw).
  apply wp_resolve; try done. by apply (shifted_journal _ _ w).
Qed.

End Moves.

Module PendingExamples.
Import BookExamples.

#[local] Instance two_digits : Intl := fun _ => Some 2.

Definition cfg : MemoSharingConfig := mkMemoSharing (Number 0) (Number 0) [].
Definition flow : PaymentFlowState := SendExamples.flow.

(** Bob's payment of 10000 satoshis, with a fee of 50, is recorded and pending. *)
Definition md : LedgerMetadata :=
  LnSendLedgerMetadata "hash" "node" (flow_amounts flow) (mkDisplayTxn (Number 300) (Number 2) "USD") false None.
Definition waiting : World nat :=
  let w := (recordSendOffChain (M := L0) "" LedgerExamples.bob (totalAmountsForPayment flow) None md.(metadata)
              md.(debitAccountAdditionalMetadata) md.(internalAccountsAdditionalMetadata) SendExamples.funded).2 in
  mkWorld w.(ledger) w.(txMetadata) [] [] [] [mkWalletRecord LedgerExamples.bob []]
    [mkAccountRecord "b" None LevelOne [mkStatusEntry Active None None] false [] None "user" None None] [] [] [] w.(bankWallets) w.(outside).

Definition payment : LedgerTransaction :=
  default HistoryExamples.sent
    (head (filter (fun tx => tx.(lt_walletId) = Some "bob" ∧ tx.(lt_type) = Payment) (translated waiting.(ledger)))).

(** The node says that the payment failed. *)
Definition failed : LnPaymentLookup := mkLnPaymentLookup PaymentFailed (Number 0) None.
Definition bob_device : NotificationRecipient := mkRecipient "b" "bob" "user" LevelOne.

Abbreviation update := (lockedPendingPaymentSteps (M := L0) (X := nat) cfg "hash" payment failed ["bob"] bob_device).

Definition D0 : Change := fun a c => book_account_net a c (of_journal "journal-1" waiting.(ledger)).

(** The only flow of the payment is the one that its transaction gives. *)
Lemma waiting_flow f : known "hash" waiting f -> ∃ account, PaymentFlowFromLedgerTransaction payment account = Ok f.
Proof.
  intros [(raw & Hraw & _)|(d & account & Hd & _ & Hf)]; [by apply not_elem_of_nil in Hraw|]. exists account.
  assert (HL : Forall (fun d : Doc => PaymentFlowFromLedgerTransaction (translateToLedgerTx d) account
    ∈ [PaymentFlowFromLedgerTransaction payment account; Err NonLnPaymentTransactionForPaymentFlowError;
       Err MissingPropsInTransactionForPaymentFlowError]) waiting.(ledger)).
  { vm_compute. repeat constructor. }
  rewrite Forall_forall in HL. specialize (HL d Hd). rewrite Hf, !elem_of_cons, elem_of_nil in HL.
  destruct HL as [->|[[=]|[[=]|[]]]]. reflexivity.
Qed.

Lemma waiting_sound : sound "bank" "dealer-btc" "dealer-usd" "funder" "hash" waiting.
Proof.
  split.
  - vm_compute. by repeat split.
  - intros f (account & Hf)%waiting_flow. vm_compute in Hf. injection Hf as <-.
    split; [|exact LedgerExamples.user_bob].
    split; [by repeat split..|done|]. intros r [= <-]. reflexivity.
  - intros wl Hwl. apply list_elem_of_singleton in Hwl as ->. apply LedgerExamples.user_bob.
Qed.

(** Bob was charged 10050 satoshis, and has them back after the update. *)
Lemma pending_payment_resolved_witness :
  D0 "Liabilities:bob" Btc = 10050 ∧ (update waiting).1 = Ok true ∧
  book_account_net "Liabilities:bob" Btc (update waiting).2.(ledger)
    = book_account_net "Liabilities:bob" Btc waiting.(ledger) - 10050.
Proof.
  assert (E0 : D0 "Liabilities:bob" Btc = 10050) by (vm_compute; reflexivity).
  assert (E : (update waiting).1 = Ok true) by (vm_compute; reflexivity).
  assert (Hj : journal_moves payment.(lt_journalId) D0 waiting.(ledger)).
  { split; [intros []; vm_compute; reflexivity|intros a c; reflexivity]. }
  assert (Hfee : whole_fee (lookup_fee failed)) by (exists 0; split; [reflexivity|lia]).
  assert (Hp : filter (pending_with "hash") waiting.(ledger) ≠ []) by (vm_compute; discriminate).
  split; [exact E0|]. split; [exact E|].
  destruct (wp_run _ _ _ _ (pending_payment_resolved (M := L0) cfg "bank" "dealer-btc" "dealer-usd" "funder" D0 "hash"
    payment failed ["bob"] bob_device waiting waiting_sound Hj Hfee) E) as (D & (_ & _ & HD) & [[Hc _]|(f & Hk & Hres)]).
  - exfalso. exact (Hp Hc).
  - etransitivity; [exact (HD "Liabilities:bob" Btc)|].
    apply waiting_flow in Hk as (account & Hf). vm_compute in Hf. injection Hf as <-.
    destruct Hres as [Hres _]. rewrite (Hres (fun Hd => match Hd with conj H _ => H eq_refl end) "Liabilities:bob" Btc).
    rewrite E0. reflexivity.
Defined.

(** The first update writes to the ledger; a second one leaves it as it is. *)
Lemma pending_payment_once_witness :
  (length (update waiting).2.(ledger) > length waiting.(ledger))%nat ∧
  (update (update waiting).2).2.(ledger) = (update waiting).2.(ledger).
Proof.
  assert (E : (length (update waiting).2.(ledger) > length waiting.(ledger))%nat) by (vm_compute; lia).
  assert (Hj : Forall (fun d : Doc => d.(raw_hash) = Some "hash") (of_journal payment.(lt_journalId) waiting.(ledger))).
  { vm_compute. repeat constructor. }
  split; [exact E|].
  destruct (pending_payment_once (M := L0) cfg "hash" payment failed ["bob"] bob_device waiting Hj) as [Hs|Hs].
  - exfalso. rewrite Hs in E. lia.
  - exact (Hs payment failed ["bob"] bob_device).
Defined.

End PendingExamples.
