(* ===== verification/ReceiveLightning.v ===== *)
(** * Receiving a Lightning payment

    Models [app/wallets/update-single-pending-invoice.ts], [decline-single-pending-invoice.ts],
    [process-pending-invoice-result.ts] and the handler of one invoice of [handle-held-invoices.ts]:
    an invoice that the node holds is settled there, marked as paid and credited, or canceled.
    Span attributes and logs are left out. *)

From S2P Require Import Prelude JsNumber Shared Prices Fees Lightning PaymentFlow LightningBuilder.
From S2P Require Import LedgerEntry TxMetadata LedgerTx TxHistory Limits Invoices World LedgerBook LedgerService.
From S2P Require Import Services Repositories WalletInvoices Money.

Definition checkedToSats (amt : number) : Result number :=
  if negb (truthy amt && num_ltb (Number 0) amt) then Err InvalidSatoshiAmountError
  else if num_gtb_bigint amt MAX_SATS.(amount) then Err BtcAmountTooLargeError
  else Ok amt.

Inductive ProcessedReason := InvoiceNotFound | InvoiceCanceled | InvoiceNotFoundOrCanceled.

(** An exception is the [ProcessError] of a [JsThrow]. *)
Inductive ProcessPendingInvoiceResult :=
| MarkProcessedAsPaid
| MarkProcessedAsPaidWithError (error : ApplicationError)
| MarkProcessedAsCanceledOrExpired (reason : ProcessedReason)
| ReasonInvoiceNotPaidYet
| ProcessError (error : ApplicationError).

#[export] Instance FromError_Process : FromError ProcessPendingInvoiceResult := ProcessError.
#[export] Instance Throws_Process : Throws ProcessPendingInvoiceResult :=
  fun r => match r with ProcessError (JsThrow msg) => Some msg | _ => None end.

(** [processAsPaidWithError], but for an exception, which is not caught. *)
Definition processAsPaidWithError (error : ApplicationError) : ProcessPendingInvoiceResult :=
  match error with JsThrow _ => ProcessError error | _ => MarkProcessedAsPaidWithError error end.

(** The result for an invoice whose processing is completed. *)
Definition already_processed (paid : bool) : ProcessPendingInvoiceResult :=
  if paid then MarkProcessedAsPaid else MarkProcessedAsCanceledOrExpired InvoiceNotFoundOrCanceled.

Section Receive.
Context {M X : Type} `{MediciEntry M} `{!MediciBook M X} `{Database X} `{Resolvers X}.
Context `{Redlock X} `{PriceServices X} `{ILightningService X} `{Intl}.
Context (RATIO_PRECISION : number) (usdHedgeEnabled : bool) (memoSharingConfig : MemoSharingConfig).
Context (parsePaymentRequest : string -> result string DecodedInvoice).

(** [WalletInvoiceReceiver(...).withConversion(...)] with the mid price and the dealer's price, which are
    asked for when they are needed. *)
Definition receivedInvoice (walletInvoice : WalletInvoiceBase) (receivedBtc : Amount)
    (recipientWalletDescriptors : AccountWalletDescriptors) : IO X (Result Received) :=
  WalletInvoiceReceiver.withConversion (F := Async X) walletInvoice recipientWalletDescriptors receivedBtc None
    (fun a => ext (getCentsFromSatsForImmediateBuy a)) (usdFromBtcMidPriceFn RATIO_PRECISION usdHedgeEnabled).

(** "Idempotent settle invoice in lnd" *)
Definition settle_in_lnd (walletInvoice : WalletInvoiceBase) (isSettledInLnd : bool) : IO X (Result unit) :=
  if isSettledInLnd then mret (Ok tt) else
  _ ←? ext LndService;
  ext (settleInvoice walletInvoice.(wi_pubkey) walletInvoice.(wi_secret)).

(** "Prepare and send notification" *)
Definition notify_receipt (recipientAccountId : AccountId) (recipientAccount : Account)
    (recipientWalletId : WalletId) (journalId : string) : IO X ProcessPendingInvoiceResult :=
  recipientUser ← findUserById recipientAccount.(acc_kratosUserId);
  match recipientUser with
  | Err error => mret (processAsPaidWithError error)
  | Ok userId =>
      walletTransaction ← getWalletTransactionByJournalId (M := M) memoSharingConfig recipientWalletId journalId;
      match walletTransaction with
      | Err error => mret (processAsPaidWithError error)
      | Ok transaction =>
          let recipient := {| nr_accountId := recipientAccountId; nr_walletId := recipientWalletId;
                              nr_userId := userId; nr_level := recipientAccount.(acc_level) |} in
          _ ← modify (fun w => with_notified w (w.(notified) ++ [(recipient, transaction)]));
          mret MarkProcessedAsPaid
      end
  end.

Definition lockedUpdatePendingInvoiceSteps (paymentHash : PaymentHash) (recipientWalletId : WalletId)
    (receivedBtc : Amount) (description : string) (externalId : LedgerExternalId) (isSettledInLnd : bool)
    : IO X ProcessPendingInvoiceResult :=
  walletInvoice ←? findInvoiceByPaymentHash parsePaymentRequest paymentHash;
  if walletInvoice.(wi_processingCompleted) then mret (already_processed walletInvoice.(wi_paid)) else
  recipientInvoiceWallet ←? findWalletById recipientWalletId;
  let recipientAccountId := recipientInvoiceWallet.(w_accountId) in
  accountWallets ←? findAccountWalletsByAccountId recipientAccountId;
  received ←? receivedInvoice walletInvoice receivedBtc accountWallets;
  recipientAccount ←? findAccountById recipientAccountId;
  displayPriceRatio ←? getCurrentPriceAsDisplayPriceRatio RATIO_PRECISION recipientAccount.(acc_displayCurrency);
  let paymentAmounts := {|
    aaf_btcPaymentAmount := received.(rcv_btcToCreditReceiver);
    aaf_usdPaymentAmount := received.(rcv_usdToCreditReceiver);
    aaf_btcProtocolAndBankFee := received.(rcv_btcBankFee);
    aaf_usdProtocolAndBankFee := received.(rcv_usdBankFee) |} in
  display ←! DisplayAmountsConverter.convert displayPriceRatio paymentAmounts;
  let md := LnReceiveLedgerMetadata paymentHash walletInvoice.(wi_pubkey) paymentAmounts {|
    dt_displayAmount := toDisplayBaseAmount display.(da_displayAmount);
    dt_displayFee := toDisplayBaseAmount display.(da_displayFee);
    dt_displayCurrency := recipientAccount.(acc_displayCurrency) |} in
  _ ←? settle_in_lnd walletInvoice isSettledInLnd;
  _ ←? markAsPaid parsePaymentRequest paymentHash;
  journal ←? recordReceiveOffChain (M := M) description received.(rcv_recipientWalletDescriptor)
    {| usd := received.(rcv_usdToCreditReceiver); btc := received.(rcv_btcToCreditReceiver) |}
    (Some {| usd := received.(rcv_usdBankFee); btc := received.(rcv_btcBankFee) |})
    (Some externalId) md.(metadata) md.(creditAccountAdditionalMetadata) md.(internalAccountsAdditionalMetadata)
    (Some paymentHash) (Some walletInvoice.(wi_secret));
  notify_receipt recipientAccountId recipientAccount received.(rcv_recipientWalletDescriptor).(w_id)
    journal.(LedgerEntry.journalId).

(** The call of [notPaid] for an invoice that is not held is not returned, so it has no effect. *)
Definition processPendingInvoiceForDecline (walletInvoice : WalletInvoiceBase)
    : IO X ProcessPendingInvoiceResult :=
  let hash := walletInvoice.(wi_paymentHash) in
  _ ←? ext LndService;
  lnInvoiceLookup ← ext (lookupInvoice walletInvoice.(wi_pubkey) hash);
  match lnInvoiceLookup with
  | Err InvoiceNotFoundError => mret (MarkProcessedAsCanceledOrExpired InvoiceNotFound)
  | Err error => mret (ProcessError error)
  | Ok lookup =>
      if lookup.(li_isSettled) then mret (MarkProcessedAsPaidWithError (InvalidNonHodlInvoiceError hash)) else
      _ ←? ext (cancelInvoice walletInvoice.(wi_pubkey) hash);
      mret MarkProcessedAsPaid
  end.

Definition processPendingInvoice (walletInvoice : WalletInvoiceBase) : IO X ProcessPendingInvoiceResult :=
  let hash := walletInvoice.(wi_paymentHash) in
  _ ←? ext LndService;
  lnInvoiceLookup ← ext (lookupInvoice walletInvoice.(wi_pubkey) hash);
  match lnInvoiceLookup with
  | Err InvoiceNotFoundError => mret (MarkProcessedAsCanceledOrExpired InvoiceNotFound)
  | Err error => mret (ProcessError error)
  | Ok lookup =>
      if walletInvoice.(wi_processingCompleted) then mret (already_processed walletInvoice.(wi_paid)) else
      if lookup.(li_isCanceled) then mret (MarkProcessedAsCanceledOrExpired InvoiceCanceled) else
      if negb lookup.(li_isHeld) && negb lookup.(li_isSettled) then mret ReasonInvoiceNotPaidYet else
      match (roundedDownReceived ← checkedToSats lookup.(li_roundedDownReceived);
             paymentAmountFromNumber roundedDownReceived Btc) with
      | Err _ => processPendingInvoiceForDecline walletInvoice
      | Ok receivedBtc =>
          result ← lockPaymentHash hash (lockedUpdatePendingInvoiceSteps hash
            walletInvoice.(wi_recipientWalletDescriptor).(w_id) receivedBtc lookup.(li_description)
            walletInvoice.(wi_externalId) lookup.(li_isSettled));
          mret (match result with Ok r => r | Err error => ProcessError error end)
      end
  end.

Definition updatePendingInvoice (walletInvoice : WalletInvoiceBase) : IO X (Result bool) :=
  let hash := walletInvoice.(wi_paymentHash) in
  result ← processPendingInvoice walletInvoice;
  match thrown result with
  | Some msg => mret (Err (JsThrow msg))
  | None =>
      if walletInvoice.(wi_processingCompleted) then mret (Ok true) else
      match result with
      | MarkProcessedAsCanceledOrExpired _ => _ ←? markAsProcessingCompleted parsePaymentRequest hash; mret (Ok true)
      | MarkProcessedAsPaid | MarkProcessedAsPaidWithError _ =>
          marked ← markAsPaid parsePaymentRequest hash;
          mret (match marked with
                | Ok _ | Err CouldNotFindWalletInvoiceError =>
                    match result with MarkProcessedAsPaidWithError error => Err error | _ => Ok true end
                | Err error => Err error
                end)
      | ProcessError error => mret (Err error)
      | ReasonInvoiceNotPaidYet => mret (Ok true)
      end
  end.

Definition declineHeldInvoice (walletInvoice : WalletInvoiceBase) : IO X (Result bool) :=
  result ← processPendingInvoiceForDecline walletInvoice;
  match result with
  | MarkProcessedAsCanceledOrExpired _ =>
      _ ←? markAsProcessingCompleted parsePaymentRequest walletInvoice.(wi_paymentHash); mret (Ok true)
  | ProcessError error => mret (Err error)
  | MarkProcessedAsPaid | MarkProcessedAsPaidWithError _ | ReasonInvoiceNotPaidYet => mret (Ok true)
  end.

Definition handleHeldInvoiceByPaymentHash (paymentHash : PaymentHash) : IO X (Result bool) :=
  walletInvoice ←? findInvoiceByPaymentHash parsePaymentRequest paymentHash;
  now ← ext Date_now;
  if shouldDecline (Ok walletInvoice.(wi_base)) now then declineHeldInvoice walletInvoice
  else updatePendingInvoice walletInvoice.

End Receive.

(** ** An invoice is credited once *)

Section Once.
Context {M X : Type} `{MediciEntry M} `{!MediciLaws M} `{!MediciBook M X} `{!MediciBookLaws M X}
  `{Database X} `{Resolvers X} `{Redlock X} `{PriceServices X} `{ILightningService X} `{Intl}.
Context (precision : number) (hedge : bool) (cfg : MemoSharingConfig) (parse : string -> result string DecodedInvoice).
Implicit Types (w : World X) (h : PaymentHash).

Abbreviation steps := (lockedUpdatePendingInvoiceSteps (M := M) (X := X) precision hedge cfg parse).

Lemma keeps_receivedInvoice (R : relation (World X)) `{!Reads R} i a ds :
  keeps R (receivedInvoice (X := X) precision hedge i a ds).
Proof.
  assert (Hmid : ∀ wd, keeps R (WalletInvoiceReceiver.receivedWalletInvoiceFromBtcAmountMid (F := Async X) i ds a None
    (usdFromBtcMidPriceFn precision hedge) wd)).
  { intros wd. apply keeps_async_bind; [apply _|auto with keeps|intros ?; apply keeps_returns; apply _]. }
  unfold receivedInvoice, WalletInvoiceReceiver.withConversion. case_decide; [apply Hmid|].
  case_match; [apply keeps_returns; apply _|]. apply keeps_handle; [apply _| |].
  - apply keeps_async_bind; [apply _|apply keeps_ext; apply _|intros ?; apply keeps_returns; apply _].
  - intros [r|[]]; first [apply Hmid | apply keeps_returns; apply _].
Qed.

Lemma keeps_settle_in_lnd (R : relation (World X)) `{!Reads R} i b : keeps R (settle_in_lnd (X := X) i b).
Proof. unfold settle_in_lnd. solve_keeps. Qed.

Lemma keeps_notify (R : relation (World X)) `{!Frame R} `{!CacheFrame R} id acc wid j :
  keeps R (notify_receipt (M := M) (X := X) cfg id acc wid j).
Proof.
  unfold notify_receipt, findUserById. apply keeps_bind; [apply _|solve_keeps|]. intros [u|e]; [|apply keeps_ret; apply _].
  apply keeps_bind; [apply _|auto with keeps|]. intros [tx|e]; solve_keeps.
Qed.

Lemma keeps_receive_invoices d wd amt fee ext md cmd imd hash pre :
  keeps (@same_invoices X) (recordReceiveOffChain (M := M) d wd amt fee ext md cmd imd hash pre).
Proof.
  apply keeps_bind_or; [apply _|auto with keeps|]. intros ids. apply keeps_bind_or; [apply _| |intros s; solve_keeps].
  - apply keeps_catch; [apply _|]. intros w. unfold wp, entry_commit. by destruct (commit _ _ _) as [[[]|] ?].
  - unfold persistAll. case_match; solve_keeps.
Qed.

(** The steps up to the mark: they write nothing. *)
Lemma steps_before_mark h wid a d ext st (Q : ProcessPendingInvoiceResult -> World X -> Prop) w :
  (∀ r w', same_ledger w w' -> Q r w') ->
  (∀ w' (k : WalletInvoiceWithOptionalLnInvoice -> IO X ProcessPendingInvoiceResult), same_ledger w w' ->
     (∀ i, keeps (@same_invoices X) (k i)) -> wp (i ←? markAsPaid parse h; k i) Q w') ->
  wp (steps h wid a d ext st) Q w.
Proof.
  intros Hr Hm. unfold lockedUpdatePendingInvoiceSteps. apply wp_bind_or, wp_findInvoice; [intros; by apply Hr|].
  intros r rest i x1 _ _. assert (S1 : same_ledger w (with_outside w x1)) by done. destruct (wi_processingCompleted i); [by apply Hr|].
  unfold findWalletById, findAccountWalletsByAccountId, listByAccountId, findAccountById.
  apply wp_bind_or, (wp_keeps same_ledger); [solve_keeps|]. intros [wl|e] w2 S2; [|apply Hr; by etrans].
  apply wp_bind_or, (wp_keeps same_ledger); [solve_keeps|]. intros [ds|e] w3 S3; [|apply Hr; by do 2 (etrans; [|eassumption])].
  assert (S : same_ledger w w3) by (by do 2 (etrans; [|eassumption])).
  apply wp_bind_or, (wp_keeps same_ledger); [by apply keeps_receivedInvoice; apply _|]. intros [rcv|e] w4 S4; [|apply Hr; by etrans].
  apply wp_bind_or, (wp_keeps same_ledger); [solve_keeps|]. intros [acc|e] w5 S5; [|apply Hr; by do 2 (etrans; [|eassumption])].
  assert (S' : same_ledger w w5) by (by do 2 (etrans; [|eassumption])).
  apply wp_bind_or, (wp_keeps same_ledger); [auto with keeps|]. intros [dr|e] w6 S6; [|apply Hr; by etrans].
  apply wp_or_return; [intros display _|intros; apply Hr; by etrans]. cbn zeta.
  apply wp_bind_or, (wp_keeps same_ledger); [by apply keeps_settle_in_lnd; apply _|].
  intros [u|e] w7 S7; [|apply Hr; by do 2 (etrans; [|eassumption])].
  apply Hm; [by do 2 (etrans; [|eassumption])|]. intros i'. apply keeps_bind_or; [apply _|apply keeps_receive_invoices|].
  intros j. by apply keeps_notify; apply _.
Qed.

(** An invoice that is marked is not credited. *)
Lemma steps_marked h wid a d ext st w : marked h w ->
  wp (steps h wid a d ext st) (fun _ w' => same_ledger w w') w.
Proof.
  intros (r & rest & Hl & _ & Hc). unfold lockedUpdatePendingInvoiceSteps.
  apply wp_bind_or, wp_findInvoice; [done|]. intros r' rest' i x1 Hl' Hi.
  rewrite Hl in Hl'. injection Hl' as <- <-. assert (wi_processingCompleted i = true) as ->; [|done].
  unfold complete_invoice, invoice_of, walletInvoiceFromRaw, ensureWalletInvoiceHasLnInvoice in Hi.
  repeat case_match; simplify_eq/=; by repeat case_match; simplify_eq/=.
Qed.

(** C18. An invoice is credited at most once.  Processing it either leaves the ledger as it was, or
    leaves the invoice marked as paid, and then no later processing of it changes the ledger, whatever the
    node says it received and whatever fails. *)
Theorem invoice_credited_once h wid a d ext st w :
  wp (lockedUpdatePendingInvoiceSteps (M := M) (X := X) precision hedge cfg parse h wid a d ext st) (fun _ w1 =>
    w1.(ledger) = w.(ledger) ∨
    ∀ wid' a' d' ext' st', wp (lockedUpdatePendingInvoiceSteps (M := M) (X := X) precision hedge cfg parse h wid' a' d' ext' st') (fun _ w2 => w2.(ledger) = w1.(ledger)) w1) w.
Proof.
  apply steps_before_mark; [by left|]. intros w1 k S1 Hk. apply wp_bind_or, wp_markAsPaid.
  - intros e w2 [S2 _]. left. by etrans.
  - intros i w2 _ Hm. eapply wp_keeps; [apply Hk|]. intros r w3 S3. right. intros. apply steps_marked.
    by eapply marked_same.
Qed.

End Once.

(** ** What is credited *)

(** The amounts that the node reports are whole satoshis. *)
Class InvoiceLookupLaws (X : Type) `{ILightningService X} : Prop :=
  received_whole : ∀ pubkey h x l x', lookupInvoice pubkey h x = (Ok l, x') -> whole_fee l.(li_roundedDownReceived).

Lemma checkedToSats_Number z a : 0 <= z < 2 ^ 53 ->
  (v ← checkedToSats (Number z); paymentAmountFromNumber v Btc) = Ok a ->
  a = BtcPaymentAmount z ∧ 0 < z.
Proof.
  intros Hz. unfold checkedToSats. rewrite truthy_Number, num_ltb_Number by (unfold safe_integer; lia).
  destruct (Z.ltb_spec 0 z); [|by rewrite andb_false_r]. destruct (truthy z); [|done]. cbn [negb andb].
  destruct (num_gtb_bigint _ _); [done|]. cbn [mbind result_bind].
  rewrite paymentAmountFromNumber_Number by (unfold safe_integer; lia). by intros [= <-].
Qed.

(** An amount of dollars that a receipt can be valued at. *)
Definition priced (u : Amount) : Prop := u.(currency) = Usd ∧ 0 <= u.(amount) < 2 ^ 53.

(** A receipt of [a] without a fee, worth [u], for the wallet [wd]. *)
Record plain_receipt (a u : Amount) (wd : WalletDescriptor) (r : Received) : Prop := {
  pr_amounts : valid_pair {| usd := r.(rcv_usdToCreditReceiver); btc := r.(rcv_btcToCreditReceiver) |};
  pr_btc : r.(rcv_btcToCreditReceiver).(amount) = a.(amount);
  pr_usd : r.(rcv_usdToCreditReceiver).(amount) = u.(amount);
  pr_fees : valid_pair {| usd := r.(rcv_usdBankFee); btc := r.(rcv_btcBankFee) |};
  pr_no_fees : r.(rcv_usdBankFee).(amount) = 0 ∧ r.(rcv_btcBankFee).(amount) = 0;
  pr_wallet : r.(rcv_recipientWalletDescriptor) = wd;
}.

Lemma received_plain a u wd r : a.(currency) = Btc -> 0 < a.(amount) < 2 ^ 53 -> priced u ->
  WalletInvoiceReceiver.received a None u wd = Ok r -> plain_receipt a u wd r.
Proof.
  intros Hc Ha [Hu Hub] Hr. apply bind_Ok in Hr as (ratio & Hratio & [= <-]).
  destruct (ceil_fee u a ZERO_SATS ratio) as [Hq0 Hq]; [lia|lia|done|done|done|]. cbn in Hq.
  assert (Hz : (WalletPriceRatio.convertFromBtcToCeil ratio ZERO_SATS).(amount) = 0) by (cbn in *; nia).
  split; unfold valid_pair; cbn in *; repeat split; try done; lia.
Qed.

Section Credit.
Context {M X : Type} `{MediciEntry M} `{!MediciLaws M} `{!MediciBook M X} `{!MediciBookLaws M X}
  `{Database X} `{Resolvers X} `{Redlock X} `{PriceServices X} `{ILightningService X} `{Intl}.
Context (precision : number) (hedge : bool) (cfg : MemoSharingConfig) (parse : string -> result string DecodedInvoice).
Context (bankOwner dealerBtc dealerUsd funder : WalletId).
Implicit Types (w : World X) (h : PaymentHash) (a : Amount) (i : WalletInvoiceBase) (ds : AccountWalletDescriptors).

Abbreviation mid_price := (usdFromBtcMidPriceFn (X := X) precision hedge).
Abbreviation user := (user_wallet bankOwner dealerBtc dealerUsd).
Abbreviation all_ready := (all_ready bankOwner dealerBtc dealerUsd funder).

(** The dealer and the mid price value the amount. *)
Definition fairly_valued a : Prop :=
  (∀ x u x', getCentsFromSatsForImmediateBuy a x = (Ok u, x') -> priced u) ∧
  ∀ w, wp (mid_price a) (fun r _ => ∀ u, r = Ok u -> priced u) w.

(** The wallet and the amount to credit for a receipt of [a]: a BTC wallet gets the satoshis, a USD
    wallet the dollars of the invoice or those that the dealer gives, and the BTC wallet of the account
    gets the satoshis that are worth nothing to the dealer. *)
Definition credits i ds a (wd : WalletDescriptor) (amt : Z) : Prop :=
  let recipient := WalletInvoiceReceiver.recipientWalletDescriptor i ds in
  match recipient.(w_currency), i.(wi_usdAmount) with
  | Btc, _ => wd = recipient ∧ amt = a.(amount)
  | Usd, Some u => wd = recipient ∧ amt = u.(amount)
  | Usd, None =>
      (wd = recipient ∧ ∃ u x x', getCentsFromSatsForImmediateBuy a x = (Ok u, x') ∧ amt = u.(amount)) ∨
      (wd = ds.(BTC) ∧ amt = a.(amount) ∧ ∃ answer x x', getCentsFromSatsForImmediateBuy a x = (answer, x') ∧ worth_nothing answer)
  end.

Definition receipt_for i ds a (r : Received) : Prop :=
  (∃ u, plain_receipt a u r.(rcv_recipientWalletDescriptor) r) ∧
  credits i ds a r.(rcv_recipientWalletDescriptor)
    (amount_in {| usd := r.(rcv_usdToCreditReceiver); btc := r.(rcv_btcToCreditReceiver) |}
       r.(rcv_recipientWalletDescriptor).(w_currency)).

Lemma credits_user i ds a wd amt : credits i ds a wd amt -> user i.(wi_recipientWalletDescriptor) -> user ds.(BTC) -> user wd.
Proof.
  intros Hcr Hi Hds. unfold credits in Hcr. repeat case_match; [|destruct Hcr as [Hcr|Hcr]|]; by destruct Hcr as [-> _].
Qed.

Lemma wp_mid a (Q : Result Amount -> World X -> Prop) w : fairly_valued a ->
  (∀ r w', same_books w w' -> (∀ u, r = Ok u -> priced u) -> Q r w') -> wp (mid_price a) Q w.
Proof.
  intros [_ Hf] HQ. eapply wp_mono.
  - apply wp_and; [apply Hf|]. apply (keeps_usdFromBtcMidPriceFn same_books).
  - intros r w' [Hr Hs]. by apply HQ.
Qed.

Lemma wp_mid_receipt a wd (P : Received -> Prop) w w1 : fairly_valued a -> a.(currency) = Btc ->
  0 < a.(amount) < 2 ^ 53 -> same_books w w1 -> (∀ u rcv, plain_receipt a u wd rcv -> P rcv) ->
  wp (@mbind (Async X) calls_bind _ _ (fun receivedUsd => returns (WalletInvoiceReceiver.received a None receivedUsd wd)) (mid_price a))
    (fun r w' => same_books w w' ∧ ∀ rcv, r = Ok rcv -> P rcv) w1.
Proof.
  intros Hf Hc Ha S HP. apply wp_async_bind, wp_mid; [done|]. intros [u|e] w' S' Hu; [|split; [by etrans|done]].
  apply wp_returns. split; [by etrans|]. intros rcv Hr. apply received_plain in Hr; eauto.
Qed.

Lemma wp_receivedInvoice i ds a w : fairly_valued a -> a.(currency) = Btc -> 0 < a.(amount) < 2 ^ 53 ->
  (∀ u, i.(wi_usdAmount) = Some u -> priced u) -> ds.(BTC).(w_currency) = Btc ->
  wp (receivedInvoice precision hedge i a ds)
    (fun r w' => same_books w w' ∧ ∀ rcv, r = Ok rcv -> receipt_for i ds a rcv) w.
Proof.
  intros Hf Hc Ha Hi Hds. unfold receivedInvoice, WalletInvoiceReceiver.withConversion,
    WalletInvoiceReceiver.receivedWalletInvoiceFromBtcAmountMid, WalletInvoiceReceiver.receivedWalletInvoiceFromBtcAmountDealer,
    WalletInvoiceReceiver.receivedWalletInvoiceFromUsdAmountRatio, receipt_for, credits. cbn zeta.
  generalize (WalletInvoiceReceiver.recipientWalletDescriptor i ds). intros rcpt.
  destruct (w_currency rcpt) eqn:Er; [rewrite decide_False by done|rewrite decide_True by done].
  2: { apply wp_mid_receipt; [done..|]. intros u rcv Hp. pose proof (pr_wallet _ _ _ _ Hp) as ->. cbn [default].
    split; [by exists u|]. rewrite Er. split; [done|apply Hp]. }
  destruct (wi_usdAmount i) as [u|] eqn:Eu.
  { apply wp_ret. split; [done|]. intros rcv Hr. apply received_plain in Hr as Hp; [|auto..].
    pose proof (pr_wallet _ _ _ _ Hp) as ->. split; [by exists u|]. rewrite Er. split; [done|apply Hp]. }
  match goal with |- wp _ ?Q _ => assert (Hmid : ∀ answer x x' w1, getCentsFromSatsForImmediateBuy a x = (answer, x') -> worth_nothing answer ->
    same_books w w1 -> wp (@mbind (Async X) calls_bind _ _
    (fun receivedUsd => returns (WalletInvoiceReceiver.received a None receivedUsd (BTC ds))) (mid_price a)) Q w1) end.
  { intros answer x x' w1 Ex Hz S. apply wp_mid_receipt; [done..|]. intros u rcv Hp. pose proof (pr_wallet _ _ _ _ Hp) as ->.
    split; [by exists u|]. right. split; [done|]. rewrite Hds. split; [apply Hp|]. by exists answer, x, x'. }
  apply wp_handle, wp_async_bind, wp_ext. intros [u|e] x Ex;
    [|destruct e; first [by eapply Hmid | by apply wp_returns]].
  apply wp_returns. destruct (WalletInvoiceReceiver.received a None u rcpt) as [rcv|e] eqn:Hr.
  2: { assert (Hz : worth_nothing (Ok u)).
    { unfold WalletInvoiceReceiver.received in Hr. destruct (WalletPriceRatio.make u a) eqn:Em; [done|].
      eapply wallet_ratio_zero; [exact Em|lia]. }
    destruct e; first [by eapply Hmid | by apply wp_returns]. }
  apply wp_returns. split; [done|]. intros ? [= <-]. assert (Hu : priced u) by (by eapply (proj1 Hf)).
  apply received_plain in Hr as Hp; [|auto..]. pose proof (pr_wallet _ _ _ _ Hp) as ->.
  split; [by exists u|]. rewrite Er. left. split; [done|]. eexists _, _, _. split; [exact Ex|apply Hp].
Qed.

(** The wallets and the invoices of the hash are of users. *)
Record receivable h w : Prop := {
  rv_ready : all_ready w;
  rv_wallets : ∀ wl : Wallet, wl ∈ w.(wallets) -> user wl.(wl_descriptor);
  rv_invoices : ∀ r (i : WalletInvoice), r ∈ w.(walletInvoices) -> r.(ir_id) = h -> complete_invoice parse r = Ok i ->
    user i.(wi_recipientWalletDescriptor) ∧ ∀ u, i.(wi_usdAmount) = Some u -> priced u;
}.

(** The invoice, which was not processed, is credited with the receipt of [a] and marked as paid.  [rid] is the wallet in whose
    account the wallets are looked up. *)
Definition credited h rid a w w' (D : Change) : Prop :=
  marked h w' ∧ ∃ r (i : WalletInvoice) (owner : Wallet) ds wd amt,
    r ∈ w.(walletInvoices) ∧ r.(ir_id) = h ∧ complete_invoice parse r = Ok i ∧ i.(wi_processingCompleted) = false ∧
    owner ∈ w.(wallets) ∧ owner.(w_id) = rid ∧ wallets_of owner.(w_accountId) w ds ∧ credits i ds a wd amt ∧
    D (toLedgerAccountId wd.(w_id)) wd.(w_currency) = - amt ∧ D lndLedgerAccountId Btc = a.(amount).

Lemma credited_from h rid a w x w' D : credited h rid a (with_outside w x) w' D -> credited h rid a w w' D.
Proof.
  intros (Hm & r & i & owner & ds & wd & amt & Hr & Hh & Hi & Hp & Hin & Hid & Hof & Hcr). split; [exact Hm|].
  exists r, i, owner, ds, wd, amt. do 6 (split; [done|]). split; [by destruct Hof|exact Hcr].
Qed.

Definition moves_for h rid a w w' : Prop :=
  ∃ D, moved D w w' ∧ ((∀ x c, D x c = 0) ∨ credited h rid a w w' D).

Lemma moves_nothing h rid a w w' : same_books w w' -> moves_for h rid a w w'.
Proof. intros S. exists nothing. split; [by apply shifted_moved, same_shifted|by left]. Qed.

Lemma wp_notify id acc wid j w w1 D (P : World X -> Prop) : all_ready w1 -> moved D w w1 ->
  (∀ w', same_invoices w1 w' -> P w') ->
  wp (notify_receipt (M := M) cfg id acc wid j) (fun _ w' => moved D w w' ∧ P w') w1.
Proof.
  intros Hr Hm HP. eapply wp_mono; [apply wp_and; [|apply (keeps_notify cfg same_invoices)]|].
  2: { intros r w' [Hmv S]. split; [exact Hmv|]. by apply HP. }
  unfold notify_receipt, findUserById. apply wp_bind, wp_repo; [intros; by apply wp_ret|]. intros x.
  apply wp_bind, (wp_getWalletTransactionByJournalId bankOwner dealerBtc dealerUsd funder); [done|].
  intros r w2 S2. assert (moved D w w2) by (eapply moved_shifted; [exact Hm|by apply same_shifted]).
  destruct r; [|by apply wp_ret]. by apply wp_bind, wp_modify, wp_ret.
Qed.

(** The record of the receipt and what follows it. *)
Lemma wp_credit h a i ds rcv d ext md cmd imd sec id acc w w1 :
  all_ready w1 -> same_books w w1 -> marked h w1 ->
  receipt_for i ds a rcv -> user rcv.(rcv_recipientWalletDescriptor) ->
  wp (journal ←? recordReceiveOffChain (M := M) d rcv.(rcv_recipientWalletDescriptor)
        {| usd := rcv.(rcv_usdToCreditReceiver); btc := rcv.(rcv_btcToCreditReceiver) |}
        (Some {| usd := rcv.(rcv_usdBankFee); btc := rcv.(rcv_btcBankFee) |}) ext md cmd imd (Some h) sec;
      notify_receipt (M := M) cfg id acc rcv.(rcv_recipientWalletDescriptor).(w_id) journal.(LedgerEntry.journalId))
    (fun _ w' => ∃ D, moved D w w' ∧ ((∀ x c, D x c = 0) ∨ marked h w' ∧ ∃ wd amt, credits i ds a wd amt ∧
       D (toLedgerAccountId wd.(w_id)) wd.(w_currency) = - amt ∧ D lndLedgerAccountId Btc = a.(amount))) w1.
Proof using MediciLaws0 MediciBookLaws0.
  intros Hr S Hm [[u Hp] Hcr] Hu. destruct (pr_no_fees _ _ _ _ Hp) as [Hf0 Hf1].
  match goal with |- context [recordReceiveOffChain ?a ?b ?c ?d ?e ?f ?g ?h] =>
    destruct (receive_nets (MainBook_entry (X := X)) bankOwner dealerBtc dealerUsd entry_empty true a b c d e f g h)
      as (Hbal & HR & HA) end; [apply Hp| |done| |].
  { intros f [= <-]. split; [apply Hp|]. cbn. lia. }
  { pose proof (pr_amounts _ _ _ _ Hp) as (_ & _ & ? & ?). intros []; cbn in *; lia. }
  apply wp_bind_or. eapply wp_mono; [apply wp_and; [apply (wp_record bankOwner dealerBtc dealerUsd
    (fun ids => receive_entry _ _ ids _ _ _ _ _ _ _ _)); [apply Hr|exact Hbal]|apply keeps_receive_invoices]|].
  intros [j|e] w2 [HQ S2]; [|exists nothing; split; [apply shifted_moved, same_shifted; by etrans|by left]].
  destruct HQ as [Hmv _]. apply (shifted_then _ w) in Hmv; [|by apply same_shifted].
  eapply wp_mono; [eapply (wp_notify _ _ _ _ w w2 _ (marked h)); [|exact Hmv|]|].
  - destruct Hmv as [Hb _], S as [_ Hb1]. unfold Money.all_ready in *. by rewrite Hb, <- Hb1.
  - intros w' S'. by do 2 (eapply marked_same; [eassumption|]).
  - intros r w' [Hmv' Hm']. eexists. split; [exact Hmv'|]. right. split; [done|]. eexists _, _. split; [exact Hcr|].
    split; [exact HR|]. etransitivity; [exact HA|]. cbn. rewrite Hf1, (pr_btc _ _ _ _ Hp). lia.
Qed.

Lemma wp_steps_credit h wid a d ext st w : receivable h w -> fairly_valued a -> a.(currency) = Btc ->
  0 < a.(amount) < 2 ^ 53 ->
  wp (lockedUpdatePendingInvoiceSteps (M := M) precision hedge cfg parse h wid a d ext st)
    (fun _ w' => moves_for h wid a w w') w.
Proof using MediciLaws0 MediciBookLaws0.
  intros [Hr Hwl Hin] Hf Hc Ha. unfold lockedUpdatePendingInvoiceSteps.
  apply wp_bind_or, wp_findInvoice; [intros; by apply moves_nothing|].
  intros r rest i x1 Hl Hi. assert (S1 : same_state w (with_outside w x1)) by done. destruct (wi_processingCompleted i) eqn:Hopen; [by apply wp_ret, moves_nothing|].
  assert (Hrin : r ∈ w.(walletInvoices) ∧ r.(ir_id) = h).
  { assert (Hx : r ∈ r :: rest) by by left. rewrite <- Hl in Hx. by apply list_elem_of_filter in Hx as []. }
  destruct (Hin r i (proj1 Hrin) (proj2 Hrin) Hi) as [Hui Hpi].
  unfold findAccountById. apply wp_bind_or, wp_findWalletById; [intros; by apply moves_nothing|]. intros rw x2 Hrw Hrid.
  apply wp_bind_or, wp_findAccountWallets; [intros; by apply moves_nothing|].
  intros ds x3 Hof. pose proof Hof as [(wl & Hin3 & Hds) _ [Hcur _] _ _]. cbn [wallets with_outside] in Hin3, Hrw.
  assert (S : same_books w (with_outside w x2)) by done. set (w3 := with_outside w x3).
  apply wp_bind_or. eapply wp_mono; [by apply (wp_receivedInvoice i ds a)|].
  intros [rcv|e] w4 [S4 Hrcv]; [|apply moves_nothing; by etrans]. specialize (Hrcv rcv eq_refl).
  apply wp_bind_or, (wp_keeps same_books); [auto with keeps|]. intros [acc|e] w5 S5;
    (assert (S' : same_books w w5) by (by do 2 (etrans; [|eassumption]))); [|by apply moves_nothing].
  apply wp_bind_or, (wp_keeps same_books); [auto with keeps|]. intros [dr|e] w6 S6; [|apply moves_nothing; by etrans].
  apply wp_or_return; [intros display _|intros; apply moves_nothing; by etrans]. cbn zeta.
  apply wp_bind_or, (wp_keeps same_books); [by apply keeps_settle_in_lnd; apply _|]. intros [u|e] w7 S7;
    (assert (S'' : same_books w w7) by (by do 2 (etrans; [|eassumption]))); [|by apply moves_nothing].
  apply wp_bind_or, wp_markAsPaid; [intros e w8 S8; apply moves_nothing; by etrans|]. intros i8 w8 S8 Hm8.
  assert (S8' : same_books w w8) by (by etrans).
  eapply wp_mono; [eapply (wp_credit h a i ds rcv _ _ _ _ _ _ _ _ w); [|done|done|done|]|].
  - by eapply all_ready_same.
  - destruct Hrcv as [_ Hcr]. eapply credits_user; [exact Hcr|exact Hui|]. rewrite Hds. by apply Hwl.
  - intros r9 w9 (D & Hmv & [Hz|(Hm & wd & amt & Hcr & HD & HA)]); exists D; (split; [done|]); [by left|right].
    split; [done|]. exists r, i, rw, ds, wd, amt. split_and!; try done; [apply Hrin|apply Hrin|by destruct Hof].
Qed.

Lemma wp_mark_again paid h (Q : Result WalletInvoiceWithOptionalLnInvoice -> World X -> Prop) w :
  (∀ r w', same_books w w' -> (marked h w -> marked h w') -> Q r w') -> wp (mark_invoice parse paid h) Q w.
Proof.
  intros HQ. apply wp_bind_or, wp_catch, wp_db; [intros; by apply HQ|]. intros x. apply wp_bind, wp_gets.
  cbn [walletInvoices with_outside]. pose proof (mark_first paid h w.(walletInvoices)) as Hm.
  destruct (update_first _ _ _) as [l' found]. apply wp_bind, wp_modify, wp_ret, wp_ret, HQ; [done|].
  intros (r & rest & Hl & Hp & _). rewrite Hl in Hm. destruct Hm as [_ Hl'].
  exists (mark_completed paid r), rest. split; [exact Hl'|]. cbn. by rewrite Hp, orb_true_r.
Qed.

(** What processing an invoice does to the books. *)
Definition processed i w w' : Prop :=
  let h := i.(wi_paymentHash) in
  ∃ D, moved D w w' ∧
  ((∀ x c, D x c = 0) ∨
   ∃ l z, (∃ x x', lookupInvoice i.(wi_pubkey) h x = (Ok l, x')) ∧
     l.(li_isCanceled) = false ∧ l.(li_isHeld) || l.(li_isSettled) = true ∧
     l.(li_roundedDownReceived) = Number z ∧ 0 < z ∧ credited h i.(wi_recipientWalletDescriptor).(w_id) (BtcPaymentAmount z) w w' D).

Lemma processed_nothing i w w' : same_books w w' -> processed i w w'.
Proof. intros S. exists nothing. split; [by apply shifted_moved, same_shifted|by left]. Qed.

Lemma wp_processPendingInvoice `{!InvoiceLookupLaws X} i w : receivable i.(wi_paymentHash) w ->
  (∀ a, a.(currency) = Btc -> 0 < a.(amount) < 2 ^ 53 -> fairly_valued a) ->
  wp (processPendingInvoice (M := M) precision hedge cfg parse i) (fun _ w' => processed i w w') w.
Proof using MediciLaws0 MediciBookLaws0.
  intros Hw Hf. unfold processPendingInvoice. cbn zeta. apply wp_bind_or, wp_ext.
  intros [pk|e] x0 _; [|by apply processed_nothing]. apply wp_bind, wp_ext. cbn [outside with_outside].
  intros [l|e] x1 El; [|by destruct e; apply wp_ret, processed_nothing].
  destruct (wi_processingCompleted i); [by apply wp_ret, processed_nothing|].
  destruct (li_isCanceled l) eqn:Ec; [by apply wp_ret, processed_nothing|].
  destruct (negb (li_isHeld l) && negb (li_isSettled l)) eqn:Eh; [by apply wp_ret, processed_nothing|].
  destruct (received_whole _ _ _ _ _ El) as (z & Hz & Hzb).
  destruct (v ← checkedToSats _; paymentAmountFromNumber v Btc) as [a|e] eqn:Ea.
  2: { unfold processPendingInvoiceForDecline. eapply (wp_keeps same_books); [|intros r w' S; by apply (processed_nothing i w)]. solve_keeps. }
  rewrite Hz in Ea. apply checkedToSats_Number in Ea as [-> Hpos]; [|done].
  apply wp_bind, wp_redlock; [intros; by apply wp_ret, processed_nothing|]. intros x2.
  eapply wp_mono; [apply (wp_steps_credit i.(wi_paymentHash)); [by destruct Hw; split| |done|cbn; lia]; apply Hf; [done|cbn; lia]|].
  intros r w' (D & Hm & HD) x3. assert (processed i w (with_outside w' x3)); [|split; intros; by apply wp_ret].
  exists D. split; [exact Hm|]. destruct HD as [HD|HD%credited_from]; [by left|right]. exists l, z.
  do 5 (split; [first [done|by eexists _, _|apply negb_false_iff; by rewrite negb_orb]|]). exact (credited_from _ _ _ _ _ _ _ (credited_from _ _ _ _ _ _ _ HD)).
Qed.

(** C17. What a Lightning receipt does to the books.  Processing an invoice, whatever the node answers
    and whatever fails, leaves the books balanced, and moves nothing unless the node says that
    the invoice is held or settled and not canceled.  Then the stored invoice, which was not
    processed before, is marked as paid, the node's account is debited the satoshis that the node
    received, and the recipient is credited with them: a BTC wallet with the satoshis, a USD wallet with the
    dollars of the invoice, or, if it has none, with those that the dealer gives for them; only satoshis that are worth nothing to the dealer
    are credited as such to the BTC wallet of the recipient's account. *)
Theorem receipt_credited `{!InvoiceLookupLaws X} i w (Hw : receivable i.(wi_paymentHash) w)
    (Hf : ∀ a, a.(currency) = Btc -> 0 < a.(amount) < 2 ^ 53 -> fairly_valued a) :
  wp (updatePendingInvoice (M := M) precision hedge cfg parse i) (fun _ w' => processed i w w') w.
Proof using MediciLaws0 MediciBookLaws0.
  unfold updatePendingInvoice. cbn zeta. apply wp_bind. eapply wp_mono; [by apply wp_processPendingInvoice|].
  intros r w1 Hp. destruct (thrown r); [by apply wp_ret|]. destruct (wi_processingCompleted i); [by apply wp_ret|].
  assert (Hmark : ∀ w2, same_books w1 w2 -> (marked i.(wi_paymentHash) w1 -> marked i.(wi_paymentHash) w2) -> processed i w w2).
  { intros w2 S Hm. destruct Hp as (D & Hmv & HD). exists D. split; [eapply moved_shifted; [exact Hmv|by apply same_shifted]|].
    destruct HD as [HD|(l & z & ? & ? & ? & ? & ? & [Hmk Hcr])]; [by left|right]. exists l, z. split_and!; try done.
    split; [by apply Hm|exact Hcr]. }
  destruct r; try by apply wp_ret.
  all: apply wp_bind || apply wp_bind_or; apply wp_mark_again; intros r2 w2 S Hm; specialize (Hmark w2 S Hm).
  all: first [by destruct r2 | by apply wp_ret].
Qed.

End Credit.

Module ReceiveExamples.
Import BookExamples.

#[local] Instance free_locks : Redlock nat := {
  acquire _ n := (None, n); timelock _ n := (None, n); release _ n := (None, n); signal_aborted n := (false, n);
}.

(** Three cents for a hundred satoshis. *)
Definition ratio : WalletPriceRatio.t := PriceRatio.mk 3 (BtcPaymentAmount 100).
#[local] Instance fixed_prices : PriceServices nat := {
  getRealTimePrice _ _ n := (Ok (Number 1), n);
  getCentsFromSatsForImmediateBuy _ n := (Err (DealerPriceServiceError ""), n);
  getCentsFromSatsForImmediateSell _ n := (Err (DealerPriceServiceError ""), n);
  getSatsFromCentsForImmediateBuy _ n := (Err (DealerPriceServiceError ""), n);
  getSatsFromCentsForImmediateSell _ n := (Err (DealerPriceServiceError ""), n);
  getCentsFromSatsForFutureBuy _ n := (Err (DealerPriceServiceError ""), n);
  getCentsFromSatsForFutureSell _ n := (Err (DealerPriceServiceError ""), n);
  getSatsFromCentsForFutureBuy _ n := (Err (DealerPriceServiceError ""), n);
  getSatsFromCentsForFutureSell _ n := (Err (DealerPriceServiceError ""), n);
  getCentsPerSatsExchangeMidRate n := (Ok ratio, n);
  cache_get _ n := (None, n); cache_set _ _ n := (tt, n);
}.
#[local] Instance two_digits : Intl := fun _ => Some 2.

(** A node that holds each invoice, with the satoshis given. *)
Definition node (received : Z) : ILightningService nat := {|
  LndService n := (Ok "node", n);
  listAllPubkeys n := (["node"], n);
  payInvoiceViaRoutes _ _ _ n := (Err LnPaymentPendingError, n);
  payInvoiceViaPaymentDetails _ _ _ n := (Err LnPaymentPendingError, n);
  findRouteForInvoice _ _ n := (Err LookupPaymentTimedOutError, n);
  lookupPayment _ n := (Err LookupPaymentTimedOutError, n);
  lookupInvoice _ _ n := (Ok (mkLnInvoiceLookup false true false (Number received) "coffee"), n);
  settleInvoice _ _ n := (Ok tt, n); cancelInvoice _ _ n := (Ok tt, n);
|}.

Definition cfg : MemoSharingConfig := mkMemoSharing (Number 0) (Number 0) [].

(** Bob has asked for a payment. *)
Definition record : WalletInvoiceRecord :=
  mkInvoiceRecord "abc123" "secret" "bob" "b" Btc true "node" false None 0 false "abc123" (Some "lnbc").
Definition asked : World nat :=
  mkWorld start.(ledger) [] [] [] [record]
    [mkWalletRecord LedgerExamples.bob []; mkWalletRecord {| w_id := "bob-usd"; w_currency := Usd; w_accountId := "b" |} []]
    [mkAccountRecord "b" None LevelOne [mkStatusEntry Active None None] false [] None "user" None None] [] [] [] start.(bankWallets) start.(outside).

Definition invoice : WalletInvoiceBase :=
  match complete_invoice InvoiceStoreExamples.parse record with
  | Ok i => i.(wi_base) | Err _ => InvoiceExamples.unpriced.(wi_base)
  end.

Lemma prices_fair a : a.(currency) = Btc -> 0 < a.(amount) < 2 ^ 53 ->
  fairly_valued (X := nat) (Number 1000000) true a.
Proof.
  intros _ Ha. split; [by intros x u x'|]. intros w. unfold wp. cbn. intros u [= <-]. split; [done|]. cbn [amount].
  assert (Hr : positive_ratio ratio) by (by repeat split).
  pose proof (convertFromWallet_pos ratio Hr a ltac:(lia)) as (Hq & _ & Hb).
  change (amount (PriceRatio.walletAmount ratio)) with 100 in Hb. change (PriceRatio.other ratio) with 3 in Hb.
  change (0 <= PriceRatio.convertFromWallet ratio a < 2 ^ 53). lia.
Qed.

Lemma asked_receivable :
  receivable InvoiceStoreExamples.parse "bank" "dealer-btc" "dealer-usd" "funder" "abc123" asked.
Proof.
  split.
  - by repeat split.
  - intros wl. cbn [asked wallets]. rewrite !elem_of_cons, elem_of_nil. intros [->|[->|[]]]; [apply LedgerExamples.user_bob|].
    unfold user_wallet. cbn. set_solver.
  - intros r i Hr _ Hi. apply list_elem_of_singleton in Hr as ->. vm_compute in Hi. injection Hi as <-.
    split; [apply LedgerExamples.user_bob|by intros u].
Qed.

Section Held.
#[local] Instance held : ILightningService nat := node 10000.
#[local] Instance held_whole : InvoiceLookupLaws nat.
Proof. intros pubkey h x l x' [= <- _]. exists 10000. split; [done|lia]. Qed.

Abbreviation update := (updatePendingInvoice (M := L0) (X := nat) (Number 1000000) true cfg InvoiceStoreExamples.parse invoice).

(** Bob is credited with the 10000 satoshis that the node holds, and the invoice is paid. *)
Lemma receipt_credited_witness :
  (update asked).1 = Ok true ∧ marked "abc123" (update asked).2 ∧
  ∃ D, moved D asked (update asked).2 ∧ D "Liabilities:bob" Btc = -10000 ∧ D lndLedgerAccountId Btc = 10000.
Proof.
  assert (E : (update asked).1 = Ok true) by (vm_compute; reflexivity).
  assert (Eb : book_account_net "Liabilities:bob" Btc (update asked).2.(ledger) = -10000) by (vm_compute; reflexivity).
  assert (El : book_account_net lndLedgerAccountId Btc (update asked).2.(ledger) = 10000) by (vm_compute; reflexivity).
  destruct (wp_run _ _ _ _ (receipt_credited (M := L0) (Number 1000000) true cfg InvoiceStoreExamples.parse
    "bank" "dealer-btc" "dealer-usd" "funder" invoice asked asked_receivable prices_fair) E) as (D & Hm & HD).
  assert (Hb : D "Liabilities:bob" Btc = -10000).
  { destruct Hm as (_ & _ & Ha). pose proof (eq_trans (eq_sym Eb) (Ha "Liabilities:bob" Btc)) as Hd.
    change (book_account_net _ _ (ledger asked)) with 0 in Hd. lia. }
  assert (Hl : D lndLedgerAccountId Btc = 10000).
  { destruct Hm as (_ & _ & Ha). pose proof (eq_trans (eq_sym El) (Ha lndLedgerAccountId Btc)) as Hd.
    change (book_account_net _ _ (ledger asked)) with 0 in Hd. lia. }
  destruct HD as [HD|(l & z & _ & _ & _ & _ & _ & [Hmk _])]; [rewrite HD in Hb; lia|].
  split; [exact E|]. split; [exact Hmk|]. exists D. split; [exact Hm|]. split; [exact Hb|exact Hl].
Defined.

End Held.

(** An invoice that is held with less than a satoshi is canceled in the node, and then marked as
    paid: nothing was received, and nothing is credited. *)
Example declined_invoice_marked_paid :
  let '(r, w') := updatePendingInvoice (M := L0) (X := nat) (H4 := node 0) (Number 1000000) true cfg
                    InvoiceStoreExamples.parse invoice asked in
  r = Ok true ∧ marked "abc123" w' ∧ w'.(ledger) = asked.(ledger).
Proof.
  vm_compute. split; [done|]. split; [|done]. eexists _, _. split; [reflexivity|done].
Qed.

End ReceiveExamples.
