(* ===== verification/OnChainService.v ===== *)
(** * The on-chain service

    Models [services/bria/index.ts] ([OnChainService]), over the gRPC client of Bria as a class, with the
    addresses that [domain/bitcoin/onchain/index.ts] accepts.  The requests are records of what their
    setters are given; the API key that goes with every call is left out. *)

From Stdlib Require Import Ascii.
From S2P Require Import Prelude JsNumber Shared Prices Fees Lightning PaymentFlow LedgerEntry TxMetadata.
From S2P Require Import LedgerTx TxHistory Limits World LedgerBook LedgerService Services Repositories.
From S2P Require Import WalletInvoices Money.

(** ** Addresses *)

Inductive BtcNetwork := mainnet | testnet | signet | regtest.

(** [[a-km-zA-HJ-NP-Z1-9]] *)
Definition base58_char (c : ascii) : bool :=
  let n := nat_of_ascii c in
  ((97 <=? n) && (n <=? 107) || (109 <=? n) && (n <=? 122) || (65 <=? n) && (n <=? 72) ||
   (74 <=? n) && (n <=? 78) || (80 <=? n) && (n <=? 90) || (49 <=? n) && (n <=? 57))%nat.

(** [[a-z0-9]] with the flag [i] *)
Definition bech32_char (c : ascii) : bool :=
  let n := nat_of_ascii c in
  ((97 <=? n) && (n <=? 122) || (65 <=? n) && (n <=? 90) || (48 <=? n) && (n <=? 57))%nat.

(** [/^[first]{1}[a-km-zA-HJ-NP-Z1-9]{26,34}$/] *)
Definition base58_address (first : list ascii) (value : string) : bool :=
  match String.list_ascii_of_string value with
  | [] => false
  | c :: rest => bool_decide (c ∈ first) && ((26 <=? length rest) && (length rest <=? 34))%nat && forallb base58_char rest
  end.

(** [/^hrp1[a-z0-9]{39,59}$/i], where [hrp1] is given in upper case *)
Definition bech32_address (hrp1 : string) (value : string) : bool :=
  let rest := String.list_ascii_of_string (String.substring (String.length hrp1) (String.length value - String.length hrp1) value) in
  bool_decide (toUpperCase (String.substring 0 (String.length hrp1) value) = hrp1)
  && ((39 <=? length rest) && (length rest <=? 59))%nat && forallb bech32_char rest.

Definition checkedToOnChainAddress (network : BtcNetwork) (value : string) : Result OnChainAddress :=
  let matches :=
    match network with
    | mainnet => base58_address ["1"; "3"]%char value || bech32_address "BC1" value
    | testnet | signet => base58_address ["m"; "n"; "2"]%char value || bech32_address "TB1" value
    | regtest => bech32_address "BCRT1" value
    end in
  if matches then Ok value else Err InvalidOnChainAddress.

(** ** Metadata of a request *)

(** The values that are passed; the items of an array are strings. *)
Inductive JSONValue :=
| JSONString (s : string)
| JSONNumber (n : number)
| JSONBool (b : bool)
| JSONArray (items : list string)
| JSONObject (fields : list (string * JSONValue)).

(** [Value] of [google.protobuf]; the fields of a [Struct] are its list of keys and values. *)
Inductive PbValue :=
| PbString (s : string)
| PbNumber (n : number)
| PbBool (b : bool)
| PbList (l : list PbValue)
| PbStruct (fields : list (string * PbValue)).

Fixpoint metadata_value (fieldValue : JSONValue) : PbValue :=
  match fieldValue with
  | JSONString s => PbString s
  | JSONNumber n => PbNumber n
  | JSONBool b => PbBool b
  | JSONArray items => PbList (map PbString items)
  | JSONObject fields => PbStruct (map (fun '(key, v) => (key, metadata_value v)) fields)
  end.

Definition constructMetadata (metadataObj : list (string * JSONValue)) : list (string * PbValue) :=
  map (fun '(key, v) => (key, metadata_value v)) metadataObj.

Definition currency_code (c : WalletCurrency) : string := match c with Btc => "BTC" | Usd => "USD" end.

Definition wallet_details (walletDescriptor : WalletDescriptor) : JSONValue :=
  JSONObject [("id", JSONString walletDescriptor.(w_id)); ("currency", JSONString (currency_code walletDescriptor.(w_currency)));
              ("accountId", JSONString walletDescriptor.(w_accountId))].

(** ** The client *)

Inductive PayoutSpeed := Fast.

Record BriaConfig := mkBriaConfig {
  hotWalletName : string;
  queueNames : PayoutSpeed -> string;
  coldStorage_walletName : string;
  hotToColdRebalanceQueueName : string;
}.

Record NewAddressRequest := mkNewAddressRequest {
  na_walletName : string;
  na_externalId : option string;
  na_metadata : list (string * PbValue);
}.

Inductive PayoutDestination := ToAddress (address : OnChainAddress) | ToWallet (walletName : string).

Record SubmitPayoutRequest := mkSubmitPayoutRequest {
  sp_walletName : string;
  sp_payoutQueueName : string;
  sp_destination : PayoutDestination;
  sp_satoshis : number;
  sp_externalId : option string;
  sp_metadata : list (string * PbValue);
}.

Record EstimatePayoutFeeRequest := mkEstimatePayoutFeeRequest {
  ef_walletName : string;
  ef_payoutQueueName : string;
  ef_onchainAddress : OnChainAddress;
  ef_satoshis : number;
}.

Record BriaPayout := mkBriaPayout {
  bp_id : string;
  bp_externalId : string;
  bp_batchInclusionEstimatedAt : option number;
}.

(** What a failed call throws: its status, where there is one, and its message. *)
Record GrpcError := mkGrpcError {
  grpc_code : option Z;
  grpc_message : string;
}.

(** The codes of gRPC that are told apart. *)
Definition NOT_FOUND : Z := 5.
Definition ALREADY_EXISTS : Z := 6.
Definition PERMISSION_DENIED : Z := 7.

Class BriaClient (X : Type) := {
  newAddress : NewAddressRequest -> X -> result GrpcError string * X;
  getAddress : string -> X -> result GrpcError (option string) * X;
  getPayout : string -> X -> result GrpcError (option BriaPayout) * X;
  getWalletBalanceSummary : string -> X -> result GrpcError number * X;
  submitPayout : SubmitPayoutRequest -> X -> result GrpcError (string * option number) * X;
  estimatePayoutFee : EstimatePayoutFeeRequest -> X -> result GrpcError number * X;
}.

(** No more satoshis than these will ever be issued. *)
Definition all_satoshis : Z := 2100000000000000.

(** A fee is a count of satoshis. *)
Class BriaLaws (X : Type) `{BriaClient X} : Prop :=
  estimate_whole req x n x' : estimatePayoutFee req x = (Ok n, x') -> ∃ z, n = Number z ∧ 0 <= z <= all_satoshis.

(** ** The service *)

Record OnChainPayout := mkOnChainPayout {
  po_id : string;
  po_journalId : string;
  po_batchInclusionEstimatedAt : option number;
}.

Section Service.
Context {X : Type} `{BriaClient X} (briaConfig : BriaConfig).

Definition queueNameForSpeed (speed : PayoutSpeed) : string := briaConfig.(queueNames) speed.

Definition has_code (code : Z) (err : GrpcError) : bool := bool_decide (err.(grpc_code) = Some code).

(** A call inside a [try]; [catch (err) { return parse(err) }]. *)
Definition grpc {A B} (call : X -> result GrpcError A * X) (parse : GrpcError -> ApplicationError) (k : A -> Result B)
    : IO X (Result B) :=
  r ← ext call;
  mret (match r with Ok response => k response | Err err => Err (parse err) end).

Definition unknown (err : GrpcError) : ApplicationError := UnknownOnChainServiceError err.(grpc_message).

Definition getHotBalance : IO X (Result Amount) :=
  grpc (getWalletBalanceSummary briaConfig.(hotWalletName)) unknown (fun settled => paymentAmountFromNumber settled Btc).

Definition getColdBalance : IO X (Result Amount) :=
  grpc (getWalletBalanceSummary briaConfig.(coldStorage_walletName)) unknown (fun settled => paymentAmountFromNumber settled Btc).

Definition already_created (err : GrpcError) : ApplicationError :=
  if has_code ALREADY_EXISTS err then OnChainAddressAlreadyCreatedForRequestIdError else unknown err.

Definition getAddressForWallet (walletDescriptor : WalletDescriptor) (requestId : option string)
    : IO X (Result OnChainAddress) :=
  grpc (newAddress {|
      na_walletName := briaConfig.(hotWalletName);
      na_externalId := js_or_opt requestId None;
      na_metadata := constructMetadata [("galoy", JSONObject [("walletDetails", wallet_details walletDescriptor)])] |})
    already_created Ok.

Definition getAddressForSwap : IO X (Result OnChainAddress) :=
  grpc (newAddress {|
      na_walletName := briaConfig.(hotWalletName);
      na_externalId := None;
      na_metadata := constructMetadata [("galoy", JSONObject [("swap", JSONBool true)])] |})
    already_created Ok.

Definition findAddressByRequestId (requestId : string) : IO X (Result OnChainAddress) :=
  grpc (getAddress requestId)
    (fun err => if has_code NOT_FOUND err then OnChainAddressNotFoundError else unknown err)
    (fun foundAddress => match foundAddress with Some address => Ok address | None => Err OnChainAddressNotFoundError end).

Definition findPayoutByLedgerJournalId (journalId : string) : IO X (Result OnChainPayout) :=
  grpc (getPayout journalId)
    (fun err => if has_code NOT_FOUND err then PayoutNotFoundError else unknown err)
    (fun foundPayout => match foundPayout with
                        | Some p => Ok (mkOnChainPayout p.(bp_id) p.(bp_externalId) p.(bp_batchInclusionEstimatedAt))
                        | None => Err PayoutNotFoundError
                        end).

(** [errMsg.includes(part)] *)
Definition includes (part s : string) : bool :=
  match String.index 0 part s with Some _ => true | None => false end.

Definition payout_request (walletDescriptor : WalletDescriptor) (address : OnChainAddress) (amount : Amount)
    (speed : PayoutSpeed) (journalId : string) : SubmitPayoutRequest := {|
  sp_walletName := briaConfig.(hotWalletName);
  sp_payoutQueueName := queueNameForSpeed speed;
  sp_destination := ToAddress address;
  sp_satoshis := Number amount.(Shared.amount);
  sp_externalId := Some journalId;
  sp_metadata := constructMetadata [("galoy", JSONObject [("walletDetails", wallet_details walletDescriptor)])] |}.

Definition queuePayoutToAddress (walletDescriptor : WalletDescriptor) (address : OnChainAddress) (amount : Amount)
    (speed : PayoutSpeed) (journalId : string) : IO X (Result OnChainPayout) :=
  grpc (submitPayout (payout_request walletDescriptor address amount speed journalId))
    (fun err => if has_code PERMISSION_DENIED err && includes "DestinationBlocked" err.(grpc_message)
                then PayoutDestinationBlocked else unknown err)
    (fun '(id, estimatedAt) => Ok (mkOnChainPayout id journalId estimatedAt)).

Definition bria_rebalanceToColdWallet (amount : Amount) : IO X (Result string) :=
  grpc (submitPayout {|
      sp_walletName := briaConfig.(hotWalletName);
      sp_payoutQueueName := briaConfig.(hotToColdRebalanceQueueName);
      sp_destination := ToWallet briaConfig.(coldStorage_walletName);
      sp_satoshis := Number amount.(Shared.amount);
      sp_externalId := None;
      sp_metadata := constructMetadata [("galoy", JSONObject [("rebalanceToColdWallet", JSONBool true)])] |})
    unknown (fun '(id, _) => Ok id).

Definition estimateFeeForPayout (address : OnChainAddress) (amount : Amount) (speed : PayoutSpeed) : IO X (Result Amount) :=
  grpc (estimatePayoutFee {|
      ef_walletName := briaConfig.(hotWalletName);
      ef_payoutQueueName := queueNameForSpeed speed;
      ef_onchainAddress := address;
      ef_satoshis := Number amount.(Shared.amount) |})
    unknown (fun satoshis => paymentAmountFromNumber satoshis Btc).

End Service.

Section ServiceLemmas.
Context {X : Type} `{BriaClient X} (cfg : BriaConfig).
Implicit Types (w : World X).

Lemma keeps_grpc (R : relation (World X)) `{!Reads R} {A B} (call : X -> result GrpcError A * X) parse (k : A -> Result B) :
  keeps R (grpc call parse k).
Proof. unfold grpc. solve_keeps. Qed.

(** An estimated fee is a whole number of satoshis. *)
Lemma wp_estimateFee `{!BriaLaws X} address a speed (Q : Result Amount -> World X -> Prop) w :
  (∀ e x, Q (Err e) (with_outside w x)) -> (∀ z x, 0 <= z <= all_satoshis -> Q (Ok (BtcPaymentAmount z)) (with_outside w x)) ->
  wp (estimateFeeForPayout cfg address a speed) Q w.
Proof.
  intros HErr HOk. apply wp_bind, wp_ext. intros r x Hr. apply wp_ret. destruct r as [n|e]; [|apply HErr].
  apply estimate_whole in Hr as (z & -> & Hz). rewrite paymentAmountFromNumber_Number by (unfold safe_integer, all_satoshis in *; lia).
  by apply HOk.
Qed.

End ServiceLemmas.
#[export] Hint Resolve keeps_grpc : keeps.

Module AddressExamples.

(** The addresses of each kind, and what is refused. *)
Example addresses :
  checkedToOnChainAddress mainnet "bc1qar0srrr7xfkvy5l643lydnw9re59gtzzwf5mdq" = Ok "bc1qar0srrr7xfkvy5l643lydnw9re59gtzzwf5mdq" ∧
  checkedToOnChainAddress mainnet "1BvBMSEYstWetqTFn5Au4m4GFg7xJaNVN2" = Ok "1BvBMSEYstWetqTFn5Au4m4GFg7xJaNVN2" ∧
  checkedToOnChainAddress regtest "1BvBMSEYstWetqTFn5Au4m4GFg7xJaNVN2" = Err InvalidOnChainAddress ∧
  checkedToOnChainAddress testnet "bc1qar0srrr7xfkvy5l643lydnw9re59gtzzwf5mdq" = Err InvalidOnChainAddress.
Proof. by vm_compute. Qed.

End AddressExamples.
