(* ===== verification/OnChainFlow.v ===== *)
(** * Building an on-chain flow in the application

    The on-chain builder run on services that answer when they are asked, as [FlowBuilder] does for the
    Lightning builder: every such run is a run on fixed prices, so the flows that the application
    makes are those of the theorems of [OnChainBuilder]. *)

From S2P Require Import Prelude JsNumber Shared Prices Fees Lightning PaymentFlow LightningBuilder OnChainBuilder LedgerEntry.
From S2P Require Import TxMetadata LedgerTx TxHistory Limits World LedgerBook LedgerService Services Repositories.
From S2P Require Import WalletInvoices Money AccountLimits FlowBuilder OnChainService.
Import OPFB.

(** ** A run with asked prices is a run with fixed prices *)

Section Asked.
Context {X : Type} (R : relation (World X)) `{!Reads R} {G : Type -> Type}.
Context (state : WithAmountState (G := G)) (args : WithConversionArgs (Async X)) (now : Date).
Context (Hbuy : fair_service R args.(hedgeBuyUsd)) (Hsell : fair_service R args.(hedgeSellUsd)) (Hmid : fair_service R args.(mid)).

Lemma fixed_proposed_btc_mid a wd : at_fixed R (updatedStateFromBtcProposedAmountMid state args now a wd)
  (fun args' => updatedStateFromBtcProposedAmountMid state args' now a wd).
Proof using Hmid.
  eapply (at_fixed_ask R Usd _ a); [apply Hmid|intros u w; apply returns_bind|]. intros r Hr.
  exists no_prices, (one_cents a r). split_and!; [apply no_prices_fair|by apply one_cents_fair|].
  intros args' _ _ E. unfold updatedStateFromBtcProposedAmountMid. rewrite E. direct_calls. cbn. by rewrite answering_same.
Qed.

Lemma fixed_proposed_btc_dealer a : at_fixed R (updatedStateFromBtcProposedAmountDealer state args now a)
  (fun args' => updatedStateFromBtcProposedAmountDealer state args' now a).
Proof using Hbuy Hsell.
  eapply (at_fixed_ask R Usd _ a); [case_decide; [apply Hbuy|apply Hsell]|intros u w; apply returns_bind|]. intros r Hr.
  exists (one_cents a r), no_prices. split_and!; [by apply one_cents_fair|apply no_prices_fair|].
  intros args' Eb Es _. unfold updatedStateFromBtcProposedAmountDealer. rewrite Eb, Es. direct_calls.
  case_decide; cbn; by rewrite answering_same.
Qed.

Lemma fixed_proposed_usd_mid a : at_fixed R (updatedStateFromUsdProposedAmountMid state args now a)
  (fun args' => updatedStateFromUsdProposedAmountMid state args' now a).
Proof using Hmid.
  eapply (at_fixed_ask R Btc _ a); [apply Hmid|intros u w; apply returns_bind|]. intros r Hr.
  exists no_prices, (one_sats a r). split_and!; [apply no_prices_fair|by apply one_sats_fair|].
  intros args' _ _ E. unfold updatedStateFromUsdProposedAmountMid. rewrite E. direct_calls. cbn. by rewrite answering_same.
Qed.

Lemma fixed_proposed_usd_dealer a : at_fixed R (updatedStateFromUsdProposedAmountDealer state args now a)
  (fun args' => updatedStateFromUsdProposedAmountDealer state args' now a).
Proof using Hbuy Hsell.
  eapply (at_fixed_ask R Btc _ a); [case_decide; [apply Hbuy|apply Hsell]|intros u w; apply returns_bind|]. intros r Hr.
  exists (one_sats a r), no_prices. split_and!; [by apply one_sats_fair|apply no_prices_fair|].
  intros args' Eb Es _. unfold updatedStateFromUsdProposedAmountDealer. rewrite Eb, Es. direct_calls.
  case_decide; cbn; by rewrite answering_same.
Qed.

Lemma fixed_proposed_btc_fallback a : at_fixed R (updatedStateFromBtcProposedAmountDealerFallbackMid state args now a)
  (fun args' => updatedStateFromBtcProposedAmountDealerFallbackMid state args' now a).
Proof using Hbuy Hsell Hmid Reads0.
  apply (at_fixed_fallback R _ (fun args' => updatedStateFromBtcProposedAmountDealer state args' now a) _ (fun r args' => match r with
    | Ok c => Ok c
    | Err e => if negb (is_InvalidZeroAmountPriceRatioInputError e) then Err e else
        match BTC <$> state.(m_recipient).(r_recipientWalletDescriptors) with
        | None => Err (InvalidLightningPaymentFlowBuilderStateError "expected recipient BTC wallet missing")
        | Some wd => if decide (wd.(w_id) = state.(m_recipient).(r_sender).(s_senderWalletId)) then Err SubOneCentSatAmountForUsdSelfSendError
                     else updatedStateFromBtcProposedAmountMid state args' now a (Some wd)
        end end)); [done..|apply fixed_proposed_btc_dealer|].
  intros [c|e]; [apply (at_fixed_returns R)|]. destruct (negb _); [apply (at_fixed_returns R)|].
  destruct (BTC <$> _) as [wd|]; [|apply (at_fixed_returns R)]. case_decide; [apply (at_fixed_returns R)|apply fixed_proposed_btc_mid].
Qed.

Lemma fixed_onchain_conversion : at_fixed R (withConversion state args now) (fun args' => withConversion state args' now).
Proof using Hbuy Hsell Hmid Reads0.
  unfold withConversion. destruct (noConversionRequired state), (m_btcProposedAmount state), (m_usdProposedAmount state);
    first [apply (at_fixed_returns R) | apply fixed_proposed_btc_mid | apply fixed_proposed_usd_mid
          | apply fixed_proposed_btc_fallback | apply fixed_proposed_usd_dealer].
Qed.

End Asked.

(** ** What a conversion gives *)

Section Converted.
Context {G : Type -> Type} (r : WithRecipientWalletState (G := G)) (a : Amount).
Context (args : WithConversionArgs (result ApplicationError)) (now : Date) (c : WithConversionState (G := G)).

(** The amount that was given is kept; the recipient is the one that was asked for or its account's BTC wallet. *)
Record onchain_converted_to : Prop := {
  oc_amount : c.(c_amount) = withAmount r a;
  oc_proposed : match a.(currency) with Btc => c.(c_btcProposedAmount) = a | Usd => c.(c_usdProposedAmount) = a end;
  oc_recipient :
    (c.(c_recipientWalletId) = r.(r_recipientWalletId) ∧ c.(c_recipientWalletCurrency) = r.(r_recipientWalletCurrency)) ∨
    (∃ ds, r.(r_recipientWalletDescriptors) = Some ds ∧ ds.(BTC).(w_id) ≠ r.(r_sender).(s_senderWalletId) ∧
       c.(c_recipientWalletId) = Some ds.(BTC).(w_id) ∧ c.(c_recipientWalletCurrency) = Some ds.(BTC).(w_currency));
}.

Definition onchain_small : Prop :=
  c.(c_btcProposedAmount).(amount) < 2 ^ 53 ∧ c.(c_usdProposedAmount).(amount) < 2 ^ 53.

Abbreviation st := (withAmount r a).

Lemma btc_mid_fields b wd c' : updatedStateFromBtcProposedAmountMid st args now b wd = Ok c' ->
  c'.(c_amount) = st ∧ c'.(c_btcProposedAmount) = b ∧
  c'.(c_recipientWalletId) = match wd with Some w => Some w.(w_id) | None => st.(m_recipient).(r_recipientWalletId) end ∧
  c'.(c_recipientWalletCurrency) = match wd with Some w => Some w.(w_currency) | None => st.(m_recipient).(r_recipientWalletCurrency) end.
Proof.
  unfold updatedStateFromBtcProposedAmountMid. direct_calls. intros H.
  apply bind_Ok in H as (u & _ & H). by apply bind_Ok in H as (ratio & _ & [= <-]).
Qed.

Lemma current_fields (f : Amount -> Result Amount) b (mk : Amount -> WithConversionState (G := G)) (ratio : Amount -> Result WalletPriceRatio.t) :
  (convertedAmount ← f b; _ ← ratio convertedAmount; Ok (mk convertedAmount)) = Ok c -> ∃ converted, f b = Ok converted ∧ c = mk converted.
Proof. intros H. apply bind_Ok in H as (u & E & H). apply bind_Ok in H as (q & _ & [= <-]). eauto. Qed.

Lemma withAmount_recipient : st.(m_recipient) = r.
Proof. unfold withAmount. by case_match. Qed.

Lemma current_recipient b u : let c' := currentStateFromAllAmountsPresent st now b u in
  c'.(c_recipientWalletId) = r.(r_recipientWalletId) ∧ c'.(c_recipientWalletCurrency) = r.(r_recipientWalletCurrency).
Proof. cbn. by rewrite withAmount_recipient. Qed.

Lemma proposed_of_amount : match a.(currency) with
  | Btc => st.(m_btcProposedAmount) = Some a ∧ st.(m_usdProposedAmount) = None
  | Usd => st.(m_btcProposedAmount) = None ∧ st.(m_usdProposedAmount) = Some a end.
Proof. unfold withAmount. by case_match. Qed.

Lemma onchain_conversion_to : withConversion st args now = Ok c -> onchain_converted_to.
Proof.
  pose proof withAmount_recipient as Er. pose proof proposed_of_amount as Ea. unfold withConversion. intros Hc.
  destruct (currency a) eqn:Ecur; destruct Ea as [E1 E2]; rewrite E1, E2 in Hc; destruct (noConversionRequired st).
  - apply current_fields in Hc as (u & _ & E).
    split; rewrite E; [done|by rewrite Ecur|left; apply current_recipient].
  - apply current_fields in Hc as (u & _ & E).
    split; rewrite E; [done|by rewrite Ecur|left; apply current_recipient].
  - apply btc_mid_fields in Hc as (Hs & Hb & Hi & Hw). split; [done|by rewrite Ecur|left; by rewrite Hi, Hw, Er].
  - unfold updatedStateFromBtcProposedAmountDealerFallbackMid in Hc. direct_calls.
    destruct (updatedStateFromBtcProposedAmountDealer st args now a) as [c'|e] eqn:E.
    + injection Hc as Hc. unfold updatedStateFromBtcProposedAmountDealer in E. direct_calls.
      apply bind_Ok in E as (u & _ & E). apply bind_Ok in E as (q & _ & [= E]).
      split; rewrite <- Hc, <- E; [done|by rewrite Ecur|left; apply current_recipient].
    + destruct (negb _); [done|]. rewrite Er in Hc. destruct (r_recipientWalletDescriptors r) as [ds|] eqn:Eds; cbn in Hc; [|done].
      case_decide as Hne; [done|]. apply btc_mid_fields in Hc as (Hs & Hb & Hi & Hw).
      split; [done|by rewrite Ecur|right; exists ds; by rewrite Hi, Hw].
Qed.

Context (Hbuy : fair_prices args.(hedgeBuyUsd)) (Hsell : fair_prices args.(hedgeSellUsd)) (Hmid : fair_prices args.(mid)).

(** An amount within the maximum is converted to one that floats hold. *)
Lemma onchain_conversion_small : checked a -> withConversion st args now = Ok c -> onchain_small.
Proof using Hbuy Hsell Hmid.
  intros Ha Hc. pose proof (checked_small a Ha) as Hsmall. pose proof proposed_of_amount as Ea. unfold withConversion in Hc.
  assert (Hf : ∀ to r u, fair_answer to a r -> r = Ok u -> u.(amount) < 2 ^ 53).
  { intros to r' u Hr ->. destruct (Hr u eq_refl) as (_ & _ & Hs); [apply Ha|]. apply Hs, Ha. }
  assert (Hmidc : ∀ wd c', updatedStateFromBtcProposedAmountMid st args now a wd = Ok c' ->
    c'.(c_btcProposedAmount).(amount) < 2 ^ 53 ∧ c'.(c_usdProposedAmount).(amount) < 2 ^ 53).
  { unfold updatedStateFromBtcProposedAmountMid. direct_calls. intros wd c' H. apply bind_Ok in H as (u & E & H).
    apply bind_Ok in H as (q & _ & [= <-]). split; [done|]. cbn [c_usdProposedAmount].
    assert (u.(amount) < 2 ^ 53) by (eapply (Hf Usd); [apply Hmid|exact E]). destruct (_ && _); [change (amount ONE_CENT) with 1; lia|done]. }
  unfold onchain_small. destruct (currency a) eqn:Ecur; destruct Ea as [E1 E2]; rewrite E1, E2 in Hc; destruct (noConversionRequired st).
  - apply current_fields in Hc as (u & Eu & ->). cbn. split; [|done]. eapply (Hf Btc); [apply Hmid|exact Eu].
  - apply current_fields in Hc as (u & Eu & ->). cbn. split; [|done]. eapply (Hf Btc); [|exact Eu]. case_decide; [apply Hbuy|apply Hsell].
  - by eapply Hmidc.
  - unfold updatedStateFromBtcProposedAmountDealerFallbackMid in Hc. direct_calls.
    destruct (updatedStateFromBtcProposedAmountDealer st args now a) as [c'|e] eqn:E; [injection Hc as <-|].
    + unfold updatedStateFromBtcProposedAmountDealer in E. direct_calls.
      apply bind_Ok in E as (u & Eu & E). apply bind_Ok in E as (q & _ & [= <-]). cbn. split; [done|].
      eapply (Hf Usd); [|exact Eu]. case_decide; [apply Hbuy|apply Hsell].
    + destruct (negb _); [done|]. destruct (BTC <$> _); [|done]. case_decide; [done|]. by eapply Hmidc.
Qed.

End Converted.

(** ** Plausible prices *)

(** A price that is taken for granted: a satoshi is worth a cent at most, and the amount is at most all there are. *)
Definition plausible {G : Type -> Type} (c : WithConversionState (G := G)) : Prop :=
  c.(c_usdProposedAmount).(amount) <= c.(c_btcProposedAmount).(amount) <= all_satoshis.

Section Plausible.
Context {X : Type} {G : Type -> Type} (r : WithRecipientWalletState (G := G)) (a : Amount) (Ha : checked a).
Context (args : WithConversionArgs (Async X)) (now : Date).
Implicit Types (w : World X).

(** A service with such prices. *)
Record plausible_service (fns : ConversionFns (Async X)) : Prop := {
  ps_usd : ∀ b w, checked b -> wp (usdFromBtc fns b) (fun res _ => ∀ u, res = Ok u -> u.(amount) <= b.(amount)) w;
  ps_btc : ∀ b w, checked b -> wp (btcFromUsd fns b) (fun res _ => ∀ u, res = Ok u -> b.(amount) <= u.(amount) <= all_satoshis) w;
}.

Context (Hbuy : plausible_service args.(hedgeBuyUsd)) (Hsell : plausible_service args.(hedgeSellUsd)) (Hmid : plausible_service args.(mid)).
Abbreviation st := (withAmount r a).

Lemma plausible_ask (P : Amount -> Prop) (ask : Async X Amount) (ratio : Amount -> Result WalletPriceRatio.t)
    (mk : Amount -> WithConversionState (G := G)) w :
  (∀ w, wp ask (fun res _ => ∀ u, res = Ok u -> P u) w) -> (∀ u, P u -> plausible (mk u)) ->
  wp (@mbind (Async X) calls_bind _ _ (fun u => @mbind (Async X) calls_bind _ _ (fun _ => returns (Ok (mk u))) (returns (ratio u))) ask)
    (fun res _ => ∀ c, res = Ok c -> plausible c) w.
Proof.
  intros Hask Hmk. apply wp_async_bind. eapply wp_mono; [apply Hask|]. intros [u|e] w' Hu; [|done].
  apply wp_async_bind, wp_returns. destruct (ratio u); [|done]. apply wp_returns. intros c [= <-]. apply Hmk. by apply Hu.
Qed.

Lemma checked_satoshis : 0 < a.(amount) <= all_satoshis.
Proof using Ha. unfold checked, Built.max_amount, all_satoshis in *. destruct Ha. case_match; cbn in *; lia. Qed.

Lemma plausible_btc_mid wd w : wp (updatedStateFromBtcProposedAmountMid st args now a wd) (fun res _ => ∀ c, res = Ok c -> plausible c) w.
Proof using Ha Hmid.
  apply (plausible_ask (fun u => u.(amount) <= a.(amount))); [intros; by apply Hmid|]. intros u Hu. pose proof checked_satoshis.
  unfold plausible. cbn. case_match; cbn; lia.
Qed.

Lemma wp_plausible w : wp (withConversion st args now) (fun res _ => ∀ c, res = Ok c -> plausible c) w.
Proof using Ha Hbuy Hsell Hmid.
  pose proof checked_satoshis. pose proof (proposed_of_amount r a) as Ea. unfold withConversion.
  destruct (currency a), Ea as [-> ->], (noConversionRequired st).
  - apply (plausible_ask (fun u => a.(amount) <= u.(amount) <= all_satoshis)); [intros; by apply Hmid|done].
  - apply (plausible_ask (fun u => a.(amount) <= u.(amount) <= all_satoshis)); [|done].
    intros. case_decide; [by apply Hbuy|by apply Hsell].
  - apply plausible_btc_mid.
  - apply wp_handle. eapply wp_mono.
    + apply (plausible_ask (fun u => u.(amount) <= a.(amount))); [intros; case_decide; [by apply Hbuy|by apply Hsell]|]. intros u Hu. unfold plausible. cbn. lia.
    + intros [c|e] w' Hc; [by apply wp_returns|]. destruct (negb _); [by apply wp_returns|].
      destruct (BTC <$> _); [|by apply wp_returns]. case_decide; [by apply wp_returns|apply plausible_btc_mid].
Qed.

End Plausible.

(** ** The prices of a conversion *)

(** A service that is asked in [w] for the worth of [a], and leaves [w1], gives the amounts [p]. *)
Definition quoted_by {X} (fns : ConversionFns (Async X)) (a : Amount) (p : AmountPair) (w w1 : World X) : Prop :=
  match a.(currency) with
  | Btc => ∃ n, usdFromBtc fns a w = (Ok n, w1) ∧ p = {| btc := a; usd := n |}
  | Usd => ∃ n, btcFromUsd fns a w = (Ok n, w1) ∧ p = {| btc := n; usd := a |}
  end.

(** Satoshis are worth a cent at least. *)
Definition at_least_a_cent (p : AmountPair) : AmountPair :=
  if p.(usd).(amount) =? 0 then {| btc := p.(btc); usd := ONE_CENT |} else p.

Section Quoted.
Context {X : Type} (args : WithConversionArgs (Async X)).
Implicit Types (w : World X) (p : AmountPair).

Definition dealer (from : WalletCurrency) : ConversionFns (Async X) :=
  match from with Btc => args.(hedgeBuyUsd) | Usd => args.(hedgeSellUsd) end.

(** The amounts of a payment of [a] from a wallet of one currency to one of another: the dealer sells or buys what is paid, and
    within a currency, in which nothing is exchanged, the other amount is the one at the mid price. *)
Definition exchanged (from to : WalletCurrency) (a : Amount) p w w1 : Prop :=
  if decide (from = to) then ∃ q, quoted_by args.(mid) a q w w1 ∧ p = at_least_a_cent q
  else quoted_by (dealer from) a p w w1.

(** Satoshis that are worth nothing to the dealer are not exchanged. *)
Definition too_small (from to : WalletCurrency) (a : Amount) p w w1 : Prop :=
  from ≠ to ∧ a.(currency) = Btc ∧ ∃ answer w0 q, usdFromBtc (dealer from) a w = (answer, w0) ∧ worth_nothing answer ∧
    quoted_by args.(mid) a q w0 w1 ∧ p = at_least_a_cent q.

Context {G : Type -> Type} (r : WithRecipientWalletState (G := G)) (a : Amount) (now : Date) (Ha : 0 < a.(amount)).
Abbreviation st := (withAmount r a).
Abbreviation proposed c := {| btc := c.(c_btcProposedAmount); usd := c.(c_usdProposedAmount) |}.

Lemma wp_ask {C} (ask : Async X Amount) (ratio : Amount -> Result WalletPriceRatio.t) (mk : Amount -> C) w :
  wp (@mbind (Async X) calls_bind _ _ (fun u => @mbind (Async X) calls_bind _ _ (fun _ => returns (Ok (mk u))) (returns (ratio u))) ask)
    (fun res w1 => ∃ answer, ask w = (answer, w1) ∧ (u ← answer; _ ← ratio u; Ok (mk u)) = res) w.
Proof.
  apply wp_async_bind, wp_result. intros [u|e] w1 E; [|by exists (Err e)].
  apply wp_async_bind, wp_returns. destruct (ratio u) as [q|e] eqn:Er; [apply wp_returns|]; exists (Ok u); split; cbn; by rewrite ?Er.
Qed.

(** The recipient of [c] is the wallet that was asked for. *)
Definition as_asked (c : WithConversionState (G := G)) : Prop :=
  c.(c_recipientWalletId) = r.(r_recipientWalletId) ∧ c.(c_recipientWalletCurrency) = r.(r_recipientWalletCurrency).
(** It is the BTC wallet of the account. *)
Definition to_btc (c : WithConversionState (G := G)) : Prop :=
  ∃ ds, r.(r_recipientWalletDescriptors) = Some ds ∧
    c.(c_recipientWalletId) = Some ds.(BTC).(w_id) ∧ c.(c_recipientWalletCurrency) = Some ds.(BTC).(w_currency).

Lemma wp_btc_mid wd w : a.(currency) = Btc ->
  wp (updatedStateFromBtcProposedAmountMid st args now a wd) (fun res w1 => ∀ c, res = Ok c ->
    (∃ q, quoted_by args.(mid) a q w w1 ∧ proposed c = at_least_a_cent q) ∧
    match wd with None => as_asked c | Some wd => c.(c_recipientWalletId) = Some wd.(w_id) ∧ c.(c_recipientWalletCurrency) = Some wd.(w_currency) end) w.
Proof using Ha.
  intros Hcur. eapply wp_mono; [apply (wp_ask _ (fun u => WalletPriceRatio.make _ a))|]. intros res w1 (answer & E & <-) c Hc.
  apply bind_Ok in Hc as (u & -> & Hc). apply bind_Ok in Hc as (q & _ & [= <-]). split.
  - exists {| btc := a; usd := u |}. unfold quoted_by, at_least_a_cent. rewrite Hcur. split; [eauto|]. cbn.
    rewrite (proj2 (Z.ltb_lt 0 a.(amount)) Ha). cbn. by destruct (_ =? 0).
  - destruct wd; [done|]. unfold as_asked. cbn. by rewrite withAmount_recipient.
Qed.

(** A conversion has these amounts, and replaces the recipient only where nothing is exchanged. *)
Lemma wp_exchanged to w : noConversionRequired st = bool_decide ((r.(r_sender)).(s_senderWalletCurrency) = to) ->
  wp (withConversion st args now) (fun res w1 => ∀ c, res = Ok c ->
    exchanged r.(r_sender).(s_senderWalletCurrency) to a (proposed c) w w1 ∧ as_asked c ∨
    too_small r.(r_sender).(s_senderWalletCurrency) to a (proposed c) w w1 ∧ to_btc c) w.
Proof using Ha.
  intros Hno. pose proof (withAmount_recipient r a) as Er. pose proof (proposed_of_amount r a) as Ea. unfold withConversion.
  rewrite Hno. unfold exchanged, too_small. set (from := r.(r_sender).(s_senderWalletCurrency)).
  assert (Hfrom : senderCurrency st = from) by (unfold senderCurrency; by rewrite Er).
  assert (Hcurrent : ∀ b u, as_asked (currentStateFromAllAmountsPresent st now b u)) by (intros; unfold as_asked; cbn; by rewrite Er).
  destruct (currency a) eqn:Hcur, Ea as [-> ->], (decide (from = to)) as [Hft|Hft];
    [rewrite bool_decide_true by done|rewrite bool_decide_false by done|rewrite bool_decide_true by done|rewrite bool_decide_false by done].
  - eapply wp_mono; [apply (wp_ask _ (WalletPriceRatio.make a))|]. intros res w1 (answer & E & <-) c Hc. left.
    apply bind_Ok in Hc as (u & -> & Hc). apply bind_Ok in Hc as (q & _ & [= <-]). split; [|apply Hcurrent].
    exists {| btc := u; usd := a |}. unfold quoted_by, at_least_a_cent. rewrite Hcur. split; [eauto|]. cbn.
    by rewrite (proj2 (Z.eqb_neq a.(amount) 0)) by lia.
  - eapply wp_mono; [apply (wp_ask _ (WalletPriceRatio.make a))|]. intros res w1 (answer & E & <-) c Hc. left.
    apply bind_Ok in Hc as (u & -> & Hc). apply bind_Ok in Hc as (q & _ & [= <-]). split; [|apply Hcurrent].
    unfold quoted_by. rewrite Hcur, <- Hfrom. exists u. by destruct (senderCurrency st).
  - eapply wp_mono; [by apply wp_btc_mid|]. intros res w1 Hmid c Hc. left. by apply Hmid.
  - apply wp_handle. eapply wp_mono; [apply (wp_ask _ (fun u => WalletPriceRatio.make u a))|].
    intros res w0 (answer & E & <-).
    assert (E' : usdFromBtc (dealer from) a w = (answer, w0)) by (rewrite <- Hfrom; by destruct (senderCurrency st)).
    clear E Hno. destruct (u ← answer; _ ← _; Ok _) as [c|e] eqn:Hres.
    + apply bind_Ok in Hres as (u & -> & Hres). apply bind_Ok in Hres as (q & _ & [= <-]).
      apply wp_returns. intros c [= <-]. left. split; [|apply Hcurrent]. unfold quoted_by. rewrite Hcur. by exists u.
    + destruct (is_InvalidZeroAmountPriceRatioInputError e) eqn:He; [|by apply wp_returns]. cbn [negb]. rewrite Er.
      assert (Hz : worth_nothing answer).
      { destruct answer as [u|e']; cbn in Hres; [|injection Hres as ->; by destruct e].
        destruct (WalletPriceRatio.make u a) eqn:Em; [done|]. eapply wallet_ratio_zero; [exact Em|lia]. }
      destruct (r_recipientWalletDescriptors r) as [ds|] eqn:Eds; cbn; [|by apply wp_returns]. case_decide; [by apply wp_returns|].
      eapply wp_mono; [by apply wp_btc_mid|]. intros res w1 Hmid c Hc. right. destruct (Hmid c Hc) as [(q & Hq & Hp) Hto].
      split; [|by exists ds]. split; [done|]. split; [done|]. by exists answer, w0, q.
Qed.

End Quoted.

(** ** The fee of a payout *)

Section Fees.
Context {X : Type} (R : relation (World X)) `{!Reads R} (feeConfig : FeesConfig) (oc : OnChainFees.config).
Implicit Types (c : WithConversionState (G := Async X)) (w : World X).

(** A run with asked volumes gives a flow with the fees of the builder. *)
Lemma wp_withMinerFee c now miner w :
  (∀ wd t, keeps R ((c_config c).(netInVolumeAmountLightningFn) wd t)) ->
  (∀ wd t, keeps R ((c_config c).(netInVolumeAmountOnChainFn) wd t)) ->
  wp (withMinerFee feeConfig oc now c miner) (fun res w' => R w w' ∧ ∀ f, res = Ok f -> OnChainBuilt.mined feeConfig oc c miner f) w.
Proof.
  intros Hln Hoc. unfold withMinerFee.
  apply wp_async_bind, wp_returns. destruct (stateFromPromise c) as [c'|e] eqn:Ec; [|done].
  pose proof (OnChainBuilt.stateFromPromise_spec _ _ Ec) as (-> & _ & _).
  apply wp_async_bind, wp_returns. destruct (WalletPriceRatio.make _ _) as [ratio|e] eqn:Er; [|done].
  apply wp_async_bind, wp_returns. destruct (paymentAmountFromNumber _ _) as [minBank|e] eqn:Em; [|done].
  apply wp_async_bind, (wp_keeps R).
  { unfold ImbalanceCalculator.getSwapOutImbalanceAmount, ImbalanceCalculator.getNetInboundFlow.
    case_decide; [solve_keeps|]. cbn [ImbalanceCalculator.netInVolumeAmountLightningFn ImbalanceCalculator.netInVolumeAmountOnChainFn].
    do 2 (apply keeps_async_bind; [exact _|apply keeps_async_bind; [exact _|auto|intros; solve_keeps]|intros]). solve_keeps. }
  intros [imb|e] w1 HR; [|done]. apply wp_returns. split; [done|]. intros f Hf. by eapply OnChainBuilt.flow_with_fees_mined.
Qed.

End Fees.

(** ** The flow of a payout *)

(** The totals are amounts that floats hold. *)
Definition bounded (f : PaymentFlowCommonState) : Prop :=
  (totalAmountsForPayment f).(btc).(amount) < 2 ^ 53 ∧ (totalAmountsForPayment f).(usd).(amount) < 2 ^ 53.

(** The bank takes its minimum or at most the amount itself. *)
Lemma bankFee_upper oc miner amt minBank imb : 0 < amt.(amount) -> 0 <= OnChainFees.feeRatioAsBasisPoints oc <= 10000 ->
  (OnChainFees.withdrawalFee oc miner amt minBank imb).(OnChainFees.bankFee).(amount) <= Z.max minBank.(amount) amt.(amount).
Proof.
  intros Ha Hbp. unfold OnChainFees.withdrawalFee. cbn [OnChainFees.bankFee]. rewrite max2_amount.
  set (b := AmountCalculator.max _ [ZERO_SATS]).
  assert (Hb : 0 <= b.(amount) <= amt.(amount)).
  { subst b. rewrite max2_amount, min2_amount. cbn. lia. }
  pose proof (mulBasisPoints_nearest b (OnChainFees.feeRatioAsBasisPoints oc) ltac:(lia) ltac:(lia)). nia.
Qed.

Section Payout.
Context {G : Type -> Type} (feeConfig : FeesConfig) (oc : OnChainFees.config) (d : Z).
Context (sender : WalletDescriptor) (address : OnChainAddress) (withdrawFee : option number).
Implicit Types (c : WithConversionState (G := G)).

(** What is relied on of the configuration and the sender's account: a dust threshold of whole
    satoshis, more than one, and fees that are not negative and at most the whole. *)
Record fee_settings (dust : number) : Prop := {
  fs_dust : dust = Number d ∧ 1 < d ∧ safe_integer d;
  fs_minimum : ∀ minBank, paymentAmountFromNumber (js_or withdrawFee feeConfig.(withdrawDefaultMin)) Btc = Ok minBank ->
    0 <= minBank.(amount) <= all_satoshis;
  fs_ratio : 0 <= OnChainFees.feeRatioAsBasisPoints oc <= 10000;
}.

(** The flow of a payment of the amounts [p] from [sender] to [address], through the on-chain service.  If all is sent, then
    [p] is what is charged, and the amounts are at the ratio of [p]; so is the fee. *)
Record payout_flow (all : bool) (p : AmountPair) (f : OnChainPaymentFlowState) (ratio := PriceRatio.mk p.(usd).(amount) p.(btc)) : Prop := {
  po_sender : senderWalletDescriptor f = sender;
  po_address : f.(PaymentFlow.address) = Some address;
  po_currencies : f.(btcPaymentAmount).(currency) = Btc ∧ f.(usdPaymentAmount).(currency) = Usd ∧
    f.(flow_btcBankFee).(currency) = Btc ∧ f.(flow_usdBankFee).(currency) = Usd;
  po_amounts : 0 < d <= f.(btcPaymentAmount).(amount) ∧ 0 <= f.(usdPaymentAmount).(amount) <= p.(usd).(amount);
  po_fees : 0 <= f.(flow_btcBankFee).(amount) <= f.(btcProtocolAndBankFee).(amount) ∧
    0 <= f.(flow_usdBankFee).(amount) <= f.(usdProtocolAndBankFee).(amount) ∧
    (0 < f.(flow_btcBankFee).(amount) -> 0 < f.(flow_usdBankFee).(amount)) ∧
    f.(usdProtocolAndBankFee) = WalletPriceRatio.convertFromBtcToCeil ratio f.(btcProtocolAndBankFee);
  po_input : if all then amount_in (totalAmountsForPayment f) sender.(w_currency) = amount_in p sender.(w_currency) ∧
               match sender.(w_currency) with
               | Btc => f.(usdPaymentAmount) = WalletPriceRatio.convertFromBtc ratio f.(btcPaymentAmount)
               | Usd => f.(btcPaymentAmount) = WalletPriceRatio.convertFromUsd ratio f.(usdPaymentAmount)
               end
             else paymentAmounts f = p;
}.

Lemma withdrawal_currency miner amt minBank imb : amt.(currency) = Btc -> minBank.(currency) = Btc ->
  (OnChainFees.withdrawalFee oc miner amt minBank imb).(OnChainFees.bankFee).(currency) = Btc.
Proof.
  intros Ha Hm. unfold OnChainFees.withdrawalFee, AmountCalculator.max, AmountCalculator.min, AmountCalculator.mulBasisPoints,
    AmountCalculator.divRound. cbn -[Z.ltb Z.quot Z.rem]. repeat case_match; cbn; done.
Qed.

Lemma dust_amount dust (n : Z) : fee_settings dust -> num_gtb_bigint dust n = false -> d <= n.
Proof.
  intros [(-> & _ & Hd) _]. unfold num_gtb_bigint. rewrite cmp_bigint_Number by done.
  destruct (Z.compare_spec d n); [lia..|done].
Qed.

(** The amounts of a payout: above dust, and in their currencies. *)
Lemma mined_amounts c miner f : OnChainBuilt.conversion_inv (c_config c) c -> OnChainBuilt.mined feeConfig oc c miner f ->
  fee_settings (c_config c).(dustThreshold) -> (c_recipient c).(r_settlementMethod) = SettleOnChain ->
  (f.(btcPaymentAmount).(currency) = Btc ∧ f.(usdPaymentAmount).(currency) = Usd ∧
   f.(flow_btcBankFee).(currency) = Btc ∧ f.(flow_usdBankFee).(currency) = Usd) ∧
  d <= f.(btcPaymentAmount).(amount) ∧ 0 <= f.(usdPaymentAmount).(amount).
Proof.
  intros (_ & [Hb Hbc] & [Hu Huc] & _) (ratio & minBank & imb & _ & Hratio & Hmin & Ebf & Euf & -> & -> & Hdust & _ & Hamts) Hset Hs.
  apply OnChainBuilt.dust_spec in Hdust as [_ Hdust]. rewrite Hs in Hdust.
  apply (dust_amount _ _ Hset) in Hdust; [|done].
  apply make_wallet_ratio in Hratio as [[Hpos Hrc] [Eo Ew]]; [|lia..|done].
  assert (Hmc : minBank.(currency) = Btc).
  { unfold paymentAmountFromNumber in Hmin. apply bind_Ok in Hmin as (z & _ & [= <-]). done. }
  rewrite (withdrawal_currency _ _ _ _ Hbc Hmc). destruct Hset as [(_ & Hd & _) _].
  destruct (sendAll _); [destruct (s_senderWalletCurrency _)|]; destruct Hamts as [E1 E2]; rewrite ?E2, ?E1 in *.
  - unfold WalletPriceRatio.convertFromUsd in *. rewrite convertFromOther_currency, Ew. split; [by split_and!|].
    split; [done|]. destruct (Z.ltb_spec (amount (AmountCalculator.sub (c_usdProposedAmount c) (usdProtocolAndBankFee f))) 0) as [Hn|]; [|done].
    apply (convertFromOther_neg ratio Hpos) in Hn. lia.
  - split; [by split_and!|]. split; [done|]. apply convertFromWallet_nonneg; [done|]. lia.
  - split; [by split_and!|]. split; [done|lia].
Qed.

(** A payout is at most what was proposed. *)
Lemma mined_proposed c miner f : OnChainBuilt.conversion_inv (c_config c) c -> OnChainBuilt.mined feeConfig oc c miner f ->
  0 <= f.(btcProtocolAndBankFee).(amount) -> 0 <= f.(btcPaymentAmount).(amount) -> 0 <= f.(usdPaymentAmount).(amount) ->
  f.(btcPaymentAmount).(amount) <= c.(c_btcProposedAmount).(amount) ∧ f.(usdPaymentAmount).(amount) <= c.(c_usdProposedAmount).(amount).
Proof.
  intros (_ & [Hb Hbc] & [Hu _] & _) (ratio & minBank & imb & _ & Hratio & _ & Ebf & Euf & _ & _ & _ & _ & Hamts) Ht Pb Pu.
  apply make_wallet_ratio in Hratio as [[Hpos _] [Eo Ew]]; [|lia..|done].
  assert (0 <= f.(usdProtocolAndBankFee).(amount)).
  { rewrite Euf, <- Ebf. by apply (convertFromWalletToCeil_bounds ratio Hpos). }
  destruct (sendAll _); [destruct (s_senderWalletCurrency _)|]; destruct Hamts as [E1 E2]; [..|rewrite E1, E2; lia].
  - assert (Hx : f.(usdPaymentAmount).(amount) <= (c_usdProposedAmount c).(amount)) by (rewrite E1; cbn; lia).
    split; [|lia]. rewrite E2. unfold WalletPriceRatio.convertFromUsd.
    etrans; [apply (convertFromOther_mono ratio Hpos _ (c_usdProposedAmount c).(amount)); lia|].
    destruct (convertFromOther_pos ratio Hpos (c_usdProposedAmount c).(amount) Hu) as (_ & _ & [Hq|[-> _]]); [|lia].
    rewrite Eo, Ew in Hq. nia.
  - assert (Hx : f.(btcPaymentAmount).(amount) <= (c_btcProposedAmount c).(amount)) by (rewrite E1; cbn; lia).
    split; [lia|]. rewrite E2. unfold WalletPriceRatio.convertFromBtc. cbn [amount].
    etrans; [apply (convertFromWallet_mono ratio Hpos _ (c_btcProposedAmount c)); lia|].
    destruct (convertFromWallet_pos ratio Hpos (c_btcProposedAmount c) Hb) as (_ & _ & [Hq|[-> _]]); [|lia].
    rewrite Eo, Ew in Hq. nia.
Qed.

(** At a plausible price the totals are amounts that floats hold. *)
Lemma mined_bounded c miner f : OnChainBuilt.conversion_inv (c_config c) c -> OnChainBuilt.mined feeConfig oc c miner f ->
  fee_settings (c_config c).(dustThreshold) -> (c_sender c).(s_senderWithdrawFee) = withdrawFee -> 0 <= miner.(amount) <= all_satoshis -> plausible c ->
  0 <= f.(btcPaymentAmount).(amount) -> 0 <= f.(usdPaymentAmount).(amount) -> bounded f.
Proof.
  intros Hinv Hm Hset Hfee Hminer [Hp Hall] Pb Pu. pose proof (mined_proposed c miner f Hinv Hm) as Hle.
  destruct Hinv as (_ & [Hb Hbc] & [Hu _] & _), Hm as (ratio & minBank & imb & _ & Hratio & Hmin & Ebf & Euf & _).
  rewrite Hfee in Hmin. pose proof (fs_minimum _ Hset minBank Hmin) as Hmin0.
  pose proof (bankFee_upper oc miner (c_btcProposedAmount c) minBank imb Hb (fs_ratio _ Hset)) as Hbank.
  apply make_wallet_ratio in Hratio as [[Hpos _] [Eo Ew]]; [|lia..|done].
  assert (Ht : 0 <= f.(btcProtocolAndBankFee).(amount) <= 2 * all_satoshis).
  { rewrite Ebf. unfold OnChainFees.withdrawalFee in *. cbn [OnChainFees.bankFee OnChainFees.totalFee AmountCalculator.add amount] in *.
    rewrite max2_amount in *. lia. }
  assert (Hc : f.(usdProtocolAndBankFee).(amount) <= 2 * all_satoshis).
  { rewrite Euf, <- Ebf. pose proof (convertFromWalletToCeil_bounds ratio Hpos f.(btcProtocolAndBankFee)) as Hq.
    rewrite Eo, Ew in Hq. destruct Hq as (_ & Hq & _); [lia|]. unfold WalletPriceRatio.convertFromBtcToCeil. cbn [amount].
    assert (f.(btcProtocolAndBankFee).(amount) * (c_usdProposedAmount c).(amount)
            <= f.(btcProtocolAndBankFee).(amount) * (c_btcProposedAmount c).(amount)) by nia. nia. }
  destruct Hle as [? ?]; [lia..|]. unfold bounded, all_satoshis in *. cbn. lia.
Qed.

Lemma mined_payout s r a args now c miner f :
  s = withSenderWalletAndAccount (withAddress (s.(s_address).(a_config)) address) sender withdrawFee ->
  fee_settings (s.(s_address).(a_config)).(dustThreshold) -> withoutRecipientWallet s = Ok r -> checked a -> ArgsLaws args ->
  withConversion (withAmount r a) args now = Ok c -> plausible c -> 0 <= miner.(amount) <= all_satoshis ->
  OnChainBuilt.mined feeConfig oc c miner f ->
  payout_flow (s.(s_address).(a_config)).(sendAll) {| btc := c.(c_btcProposedAmount); usd := c.(c_usdProposedAmount) |} f ∧ bounded f.
Proof.
  intros Es Hset Hr Ha Hargs Hc Hpl Hminer Hm. set (cfg := s.(s_address).(a_config)) in *.
  assert (Hinv : OnChainBuilt.conversion_inv cfg c).
  { apply OnChainBuilt.built_conversion_inv. eapply OnChainBuilt.built_intro; [done|by left|apply Ha|done|done]. }
  apply onchain_conversion_to in Hc as [Hamt _ _]. injection Hr as <-.
  assert (Hcr : c_recipient c = m_recipient (withAmount _ a)) by (unfold c_recipient; by rewrite Hamt).
  rewrite withAmount_recipient in Hcr.
  assert (Hs : c_sender c = s) by (unfold c_sender; by rewrite Hcr).
  assert (Hcfg : c_config c = cfg) by (unfold c_config; by rewrite Hs).
  pose proof (OnChainBuilt.mined_conserves _ _ _ _ _ Hm) as Hcons. rewrite <- Hcfg in Hinv, Hset.
  destruct (mined_amounts c miner f Hinv Hm Hset ltac:(by rewrite Hcr)) as [Hcurs Hamts].
  destruct (fs_dust _ Hset) as (_ & Hd & _).
  pose proof Hm as (ratio & minBank & imb & _ & Hratio & Hmin & Ebf & Euf & _ & _ & _ & (Hcur & _ & Hid & _ & Haddr & Hacc) & Hpay).
  apply wallet_ratio_made in Hratio as ->. rewrite Hs, Es in Hmin. pose proof (fs_minimum _ Hset minBank Hmin) as [Hmin0 _].
  destruct (OnChainBuilt.mined_fees feeConfig oc c miner f minBank Hinv Hm (proj1 Hminer)) as (Htot & Hle & Husd & Hpos); [by rewrite Hs, Es|done|].
  split; [|eapply mined_bounded; [done..|by rewrite Hs, Es|done|done|lia|lia]].
  destruct (mined_proposed c miner f Hinv Hm) as [_ Hu]; [lia..|].
  rewrite Hs, Es in Hcur, Hid, Haddr, Hacc. split; [|done|done|cbn; lia|split_and!; first [done|lia|by rewrite Euf, <- Ebf]|].
  - unfold senderWalletDescriptor. rewrite Hid, Hcur, Hacc. by destruct sender.
  - rewrite Hcfg in Hcons, Hpay. rewrite Hs, Es in Hpay. cbn zeta in Hcons. destruct (sendAll cfg).
    + unfold sender_amount, sender_fee in Hcons. rewrite Hcur in Hcons. cbn in Hcons, Hpay.
      unfold totalAmountsForPayment, amount_in. destruct (w_currency sender); destruct Hpay as [_ Hpay]; cbn; by rewrite Hcons.
    + destruct Hcons as [Eb Eu]. unfold paymentAmounts. by rewrite Eb, Eu.
Qed.

End Payout.

(** ** The flow of a payment within the bank *)

Section Internal.
Context {G : Type -> Type} (sender : WalletDescriptor) (ra : OPFB.WithRecipientArgs).

(** The flow of a payment of [a] to one of the wallets of the recipient's account, free of fees. *)
Record onchain_internal (a : Amount) (f : OnChainPaymentFlowState) : Prop := {
  oi_sender : senderWalletDescriptor f = sender;
  oi_amounts : valid_pair (paymentAmounts f);
  oi_positive : ∀ cur, 0 < amount_in (paymentAmounts f) cur;
  oi_free : f.(btcProtocolAndBankFee).(amount) = 0 ∧ f.(usdProtocolAndBankFee).(amount) = 0;
  oi_input : amount_in (paymentAmounts f) a.(currency) = a.(amount);
  oi_recipient : ∀ rcpt, recipientWalletDescriptor f = Some rcpt -> rcpt.(w_id) ≠ sender.(w_id) ∧
    (rcpt = wallet_for ra.(ra_recipientWalletDescriptors) ra.(ra_defaultWalletCurrency) ∨ rcpt = ra.(ra_recipientWalletDescriptors).(BTC));
}.

(** The recipient of a flow is the wallet that was asked for, or the BTC wallet of the account, as it is in the conversion. *)
Lemma internal_recipient (s : WithSenderWalletAndAccountState (G := G)) r c f rcpt :
  withRecipientWallet s ra = Ok r -> c_recipient c = r -> withoutMinerFee c = Ok f ->
  Built.valid_descriptors ra.(ra_recipientWalletDescriptors) -> recipientWalletDescriptor f = Some rcpt ->
  (as_asked r c -> rcpt = wallet_for ra.(ra_recipientWalletDescriptors) ra.(ra_defaultWalletCurrency)) ∧
  (to_btc r c -> rcpt = ra.(ra_recipientWalletDescriptors).(BTC)).
Proof.
  intros Hr Hcr Hf (Db & Du & Dacc) Hrcpt. unfold withoutMinerFee in Hf. apply bind_Ok in Hf as (c' & Ec & [= <-]).
  apply OnChainBuilt.stateFromPromise_spec in Ec as [-> _].
  apply recipient_fields in Hrcpt as (Ei & Ec & Eacc'). cbn in Ei, Ec, Eacc'. rewrite Hcr in Eacc'. destruct rcpt as [id cur acc]. cbn in Ei, Ec, Eacc'.
  assert (HB : ∀ cu, w_accountId (wallet_for (ra_recipientWalletDescriptors ra) cu) = w_accountId (BTC (ra_recipientWalletDescriptors ra))) by (by intros []).
  assert (HC : ∀ cu, w_currency (wallet_for (ra_recipientWalletDescriptors ra) cu) = cu) by (by intros []).
  unfold withRecipientWallet in Hr. case_decide; [done|]. injection Hr as <-. cbn in Eacc'. split.
  - intros [Gi Gc]. cbn in Gi, Gc. specialize (HC (ra_defaultWalletCurrency ra)). destruct (wallet_for _ _) eqn:Ew; cbn in *. f_equal; congruence.
  - intros (ds & Eds & Gi & Gc). injection Eds as <-. rewrite HB in Eacc'. destruct (BTC _) eqn:Ew; cbn in *. f_equal; congruence.
Qed.

Lemma onchain_internal_flow (s : WithSenderWalletAndAccountState (G := G)) r a args now c f :
  (s.(s_senderWalletId), s.(s_senderWalletCurrency), s.(s_senderAccountId)) = (sender.(w_id), sender.(w_currency), sender.(w_accountId)) ->
  withRecipientWallet s ra = Ok r -> checked a -> ArgsLaws args ->
  fair_prices args.(hedgeBuyUsd) -> fair_prices args.(hedgeSellUsd) -> fair_prices args.(mid) ->
  Built.valid_descriptors ra.(ra_recipientWalletDescriptors) ->
  withConversion (withAmount r a) args now = Ok c -> withoutMinerFee c = Ok f -> onchain_internal a f.
Proof.
  intros Es Hr Ha Hargs Hbuy Hsell Hmid Hds Hc Hf.
  assert (Hinv : OnChainBuilt.conversion_inv s.(s_address).(a_config) c).
  { apply OnChainBuilt.built_conversion_inv. eapply OnChainBuilt.built_intro; [done|by right; exists ra|apply Ha|done|exact Hc]. }
  pose proof (onchain_conversion_small r a args now c Hbuy Hsell Hmid Ha Hc) as [Sb Su].
  apply onchain_conversion_to in Hc as [Hamt Hprop Hrec].
  pose proof Hf as Hf'. unfold withoutMinerFee in Hf. apply bind_Ok in Hf as (c' & Ec & [= <-]). apply OnChainBuilt.stateFromPromise_spec in Ec as [-> _].
  assert (Hcr : c_recipient c = r) by (unfold c_recipient; rewrite Hamt; apply withAmount_recipient).
  assert (Hrs : r.(r_sender) = s) by (unfold withRecipientWallet in Hr; case_decide; [done|by injection Hr as <-]).
  assert (Hcs : c_sender c = s) by (unfold c_sender; by rewrite Hcr).
  destruct Hinv as (_ & [Hb Hbc] & [Hu Huc] & Hne). rewrite Hcs in Hne. injection Es as Eid Ecur Eacc. split; cbn.
  - unfold senderWalletDescriptor. cbn. rewrite Hcs, Eid, Ecur, Eacc. by destruct sender.
  - repeat split; cbn; first [done|lia].
  - intros []; cbn; lia.
  - done.
  - destruct (currency a); cbn; by rewrite Hprop.
  - intros rcpt Hrcpt. destruct (internal_recipient s r c _ rcpt Hr Hcr Hf' Hds Hrcpt) as [Hasked Hbtc].
    apply recipient_fields in Hrcpt as (Ei & _ & _). cbn in Ei. split; [rewrite <- Eid; congruence|].
    destruct Hrec as [?|(ds & ? & _ & ?)]; [left; by apply Hasked|right; apply Hbtc; by exists ds].
Qed.

End Internal.
