(* ===== verification/SendOnChain.v ===== *)
(** * Sending on chain

    Models [app/payments/send-on-chain.ts] and [app/wallets/get-on-chain-fee.ts], with the validator of
    [domain/wallets/payment-input-validator.ts]: the checks of the sender and the address, the flow, the
    limits, the entries under the lock of the sender's wallet and the payout, which is
    reverted if the service does not take it.  An address of the bank is paid within the ledger. *)

From S2P Require Import Prelude JsNumber Shared Prices Fees Lightning PaymentFlow LightningBuilder OnChainBuilder LedgerEntry.
From S2P Require Import TxMetadata LedgerTx TxHistory Limits Invoices World LedgerBook LedgerService Services Repositories.
From S2P Require Import WalletInvoices Money Accounts AccountLimits FlowBuilder SendLightning SendIntraledger OnChainService OnChainFlow.
Import OPFB.

Section Send.
Context {M X : Type} `{MediciEntry M} `{!MediciBook M X} `{Database X} `{Resolvers X}.
Context `{Redlock X} `{PriceServices X} `{Intl} `{BriaClient X}.
Context (RATIO_PRECISION : number) (usdHedgeEnabled : bool) (memoSharingConfig : MemoSharingConfig).
Context (accountLimits : YamlAccountLimits) (NETWORK : BtcNetwork) (briaConfig : BriaConfig).
Context (feeConfig : FeesConfig) (onChainFees : OnChainFees.config) (dustThreshold : number).

(** The recipient is checked where one is named. *)
Definition validatePaymentInput (amount : number) (amountCurrencyRaw : option WalletCurrency) (senderAccount : Account)
    (uncheckedSenderWalletId : string) (uncheckedRecipientWalletId : option string)
    : IO X (Result (Amount * Wallet * option Wallet)) :=
  if negb (bool_decide (senderAccount.(acc_status) = Active)) then mret (Err (InactiveAccountError senderAccount.(acc_id))) else
  senderWalletId ←! checkedToWalletId uncheckedSenderWalletId;
  senderWallet ←? findWalletById senderWalletId;
  if negb (bool_decide (senderWallet.(w_accountId) = senderAccount.(acc_id))) then mret (Err (InvalidWalletId "")) else
  let amountCurrency := default senderWallet.(w_currency) amountCurrencyRaw in
  validAmount ←! (if decide (amountCurrency = Btc) then checkedToBtcPaymentAmount (Some amount)
                  else checkedToUsdPaymentAmount (Some amount));
  match js_or_opt uncheckedRecipientWalletId None with
  | Some uncheckedRecipientWalletId =>
      recipientWalletId ←! checkedToWalletId uncheckedRecipientWalletId;
      recipientWallet ←? findWalletById recipientWalletId;
      if bool_decide (recipientWallet.(w_id) = senderWallet.(w_id)) then mret (Err SelfPaymentError) else
      mret (Ok (validAmount, senderWallet, Some recipientWallet))
  | None => mret (Ok (validAmount, senderWallet, None))
  end.

(** ** The builder *)

(** The first two stages: the address, of the bank or not, and the sender. *)
Definition sender_builder (sendAll isExternalAddress : bool) (checkedAddress : OnChainAddress)
    (senderWallet : WalletDescriptor) (senderAccount : Account) : WithSenderWalletAndAccountState (G := Async X) :=
  withSenderWalletAndAccount (withAddress {|
      netInVolumeAmountLightningFn := netInLightningTxBaseVolumeAmountSince;
      netInVolumeAmountOnChainFn := netInOnChainTxBaseVolumeAmountSince;
      OPFB.isExternalAddress := fun _ => isExternalAddress;
      OPFB.sendAll := sendAll;
      OPFB.dustThreshold := dustThreshold |} checkedAddress) senderWallet senderAccount.(acc_withdrawFee).

(** [.withAmount(amount).withConversion(withConversionArgs)], whose promise is awaited next *)
Definition onchain_converted (builder : Result (WithRecipientWalletState (G := Async X))) (amount : Amount)
    : IO X (Result (WithConversionState (G := Async X))) :=
  state ←! builder;
  now ← ext Date_now;
  (withConversion (F := Async X) (withAmount state amount)
     (mkConversionArgs immediate_buy immediate_sell (mid_prices RATIO_PRECISION usdHedgeEnabled)) now
   : IO X (Result (WithConversionState (G := Async X)))).

(** The wallet of the address, if it is one of the bank. *)
Definition wallet_of_address (checkedAddress : OnChainAddress) : IO X (Result (option Wallet)) :=
  recipientWallet ← findByAddress checkedAddress;
  mret (match recipientWallet with
        | Ok wallet => Ok (Some wallet)
        | Err e => if is_CouldNotFindError e then Ok None else Err e
        end).

(** The recipient of a payment to an address of the bank. *)
Definition with_recipient (withSenderBuilder : WithSenderWalletAndAccountState (G := Async X)) (recipientWallet : Wallet)
    : IO X (Result (Result (WithRecipientWalletState (G := Async X)))) :=
  accountWallets ←? findAccountWalletsByAccountId recipientWallet.(w_accountId);
  recipientAccount ←? findAccountById recipientWallet.(w_accountId);
  mret (Ok (withRecipientWallet withSenderBuilder {|
    ra_defaultWalletCurrency := recipientWallet.(w_currency);
    ra_recipientWalletDescriptors := accountWallets;
    ra_userId := recipientAccount.(acc_kratosUserId);
    ra_username := recipientAccount.(acc_username) |})).

Definition getMinerFeeAndPaymentFlow (builder : WithConversionState (G := Async X)) (speed : PayoutSpeed)
    : IO X (Result OnChainPaymentFlowState) :=
  proposedBtcAmount ←! btcProposedAmount builder;
  address ←! state_addressForFlow builder;
  minerFee ←? estimateFeeForPayout briaConfig address proposedBtcAmount speed;
  now ← ext Date_now;
  (withMinerFee (G := Async X) feeConfig onChainFees now builder minerFee : IO X (Result OnChainPaymentFlowState)).

(** ** Within the bank *)

(** The metadata of a payment to an address of the bank. *)
Definition onchain_intraledger_metadata (paymentFlow : OnChainPaymentFlowState) (payeeAddresses : list OnChainAddress)
    (sendAll : bool) (sender recipient : WalletDescriptor) (senderDisplay recipientDisplay : DisplayAmounts)
    (senderAccount recipientAccount : Account) (memo : option string) : LedgerMetadata :=
  if bool_decide (sender.(w_accountId) = recipient.(w_accountId)) then
    OnChainTradeIntraAccountLedgerMetadata payeeAddresses sendAll (flow_amounts paymentFlow) (js_or_opt memo None) {|
      s_senderAmountDisplayCurrency := toDisplayBaseAmount senderDisplay.(da_displayAmount);
      s_senderFeeDisplayCurrency := toDisplayBaseAmount senderDisplay.(da_displayFee);
      s_senderDisplayCurrency := senderAccount.(acc_displayCurrency) |}
  else
    OnChainIntraledgerLedgerMetadata payeeAddresses sendAll (flow_amounts paymentFlow) (js_or_opt memo None)
      senderAccount.(acc_username) recipientAccount.(acc_username) {|
      senderAmountDisplayCurrency := toDisplayBaseAmount senderDisplay.(da_displayAmount);
      senderFeeDisplayCurrency := toDisplayBaseAmount senderDisplay.(da_displayFee);
      senderDisplayCurrency := senderAccount.(acc_displayCurrency);
      recipientAmountDisplayCurrency := toDisplayBaseAmount recipientDisplay.(da_displayAmount);
      recipientFeeDisplayCurrency := toDisplayBaseAmount recipientDisplay.(da_displayFee);
      recipientDisplayCurrency := recipientAccount.(acc_displayCurrency) |}.

Definition onchain_lockedPaymentViaIntraledgerSteps (paymentFlow : OnChainPaymentFlowState)
    (senderAccount recipientAccount : Account) (memo : option string) (sendAll : bool) : IO X (Result string) :=
  let sender := senderWalletDescriptor paymentFlow in
  match (recipientDetails paymentFlow).(rd_walletDescriptor) with
  | None => mret (Err missing_recipient)
  | Some recipient =>
      balance ←? getWalletBalanceAmount (M := M) sender;
      _ ←! checkBalanceForSend paymentFlow balance;
      aborted ← ext signal_aborted;
      if (aborted : bool) then mret (Err ResourceExpiredLockServiceError) else
      address ←! addressForFlow paymentFlow;
      _ ←! WalletPriceRatio.make paymentFlow.(usdPaymentAmount) paymentFlow.(btcPaymentAmount);
      senderDisplayPriceRatio ←? getCurrentPriceAsDisplayPriceRatio RATIO_PRECISION senderAccount.(acc_displayCurrency);
      senderDisplay ←! DisplayAmountsConverter.convert senderDisplayPriceRatio (flow_amounts paymentFlow);
      recipientDisplayPriceRatio ←? getCurrentPriceAsDisplayPriceRatio RATIO_PRECISION recipientAccount.(acc_displayCurrency);
      recipientDisplay ←! DisplayAmountsConverter.convert recipientDisplayPriceRatio (flow_amounts paymentFlow);
      let md := onchain_intraledger_metadata paymentFlow [address] sendAll sender recipient senderDisplay recipientDisplay
        senderAccount recipientAccount memo in
      journal ←? recordIntraledger (M := M) "" sender recipient
        {| btc := paymentFlow.(btcPaymentAmount); usd := paymentFlow.(usdPaymentAmount) |}
        md.(metadata) md.(debitAccountAdditionalMetadata) md.(creditAccountAdditionalMetadata)
        md.(internalAccountsAdditionalMetadata);
      mret (Ok journal.(LedgerEntry.journalId))
  end.

Definition onchain_executePaymentViaIntraledger (builder : WithConversionState (G := Async X)) (senderAccount : Account)
    (memo : option string) (sendAll : bool) : IO X (Result PaymentSendResult) :=
  paymentFlow ←! withoutMinerFee builder;
  let senderWalletId := (senderWalletDescriptor paymentFlow).(w_id) in
  match (recipientDetails paymentFlow).(rd_walletDescriptor) with
  | None => mret (Err missing_recipient)
  | Some recipient =>
      recipientAccount ←? findAccountById recipient.(w_accountId);
      _ ←! AccountValidator recipientAccount;
      _ ←? check_intraledger_limits RATIO_PRECISION usdHedgeEnabled accountLimits paymentFlow senderAccount recipientAccount;
      result ←? lockWalletId senderWalletId
        (onchain_lockedPaymentViaIntraledgerSteps paymentFlow senderAccount recipientAccount memo sendAll);
      journalId ←! result;
      notify_parties (M := M) memoSharingConfig senderAccount recipientAccount senderWalletId recipient.(w_id) journalId
  end.

(** ** Through the service *)

(** The payout; a payment whose payout is not taken is reverted. *)
Definition queue_or_revert (paymentFlow : OnChainPaymentFlowState) (address : OnChainAddress) (speed : PayoutSpeed)
    (journalId : string) : IO X (Result string) :=
  payout ← queuePayoutToAddress briaConfig (senderWalletDescriptor paymentFlow) address
    paymentFlow.(btcPaymentAmount) speed journalId;
  match payout with
  | Err payout =>
      _ ←? revertOnChainPayment (M := M) journalId None;
      mret (Err payout)
  | Ok _ => mret (Ok journalId)
  end.

(** The flows that the builder makes have an address. *)
Definition lockedPaymentViaOnChainSteps (builder : WithConversionState (G := Async X)) (speed : PayoutSpeed)
    (senderDisplayCurrency : DisplayCurrency) (memo : option string) (sendAll : bool) : IO X (Result string) :=
  paymentFlow ←? getMinerFeeAndPaymentFlow builder speed;
  let sender := senderWalletDescriptor paymentFlow in
  balance ←? getWalletBalanceAmount (M := M) sender;
  _ ←! checkBalanceForSend paymentFlow balance;
  aborted ← ext signal_aborted;
  if (aborted : bool) then mret (Err ResourceExpiredLockServiceError) else
  let bankFee := bankFees paymentFlow in
  displayPriceRatio ←? getCurrentPriceAsDisplayPriceRatio RATIO_PRECISION senderDisplayCurrency;
  display ←! DisplayAmountsConverter.convert displayPriceRatio (flow_amounts paymentFlow);
  let address := default "" paymentFlow.(PaymentFlow.address) in
  let md := OnChainSendLedgerMetadata (flow_amounts paymentFlow) {|
      dt_displayAmount := toDisplayBaseAmount display.(da_displayAmount);
      dt_displayFee := toDisplayBaseAmount display.(da_displayFee);
      dt_displayCurrency := senderDisplayCurrency |} [address] sendAll (js_or_opt memo None) in
  journal ←? recordSendOnChain (M := M) (js_or memo "") sender
    {| btc := {| currency := paymentFlow.(btcPaymentAmount).(currency);
                 amount := paymentFlow.(btcPaymentAmount).(amount) + paymentFlow.(btcProtocolAndBankFee).(amount) |};
       usd := {| currency := paymentFlow.(usdPaymentAmount).(currency);
                 amount := paymentFlow.(usdPaymentAmount).(amount) + paymentFlow.(usdProtocolAndBankFee).(amount) |} |}
    (Some bankFee) md.(metadata) md.(debitAccountAdditionalMetadata) md.(internalAccountsAdditionalMetadata);
  queue_or_revert paymentFlow address speed journal.(LedgerEntry.journalId).

Definition executePaymentViaOnChain (builder : WithConversionState (G := Async X)) (senderDisplayCurrency : DisplayCurrency)
    (speed : PayoutSpeed) (memo : option string) (sendAll : bool) : IO X (Result PaymentSendResult) :=
  sender ←! state_senderWalletDescriptor builder;
  proposed ←! proposedAmounts builder;
  priceRatioForLimits ←? getPriceRatioForLimits RATIO_PRECISION usdHedgeEnabled proposed;
  _ ←? checkWithdrawalLimits accountLimits proposed.(usd) sender.(w_accountId) priceRatioForLimits;
  result ←? lockWalletId sender.(w_id) (lockedPaymentViaOnChainSteps builder speed senderDisplayCurrency memo sendAll);
  journalId ←! result;
  walletTransaction ←? getWalletTransactionByJournalId (M := M) memoSharingConfig sender.(w_id) journalId;
  mret (Ok (mkPaymentSendResult SendSuccess (Some walletTransaction))).

(** ** The payment *)

(** The part of [payOnChainByWalletId] that follows the checks of its arguments. *)
Definition pay_address (senderAccount : Account) (amount : Amount) (senderWallet : Wallet) (checkedAddress : OnChainAddress)
    (speed : PayoutSpeed) (memo : option string) (sendAll : bool) : IO X (Result PaymentSendResult) :=
  recipientWallet ←? wallet_of_address checkedAddress;
  let withSenderBuilder := sender_builder sendAll (bool_decide (recipientWallet = None)) checkedAddress senderWallet senderAccount in
  match recipientWallet with
  | Some recipientWallet =>
      withRecipient ←? with_recipient withSenderBuilder recipientWallet;
      builder ←? onchain_converted withRecipient amount;
      onchain_executePaymentViaIntraledger builder senderAccount memo sendAll
  | None =>
      builder ←? onchain_converted (withoutRecipientWallet withSenderBuilder) amount;
      executePaymentViaOnChain builder senderAccount.(acc_displayCurrency) speed memo sendAll
  end.

Definition payOnChainByWalletId (senderAccount : Account) (senderWalletId : string) (amountRaw : number)
    (amountCurrencyRaw : option WalletCurrency) (address : string) (speed : PayoutSpeed) (memo : option string)
    (sendAll : bool) : IO X (Result PaymentSendResult) :=
  latestAccountState ←? findAccountById senderAccount.(acc_id);
  _ ←! AccountValidator latestAccountState;
  amountToSendRaw ←? (if sendAll then getWalletBalance (M := M) senderWalletId else mret (Ok amountRaw));
  if sendAll && num_eqb amountToSendRaw (Number 0) then mret (Err NoBalanceLeftError) else
  validationResult ←? validatePaymentInput amountToSendRaw amountCurrencyRaw senderAccount senderWalletId None;
  let '(amount, senderWallet, _) := validationResult in
  checkedAddress ←! checkedToOnChainAddress NETWORK address;
  pay_address senderAccount amount senderWallet checkedAddress speed memo sendAll.

Definition payOnChainByWalletIdForBtcWallet (senderAccount : Account) (senderWalletId : string) (amount : number)
    (address : string) (speed : PayoutSpeed) (memo : option string) : IO X (Result PaymentSendResult) :=
  _ ←? validateIsBtcWallet senderWalletId;
  payOnChainByWalletId senderAccount senderWalletId amount (Some Btc) address speed memo false.

Definition payOnChainByWalletIdForUsdWallet (senderAccount : Account) (senderWalletId : string) (amount : number)
    (address : string) (speed : PayoutSpeed) (memo : option string) : IO X (Result PaymentSendResult) :=
  _ ←? validateIsUsdWallet senderWalletId;
  payOnChainByWalletId senderAccount senderWalletId amount (Some Usd) address speed memo false.

Definition payOnChainByWalletIdForUsdWalletAndBtcAmount (senderAccount : Account) (senderWalletId : string) (amount : number)
    (address : string) (speed : PayoutSpeed) (memo : option string) : IO X (Result PaymentSendResult) :=
  _ ←? validateIsUsdWallet senderWalletId;
  payOnChainByWalletId senderAccount senderWalletId amount (Some Btc) address speed memo false.

Definition payAllOnChainByWalletId (senderAccount : Account) (senderWalletId address : string) (speed : PayoutSpeed)
    (memo : option string) : IO X (Result PaymentSendResult) :=
  payOnChainByWalletId senderAccount senderWalletId (Number 0) None address speed memo true.

(** ** The fee *)

(** The balance is read, and only its error is used. *)
Definition getOnChainFee (walletId : string) (senderAccount : Account) (amount : number) (amountCurrency : WalletCurrency)
    (address : string) (speed : PayoutSpeed) : IO X (Result Amount) :=
  amountChecked ←! (if decide (amountCurrency = Btc) then checkedToBtcPaymentAmount (Some amount)
                    else checkedToUsdPaymentAmount (Some amount));
  walletIdChecked ←! checkedToWalletId walletId;
  senderWallet ←? findWalletById walletIdChecked;
  checkedAddress ←! checkedToOnChainAddress NETWORK address;
  recipientWallet ←? wallet_of_address checkedAddress;
  let withSenderBuilder := sender_builder false (bool_decide (recipientWallet = None)) checkedAddress senderWallet senderAccount in
  match recipientWallet with
  | Some recipientWallet =>
      withRecipient ←? with_recipient withSenderBuilder recipientWallet;
      builder ←? onchain_converted withRecipient amountChecked;
      paymentFlow ←! withoutMinerFee builder;
      mret (Ok (protocolAndBankFeeInSenderWalletCurrency paymentFlow))
  | None =>
      builder ←? onchain_converted (withoutRecipientWallet withSenderBuilder) amountChecked;
      _ ←! btcProposedAmount builder;
      _ ←? getWalletBalanceAmount (M := M) senderWallet;
      paymentFlow ←? getMinerFeeAndPaymentFlow builder speed;
      mret (Ok (protocolAndBankFeeInSenderWalletCurrency paymentFlow))
  end.

Definition getOnChainFeeForBtcWallet (walletId : string) (account : Account) (amount : number) (address : string)
    (speed : PayoutSpeed) : IO X (Result Amount) :=
  _ ←? validateIsBtcWallet walletId; getOnChainFee walletId account amount Btc address speed.
Definition getOnChainFeeForUsdWallet (walletId : string) (account : Account) (amount : number) (address : string)
    (speed : PayoutSpeed) : IO X (Result Amount) :=
  _ ←? validateIsUsdWallet walletId; getOnChainFee walletId account amount Usd address speed.
Definition getOnChainFeeForUsdWalletAndBtcAmount (walletId : string) (account : Account) (amount : number) (address : string)
    (speed : PayoutSpeed) : IO X (Result Amount) :=
  _ ←? validateIsUsdWallet walletId; getOnChainFee walletId account amount Btc address speed.

End Send.

(** ** Where the money goes *)

Section Payout.
Context {M X : Type} `{MediciEntry M} `{!MediciLaws M} `{!MediciBook M X} `{!MediciBookLaws M X}
  `{Database X} `{Resolvers X} `{Redlock X} `{PriceServices X} `{Intl} `{BriaClient X} `{!BriaLaws X}.
Context (precision : number) (hedge : bool) (memoCfg : MemoSharingConfig) (yaml : YamlAccountLimits) (briaConfig : BriaConfig).
Context (feeConfig : FeesConfig) (oc : OnChainFees.config) (d : Z).
Context (bankOwner dealerBtc dealerUsd funder : WalletId).
Abbreviation user := (user_wallet bankOwner dealerBtc dealerUsd).
Abbreviation all_ready := (all_ready bankOwner dealerBtc dealerUsd funder).
Context (sender : WalletDescriptor) (Hsender : user sender) (address : OnChainAddress) (speed : PayoutSpeed).
Context (all : bool) (p : AmountPair).
Implicit Types (w : World X) (c : WithConversionState (G := Async X)) (f : OnChainPaymentFlowState).

(** What is relied on of a builder: it is the sender's, and whatever the fee, the flow is a payout of [p] whose totals
    floats hold. *)
Record payout_builder c : Prop := {
  pb_sender : ∀ wd, state_senderWalletDescriptor c = Ok wd -> wd = sender;
  pb_volumes : (∀ wd t, keeps same_books ((c_config c).(netInVolumeAmountLightningFn) wd t)) ∧
               (∀ wd t, keeps same_books ((c_config c).(netInVolumeAmountOnChainFn) wd t));
  pb_flow : ∀ miner f, 0 <= miner.(amount) <= all_satoshis -> OnChainBuilt.mined feeConfig oc c miner f ->
    payout_flow d sender address all p f ∧ bounded f;
}.

(** [D] charges the sender, who has it, the amount and the fees; the satoshis but for the bank's fee leave the on-chain account. *)
Definition pays_out f w (D : Change) : Prop :=
  D (toLedgerAccountId sender.(w_id)) sender.(w_currency) = amount_in (totalAmountsForPayment f) sender.(w_currency) ∧
  D onChainLedgerAccountId Btc =
    - (f.(btcPaymentAmount).(amount) + f.(btcProtocolAndBankFee).(amount) - f.(flow_btcBankFee).(amount)) ∧
  (exact_book w.(ledger) -> amount_in (totalAmountsForPayment f) sender.(w_currency)
                            <= book_balance (toLiabilitiesWalletId sender.(w_id)) w.(ledger)).

(** The payout of [f], for the entries of journal [j], that the service was asked for and the answer it gave. *)
Definition asked_for f (j : string) (answer : result GrpcError (string * option number)) : Prop :=
  ∃ x x', submitPayout (payout_request briaConfig sender address f.(btcPaymentAmount) speed j) x = (answer, x').

(** A payout that the service refused, and whose entries could not be reverted. *)
Definition unreverted f (j : string) : Prop :=
  ∃ err e w1 w2, asked_for f j (Err err) ∧ revertOnChainPayment (M := M) (X := X) j None w1 = (Err e, w2).

(** Where a payout leaves the books.  The call failed and moved nothing; or the sender was charged for a payout of
    [p] that the service took, or for one that it refused and whose entries could not be reverted. *)
Definition paid_out {A} w (r : Result A) w' : Prop :=
  ∃ D, moved D w w' ∧
    ((∃ e, r = Err e) ∧ (∀ acc cur, D acc cur = 0) ∨
     ∃ f j, payout_flow d sender address all p f ∧ pays_out f w D ∧ journal_moves j D w'.(ledger) ∧
       ((∃ id, asked_for f j (Ok id)) ∨ (∃ e, r = Err e) ∧ unreverted f j)).

Lemma paid_out_err {A} w w' e : shifted w w' -> paid_out (A := A) w (Err e) w'.
Proof. intros S. exists nothing. split; [by apply shifted_moved|]. left. eauto. Qed.

Lemma paid_out_from {A} w w1 w' (r : Result A) : same_books w w1 -> paid_out w1 r w' -> paid_out w r w'.
Proof.
  intros S (D & Hm & HD). exists D. split; [by eapply shifted_then; [apply same_shifted|]|].
  destruct HD as [HD|(f & j & Hf & Hp & Hj)]; [by left|right]. exists f, j. split; [done|]. split; [|done].
  unfold pays_out in *. destruct S as [El _]. by rewrite <- El.
Qed.

(** What follows the lock can fail, and changes no books. *)
Lemma paid_out_then {A B} w w1 w' (r : Result A) (r' : Result B) : same_books w1 w' ->
  ((∃ e, r = Err e) -> ∃ e, r' = Err e) -> paid_out w r w1 -> paid_out w r' w'.
Proof.
  intros S Hr (D & Hm & HD). exists D. split; [by eapply moved_shifted; [|apply same_shifted]|].
  destruct HD as [[He HD]|(f & j & Hf & Hp & Hj & Hasked)]; [left; auto|right].
  exists f, j. do 2 (split; [done|]). split; [by destruct S as [-> _]|].
  destruct Hasked as [Hok|[He Hrefused]]; [by left|right; auto].
Qed.

Lemma wp_getMinerFeeAndPaymentFlow c w : payout_builder c ->
  wp (getMinerFeeAndPaymentFlow briaConfig feeConfig oc c speed) (fun r w' => same_books w w' ∧
    ∀ f, r = Ok f -> payout_flow d sender address all p f ∧ bounded f) w.
Proof using BriaLaws0.
  intros [_ [Hln Hoc] Hflow]. unfold getMinerFeeAndPaymentFlow.
  apply wp_or_return; [intros btc _|done]. apply wp_or_return; [intros addr _|done].
  apply wp_bind_or, wp_estimateFee; [exact _|done|]. intros z x Hz. apply wp_bind, wp_ext. intros now x1 _.
  eapply wp_mono; [by apply (wp_withMinerFee same_books)|]. intros r w' [S Hm]. split; [exact S|].
  intros f Hf. by eapply Hflow, Hm.
Qed.

(** The entries of the payment. *)
Lemma wp_recordPayout description f md w : payout_flow d sender address all p f -> bounded f -> all_ready w ->
  wp (recordSendOnChain (M := M) description (senderWalletDescriptor f) (totalAmountsForPayment f) (Some (bankFees f))
        md.(metadata) md.(debitAccountAdditionalMetadata) md.(internalAccountsAdditionalMetadata))
    (fun r w' => match r with
       | Ok j => ∃ D, moved D w w' ∧ journal_moves j.(LedgerEntry.journalId) D w'.(ledger) ∧
           D (toLedgerAccountId sender.(w_id)) sender.(w_currency) = amount_in (totalAmountsForPayment f) sender.(w_currency) ∧
           D onChainLedgerAccountId Btc =
             - (f.(btcPaymentAmount).(amount) + f.(btcProtocolAndBankFee).(amount) - f.(flow_btcBankFee).(amount))
       | Err _ => same_books w w'
       end) w.
Proof using Hsender MediciLaws0 MediciBookLaws0.
  intros [-> _ (Cb & Cu & Cbb & Cub) Ha (Hb & Hu & Hpos & _) _] [Bb Bu] [Hw _]. cbn in Bb, Bu.
  destruct (send_nets (MainBook_entry (X := X)) bankOwner dealerBtc dealerUsd entry_empty false description sender
    (totalAmountsForPayment f) (Some (bankFees f)) md.(metadata) md.(debitAccountAdditionalMetadata)
    md.(internalAccountsAdditionalMetadata)) as (Hbal & HS & HO); [| |done|].
  - unfold valid_pair, totalAmountsForPayment. cbn. split_and!; [done..| | | |]; lia.
  - intros ? [= <-]. split; [|done]. unfold valid_pair, bankFees. cbn. split_and!; [done..| | | |]; lia.
  - eapply wp_mono; [apply (wp_record bankOwner dealerBtc dealerUsd (fun ids => send_entry _ _ ids _ _ _ _ _ _ _)); done|].
    intros [j|e] w'; [|done]. intros [Hm Hj]. eexists. split; [exact Hm|]. split; [exact Hj|]. split; [exact HS|exact HO].
Qed.

(** The payout after its entries. *)
Lemma wp_queue_or_revert f D j w w1 : payout_flow d sender address all p f -> moved D w w1 -> pays_out f w D ->
  journal_moves j D w1.(ledger) ->
  wp (queue_or_revert (M := M) briaConfig f (default "" f.(PaymentFlow.address)) speed j) (paid_out w) w1.
Proof using MediciBookLaws0.
  intros Hf Hm Hp Hj. unfold queue_or_revert. pose proof Hf as [-> -> _ _ _ _]. cbn [default].
  apply wp_bind, wp_bind, wp_ext. intros r x Hr. apply wp_ret.
  assert (Hm1 : moved D w (with_outside w1 x)) by exact Hm. destruct r as [[id t]|err].
  - apply wp_ret. exists D. split; [exact Hm1|]. right. exists f, j. do 2 (split; [done|]). split; [exact Hj|].
    left. exists (id, t), w1.(outside), x. exact Hr.
  - apply wp_bind_or. eapply wp_mono.
    { apply wp_and; [apply (wp_revert_moves j None D); exact Hj|].
      instantiate (1 := fun r w2 => revertOnChainPayment j None (with_outside w1 x) = (r, w2)). apply surjective_pairing. }
    intros [b|e] w2 [Hback Erev]; [apply wp_ret|rename Hback into Hsh].
    + eexists. split; [eapply moved_trans; [exact Hm1|exact Hback]|]. left. split; [eauto|]. intros acc cur. cbn. lia.
    + exists D. split; [by eapply moved_shifted; [exact Hm1|]|]. right. exists f, j. do 2 (split; [done|]).
      split; [by eapply shifted_journal|]. right. split; [eauto|]. exists err, e, (with_outside w1 x), w2.
      split; [|done]. by exists w1.(outside), x.
Qed.

Lemma wp_lockedPayout c dcur memo sendAll w : payout_builder c -> all_ready w ->
  wp (lockedPaymentViaOnChainSteps (M := M) precision briaConfig feeConfig oc c speed dcur memo sendAll) (paid_out w) w.
Proof using Hsender MediciLaws0 MediciBookLaws0 BriaLaws0.
  intros Hc Hw. assert (HE : ∀ w' e, same_books w w' -> paid_out (A := string) w (Err e) w')
    by (intros; by apply paid_out_err, same_shifted).
  unfold lockedPaymentViaOnChainSteps. apply wp_bind_or. eapply wp_mono; [by apply wp_getMinerFeeAndPaymentFlow|].
  intros [f|e] w1 [S1 Hf]; [|by apply HE]. destruct (Hf f eq_refl) as [Hpo Hbd]. clear Hf.
  assert (Hw1 : all_ready w1) by (by eapply all_ready_same).
  apply wp_bind_or. eapply wp_mono; [by eapply wp_covers|]. intros [b|e] w2 [S2 Hcov]; [|apply HE; by etrans].
  assert (S : same_books w w2) by (by etrans). apply wp_or_return; [intros ok Hok|by intros; apply HE].
  specialize (Hcov b ok eq_refl Hok). replace w1.(ledger) with w.(ledger) in Hcov by (symmetry; apply S1).
  apply wp_bind, (wp_keeps same_books); [auto with keeps|]. intros [] w3 S3; [apply wp_ret, HE; by etrans|].
  apply wp_bind_or, (wp_keeps same_books); [auto with keeps|]. assert (S3' : same_books w w3) by (by etrans).
  intros [ratio|e] w4 S4; [|apply HE; by etrans]. assert (S' : same_books w w4) by (by etrans).
  apply wp_or_return; [intros display _|by intros; apply HE]. cbn zeta.
  apply wp_bind_or. eapply wp_mono; [apply (wp_recordPayout _ f); [done|done|eapply all_ready_same; [exact Hw|done]]|].
  intros [j|e] w5; [|intros S5; apply HE; by etrans]. intros (D & Hm & Hj & HS & HO).
  eapply (wp_queue_or_revert f D); [done|by eapply shifted_then; [apply same_shifted|]| |done].
  split; [done|]. split; [done|]. pose proof (po_sender _ _ _ _ _ _ Hpo) as <-. exact Hcov.
Qed.

(** The wallets and the withdrawal limit of an account. *)
Record limited (id : AccountId) w (wallets : AccountWalletDescriptors) (out : Z) : Prop := {
  lm_exact : exact_book w.(ledger);
  lm_standing : ∃ level i t, standing id w wallets level ∧ getAccountLimits level yaml = mkLimits (Number i) (Number out) (Number t);
  lm_currencies : wallets.(BTC).(w_currency) = Btc ∧ wallets.(USD).(w_currency) = Usd;
  lm_safe : safe_integer out;
}.

(** What the wallets paid out in the last day, net of what came in, and the payment are within the limit. *)
Definition within (id : AccountId) w (wallets : AccountWalletDescriptors) (out : Z) : Prop :=
  within_limit precision hedge id externalPaymentVolumeSince true out p p.(usd).(amount) w wallets.

Lemma wp_sendPayout c dcur memo sendAll w w1 : payout_builder c -> all_ready w -> same_books w w1 ->
  wp (result ←? lockWalletId sender.(w_id) (lockedPaymentViaOnChainSteps (M := M) precision briaConfig feeConfig oc c speed dcur memo sendAll);
      journalId ←! result;
      walletTransaction ←? getWalletTransactionByJournalId (M := M) memoCfg sender.(w_id) journalId;
      mret (Ok (mkPaymentSendResult SendSuccess (Some walletTransaction)))) (paid_out w) w1.
Proof using Hsender MediciLaws0 MediciBookLaws0 BriaLaws0.
  intros Hc Hw S. apply wp_bind_or, wp_redlock; [intros e x; by apply paid_out_err, same_shifted|]. intros x.
  eapply wp_mono; [apply wp_lockedPayout; [done|by eapply all_ready_same]|]. intros r w2 Hout x'.
  apply (paid_out_from w) in Hout; [|exact S]. split; [|intros e; by eapply paid_out_then; [| |exact Hout]; [|eauto]].
  apply wp_or_return; [intros j ->|intros e ->; by eapply paid_out_then; [| |exact Hout]; [|eauto]].
  assert (Hw2 : all_ready w2) by (destruct Hout as (D & (Eb & _) & _); unfold Money.all_ready in *; by rewrite Eb).
  apply wp_bind_or, (wp_getWalletTransactionByJournalId bankOwner dealerBtc dealerUsd funder); [exact Hw2|].
  intros [t|e] w3 S3; [apply wp_ret|]; by eapply paid_out_then; [| |exact Hout]; [|intros [? [=]]|eauto..].
Qed.
Lemma wp_executePayout c dcur memo sendAll w wallets out : payout_builder c -> all_ready w ->
  limited sender.(w_accountId) w wallets out -> p = {| btc := c.(c_btcProposedAmount); usd := c.(c_usdProposedAmount) |} ->
  p.(usd).(currency) = Usd -> 0 < p.(usd).(amount) ->
  wp (executePaymentViaOnChain (M := M) precision hedge memoCfg yaml briaConfig feeConfig oc c dcur speed memo sendAll)
    (fun r w' => (∃ e, r = Err e) ∧ same_books w w' ∨ paid_out w r w' ∧ within sender.(w_accountId) w wallets out) w.
Proof using Hsender MediciLaws0 MediciBookLaws0 BriaLaws0.
  intros Hc Hw [Hex (level & i & t & Hst & Hlim) [Hbtc Husd] Hsafe] Hp Hucur Hpos. unfold executePaymentViaOnChain.
  apply wp_or_return; [intros wd Hwd|intros e _; left; split; [by exists e|done]]. apply (pb_sender _ Hc) in Hwd as ->.
  apply wp_or_return; [intros p' Hp'|intros e _; left; split; [by exists e|done]].
  assert (p' = p) as ->.
  { unfold proposedAmounts, btcProposedAmount, usdProposedAmount in Hp'. destruct (stateFromPromise c) as [c'|] eqn:Ec; [|done].
    apply OnChainBuilt.stateFromPromise_spec in Ec as [-> _]. injection Hp' as <-. by rewrite Hp. }
  apply wp_bind_or. eapply wp_mono; [apply wp_getPriceRatioForLimits|]. intros [ratio|e] w1 [S1 Hr]; [|left; split; [eauto|apply S1]].
  replace p.(usd) with (UsdPaymentAmount p.(usd).(amount)) by (destruct p.(usd); cbn in *; by subst).
  assert (Hs1 : standing sender.(w_accountId) w1 wallets level) by (by eapply standing_same).
  pose proof S1 as [[[L1 B1] _] _]. apply wp_bind_or.
  eapply wp_mono; [apply (wp_checkLimits yaml externalPaymentVolumeSince true _ _ WithdrawalLimitsExceededError withdrawalLimit out _ wallets level);
    first [done|by rewrite Hlim|by rewrite L1]|].
  intros [[]|e] w2 [[x ->] Hans]; [|left; split; [eauto|apply S1]]. apply answers_within in Hans.
  eapply wp_mono; [apply (wp_sendPayout _ _ _ _ w); [done|done|apply S1]|]. intros r w' Hpaid. right. split; [done|]. exists ratio, w1. auto.
Qed.

End Payout.

(** ** The checks of a payment *)

Section Checks.
Context {M X : Type} `{MediciEntry M} `{!MediciBook M X} `{!MediciBookLaws M X}
  `{Database X} `{Resolvers X} `{Redlock X} `{PriceServices X} `{Intl} `{BriaClient X}.
Context (precision : number) (hedge : bool) (memoCfg : MemoSharingConfig) (yaml : YamlAccountLimits).
Context (network : BtcNetwork) (briaConfig : BriaConfig) (feeConfig : FeesConfig) (oc : OnChainFees.config) (dust : number).
Context (bankOwner dealerBtc dealerUsd funder : WalletId).
Implicit Types (w : World X) (sender : Wallet).
Abbreviation all_ready := (all_ready bankOwner dealerBtc dealerUsd funder).

(** The amount of a payment: the balance if all is sent, else the number that was given. *)
Definition given (x : number) (cur : option WalletCurrency) (all : bool) sender (a : Amount) w : Prop :=
  a.(currency) = default sender.(w_currency) cur ∧
  if all then a.(amount) = book_balance (toLiabilitiesWalletId sender.(w_id)) w.(ledger) else BigInt x = Some a.(amount).

Lemma wp_getWalletBalance id w : all_ready w -> exact_book w.(ledger) ->
  wp (getWalletBalance (M := M) id) (fun r w' => same_data w w' ∧
    ∀ x, r = Ok x -> x = Number (book_balance (toLiabilitiesWalletId id) w.(ledger))) w.
Proof using MediciBookLaws0.
  intros [(_ & Hd & Hu & _ & Td & Tu) _] Hex. unfold getWalletBalance.
  apply wp_bind_or, wp_catch, wp_db; [done|]. intros x. apply wp_gets. cbn [ledger with_outside]. rewrite balance_exact by done.
  apply wp_bind_or. destruct (num_ltb _ _); [|apply wp_ret, wp_ret; split; [done|by intros ? [= <-]]].
  apply wp_catch. unfold wp at 1, rejects, getDealerBtcWalletId, getDealerUsdWalletId, mbind, IO_bind.
  rewrite (cached_hit _ _ _ dealerUsd), (cached_hit _ _ _ dealerBtc) by done. cbn. apply wp_ret. split; [done|by intros ? [= <-]].
Qed.

Lemma wp_validatePaymentInput x cur sa id w : valid x ->
  wp (validatePaymentInput x cur sa id None) (fun r w' => same_data w w' ∧ ∀ a sender o, r = Ok (a, sender, o) ->
    sender ∈ w.(wallets) ∧ sender.(w_id) = id ∧ sender.(w_accountId) = sa.(acc_id) ∧
    checked a ∧ a.(currency) = default sender.(w_currency) cur ∧ BigInt x = Some a.(amount)) w.
Proof.
  intros Hx. unfold validatePaymentInput, checkedToWalletId. destruct (negb _); [done|].
  apply wp_or_return; [intros ? E1|done]. case_match; [|done]. injection E1 as <-.
  apply wp_bind_or, wp_findWalletById; [done|]. intros sender x1 Hin Hid.
  destruct (bool_decide (w_accountId sender = acc_id sa)) eqn:Eacc; [|done]. apply bool_decide_eq_true in Eacc. cbn [negb].
  apply wp_or_return; [intros a Ha|done]. apply wp_ret. split; [done|]. intros ? ? ? [= <- <- <-]. do 3 (split; [done|]).
  assert (Hv : LPFB.validated (match default sender.(w_currency) cur with Btc => checkedToBtcPaymentAmount (Some x)
                          | Usd => checkedToUsdPaymentAmount (Some x) end) = Ok a).
  { revert Ha. case_decide as Ed; intros Ha; [by rewrite Ed, Ha|]. destruct (default _ _); [by rewrite Ha|done]. }
  apply (Built.checked_pos _ _ _ Hx) in Hv as (Hm & Hc & HB). split; [|done]. unfold checked. by rewrite Hc.
Qed.

(** A payment fails, or reaches the address with a wallet of the payer and the amount that was given. *)
Lemma wp_pay_checked sa senderId x cur address speed memo all w (Q : Result PaymentSendResult -> World X -> Prop) :
  all_ready w -> exact_book w.(ledger) -> valid x -> (∀ e w', same_data w w' -> Q (Err e) w') ->
  (∀ sender a w', same_data w w' -> sender ∈ w.(wallets) -> sender.(w_id) = senderId -> sender.(w_accountId) = sa.(acc_id) ->
     given x cur all sender a w -> checked a ->
     wp (pay_address (M := M) precision hedge memoCfg yaml briaConfig feeConfig oc dust sa a sender address speed memo all) Q w') ->
  wp (payOnChainByWalletId (M := M) precision hedge memoCfg yaml network briaConfig feeConfig oc dust sa senderId x cur address speed memo all) Q w.
Proof using MediciBookLaws0.
  intros Hw Hex Hx HE HQ.
  unfold payOnChainByWalletId. apply wp_bind_or, wp_findAccountById; [intros; by apply HE|]. intros acc x1 _.
  apply wp_or_return; [intros _ _|intros; by apply HE]. set (z := book_balance (toLiabilitiesWalletId senderId) w.(ledger)).
  apply wp_bind_or, (wp_mono _ (fun r w' => same_data w w' ∧ ∀ y, r = Ok y -> if all then y = Number z else y = x)).
  { destruct all; [|apply wp_ret; split; [done|by intros ? [= <-]]]. by apply (wp_getWalletBalance senderId (with_outside w x1) Hw). }
  intros [y|e] w1 [S1 Hy]; [|by apply HE]. specialize (Hy y eq_refl). destruct (_ && _); [by apply wp_ret, HE|].
  assert (Hyv : valid y ∧ ∀ n, BigInt y = Some n -> if all then n = z else BigInt x = Some n).
  { assert (Hz : safe_integer z).
    { destruct Hex as (Hba & Hde & Hcr). pose proof (book_balance_bounds (toLiabilitiesWalletId senderId) _ Hba).
      unfold safe_integer. subst z. lia. }
    destruct all; subst y; [split; [by apply valid_Number|]; rewrite BigInt_Number by done; by intros ? [= <-]|done]. }
  apply wp_bind_or. eapply wp_mono; [apply wp_validatePaymentInput, Hyv|]. intros [[[a sender] o]|e] w2 [S2 Hv]; [|apply HE; by etrans].
  destruct (Hv a sender o eq_refl) as (Hs & Hsi & Hsa & Ha & Hac & HB). clear Hv. assert (S : same_data w w2) by (by etrans).
  replace w1.(wallets) with w.(wallets) in Hs by (symmetry; apply S1).
  apply wp_or_return; [intros ca Hca|intros; by apply HE].
  assert (ca = address) as -> by (unfold checkedToOnChainAddress in Hca; repeat case_match; by simplify_eq).
  apply HQ; try done. split; [done|]. apply Hyv in HB. subst z. rewrite <- Hsi in HB. by destruct all.
Qed.

(** The conversion is one at fixed prices. *)
Lemma wp_onchain_converted (r : WithRecipientWalletState (G := Async X)) a w :
  fair_market precision hedge (@same_data X) immediate_buy immediate_sell ->
  wp (onchain_converted precision hedge (Ok r) a) (fun res w' => same_data w w' ∧ ∃ h m now, fair_prices h ∧ fair_prices m ∧
    withConversion (withAmount r a) (mkConversionArgs h h m) now = res) w.
Proof.
  intros [Hb Hs Hm]. apply wp_or_return; [|done]. intros ? [= <-]. apply wp_bind, (wp_keeps same_data); [auto with keeps|]. intros now w1 S1.
  eapply wp_mono; [by apply (fixed_onchain_conversion same_data (withAmount r a) (mkConversionArgs immediate_buy immediate_sell (mid_prices precision hedge)) now)|].
  intros res w2 (S2 & h & m & Hh & Hm' & HE). split; [by etrans|]. exists h, m, now. do 2 (split; [done|]). by apply HE.
Qed.

End Checks.

(** ** The payment of an address outside the bank *)

Section External.
Context {M X : Type} `{MediciEntry M} `{!MediciLaws M} `{!MediciBook M X} `{!MediciBookLaws M X}
  `{Database X} `{Resolvers X} `{Redlock X} `{PriceServices X} `{Intl} `{BriaClient X} `{!BriaLaws X}.
Context (precision : number) (hedge : bool) (memoCfg : MemoSharingConfig) (yaml : YamlAccountLimits).
Context (network : BtcNetwork) (briaConfig : BriaConfig) (feeConfig : FeesConfig) (oc : OnChainFees.config) (dust : number) (d : Z).
Context (bankOwner dealerBtc dealerUsd funder : WalletId).
Implicit Types (w : World X) (sender : Wallet).
Abbreviation user := (user_wallet bankOwner dealerBtc dealerUsd).
Abbreviation all_ready := (all_ready bankOwner dealerBtc dealerUsd funder).

(** The prices of the market are plausible. *)
Definition plausible_market : Prop := plausible_service (X := X) immediate_buy ∧ plausible_service (X := X) immediate_sell ∧
  plausible_service (X := X) (mid_prices precision hedge).

Abbreviation market := (mkConversionArgs immediate_buy immediate_sell (mid_prices precision hedge)).

(** What a builder of a payment of [a] proposes, when it is asked for in [w0]. *)
Lemma wp_external_quote (s : WithSenderWalletAndAccountState (G := Async X)) r a w : 0 < a.(amount) -> withoutRecipientWallet s = Ok r ->
  wp (onchain_converted precision hedge (Ok r) a) (fun res w1 => ∀ c, res = Ok c -> ∃ w0, same_data w w0 ∧
    exchanged market s.(s_senderWalletCurrency) Btc a {| btc := c.(c_btcProposedAmount); usd := c.(c_usdProposedAmount) |} w0 w1) w.
Proof.
  intros Ha Hr. injection Hr as <-. apply wp_or_return; [|done]. intros ? [= <-]. apply wp_bind, wp_ext. intros now x _.
  eapply wp_mono; [apply (wp_exchanged market _ a now Ha Btc)|].
  - unfold noConversionRequired, senderCurrency. rewrite withAmount_recipient. cbn. destruct (s_senderWalletCurrency s); reflexivity.
  - intros res w1 Hq c Hc. exists (with_outside w x). split; [done|]. destruct (Hq c Hc) as [[He _]|[_ (ds & [=] & _)]]. exact He.
Qed.

Lemma wp_external_builder sender sa all address a w :
  fair_market precision hedge (@same_data X) immediate_buy immediate_sell -> plausible_market ->
  fee_settings feeConfig oc d sa.(acc_withdrawFee) dust -> checked a ->
  wp (onchain_converted precision hedge (withoutRecipientWallet (sender_builder dust all true address sender sa)) a)
    (fun res w' => same_data w w' ∧ ∀ c (p := {| btc := c.(c_btcProposedAmount); usd := c.(c_usdProposedAmount) |}), res = Ok c ->
       p.(usd).(currency) = Usd ∧ 0 < p.(usd).(amount) ∧ amount_in p a.(currency) = a.(amount) ∧
       payout_builder feeConfig oc d sender address all p c ∧
       ∃ w0, same_data w w0 ∧ exchanged market sender.(w_currency) Btc a p w0 w') w.
Proof.
  intros Hfair Hpl Hset Ha. set (s := sender_builder dust all true address sender sa).
  destruct (withoutRecipientWallet s) as [r|e] eqn:Hr; [|done].
  apply (wp_mono _ (fun res w' => ((same_data w w' ∧ ∃ h m now, fair_prices h ∧ fair_prices m ∧
    withConversion (withAmount r a) (mkConversionArgs h h m) now = res) ∧ ∀ c, res = Ok c -> plausible c) ∧
    ∀ c, res = Ok c -> ∃ w0, same_data w w0 ∧
      exchanged market sender.(w_currency) Btc a {| btc := c.(c_btcProposedAmount); usd := c.(c_usdProposedAmount) |} w0 w')).
  - destruct Hpl as (Pb & Ps & Pm). apply wp_and; [apply wp_and; [by apply wp_onchain_converted|]|by apply (wp_external_quote s); [apply Ha|]].
    apply wp_or_return; [|done]. intros ? [= <-]. apply wp_bind, wp_ext. intros. by apply wp_plausible.
  - intros res w' [[(S & h & m & now & Hh & Hm' & HE) Hp] Hq]. split; [done|]. intros c p ->. specialize (Hp c eq_refl).
    assert (Hargs : ArgsLaws (mkConversionArgs h h m)) by (split; cbn; by apply fair_laws).
    assert (Hinv : OnChainBuilt.conversion_inv s.(s_address).(a_config) c).
    { apply OnChainBuilt.built_conversion_inv. eapply OnChainBuilt.built_intro; [done|by left|apply Ha|done|exact HE]. }
    pose proof (onchain_conversion_to r a _ now c HE) as [Hamt Hprop _].
    destruct Hinv as (Hcfg & _ & [Hu Huc] & _). split; [done|]. split; [done|].
    split; [destruct (currency a); cbn; by rewrite Hprop|]. split; [|by apply Hq]. split.
    + intros wd Hwd. unfold state_senderWalletDescriptor in Hwd. apply bind_Ok in Hwd as (c' & Ec & [= <-]).
      apply OnChainBuilt.stateFromPromise_spec in Ec as [-> _]. assert (c_sender c = s) as ->.
      { unfold c_sender, c_recipient. rewrite Hamt, withAmount_recipient. by injection Hr as <-. }
      cbn. by destruct (wl_descriptor sender).
    + rewrite Hcfg. split; intros; apply keeps_volume_query; exact _.
    + intros miner f Hminer Hmined. by eapply (mined_payout feeConfig oc d sender address _ s r).
Qed.

(** What is relied on: the payer's wallets are those of a user, and the address is not one of the bank. *)
Record outgoing_payment (sa : Account) (senderId : WalletId) (address : OnChainAddress) w (wallets : AccountWalletDescriptors) (out : Z) : Prop := {
  og_ready : all_ready w;
  og_sender : ∀ wl : Wallet, wl ∈ w.(World.wallets) -> wl.(w_id) = senderId -> user wl;
  og_external : ∀ wl : Wallet, wl ∈ w.(World.wallets) -> address ∉ wl.(wl_onChainAddresses);
  og_limited : limited yaml sa.(acc_id) w wallets out;
}.

(** The call failed and left the books alone; or the payer's wallet is charged for the payout, or no account is, and
    the payout was within the payer's limit.  The amounts [p] are those that the services gave for the amount [a], when they were
    asked in [w0], and the limit was checked next, in [w1]. *)
Definition sent_on_chain (sa : Account) x cur all senderId address speed wallets out w (r : Result PaymentSendResult) w' : Prop :=
  (∃ e, r = Err e) ∧ same_books w w' ∨
  ∃ sender a p w0 w1, sender ∈ w.(World.wallets) ∧ sender.(w_id) = senderId ∧ given x cur all sender a w ∧
    same_data w w0 ∧ exchanged market sender.(w_currency) Btc a p w0 w1 ∧ amount_in p a.(currency) = a.(amount) ∧ same_data w w1 ∧
    paid_out briaConfig d sender address speed all p w r w' ∧ within precision hedge p sa.(acc_id) w1 wallets out.

Lemma wp_wallet_of_address address w : (∀ wl : Wallet, wl ∈ w.(World.wallets) -> address ∉ wl.(wl_onChainAddresses)) ->
  wp (wallet_of_address address) (fun r w' => same_data w w' ∧ ∀ o, r = Ok o -> o = None) w.
Proof.
  intros Hext. unfold wallet_of_address. apply wp_bind, wp_repo; [intros msg x; by apply wp_ret|]. intros x. cbn [World.wallets with_outside].
  apply wp_ret. split; [done|]. destruct (filter _ _) as [|wl wls] eqn:E; [by intros ? [= <-]|].
  assert (Hwl : wl ∈ wl :: wls) by by left. rewrite <- E in Hwl. apply list_elem_of_filter in Hwl as [Ha Hwl]. by destruct (Hext wl Hwl).
Qed.

Lemma limited_same id w w' wallets out : same_data w w' -> limited yaml id w wallets out -> limited yaml id w' wallets out.
Proof.
  intros S [Hex (level & i & t & Hst & Hlim) Hcur Hsafe]. pose proof S as [[[El _] _] _]. split; [by rewrite El| |done|done].
  exists level, i, t. split; [by eapply standing_same|done].
Qed.

Lemma wp_pay_external sa senderId x cur address speed memo all w wallets out :
  outgoing_payment sa senderId address w wallets out ->
  fair_market precision hedge (@same_data X) immediate_buy immediate_sell -> plausible_market ->
  fee_settings feeConfig oc d sa.(acc_withdrawFee) dust -> valid x ->
  wp (payOnChainByWalletId (M := M) precision hedge memoCfg yaml network briaConfig feeConfig oc dust sa senderId x cur address speed memo all)
    (sent_on_chain sa x cur all senderId address speed wallets out w) w.
Proof.
  intros [Hw Hus Hext Hlim] Hfair Hpl Hset Hx.
  assert (HE : ∀ e w', same_data w w' -> sent_on_chain sa x cur all senderId address speed wallets out w (Err e) w').
  { intros e w' S. left. split; [eauto|apply S]. }
  eapply wp_pay_checked; [exact Hw|apply Hlim|done|done|]. intros sender a w2 S Hs Hsi Hsa Hg Ha. unfold pay_address.
  apply wp_bind_or. eapply wp_mono; [apply wp_wallet_of_address|].
  { intros wl Hwl. apply Hext. by replace w.(World.wallets) with w2.(World.wallets) by apply S. }
  intros [o'|e] w3 [S3 Ho]; [|apply HE; by etrans]. rewrite (Ho o' eq_refl). cbn zeta. rewrite bool_decide_true by done.
  assert (S' : same_data w w3) by (by etrans).
  apply wp_bind_or. eapply wp_mono; [by apply (wp_external_builder sender sa all address a)|].
  intros [c|e] w4 [S4 Hc]; [|apply HE; by etrans]. destruct (Hc c eq_refl) as (Huc & Hu & Hin & Hpb & w0 & S0 & Hex). clear Hc.
  assert (S'' : same_data w w4) by (by etrans). set (p := {| btc := c_btcProposedAmount c; usd := c_usdProposedAmount c |}) in *.
  eapply wp_mono; [apply (wp_executePayout precision hedge memoCfg yaml briaConfig feeConfig oc d bankOwner dealerBtc dealerUsd funder
    sender (Hus sender Hs Hsi) address speed all p c _ memo all w4 wallets out Hpb); [|rewrite Hsa; by eapply limited_same|done..]|].
  { eapply all_ready_same; [exact Hw|apply S'']. }
  rewrite Hsa. intros r w' [[He Sb]|[Hpaid Hwithin]]; [left; split; [done|]; by etrans; [apply S''|]|right].
  exists sender, a, p, w0, w4. do 3 (split; [done|]). split; [exact (transitivity S' S0)|]. do 3 (split; [done|]). split; [|done].
  by eapply paid_out_from; [apply S''|].
Qed.

(** C3. A payment to an address outside the bank, of an amount in satoshis or cents from a BTC or a USD wallet, or of all that a wallet
    holds.  Whatever fails on the way, the books stay balanced.  Either the call answers with an error and no account
    has changed; or the payer's wallet, which had it, is charged the amount and the fees, all of its balance if
    all is sent, the satoshis but for the bank's fee leave the on-chain account, and the service took the
    payout of the amount to the address, under the journal of those entries, or refused it and the call that reverts the
    entries failed, which is answered with an error.  An amount below the dust threshold is not paid.  The
    amount in the other currency is the one that the dealer gave for a USD wallet, and the one at the mid price for a BTC wallet.  A
    payment that is charged was within the withdrawal limit of the payer's level: what the payer's BTC and USD wallets paid out in the
    last day, net of what came back and counted in cents at the ratio of the payment's amounts, or below 5000 satoshis at the mid price, plus the amount in
    cents. *)
Theorem onchain_payment sa senderId x address speed memo w wallets out
    (Hw : outgoing_payment sa senderId address w wallets out)
    (Hfair : fair_market precision hedge (@same_data X) immediate_buy immediate_sell) (Hplausible : plausible_market)
    (Hset : fee_settings feeConfig oc d sa.(acc_withdrawFee) dust) (Hx : valid x) :
  let sends cur all m := wp m (sent_on_chain sa x cur all senderId address speed wallets out w) w in
  sends (Some Btc) false (payOnChainByWalletIdForBtcWallet (M := M) precision hedge memoCfg yaml network briaConfig feeConfig oc dust
    sa senderId x address speed memo) ∧
  sends (Some Usd) false (payOnChainByWalletIdForUsdWallet (M := M) precision hedge memoCfg yaml network briaConfig feeConfig oc dust
    sa senderId x address speed memo) ∧
  sends (Some Btc) false (payOnChainByWalletIdForUsdWalletAndBtcAmount (M := M) precision hedge memoCfg yaml network briaConfig feeConfig
    oc dust sa senderId x address speed memo) ∧
  sends None true (payAllOnChainByWalletId (M := M) precision hedge memoCfg yaml network briaConfig feeConfig oc dust
    sa senderId address speed memo).
Proof.
  assert (HV : ∀ cur (v : IO X (Result bool)), (∀ Q, (∀ r y, Q r (with_outside w y)) -> wp v Q w) ->
    wp (_ ←? v; payOnChainByWalletId (M := M) precision hedge memoCfg yaml network briaConfig feeConfig oc dust sa senderId x cur address speed memo false)
      (sent_on_chain sa x cur false senderId address speed wallets out w) w).
  { intros cur v Hv. apply wp_bind_or, Hv. intros [wl|e] y; [|by left; split; [exists e|]].
    eapply wp_mono; [apply (wp_pay_external sa senderId x cur address speed memo false (with_outside w y) wallets out); try done|done].
    destruct Hw as [? ? ? Hl]. split; [done..|]. by eapply limited_same; [|exact Hl]. }
  assert (HF : ∀ Q, (∀ r y, Q r (with_outside w y)) -> wp (findWalletById senderId) Q w).
  { intros Q HQ. apply wp_findWalletById; intros; apply HQ. }
  cbn zeta. split; [apply HV|split; [apply HV|split; [apply HV|]]].
  1-3: intros Q HQ; apply wp_bind_or, HF; intros [wl|e] y; [apply wp_ret; case_decide; apply HQ|apply HQ].
  by eapply wp_mono; [apply (wp_pay_external sa senderId (Number 0) None address speed memo true w wallets out)|].
Qed.

End External.

(** ** The payment of an address of the bank *)

Section Internal.
Context {M X : Type} `{MediciEntry M} `{!MediciLaws M} `{!MediciBook M X} `{!MediciBookLaws M X}
  `{Database X} `{Resolvers X} `{Redlock X} `{PriceServices X} `{Intl} `{BriaClient X}.
Context (precision : number) (hedge : bool) (memoCfg : MemoSharingConfig) (yaml : YamlAccountLimits).
Context (network : BtcNetwork) (briaConfig : BriaConfig) (feeConfig : FeesConfig) (oc : OnChainFees.config) (dust : number).
Context (bankOwner dealerBtc dealerUsd funder : WalletId).
Implicit Types (w : World X) (sender : Wallet) (f : OnChainPaymentFlowState).
Abbreviation user := (user_wallet bankOwner dealerBtc dealerUsd).
Abbreviation all_ready := (all_ready bankOwner dealerBtc dealerUsd funder).

Lemma wp_onchain_locked f rcpt sa ra memo all w : transferable bankOwner dealerBtc dealerUsd f rcpt -> all_ready w ->
  wp (onchain_lockedPaymentViaIntraledgerSteps (M := M) precision f sa ra memo all) (transferred f rcpt w) w.
Proof using MediciLaws0 MediciBookLaws0.
  intros Hf Hw. unfold onchain_lockedPaymentViaIntraledgerSteps. cbn [recipientDetails rd_walletDescriptor].
  rewrite (tf_recipient _ _ _ _ _ Hf).
  apply wp_bind_or. eapply wp_mono; [by eapply wp_covered|]. intros [b|e] w1 [S1 Hcov]; [|done].
  apply wp_or_return; [intros ok Hok|done]. specialize (Hcov b ok eq_refl Hok).
  apply wp_bind, (wp_keeps same_books); [auto with keeps|]. intros [] w2 S2; [exact (transitivity S1 S2)|].
  assert (S2' : same_books w w2) by (by etrans).
  apply wp_or_return; [intros address _|done]. apply wp_or_return; [intros ratio _|done].
  apply wp_bind_or, (wp_keeps same_books); [auto with keeps|]. intros [sr|e] w3 S3; [|exact (transitivity S2' S3)].
  assert (S3' : same_books w w3) by (by etrans). apply wp_or_return; [intros sd _|done].
  apply wp_bind_or, (wp_keeps same_books); [auto with keeps|]. intros [rr|e] w4 S4; [|exact (transitivity S3' S4)].
  assert (S : same_books w w4) by (by etrans). apply wp_or_return; [intros rd _|done]. cbn zeta.
  apply wp_bind_or. eapply wp_mono; [eapply (wp_transfer bankOwner dealerBtc dealerUsd funder _ f rcpt); [done|by eapply all_ready_same]|].
  intros [j|e] w5; [|intros S5; exact (transitivity S S5)]. intros (D & Hm & HS & HR). apply wp_ret. exists D.
  split; [by eapply shifted_then; [apply same_shifted|]|]. by split.
Qed.

Lemma wp_onchain_execute c f sa memo all w : withoutMinerFee c = Ok f ->
  (∀ rcpt, recipientWalletDescriptor f = Some rcpt -> transferable bankOwner dealerBtc dealerUsd f rcpt) -> all_ready w ->
  wp (onchain_executePaymentViaIntraledger (M := M) precision hedge memoCfg yaml c sa memo all) (settles (transfers_to f w) w) w.
Proof using MediciLaws0 MediciBookLaws0.
  intros Ef Hf Hw. unfold onchain_executePaymentViaIntraledger. apply wp_or_return; [|by rewrite Ef]. intros f' Ef'.
  rewrite Ef in Ef'. injection Ef' as <-. cbn [recipientDetails rd_walletDescriptor].
  destruct (recipientWalletDescriptor f) as [rcpt|] eqn:Hr; [|by apply wp_ret, settles_err].
  apply wp_bind_or, wp_findAccountById; [intros; by apply settles_err|]. intros ra x0 _.
  apply wp_or_return; [intros _ _|intros; by apply settles_err].
  apply wp_bind_or, (wp_keeps same_books); [apply keeps_intraledger_check, _|]. intros [[]|e] w1 S1; [|by apply settles_err].
  eapply (wp_lock_and_notify memoCfg bankOwner dealerBtc dealerUsd funder f rcpt); [done| |done..].
  intros w2 Hw2. by apply wp_onchain_locked; [apply Hf|].
Qed.

(** What is relied on: the payer and the account that the address belongs to are users. *)
Record internal_payment (senderId : WalletId) (address : OnChainAddress) w : Prop := {
  ip_ready : all_ready w;
  ip_exact : exact_book w.(ledger);
  ip_sender : ∀ wl : Wallet, wl ∈ w.(wallets) -> wl.(w_id) = senderId -> user wl;
  ip_internal : ∃ wl : Wallet, wl ∈ w.(wallets) ∧ address ∈ wl.(wl_onChainAddresses);
  ip_recipient : ∀ wl wl' : Wallet, wl ∈ w.(wallets) -> wl' ∈ w.(wallets) -> address ∈ wl.(wl_onChainAddresses) ->
    wl'.(w_accountId) = wl.(w_accountId) -> user wl';
}.

Abbreviation market := (mkConversionArgs immediate_buy immediate_sell (mid_prices precision hedge)).

(** The payment to a wallet with the address, or to the BTC wallet of its account in place of its USD wallet.  Of the amounts
    [p], the payer is debited the one in the currency of their wallet, and the recipient is credited the one in the currency of theirs;
    they are what the services gave for the amount [a], when they were asked in [w0]. *)
Definition pays_address x cur all senderId address w (D : Change) : Prop :=
  ∃ (sender asked recipient : Wallet) (rcpt : WalletDescriptor := recipient) a p w0 w1,
    sender ∈ w.(wallets) ∧ sender.(w_id) = senderId ∧ asked ∈ w.(wallets) ∧ address ∈ asked.(wl_onChainAddresses) ∧
    recipient ∈ w.(wallets) ∧
    (rcpt = asked ∨ asked.(w_currency) = Usd ∧ rcpt.(w_currency) = Btc ∧ rcpt.(w_accountId) = asked.(w_accountId)) ∧
    rcpt.(w_id) ≠ senderId ∧ given x cur all sender a w ∧ same_data w w0 ∧
    (exchanged market sender.(w_currency) asked.(w_currency) a p w0 w1 ∧ rcpt = asked ∨
     too_small market sender.(w_currency) asked.(w_currency) a p w0 w1 ∧ rcpt.(w_currency) = Btc) ∧
    amount_in p a.(currency) = a.(amount) ∧ 0 < amount_in p sender.(w_currency) ∧ 0 < amount_in p rcpt.(w_currency) ∧
    D (toLedgerAccountId senderId) sender.(w_currency) = amount_in p sender.(w_currency) ∧
    D (toLedgerAccountId rcpt.(w_id)) rcpt.(w_currency) = - amount_in p rcpt.(w_currency) ∧
    amount_in p sender.(w_currency) <= book_balance (toLiabilitiesWalletId senderId) w.(ledger).

Lemma wp_wallet_found address w : (∃ wl : Wallet, wl ∈ w.(wallets) ∧ address ∈ wl.(wl_onChainAddresses)) ->
  wp (wallet_of_address address) (fun r w' => same_data w w' ∧ ∀ o, r = Ok o ->
    ∃ wl : Wallet, o = Some wl ∧ wl ∈ w.(wallets) ∧ address ∈ wl.(wl_onChainAddresses)) w.
Proof.
  intros (wl0 & Hin & Ha0). unfold wallet_of_address. apply wp_bind, wp_repo; [intros msg x; by apply wp_ret|]. intros x. cbn [wallets with_outside].
  apply wp_ret. split; [done|].
  assert (Hwl0 : wl0 ∈ filter (fun wl : Wallet => address ∈ wl.(wl_onChainAddresses)) w.(wallets)) by (by apply list_elem_of_filter).
  destruct (filter _ _) as [|wl wls] eqn:E; [by apply elem_of_nil in Hwl0|]. intros o [= <-]. exists wl.
  assert (Hwl : wl ∈ wl :: wls) by by left. rewrite <- E in Hwl. by apply list_elem_of_filter in Hwl as [Ha Hwl].
Qed.

(** The amounts of a flow within the bank, and its recipient. *)
Lemma wp_internal_quote (s : WithSenderWalletAndAccountState (G := Async X)) r ra a w (to := ra.(ra_defaultWalletCurrency)) :
  0 < a.(amount) -> Built.valid_descriptors ra.(ra_recipientWalletDescriptors) -> withRecipientWallet s ra = Ok r ->
  wp (onchain_converted precision hedge (Ok r) a) (fun res w1 => ∀ c f rcpt, res = Ok c -> withoutMinerFee c = Ok f ->
    c_recipient c = r -> recipientWalletDescriptor f = Some rcpt -> ∃ w0, same_data w w0 ∧
      (exchanged market s.(s_senderWalletCurrency) to a (paymentAmounts f) w0 w1 ∧ rcpt = wallet_for ra.(ra_recipientWalletDescriptors) to ∨
       too_small market s.(s_senderWalletCurrency) to a (paymentAmounts f) w0 w1 ∧ rcpt = ra.(ra_recipientWalletDescriptors).(BTC))) w.
Proof.
  intros Ha Hds Hr. apply wp_or_return; [|done]. intros ? [= <-]. apply wp_bind, wp_ext. intros now x _.
  assert (Es : r.(r_sender) = s ∧ r.(r_settlementMethod) = SettleIntraLedger ∧ r.(r_recipientWalletCurrency) = Some to).
  { unfold withRecipientWallet in Hr. case_decide; [done|by injection Hr as <-]. } destruct Es as (Es & Em & Ec).
  eapply wp_mono; [apply (wp_exchanged market r a now Ha to)|].
  - unfold noConversionRequired, senderCurrency. rewrite withAmount_recipient, Em, Ec, bool_decide_false by naive_solver. cbn.
    apply bool_decide_ext. split; [by intros [= ->]|by intros ->].
  - intros res w1 Hq c f rcpt Hc Hf Hcr Hrcpt. exists (with_outside w x). split; [done|]. specialize (Hq c Hc). rewrite Es in Hq.
    destruct (internal_recipient ra s r c f rcpt Hr Hcr Hf Hds Hrcpt) as [Hasked Hbtc].
    unfold withoutMinerFee in Hf. apply bind_Ok in Hf as (c' & Ec' & [= <-]). apply OnChainBuilt.stateFromPromise_spec in Ec' as [-> _].
    destruct Hq as [[? ?]|[? ?]]; [left|right]; auto.
Qed.

Lemma wp_internal_flow sa sender address all ra a w (to := ra.(ra_defaultWalletCurrency)) :
  fair_market precision hedge (@same_data X) immediate_buy immediate_sell ->
  checked a -> Built.valid_descriptors ra.(ra_recipientWalletDescriptors) ->
  wp (onchain_converted precision hedge (withRecipientWallet (sender_builder dust all false address sender sa) ra) a)
    (fun res w' => same_data w w' ∧ ∀ c f, res = Ok c -> withoutMinerFee c = Ok f -> onchain_internal sender ra a f ∧
       ∀ rcpt, recipientWalletDescriptor f = Some rcpt -> ∃ w0, same_data w w0 ∧
        (exchanged market sender.(w_currency) to a (paymentAmounts f) w0 w' ∧ rcpt = wallet_for ra.(ra_recipientWalletDescriptors) to ∨
         too_small market sender.(w_currency) to a (paymentAmounts f) w0 w' ∧ rcpt = ra.(ra_recipientWalletDescriptors).(BTC))) w.
Proof.
  intros Hfair Ha Hds. destruct (withRecipientWallet _ ra) as [r|e] eqn:Hr; [|done].
  eapply wp_mono; [apply wp_and; [by apply wp_onchain_converted|apply (wp_internal_quote _ _ _ _ _ (proj1 Ha) Hds Hr)]|].
  intros res w' [(S & h & m & now & Hh & Hm & HE) Hq]. split; [done|]. intros c f -> Hf. split.
  - eapply onchain_internal_flow; [|exact Hr|done| | | | |done|exact HE|done]; try done. split; cbn; by apply fair_laws.
  - intros rcpt. apply (Hq c f rcpt eq_refl Hf). apply onchain_conversion_to in HE as [Hamt _ _].
    unfold c_recipient. by rewrite Hamt, withAmount_recipient.
Qed.

Lemma wp_pay_internal sa senderId x cur address speed memo all w : internal_payment senderId address w ->
  fair_market precision hedge (@same_data X) immediate_buy immediate_sell -> valid x ->
  wp (payOnChainByWalletId (M := M) precision hedge memoCfg yaml network briaConfig feeConfig oc dust sa senderId x cur address speed memo all)
    (settles (pays_address x cur all senderId address w) w) w.
Proof using MediciLaws0 MediciBookLaws0.
  intros [Hw Hex Hus Hint Hur] Hfair Hx.
  eapply wp_pay_checked; [exact Hw|done|done|intros e w' S; apply settles_err, S|]. intros sender a w2 S2 Hs Hsi Hsa Hg Ha.
  assert (HE : ∀ e w', same_data w w' -> settles (pays_address x cur all senderId address w) w (@Err _ PaymentSendResult e) w')
    by (intros e w' S; apply settles_err, S).
  pose proof S2 as [[_ W2] _]. unfold pay_address. apply wp_bind_or. eapply wp_mono; [apply wp_wallet_found; by rewrite W2|].
  intros [o|e] w3 [S3 Ho]; [|apply HE; by etrans]. destruct (Ho o eq_refl) as (asked & -> & Hin & Haddr). rewrite W2 in Hin.
  assert (S : same_data w w3) by (by etrans). cbn zeta. rewrite bool_decide_false by done.
  apply wp_bind_or, wp_bind_or, wp_findAccountWallets; [intros; by apply HE|].
  intros ds x1 [(wb & Hwb & Eb) (wu & Hwu & Eu) [Cb Cu] [Ab Au] Honly]. cbn [wallets with_outside] in Hwb, Hwu, Honly.
  pose proof S as [[_ W3] _]. rewrite W3 in Hwb, Hwu, Honly.
  apply wp_bind_or, wp_findAccountById; [intros; by apply HE|]. intros acc x2 _. apply wp_ret.
  apply wp_bind_or. eapply wp_mono; [apply wp_internal_flow; [done..|]; cbn; split_and!; congruence|].
  cbn [ra_recipientWalletDescriptors ra_defaultWalletCurrency]. intros [c|e] w4 [S4 Hf]; [|apply HE; by etrans].
  assert (S' : same_data w w4) by (by etrans).
  destruct (withoutMinerFee c) as [f|e] eqn:Ef.
  2: { unfold onchain_executePaymentViaIntraledger. rewrite Ef. by apply wp_ret, HE. }
  specialize (Hf c f eq_refl Ef) as [[Fs Fa Fp Ff Fi Fr] Fq]. cbn [ra_recipientWalletDescriptors ra_defaultWalletCurrency] in Fr.
  rewrite <- (Honly asked Hin eq_refl) in Fr. assert (Fid : f.(senderWalletId) = senderId) by (by rewrite <- Hsi, <- Fs).
  assert (Fcur : f.(senderWalletCurrency) = sender.(w_currency)) by (by rewrite <- Fs).
  eapply wp_mono; [apply (wp_onchain_execute c f); [done| |eapply all_ready_same; [exact Hw|apply S']]|].
  { intros rcpt Hr. destruct (Fr rcpt Hr) as [Hne Hrcpt]. split; [done..| |].
    - rewrite Fid, <- Hsi. congruence.
    - rewrite Fs. split; [by apply Hus|]. destruct Hrcpt as [->| ->]; [by apply (Hur asked asked)|].
      rewrite Eb. apply (Hur asked wb); [done..|congruence]. }
  intros r w' Hset. apply (settles_from _ w) in Hset; [|apply S']. destruct Hset as (D & Hm & HD). exists D. split; [done|].
  destruct HD as [(rcpt & Hr & Hd & Hc & Hbal)|HD]; [left|by right]. destruct (Fr rcpt Hr) as [Hne Hrcpt]. rewrite Fid, Fcur in *.
  pose proof S' as [[[Sl _] _] _]. rewrite Sl in Hbal. destruct (Fq rcpt Hr) as (w0 & S0 & Hq). clear Fq Fr.
  assert (Hw0 : same_data w w0) by (etrans; [exact S|exact S0]).
  rewrite <- (Honly asked Hin eq_refl) in Hq. set (p := paymentAmounts f) in *.
  assert (Hfin : amount_in p (currency a) = amount a ∧ 0 < amount_in p (w_currency sender) ∧ 0 < amount_in p (w_currency rcpt) ∧
    D (toLedgerAccountId senderId) (w_currency sender) = amount_in p (w_currency sender) ∧
    D (toLedgerAccountId (w_id rcpt)) (w_currency rcpt) = - amount_in p (w_currency rcpt) ∧
    amount_in p (w_currency sender) <= book_balance (toLiabilitiesWalletId senderId) w.(ledger)) by (split_and!; auto).
  assert (Hne' : w_id rcpt ≠ senderId) by congruence.
  destruct Hq as [[Hq ->]|[Hq ->]].
  - exists sender, asked, asked, a, p, w0, w4. do 5 (split; [done|]). split; [by left|]. do 3 (split; [done|]). split; [by left|done].
  - rewrite Eb in *. exists sender, asked, wb, a, p, w0, w4. do 5 (split; [done|]). split.
    + destruct (w_currency asked) eqn:Ec; [right; split_and!; congruence|left]. by rewrite (Honly asked Hin eq_refl), Ec.
    + do 3 (split; [done|]). split; [right; split; [done|congruence]|done].
Qed.

(** C4. A payment to an address of the bank moves money between wallets.  Whatever fails on the way, the books stay balanced; the
    call answers with an error and no account has changed, or the payer's wallet, whose balance covers it, is debited
    and a wallet with the address is credited, or the BTC wallet of its account in place of its USD wallet.  The recipient is not
    the payer.  The payer is debited the amount that was given, the whole balance if all is sent, and the recipient is credited the same
    amount if the currencies are the same.  Where the amount is not in the currency of a wallet, it is exchanged: between wallets of
    two currencies at the dealer's price, for buying dollars if a BTC wallet pays and for selling them if a USD wallet does, and
    between wallets of one currency at the mid price, but for a cent at least.  The BTC wallet takes the place of the USD wallet only if the satoshis are worth nothing to the
    dealer.  A successful answer is always of the second kind. *)
Theorem onchain_payment_internal sa senderId x address speed memo w (Hw : internal_payment senderId address w)
    (Hfair : fair_market precision hedge (@same_data X) immediate_buy immediate_sell) (Hx : valid x) :
  let sends cur all m := wp m (settles (pays_address x cur all senderId address w) w) w in
  sends (Some Btc) false (payOnChainByWalletIdForBtcWallet (M := M) precision hedge memoCfg yaml network briaConfig feeConfig oc dust
    sa senderId x address speed memo) ∧
  sends (Some Usd) false (payOnChainByWalletIdForUsdWallet (M := M) precision hedge memoCfg yaml network briaConfig feeConfig oc dust
    sa senderId x address speed memo) ∧
  sends (Some Btc) false (payOnChainByWalletIdForUsdWalletAndBtcAmount (M := M) precision hedge memoCfg yaml network briaConfig feeConfig
    oc dust sa senderId x address speed memo) ∧
  sends None true (payAllOnChainByWalletId (M := M) precision hedge memoCfg yaml network briaConfig feeConfig oc dust
    sa senderId address speed memo).
Proof using MediciLaws0 MediciBookLaws0.
  assert (Hout : ∀ y, internal_payment senderId address (with_outside w y)) by (by intros y; destruct Hw; split).
  cbn zeta. split; [|split; [|split]].
  1-3: apply wp_bind_or, wp_bind_or, wp_findWalletById; [intros; by apply settles_err|]; intros wl y _ _; apply wp_ret;
    case_decide; [by apply settles_err|];
    (eapply wp_mono; [apply (wp_pay_internal sa senderId x); [apply Hout|done..]|]; done).
  by eapply wp_mono; [apply (wp_pay_internal sa senderId (Number 0) None)|].
Qed.

End Internal.

(** ** A payment *)
Module OnChainSendExamples.
Import BookExamples MarketExamples IntraledgerExamples.

(** A service that takes every payout, for 700 satoshis. *)
#[export] Instance bria : BriaClient nat := {
  newAddress _ n := (Ok "bc1qnew", n); getAddress _ n := (Ok None, n); getPayout _ n := (Ok None, n);
  getWalletBalanceSummary _ n := (Ok (Number 1000000), n);
  submitPayout _ n := (Ok ("payout", None), n); estimatePayoutFee _ n := (Ok (Number 700), n);
}.
#[export] Instance bria_laws : BriaLaws nat.
Proof. intros req x n x' [= <- _]. exists 700. split; [done|]. unfold all_satoshis. lia. Qed.

Lemma market_plausible : plausible_market (X := nat) (Number 1000000) true.
Proof.
  assert (Hp : ∀ fns : ConversionFns (Async nat), (∀ a w, ∃ w', usdFromBtc fns a w = (Ok (WalletPriceRatio.convertFromBtc ratio a), w')) ->
    (∀ a w, ∃ w', btcFromUsd fns a w = (Ok (WalletPriceRatio.convertFromUsd ratio a), w')) -> plausible_service fns).
  { intros fns Hu Hb. split; intros a w Ha; [destruct (Hu a w) as [w' E]|destruct (Hb a w) as [w' E]]; unfold wp; rewrite E; intros u [= <-].
    - pose proof (convertFromWallet_pos ratio ratio_positive a (proj1 Ha)) as (_ & _ & Hq).
      change (amount (PriceRatio.walletAmount ratio)) with 100 in Hq. change (PriceRatio.other ratio) with 3 in Hq.
      change (amount (WalletPriceRatio.convertFromBtc ratio a)) with (PriceRatio.convertFromWallet ratio a). destruct Ha. lia.
    - pose proof (convertFromOther_pos ratio ratio_positive a.(amount) (proj1 Ha)) as (_ & Hl & Hq).
      change (amount (PriceRatio.walletAmount ratio)) with 100 in Hl, Hq. change (PriceRatio.other ratio) with 3 in Hl, Hq.
      pose proof (checked_satoshis a Ha). unfold checked, Built.max_amount, MAX_SATS, MAX_CENTS, all_satoshis in *.
      unfold WalletPriceRatio.convertFromUsd. destruct (currency a); cbn [amount] in Ha; lia. }
  split; [|split]; apply Hp; intros a w; by eexists.
Qed.

Definition briaConfig : BriaConfig := mkBriaConfig "hot" (fun _ => "queue") "cold" "rebalance".
Definition address : OnChainAddress := "bc1qar0srrr7xfkvy5l643lydnw9re59gtzzwf5mdq".
Definition alice : Account := account_of_record "a" "alice".

Abbreviation send := (payOnChainByWalletIdForBtcWallet (M := L0) (X := nat) (Number 1000000) true memos AccountLimitsExamples.yaml mainnet
  briaConfig OnChainExamples.feeConfig OnChainExamples.onChainFees (Number 546) alice alice_btc.(w_id) (Number 10000) address Fast None).

Lemma settings : fee_settings OnChainExamples.feeConfig OnChainExamples.onChainFees 546 None (Number 546).
Proof. split; [done|intros ? [= <-]; done|done]. Qed.

Lemma alice_pays : outgoing_payment AccountLimitsExamples.yaml "bank" "dealer-btc" "dealer-usd" "funder" alice alice_btc.(w_id) address funded
  alice_wallets 10000.
Proof.
  split; [by repeat split|by intros; apply users_funded| |].
  - cbn [funded wallets map]. intros wl. rewrite !elem_of_cons, elem_of_nil. intros [->|[->|[->|[->|[]]]]]; vm_compute; set_solver.
  - split; [exact funded_exact| |done|by vm_compute]. exists LevelOne, 200000, 500000. split; [exact funded_standing|done].
Qed.

(** Alice pays 10000 satoshis and the fees. *)
Lemma onchain_payment_witness :
  is_ok (send funded).1 = true ∧ ∃ fee, 0 <= fee ∧
  book_account_net (toLedgerAccountId alice_btc.(w_id)) Btc (send funded).2.(ledger) = -50000 + (10000 + fee).
Proof.
  assert (E : is_ok (send funded).1 = true) by (vm_compute; reflexivity).
  assert (E0 : book_account_net (toLedgerAccountId alice_btc.(w_id)) Btc funded.(ledger) = -50000) by (vm_compute; reflexivity).
  split; [exact E|].
  destruct (proj1 (onchain_payment (M := L0) (Number 1000000) true memos AccountLimitsExamples.yaml mainnet briaConfig
    OnChainExamples.feeConfig OnChainExamples.onChainFees (Number 546) 546 "bank" "dealer-btc" "dealer-usd" "funder" alice alice_btc.(w_id)
    (Number 10000) address Fast None funded alice_wallets 10000 alice_pays (proj1 (market_fair _)) market_plausible settings eq_refl))
    as [[[e He] _]|(sender & a & p & w0 & w1 & Hs & Hsi & [Hc Ha] & _ & _ & Hp & _ & (D & (_ & _ & Hm) & HD) & _)].
  { pose proof (eq_trans (eq_sym (f_equal is_ok He)) E) as F. discriminate F. }
  destruct HD as [[[e He] _]|(f & j & Hf & (HS & _) & _)].
  { pose proof (eq_trans (eq_sym (f_equal is_ok He)) E) as F. discriminate F. }
  injection Ha as Ha. assert (Hcur : w_currency sender = Btc).
  { cbn [funded wallets map] in Hs. rewrite !elem_of_cons, elem_of_nil in Hs. destruct Hs as [->|[->|[->|[->|[]]]]]; [done|discriminate Hsi..]. }
  destruct Hf as [_ _ _ _ (Hfee & _) Hin]. cbn iota in Hin. rewrite Hc, <- Hin in Hp. cbn in Hp.
  exists (f.(btcProtocolAndBankFee).(amount)). split; [lia|]. etransitivity; [exact (Hm _ _)|]. rewrite E0. f_equal.
  rewrite Hsi, Hcur in HS. etransitivity; [exact HS|]. cbn. rewrite Hp, <- Ha. reflexivity.
Defined.

(** The wallets of the bank, of which one of Bob's has the address. *)
Definition with_address : World nat :=
  mkWorld funded.(ledger) [] [] [] [] [mkWalletRecord alice_btc []; mkWalletRecord alice_usd []; mkWalletRecord bob_btc [];
    mkWalletRecord bob_usd [address]] funded.(accounts) [] [] [] funded.(bankWallets) funded.(outside).

Lemma users_with_address (wl : Wallet) : wl ∈ with_address.(wallets) -> user_wallet "bank" "dealer-btc" "dealer-usd" wl.
Proof.
  cbn [with_address wallets]. rewrite !elem_of_cons, elem_of_nil. unfold user_wallet.
  intros [->|[->|[->|[->|[]]]]]; vm_compute; set_solver.
Qed.

Lemma with_address_exact : exact_book with_address.(ledger).
Proof. AccountLimitsExamples.concrete_book. Qed.

Lemma alice_pays_bob : internal_payment "bank" "dealer-btc" "dealer-usd" "funder" alice_btc.(w_id) address with_address.
Proof.
  split; [by repeat split|exact with_address_exact|by intros; apply users_with_address| |by intros; apply users_with_address].
  exists (mkWalletRecord bob_usd [address]). cbn. set_solver.
Qed.

Abbreviation send_all := (payAllOnChainByWalletId (M := L0) (X := nat) (Number 1000000) true memos AccountLimitsExamples.yaml mainnet
  briaConfig OnChainExamples.feeConfig OnChainExamples.onChainFees (Number 546) alice alice_btc.(w_id) address Fast None).

(** Alice sends all of the wallet to Bob's address, and it is empty. *)
Lemma onchain_payment_internal_witness :
  is_ok (send_all with_address).1 = true ∧
  book_account_net (toLedgerAccountId alice_btc.(w_id)) Btc (send_all with_address).2.(ledger) = 0.
Proof.
  assert (E : is_ok (send_all with_address).1 = true) by (vm_compute; reflexivity).
  assert (E0 : book_account_net (toLedgerAccountId alice_btc.(w_id)) Btc with_address.(ledger) = -50000) by (vm_compute; reflexivity).
  assert (B0 : book_balance (toLiabilitiesWalletId alice_btc.(w_id)) with_address.(ledger) = 50000) by (vm_compute; reflexivity).
  split; [exact E|].
  destruct (proj2 (proj2 (proj2 (onchain_payment_internal (M := L0) (Number 1000000) true memos AccountLimitsExamples.yaml mainnet briaConfig
    OnChainExamples.feeConfig OnChainExamples.onChainFees (Number 546) "bank" "dealer-btc" "dealer-usd" "funder" alice alice_btc.(w_id)
    (Number 0) address Fast None with_address alice_pays_bob (proj1 (market_fair _)) eq_refl)))) as (D & (_ & _ & Hm) & [HP|[[e He] _]]).
  2: { pose proof (eq_trans (eq_sym (f_equal is_ok He)) E) as F. discriminate F. }
  destruct HP as (sender & asked & recipient & a & p & w0 & w1 & Hs & Hsi & _ & _ & _ & _ & _ & [Hc Hg] & _ & _ & Hn & _ & _ & HD & _).
  rewrite Hsi in Hg. assert (Hcur : w_currency sender = Btc).
  { cbn [with_address wallets] in Hs. rewrite !elem_of_cons, elem_of_nil in Hs. destruct Hs as [->|[->|[->|[->|[]]]]]; [done|discriminate Hsi..]. }
  etransitivity; [exact (Hm _ _)|]. rewrite E0. rewrite Hc in Hn. cbn [default] in Hn. rewrite Hcur in HD, Hn. rewrite HD, Hn. cbn [negb] in Hg.
  rewrite (eq_trans Hg B0). reflexivity.
Defined.

End OnChainSendExamples.
