(* ===== verification/OnChainReceive.v ===== *)
(** * Receiving on chain

    Models the deposits to the addresses of wallets: the limiter of requests ([services/rate-limit/index.ts]),
    the addresses of a wallet and its pending receipts ([services/mongoose/wallet-on-chain-addresses.ts],
    [wallet-onchain-pending-receive.ts]), and, of [app/wallets], [create-on-chain-address.ts],
    [get-last-on-chain-address.ts], [add-pending-on-chain-transaction.ts],
    [remove-pending-on-chain-transaction.ts], [add-settled-on-chain-transaction.ts] and the three
    [get-pending-incoming-on-chain-*.ts].  A settled deposit is credited once, however often it is reported.
    The node of an address, of which only the address is read, span attributes and logs are left out. *)

From Stdlib Require Import Ascii.
From S2P Require Import Prelude JsNumber Shared Prices Fees Lightning PaymentFlow LedgerEntry TxMetadata.
From S2P Require Import LedgerTx TxHistory Limits Invoices OnChainTx World LedgerBook LedgerService Services.
From S2P Require Import Repositories WalletInvoices Money Accounts SendIntraledger ReceiveLightning OnChainService.

(** ** The limiter *)

Record RateLimitOptions := mkRateLimitOptions {
  rl_points : Z;
  rl_duration : Z;
  rl_blockDuration : Z;
}.

(** [error] is the class of the error for a key whose points are spent. *)
Record RateLimitConfig := mkRateLimitConfig {
  rl_key : string;
  rl_limits : RateLimitOptions;
  rl_error : ApplicationError;
}.

(** The limiter of [rate-limiter-flexible]: [consume] throws when the key has no points left, and all of them when
    redis fails. *)
Class RateLimiterRedis (X : Type) := {
  limiter_consume : string -> RateLimitOptions -> string -> X -> result string unit * X;
  limiter_delete : string -> RateLimitOptions -> string -> X -> result string unit * X;
  limiter_reward : string -> RateLimitOptions -> string -> X -> result string unit * X;
}.

(** [crypto.randomUUID()] *)
Class RandomUUID (X : Type) := randomUUID : X -> string * X.

Section Limiter.
Context {X : Type} `{RateLimiterRedis X}.

(** [RedisRateLimitService({ keyPrefix, limitOptions })] *)
Definition rate_limit_consume (keyPrefix : string) (limitOptions : RateLimitOptions) (key : string) : IO X (Result unit) :=
  consumed ← ext (limiter_consume keyPrefix limitOptions key);
  mret (match consumed with Ok _ => Ok tt | Err _ => Err (RateLimiterExceededError None) end).

Definition rate_limit_reset (keyPrefix : string) (limitOptions : RateLimitOptions) (key : string) : IO X (Result unit) :=
  catch_as UnknownRateLimitServiceError (ext (limiter_delete keyPrefix limitOptions key)).

Definition rate_limit_reward (keyPrefix : string) (limitOptions : RateLimitOptions) (key : string) : IO X (Result unit) :=
  catch_as UnknownRateLimitServiceError (ext (limiter_reward keyPrefix limitOptions key)).

Definition consumeLimiter (rateLimitConfig : RateLimitConfig) (keyToConsume : string) : IO X (Result unit) :=
  consume ← rate_limit_consume rateLimitConfig.(rl_key) rateLimitConfig.(rl_limits) keyToConsume;
  mret (match consume with Err _ => Err rateLimitConfig.(rl_error) | Ok _ => Ok tt end).

Definition resetLimiter (rateLimitConfig : RateLimitConfig) (keyToConsume : string) : IO X (Result unit) :=
  rate_limit_reset rateLimitConfig.(rl_key) rateLimitConfig.(rl_limits) keyToConsume.

End Limiter.

Definition RateLimitPrefix (key : RateLimitPrefixKey) : string :=
  match key with
  | requestCodeAttemptPerEmail => "request_code_attempt_id"
  | requestCodeAttemptPerPhoneNumber => "request_phone_number_id"
  | requestCodeAttemptPerIp => "request_code_attempt_ip"
  | loginAttemptPerLoginIdentifier => "login_attempt_id"
  | failedLoginAttemptPerIp => "login_attempt_ip"
  | invoiceCreate => "invoice_create"
  | invoiceCreateForRecipient => "invoice_create_for_recipient"
  | onChainAddressCreate => "onchain_address_create"
  | deviceAccountCreate => "device_account_create"
  | requestCodeAttemptPerAppcheckJti => "request_code_attempt_appcheck_jti"
  | addQuizAttemptPerIp => "add_quiz_attempt_ip"
  | addQuizAttemptPerPhone => "add_quiz_attempt_phone"
  end.

(** [RateLimitConfig[key]], whose limits are of the configuration *)
Definition rateLimitConfig (limits : RateLimitOptions) (key : RateLimitPrefixKey) : RateLimitConfig := {|
  rl_key := RateLimitPrefix key; rl_limits := limits; rl_error := RateLimiterExceededError (Some key);
|}.

(** Two limits never count in the same key of redis. *)
Lemma RateLimitPrefix_inj : Inj (=) (=) RateLimitPrefix.
Proof. by intros [] []. Qed.

(** ** The addresses of a wallet *)

Definition push_address (address : OnChainAddress) (wl : Wallet) : Wallet :=
  mkWalletRecord wl.(wl_descriptor) (wl.(wl_onChainAddresses) ++ [address]).

Section Addresses.
Context {X : Type} `{Database X}.

(** A [$push] changes the wallet that it finds, so a wallet that is found is modified. *)
Definition persistNewAddress (walletId : WalletId) (onChainAddress : OnChainAddress) : IO X (Result OnChainAddress) :=
  found ←? catch_as RepositoryError (db
    (l ← gets wallets;
     let '(l', found) := update_first (fun wl : Wallet => bool_decide (wl.(w_id) = walletId))
                           (fun wl => Some (push_address onChainAddress wl)) l in
     _ ← modify (fun w => with_wallets w l');
     mret found));
  mret (match found with None => Err (CouldNotFindError "Couldn't find wallet") | Some _ => Ok onChainAddress end).

Definition findLastByWalletId (id : WalletId) : IO X (Result OnChainAddress) :=
  repo (fun w => match filter (fun wl : Wallet => wl.(w_id) = id) w.(wallets) with
                 | [] => Err (CouldNotFindError "Couldn't find address for wallet")
                 | wl :: _ => match last wl.(wl_onChainAddresses) with
                              | None => Err (CouldNotFindError "Couldn't find address for wallet")
                              | Some lastAddress => Ok lastAddress
                              end
                 end).

Definition isRecorded (walletId : WalletId) (onChainAddress : OnChainAddress) : IO X (Result bool) :=
  repo (fun w => Ok (0 <? length (filter (fun wl : Wallet =>
    wl.(w_id) = walletId ∧ onChainAddress ∈ wl.(wl_onChainAddresses)) w.(wallets)))%nat).

End Addresses.

Section Creation.
Context {X : Type} `{Database X} `{BriaClient X} `{RateLimiterRedis X}.
Context (briaConfig : BriaConfig) (addressLimits : RateLimitOptions).

Definition checkOnChainAddressAccountIdLimits (accountId : AccountId) : IO X (Result unit) :=
  consumeLimiter (rateLimitConfig addressLimits onChainAddressCreate) accountId.

(** The address that the service has for the request, where there is one. *)
Definition requested_address (requestId : option string) : IO X (Result (option OnChainAddress)) :=
  match js_or_opt requestId None with
  | None => mret (Ok None)
  | Some requestId =>
      foundAddress ← findAddressByRequestId requestId;
      mret (match foundAddress with
            | Ok address => Ok (Some address)
            | Err OnChainAddressNotFoundError => Ok None
            | Err error => Err error
            end)
  end.

Definition createOnChainAddress (walletId : WalletId) (requestId : option string) : IO X (Result OnChainAddress) :=
  wallet ←? findWalletById walletId;
  account ←? findAccountById wallet.(w_accountId);
  _ ←! AccountValidator account;
  foundAddress ←? requested_address requestId;
  onChainAddress ←? match foundAddress with
                    | Some address => mret (Ok address)
                    | None =>
                        _ ←? checkOnChainAddressAccountIdLimits wallet.(w_accountId);
                        getAddressForWallet briaConfig wallet requestId
                    end;
  addressRecorded ←? isRecorded walletId onChainAddress;
  if (addressRecorded : bool) then mret (Ok onChainAddress) else
  _ ←? persistNewAddress walletId onChainAddress;
  mret (Ok onChainAddress).

Definition getLastOnChainAddress (walletId : WalletId) : IO X (Result OnChainAddress) :=
  wallet ←? findWalletById walletId;
  account ←? findAccountById wallet.(w_accountId);
  _ ←! AccountValidator account;
  lastOnChainAddress ← findLastByWalletId walletId;
  match lastOnChainAddress with
  | Ok address => mret (Ok address)
  | Err error => if is_CouldNotFindError error then createOnChainAddress walletId (Some walletId) else mret (Err error)
  end.

End Creation.

(** ** Pending receipts *)

(** [WalletOnChainPendingTransaction] *)
Record WalletOnChainPendingTransaction := mkPendingTransaction {
  pt_walletId : WalletId;
  pt_settlementAmount : Amount;
  pt_settlementFee : Amount;
  pt_settlementCurrency : WalletCurrency;
  pt_settlementDisplayAmount : DisplayAmount;
  pt_settlementDisplayFee : DisplayAmount;
  pt_settlementDisplayPrice : DisplayPrice;
  pt_createdAt : Z;
  pt_address : OnChainAddress;
  pt_transactionHash : string;
  pt_vout : number;
}.

(** [BigInt(s)] of the digits of an integer, after those whose value is [acc] *)
Fixpoint decimal_digits (acc : Z) (s : string) : option Z :=
  match s with
  | EmptyString => Some acc
  | String c s' => d ← digit_value c; decimal_digits (10 * acc + d) s'
  end.

(** [BigInt(s)], where [s] is the string of an integer; [None] is the exception for another string. *)
Definition BigInt_of_string (s : string) : option Z :=
  match s with
  | String "-"%char s' => Z.opp <$> decimal_digits 0 s'
  | _ => decimal_digits 0 s
  end.

(** The string of the index of an output, an integer. *)
Definition vout_string (vout : number) : string := toFixed 0 vout.

Section PendingRepository.
Context {X : Type} `{Database X} (getUuidByString : string -> string).

Definition translateToWalletOnChainTransaction (result : WalletOnChainPendingReceiveRecord) : option WalletTransaction :=
  base ← BigInt_of_string result.(pr_displayPriceBase);
  offset ← BigInt_of_string result.(pr_displayPriceOffset);
  Some {|
    wt_id := getUuidByString (result.(pr_transactionHash) ++ ":" ++ vout_string result.(pr_vout))%string;
    wt_walletId := Some result.(pr_walletId);
    wt_externalId := None;
    wt_settlementAmount := result.(pr_walletAmount);
    wt_settlementFee := result.(pr_walletFee);
    wt_settlementCurrency := result.(pr_walletCurrency);
    wt_settlementDisplayAmount := result.(pr_displayAmount);
    wt_settlementDisplayFee := result.(pr_displayFee);
    wt_settlementDisplayPrice := {|
      dp_base := base; dp_offset := offset; dp_displayCurrency := result.(pr_displayPriceCurrency);
      dp_walletCurrency := result.(pr_walletCurrency) |};
    wt_status := StatusPending;
    wt_memo := None;
    wt_createdAt := result.(pr_createdAt);
    wt_initiationVia := InitiationViaOnChain result.(pr_address);
    wt_settlementVia := SettlementViaOnChain (Some result.(pr_transactionHash)) (Some result.(pr_vout));
  |}.

Definition translateToDbRecord (tx : WalletOnChainPendingTransaction) : WalletOnChainPendingReceiveRecord := {|
  pr_walletId := tx.(pt_walletId);
  pr_address := tx.(pt_address);
  pr_transactionHash := tx.(pt_transactionHash);
  pr_vout := js_or (Some tx.(pt_vout)) (Number 0);
  pr_walletAmount := Number tx.(pt_settlementAmount).(amount);
  pr_walletFee := Number tx.(pt_settlementFee).(amount);
  pr_walletCurrency := tx.(pt_settlementCurrency);
  pr_displayAmount := tx.(pt_settlementDisplayAmount).(displayInMajor);
  pr_displayFee := tx.(pt_settlementDisplayFee).(displayInMajor);
  pr_displayPriceBase := pretty tx.(pt_settlementDisplayPrice).(dp_base);
  pr_displayPriceOffset := pretty tx.(pt_settlementDisplayPrice).(dp_offset);
  pr_displayPriceCurrency := tx.(pt_settlementDisplayPrice).(dp_displayCurrency);
  pr_createdAt := tx.(pt_createdAt);
|}.

(** The strings that [WalletOnChainPendingReceiveSchema] requires. *)
Definition pendingReceiveSchema (r : WalletOnChainPendingReceiveRecord) : bool :=
  forallb truthy [r.(pr_walletId); r.(pr_address); r.(pr_transactionHash); r.(pr_displayAmount); r.(pr_displayFee);
                  r.(pr_displayPriceBase); r.(pr_displayPriceOffset); r.(pr_displayPriceCurrency)].

(** The unique index: the transaction and its output. *)
Definition same_output (transactionHash : string) (vout : number) (r : WalletOnChainPendingReceiveRecord) : bool :=
  bool_decide (r.(pr_transactionHash) = transactionHash) && num_eqb r.(pr_vout) vout.

(** An exception of the translation is caught with those of the database. *)
Definition pending_transaction (r : WalletOnChainPendingReceiveRecord) : Result WalletTransaction :=
  match translateToWalletOnChainTransaction r with
  | Some tx => Ok tx
  | None => Err (RepositoryError "SyntaxError")
  end.

Definition persistNewPending (transaction : WalletOnChainPendingTransaction) : IO X (Result WalletTransaction) :=
  let pendingUtxo := translateToDbRecord transaction in
  if negb (pendingReceiveSchema pendingUtxo) then mret (Err (RepositoryError "ValidationError")) else
  saved ←? catch_as RepositoryError (db
    (l ← gets pendingReceives;
     if existsb (same_output pendingUtxo.(pr_transactionHash) pendingUtxo.(pr_vout)) l
     then mret (Err DuplicateKeyForPersistError)
     else _ ← modify (fun w => with_pendingReceives w (l ++ [pendingUtxo])); mret (Ok tt)));
  mret (_ ← saved; pending_transaction pendingUtxo).

Definition removePending (walletId : WalletId) (transactionHash : string) (vout : number) : IO X (Result unit) :=
  deleted ←? catch_as RepositoryError (db
    (l ← gets pendingReceives;
     let '(l', found) := update_first (fun r => bool_decide (r.(pr_walletId) = walletId) && same_output transactionHash vout r)
                           (fun _ => None) l in
     _ ← modify (fun w => with_pendingReceives w l');
     mret found));
  mret (match deleted with None => Err CouldNotFindWalletOnChainPendingReceiveError | Some _ => Ok tt end).

(** The records found, of which there must be one. *)
Definition list_pending (found : WalletOnChainPendingReceiveRecord -> bool) : IO X (Result (list WalletTransaction)) :=
  repo (fun w => match filter (fun r => found r = true) w.(pendingReceives) with
                 | [] => Err CouldNotFindWalletOnChainPendingReceiveError
                 | result => traverse pending_transaction result
                 end).

Definition listByWalletIds (walletIds : list WalletId) : IO X (Result (list WalletTransaction)) :=
  list_pending (fun r => bool_decide (r.(pr_walletId) ∈ walletIds)).

Definition listByWalletIdsAndAddresses (walletIds : list WalletId) (addresses : list OnChainAddress)
    : IO X (Result (list WalletTransaction)) :=
  list_pending (fun r => bool_decide (r.(pr_walletId) ∈ walletIds) && bool_decide (r.(pr_address) ∈ addresses)).

(** *** What is shown of them *)

Definition getPendingIncomingOnChainTransactionsForWallets (wallets : list Wallet)
    : IO X (Result (list WalletTransaction)) :=
  pendingHistory ← listByWalletIds (map (fun wl : Wallet => wl.(w_id)) wallets);
  mret (match pendingHistory with Err e => if is_CouldNotFindError e then Ok [] else Err e | Ok txs => Ok txs end).

Definition getPendingIncomingOnChainTransactionsForWalletsByAddresses (wallets : list Wallet)
    (addresses : list OnChainAddress) : IO X (Result (list WalletTransaction)) :=
  pendingHistory ← listByWalletIdsAndAddresses (map (fun wl : Wallet => wl.(w_id)) wallets) addresses;
  mret (match pendingHistory with Err e => if is_CouldNotFindError e then Ok [] else Err e | Ok txs => Ok txs end).

(** The fields of a pending transaction that its balance is made of. *)
Definition pending_of (tx : WalletTransaction) : PendingTx := {|
  p_settlementAmount := tx.(wt_settlementAmount); p_settlementCurrency := tx.(wt_settlementCurrency);
  p_address := match tx.(wt_initiationVia) with InitiationViaOnChain address => address | _ => "" end;
|}.

Definition getPendingIncomingOnChainBalanceForWallets (wallets : list Wallet) : IO X (Result (gmap WalletId Amount)) :=
  pendingIncoming ← listByWalletIds (map (fun wl : Wallet => wl.(w_id)) wallets);
  mret (match pendingIncoming with
        | Ok pendingIncoming =>
            balanceByWallet (map pending_of pendingIncoming)
              (map (fun wl : Wallet => mkOnChainWallet wl.(w_id) wl.(wl_onChainAddresses)) wallets)
        | Err e =>
            if negb (is_CouldNotFindError e) then Err e else
            match remove_dups (map (fun wl : Wallet => wl.(w_currency)) wallets) with
            | [walletCurrency] =>
                let zeroAmount := if decide (walletCurrency = Btc) then ZERO_SATS else ZERO_CENTS in
                Ok (foldl (fun m (wl : Wallet) => <[wl.(w_id) := zeroAmount]> m) ∅ wallets)
            | _ => Err MultipleCurrenciesForSingleCurrencyOperationError
            end
        end).

End PendingRepository.

(** ** Deposits *)

(** What [getFeesConfig] gives for deposits *)
Record DepositFeesConfig := mkDepositFees {
  depositDefaultMin : Amount;
  depositThreshold : Amount;
  depositRatioAsBasisPoints : Z;
}.

Section Deposits.
Context {M X : Type} `{MediciEntry M} `{!MediciBook M X} `{Database X} `{Resolvers X} `{Redlock X} `{PriceServices X}.
Context `{BriaClient X} `{RateLimiterRedis X} `{RandomUUID X} `{Intl}.
Context (RATIO_PRECISION : number) (usdHedgeEnabled : bool) (memoSharingConfig : MemoSharingConfig).
Context (briaConfig : BriaConfig) (addressLimits : RateLimitOptions) (getUuidByString : string -> string).
Context (dustThreshold : number) (feesConfig : DepositFeesConfig).

Definition deposit_fee (satoshis : Amount) : Amount :=
  DepositFeeCalculator.onChainDepositFee satoshis feesConfig.(depositDefaultMin) feesConfig.(depositThreshold)
    feesConfig.(depositRatioAsBasisPoints).

(** [WalletAddressReceiver(...)] with the mid price and the dealer's price *)
Definition receivedDeposit (wallet : WalletDescriptor) (receivedBtc satsFee : Amount) : IO X (Result Received) :=
  walletAddressReceiver (F := Async X) wallet receivedBtc (Some satsFee)
    (fun a => ext (getCentsFromSatsForImmediateBuy a)) (usdFromBtcMidPriceFn RATIO_PRECISION usdHedgeEnabled).

Definition received_amounts (r : Received) : AmountsAndFees := {|
  aaf_btcPaymentAmount := r.(rcv_btcToCreditReceiver);
  aaf_usdPaymentAmount := r.(rcv_usdToCreditReceiver);
  aaf_btcProtocolAndBankFee := r.(rcv_btcBankFee);
  aaf_usdProtocolAndBankFee := r.(rcv_usdBankFee) |}.

(** The [recipient] of the notification of a deposit *)
Definition deposit_recipient (wallet : WalletDescriptor) (userId : UserId) (account : Account) : NotificationRecipient := {|
  nr_accountId := wallet.(w_accountId); nr_walletId := wallet.(w_id); nr_userId := userId;
  nr_level := account.(acc_level) |}.

(** The body under the lock. *)
Definition pending_steps (txId : string) (vout : number) (satoshis : Amount) (address : OnChainAddress)
    (wallet : WalletDescriptor) (account : Account) (satsFee : Amount) : IO X (Result unit) :=
  recordedResult ←? isOnChainReceiptTxRecordedForWallet wallet.(w_id) txId vout;
  if recordedResult.1 then _ ← removePending wallet.(w_id) txId vout; mret (Ok tt) else
  received ←? receivedDeposit wallet satoshis satsFee;
  let '(settlementAmount, settlementFee) := settlementAmounts received in
  displayPriceRatio ←? getCurrentPriceAsDisplayPriceRatio RATIO_PRECISION account.(acc_displayCurrency);
  display ←! DisplayAmountsConverter.convert displayPriceRatio (received_amounts received);
  now ← ext Date_now;
  res ← persistNewPending getUuidByString {|
    pt_walletId := wallet.(w_id);
    pt_settlementAmount := settlementAmount;
    pt_settlementFee := settlementFee;
    pt_settlementCurrency := wallet.(w_currency);
    pt_settlementDisplayAmount := display.(da_displayAmount);
    pt_settlementDisplayFee := display.(da_displayFee);
    pt_settlementDisplayPrice := display.(da_displayPrice);
    pt_createdAt := now;
    pt_address := address;
    pt_transactionHash := txId;
    pt_vout := vout |};
  match res with
  | Err DuplicateKeyForPersistError => mret (Ok tt)
  | Err error => mret (Err error)
  | Ok transaction =>
      recipientUser ←? findUserById account.(acc_kratosUserId);
      _ ← sendTransaction (deposit_recipient wallet recipientUser account) transaction;
      mret (Ok tt)
  end.

Definition addPendingTransaction (txId : string) (vout : number) (satoshis : Amount) (address : OnChainAddress)
    : IO X (Result unit) :=
  if num_gtb_bigint dustThreshold satoshis.(amount) then mret (Err (LessThanDustThresholdError dustThreshold)) else
  wallet ←? findByAddress address;
  account ←? findAccountById wallet.(w_accountId);
  let satsFee := deposit_fee satoshis in
  result ← lockOnChainTxHashAndVout txId (vout_string vout)
    (pending_steps txId vout satoshis address wallet account satsFee);
  mret (r ← result; r).

Definition removePendingTransaction (txId : string) (vout : number) (address : OnChainAddress) : IO X (Result unit) :=
  wallet ←? findByAddress address;
  res ← removePending wallet.(w_id) txId vout;
  mret (match res with Err CouldNotFindWalletOnChainPendingReceiveError => Ok tt | r => r end).

(** A deposit to the wallet's last address asks for another address. *)
Definition new_address_request (walletId : WalletId) (address : OnChainAddress) : IO X (option string) :=
  currentAddress ← getLastOnChainAddress briaConfig addressLimits walletId;
  match currentAddress with
  | Ok current => if bool_decide (address = current) then id ← ext randomUUID; mret (Some id) else mret None
  | Err _ => mret None
  end.

(** What follows the record of the deposit. *)
Definition notify_deposit (wallet : WalletDescriptor) (account : Account) (journalId : string)
    (newAddressRequestId : option string) : IO X (Result (WalletDescriptor * option string)) :=
  user ←? findUserById account.(acc_kratosUserId);
  walletTransaction ←? getWalletTransactionByJournalId (M := M) memoSharingConfig wallet.(w_id) journalId;
  _ ← sendTransaction (deposit_recipient wallet user account) walletTransaction;
  mret (Ok (wallet, newAddressRequestId)).

(** The body under the lock. *)
Definition settled_steps (txHash : string) (vout : number) (amt : Amount) (address : OnChainAddress)
    (wallet : WalletDescriptor) : IO X (Result (WalletDescriptor * option string)) :=
  recordedResult ←? isOnChainReceiptTxRecordedForWallet wallet.(w_id) txHash vout;
  if recordedResult.1 then mret (Ok (wallet, recordedResult.2)) else
  account ←? findAccountById wallet.(w_accountId);
  received ←? receivedDeposit wallet amt (deposit_fee amt);
  displayPriceRatio ←? getCurrentPriceAsDisplayPriceRatio RATIO_PRECISION account.(acc_displayCurrency);
  display ←! DisplayAmountsConverter.convert displayPriceRatio (received_amounts received);
  newAddressRequestId ← new_address_request wallet.(w_id) address;
  let md := OnChainReceiveLedgerMetadata txHash vout (received_amounts received) {|
    dt_displayAmount := toDisplayBaseAmount display.(da_displayAmount);
    dt_displayFee := toDisplayBaseAmount display.(da_displayFee);
    dt_displayCurrency := account.(acc_displayCurrency) |} [address] newAddressRequestId in
  journal ←? recordReceiveOnChain (M := M) "" wallet
    {| usd := received.(rcv_usdToCreditReceiver); btc := received.(rcv_btcToCreditReceiver) |}
    (Some {| usd := received.(rcv_usdBankFee); btc := received.(rcv_btcBankFee) |})
    md.(metadata) md.(creditAccountAdditionalMetadata) md.(internalAccountsAdditionalMetadata) None None;
  notify_deposit wallet account journal.(LedgerEntry.journalId) newAddressRequestId.

Definition addSettledTransactionBeforeFinally (txHash : string) (vout : number) (amt : Amount)
    (address : OnChainAddress) : IO X (Result (WalletDescriptor * option string)) :=
  if num_gtb_bigint dustThreshold amt.(amount) then mret (Err (LessThanDustThresholdError dustThreshold)) else
  wallet ←? findByAddress address;
  result ← lockOnChainTxHashAndVout txHash (vout_string vout) (settled_steps txHash vout amt address wallet);
  mret (r ← result; r).

Definition addSettledTransaction (txId : string) (vout : number) (satoshis : Amount) (address : OnChainAddress)
    : IO X (Result unit) :=
  '(walletDescriptor, newAddressRequestId) ←? addSettledTransactionBeforeFinally txId vout satoshis address;
  removed ← removePending walletDescriptor.(w_id) txId vout;
  let error := match removed with Err e => if is_CouldNotFindError e then None else Some e | Ok _ => None end in
  match error with
  | Some e => mret (Err e)
  | None =>
      match js_or_opt newAddressRequestId None with
      | None => mret (Ok tt)
      | Some requestId =>
          _ ←? createOnChainAddress briaConfig addressLimits walletDescriptor.(w_id) (Some requestId);
          mret (Ok tt)
      end
  end.

End Deposits.

(** ** Addresses *)

Section AddressSpecs.
Context {X : Type} `{Database X} `{BriaClient X} `{RateLimiterRedis X}.
Context (briaConfig : BriaConfig) (addressLimits : RateLimitOptions).
Implicit Types (w : World X) (id : WalletId).

Lemma keeps_persistNewAddress (R : relation (World X)) `{!Reads R} id a : (∀ w l, R w (with_wallets w l)) ->
  keeps R (persistNewAddress id a).
Proof using. intros Rw. unfold persistNewAddress. solve_keeps. apply keeps_modify; auto. Qed.

(** A relation that does not mind new addresses. *)
Context (R : relation (World X)) `{!Reads R} (Rw : ∀ id a, keeps R (persistNewAddress (X := X) id a)).

Lemma keeps_createOnChainAddress id req : keeps R (createOnChainAddress (X := X) briaConfig addressLimits id req).
Proof using Rw Reads0.
  unfold createOnChainAddress. apply keeps_bind_or; [apply _|unfold findWalletById; solve_keeps|intros wl].
  apply keeps_bind_or; [apply _|unfold findAccountById; solve_keeps|intros acc]. apply keeps_or_return; [apply _|intros _].
  apply keeps_bind_or; [apply _|unfold requested_address, findAddressByRequestId, grpc; solve_keeps|intros fa].
  apply keeps_bind_or; [apply _| |intros a].
  { unfold checkOnChainAddressAccountIdLimits, consumeLimiter, rate_limit_consume, getAddressForWallet, grpc. solve_keeps. }
  apply keeps_bind_or; [apply _|unfold isRecorded; solve_keeps|intros b]. destruct b; [solve_keeps|].
  apply keeps_bind_or; [apply _|apply Rw|intros ?; solve_keeps].
Qed.

Lemma keeps_create_next id req :
  keeps R (_ ←? createOnChainAddress (X := X) briaConfig addressLimits id req; mret (Ok tt)).
Proof using Rw Reads0. apply keeps_bind_or; [apply _|apply keeps_createOnChainAddress|intros ?; solve_keeps]. Qed.

Lemma keeps_getLastOnChainAddress id : keeps R (getLastOnChainAddress (X := X) briaConfig addressLimits id).
Proof using Rw Reads0.
  unfold getLastOnChainAddress, findWalletById, findAccountById, findLastByWalletId.
  apply keeps_bind_or; [apply _|solve_keeps|intros wl]. apply keeps_bind_or; [apply _|solve_keeps|intros acc].
  apply keeps_or_return; [apply _|intros _]. apply keeps_bind; [apply _|solve_keeps|].
  intros [a|e]; [solve_keeps|]. destruct (is_CouldNotFindError e); [apply keeps_createOnChainAddress|solve_keeps].
Qed.

Lemma keeps_new_address_request `{RandomUUID X} id a :
  keeps R (new_address_request (X := X) briaConfig addressLimits id a).
Proof using Rw Reads0.
  unfold new_address_request. apply keeps_bind; [apply _|apply keeps_getLastOnChainAddress|]. intros []; solve_keeps.
Qed.

End AddressSpecs.

(** *** What is created *)

(** No wallet is changed but for addresses that are added. *)
Definition only_added (l l' : list Wallet) : Prop :=
  Forall2 (fun wl wl' : Wallet => wl'.(wl_descriptor) = wl.(wl_descriptor) ∧
             wl.(wl_onChainAddresses) `prefix_of` wl'.(wl_onChainAddresses)) l l'.

Lemma only_added_refl l : only_added l l.
Proof. by induction l as [|wl l IH]; constructor. Qed.

(** The wallet has the address. *)
Definition has_address {X} (id : WalletId) (a : OnChainAddress) (w : World X) : Prop :=
  ∃ wl : Wallet, wl ∈ w.(wallets) ∧ wl.(w_id) = id ∧ a ∈ wl.(wl_onChainAddresses).

Lemma wp_addressRecorded {X} `{Database X} id a (Q : Result bool -> World X -> Prop) w :
  (∀ e x, Q (Err e) (with_outside w x)) -> (∀ b x, b = true <-> has_address id a w -> Q (Ok b) (with_outside w x)) ->
  wp (isRecorded id a) Q w.
Proof.
  intros HErr HOk. apply wp_repo; [intros; by apply HErr|]. intros x. apply HOk. cbn [wallets with_outside].
  rewrite Nat.ltb_lt. unfold has_address. split.
  - destruct (filter _ w.(wallets)) as [|wl l] eqn:E; cbn; [lia|]. intros _. exists wl.
    assert (Hwl : wl ∈ wl :: l) by by left. rewrite <- E in Hwl. apply list_elem_of_filter in Hwl. tauto.
  - intros (wl & Hwl & Hid & Ha). destruct (filter _ w.(wallets)) as [|wl' l] eqn:E; cbn; [|lia].
    exfalso. apply (not_elem_of_nil wl). rewrite <- E. by apply list_elem_of_filter.
Qed.

Lemma wp_persistNewAddress {X} `{Database X} id a (Q : Result OnChainAddress -> World X -> Prop) w :
  (∀ r w', same_books w w' -> only_added w.(wallets) w'.(wallets) -> (∀ a', r = Ok a' -> a' = a ∧ has_address id a w') -> Q r w') ->
  wp (persistNewAddress id a) Q w.
Proof.
  intros HQ. unfold persistNewAddress. apply wp_bind_or, wp_catch, wp_db; [intros; apply HQ; try done; apply only_added_refl|].
  intros x. apply wp_bind, wp_gets. cbn [wallets with_outside].
  pose proof (update_first_found (fun wl : Wallet => bool_decide (wl.(w_id) = id)) (fun wl => Some (push_address a wl)) w.(wallets)) as Hu.
  destruct (update_first _ _ _) as [l' [wl'|]]; apply wp_bind, wp_modify, wp_ret, wp_ret, HQ; try done; cbn [wallets with_wallets].
  - destruct Hu as (l1 & wl & l2 & -> & Hid & _ & ->). apply Forall2_app; [apply only_added_refl|].
    constructor; [|apply only_added_refl]. split; [done|]. by eexists.
  - destruct Hu as (l1 & wl & l2 & _ & Hid%bool_decide_eq_true & _ & ->). intros a' [= <-]. split; [done|].
    exists (push_address a wl). cbn. split_and!; [apply elem_of_app; right; by left|done|]. apply elem_of_app. right. by left.
  - destruct Hu as [-> _]. apply only_added_refl.
Qed.

(** C26. Creating an address never changes the ledger, and changes the wallets by adding addresses at most.  The address
    that is returned is one of the wallet, and where the wallet had it already nothing is added. *)
Theorem address_created {X} `{Database X} `{BriaClient X} `{RateLimiterRedis X} briaConfig limits id req (w : World X) :
  wp (createOnChainAddress briaConfig limits id req) (fun r w' =>
    same_books w w' ∧ only_added w.(wallets) w'.(wallets) ∧
    ∀ a, r = Ok a -> has_address id a w' ∧ (has_address id a w -> w'.(wallets) = w.(wallets))) w.
Proof.
  assert (Hno : ∀ w' (r : Result OnChainAddress), same_state w w' -> (∀ a, r = Ok a -> has_address id a w) -> same_books w w' ∧
    only_added w.(wallets) w'.(wallets) ∧ ∀ a, r = Ok a -> has_address id a w' ∧ (has_address id a w -> w'.(wallets) = w.(wallets))).
  { intros w' r [Sb Sw] Hr. split_and!; [done|rewrite Sw; apply only_added_refl|].
    intros a E. split; [|done]. unfold has_address. rewrite Sw. by apply Hr. }
  unfold createOnChainAddress, findWalletById, findAccountById. apply wp_bind_or, (wp_keeps same_state); [solve_keeps|].
  intros [wl|e] w1 S1; [|by apply Hno]. apply wp_bind_or, (wp_keeps same_state); [solve_keeps|].
  intros [acc|e] w2 S2; (assert (S : same_state w w2) by (by etrans)); [|by apply Hno].
  apply wp_or_return; [intros _ _|intros; by apply Hno]. unfold requested_address, findAddressByRequestId, grpc.
  apply wp_bind_or, (wp_keeps same_state); [solve_keeps|]. intros [fa|e] w3 S3; (assert (S' : same_state w w3) by (by etrans)); [|by apply Hno].
  unfold checkOnChainAddressAccountIdLimits, consumeLimiter, rate_limit_consume, getAddressForWallet, grpc.
  apply wp_bind_or, (wp_keeps same_state); [solve_keeps|].
  intros [a|e] w4 S4; (assert (S'' : same_state w w4) by (by etrans)); [|by apply Hno]. clear S1 S2 S S3 S' S4.
  destruct S'' as [Sb Sw]. apply wp_bind_or, wp_addressRecorded; [intros; by apply Hno|]. intros [] x Hb.
  { apply wp_ret, Hno; [done|]. intros ? [= <-]. unfold has_address in *. rewrite Sw in Hb. by apply Hb. }
  apply wp_bind_or, wp_persistNewAddress. intros r w5 S5 Ho Hr. cbn [wallets with_outside] in Ho. rewrite Sw in Ho.
  assert (Sb5 : same_books w w5) by (by etrans). destruct r as [a'|e]; [|by split_and!].
  apply wp_ret. split_and!; [done|done|]. intros ? [= <-]. split; [by eapply Hr|].
  intros Hh. exfalso. unfold has_address in *. rewrite Sw in Hb. by apply Hb in Hh.
Qed.

(** The wallet that an address belongs to: the first that has it. *)
Definition address_of {X} (address : OnChainAddress) (w : World X) (wl : Wallet) : Prop :=
  ∃ rest, filter (fun wl : Wallet => address ∈ wl.(wl_onChainAddresses)) w.(wallets) = wl :: rest.

Lemma wp_findByAddress {X} `{Database X} address (Q : Result Wallet -> World X -> Prop) w :
  (∀ e x, Q (Err e) (with_outside w x)) -> (∀ (wl : Wallet) x, address_of address w wl -> Q (Ok wl) (with_outside w x)) ->
  wp (findByAddress address) Q w.
Proof.
  intros HErr HOk. apply wp_repo; [intros; by apply HErr|]. intros x. cbn [wallets with_outside].
  destruct (filter _ w.(wallets)) as [|wl wls] eqn:E; [by apply HErr|]. apply HOk. by exists wls.
Qed.

Lemma address_of_elem {X} address (w : World X) wl : address_of address w wl -> wl ∈ w.(wallets) ∧ address ∈ wl.(wl_onChainAddresses).
Proof.
  intros [rest E]. assert (Hwl : wl ∈ wl :: rest) by by left. rewrite <- E in Hwl.
  by apply list_elem_of_filter in Hwl as [].
Qed.

(** ** The record of a deposit *)

(** A document of the deposit of the output to the wallet. *)
Definition deposit_doc (walletId : WalletId) (txHash : string) (vout : number) (d : Doc) : Prop :=
  d.(raw_accounts) = toLedgerAccountId walletId ∧ d.(raw_type) = OnchainReceipt ∧ d.(raw_hash) = Some txHash ∧
  match d.(raw_vout) with None => True | Some v => num_eqb v vout = true end.

#[export] Instance deposit_doc_dec walletId txHash vout d : Decision (deposit_doc walletId txHash vout d).
Proof. unfold deposit_doc. destruct (raw_vout d); apply _. Defined.

Definition recorded {X} (walletId : WalletId) (txHash : string) (vout : number) (w : World X) : Prop :=
  ∃ d, d ∈ w.(ledger) ∧ deposit_doc walletId txHash vout d.

Lemma recorded_same {X} id h v (w w' : World X) : same_ledger w w' -> recorded id h v w <-> recorded id h v w'.
Proof. unfold recorded. by intros ->. Qed.

Lemma wp_isRecorded {X} `{Database X} id h v (Q : Result (bool * option string) -> World X -> Prop) w :
  (∀ e x, Q (Err e) (with_outside w x)) ->
  (∀ b r x, b = true <-> recorded id h v w -> Q (Ok (b, r)) (with_outside w x)) ->
  wp (isOnChainReceiptTxRecordedForWallet id h v) Q w.
Proof.
  intros HErr HOk. apply wp_bind_or, wp_catch, wp_db; [intros; by apply HErr|]. intros x. apply wp_gets, wp_ret.
  cbn [ledger with_outside]. set (f := fun d : Doc => _).
  assert (Hf : ∀ d, f d <-> deposit_doc id h v d).
  { intros d. unfold f, deposit_doc. rewrite !andb_true_iff, !bool_decide_eq_true.
    change (toLiabilitiesWalletId id) with (toLedgerAccountId id). destruct (raw_vout d); naive_solver. }
  destruct (last _) as [d|] eqn:E; apply HOk.
  - split; [intros _|done]. apply last_Some_elem_of, list_elem_of_filter in E as [Hd Hin]. exists d. by rewrite <- Hf.
  - split; [done|]. intros (d & Hin & Hd%Hf). apply last_None in E. exfalso. apply (not_elem_of_nil d). rewrite <- E.
    by apply list_elem_of_filter.
Qed.

(** ** What is stored of a pending deposit *)

Lemma digit_char (d : N) : (d < 10)%N -> digit_value (pretty_N_char d) = Some (Z.of_N d).
Proof.
  intros H. assert (d ∈ [0;1;2;3;4;5;6;7;8;9]%N) as Hd.
  { rewrite !elem_of_cons. lia. }
  repeat (apply elem_of_cons in Hd as [->|Hd]; [done|]). by apply elem_of_nil in Hd.
Qed.

Lemma decimal_digits_go (n : N) s : decimal_digits 0 (pretty_N_go n s) = decimal_digits (Z.of_N n) s.
Proof.
  revert s. induction (N.lt_wf_0 n) as [n _ IH]. intros s. destruct (decide (n = 0)%N) as [->|Hn].
  { by rewrite pretty_N_go_0. }
  rewrite pretty_N_go_step by lia. rewrite IH by (apply N.div_lt; lia). cbn [decimal_digits].
  rewrite digit_char by (apply N.mod_lt; lia). cbn. f_equal. pose proof (N.div_mod n 10). lia.
Qed.

Lemma BigInt_pretty z : BigInt_of_string (pretty z) = Some z.
Proof.
  assert (Hp : ∀ p : positive, decimal_digits 0 (pretty (N.pos p)) = Some (Zpos p)).
  { intros p. unfold pretty, pretty_N. rewrite decide_False by done. by rewrite decimal_digits_go. }
  assert (Hs : ∀ s n, decimal_digits 0 s = Some n -> BigInt_of_string s = Some n).
  { intros [|c s] n Hn; [done|]. by destruct c as [[] [] [] [] [] [] [] []]. }
  destruct z as [|p|p]; [done|apply Hs, Hp|].
  change (BigInt_of_string (pretty (Z.neg p))) with (Z.opp <$> decimal_digits 0 (pretty (N.pos p))). by rewrite Hp.
Qed.

(** What is stored of a pending transaction is read back: its amounts, its price and its output. *)
Theorem pending_read_back uuid (tx : WalletOnChainPendingTransaction) :
  ∃ t, translateToWalletOnChainTransaction uuid (translateToDbRecord tx) = Some t ∧
    t.(wt_walletId) = Some tx.(pt_walletId) ∧ t.(wt_status) = StatusPending ∧
    t.(wt_settlementAmount) = Number tx.(pt_settlementAmount).(amount) ∧
    t.(wt_settlementFee) = Number tx.(pt_settlementFee).(amount) ∧
    t.(wt_settlementDisplayPrice).(dp_base) = tx.(pt_settlementDisplayPrice).(dp_base) ∧
    t.(wt_settlementDisplayPrice).(dp_offset) = tx.(pt_settlementDisplayPrice).(dp_offset) ∧
    t.(wt_initiationVia) = InitiationViaOnChain tx.(pt_address).
Proof.
  unfold translateToWalletOnChainTransaction. cbn [translateToDbRecord pr_displayPriceBase pr_displayPriceOffset].
  rewrite !BigInt_pretty. by eexists.
Qed.

(** ** What is credited *)

Section Credit.
Context {M X : Type} `{MediciEntry M} `{!MediciLaws M} `{!MediciBook M X} `{!MediciBookLaws M X}
  `{Database X} `{Resolvers X} `{Redlock X} `{PriceServices X} `{BriaClient X} `{RateLimiterRedis X} `{RandomUUID X} `{Intl}.
Context (precision : number) (hedge : bool) (cfg : MemoSharingConfig) (briaConfig : BriaConfig)
  (addressLimits : RateLimitOptions) (getUuidByString : string -> string) (dust : number) (fees : DepositFeesConfig).
Context (bankOwner dealerBtc dealerUsd funder : WalletId).
Implicit Types (w : World X) (h : string) (v : number) (a : Amount) (wd : WalletDescriptor).

Abbreviation user := (user_wallet bankOwner dealerBtc dealerUsd).
Abbreviation all_ready := (all_ready bankOwner dealerBtc dealerUsd funder).
Abbreviation fairly_valued := (fairly_valued (X := X) precision hedge).

(** The least fee is in satoshis, and no fee is negative. *)
Record sound_fees : Prop := {
  sf_min : fees.(depositDefaultMin).(currency) = Btc ∧ 0 <= fees.(depositDefaultMin).(amount);
  sf_ratio : 0 <= fees.(depositRatioAsBasisPoints);
}.

(** The dollars that a deposit to the wallet is worth: the mid price, or the dealer's for a dollar wallet. *)
Definition valued wd a (u : Amount) : Prop :=
  priced u ∧ (wd.(w_currency) = Usd -> ∃ x x', getCentsFromSatsForImmediateBuy a x = (Ok u, x')).

Definition deposit wd a (r : Received) : Prop :=
  ∃ u, valued wd a u ∧ receipt_of a (deposit_fee fees a) u r ∧ r.(rcv_recipientWalletDescriptor) = wd ∧
    valid_pair {| usd := r.(rcv_usdToCreditReceiver); btc := r.(rcv_btcToCreditReceiver) |} ∧
    valid_fee (Some {| usd := r.(rcv_usdBankFee); btc := r.(rcv_btcBankFee) |}) ∧
    0 < r.(rcv_btcToCreditReceiver).(amount) ∧ 0 < r.(rcv_usdToCreditReceiver).(amount).

Lemma deposit_fee_sats a : sound_fees -> a.(currency) = Btc -> 0 < a.(amount) ->
  (deposit_fee fees a).(currency) = Btc ∧ 0 <= (deposit_fee fees a).(amount).
Proof.
  intros [[Hc Hm] Hr] Ha Hp. unfold deposit_fee, DepositFeeCalculator.onChainDepositFee.
  repeat case_match; [done|done|]. split.
  { unfold AmountCalculator.mulBasisPoints, AmountCalculator.divRound. by repeat case_match. }
 
  pose proof (mulBasisPoints_nearest a (depositRatioAsBasisPoints fees) ltac:(lia) ltac:(lia)). nia.
Qed.

(** The rest of [WalletAddressReceiver], once the deposit is worth [u]. *)
Abbreviation worth wd a u :=
  (walletAddressReceiver (F := result ApplicationError) wd a (Some (deposit_fee fees a)) (fun _ => Ok u) (fun _ => Ok u)).

Lemma worth_deposit wd a u r : sound_fees -> a.(currency) = Btc -> 0 < a.(amount) < 2 ^ 53 -> valued wd a u ->
  worth wd a u = Ok r -> deposit wd a r.
Proof.
  intros Hs Hc Ha Hv Hr. destruct (deposit_fee_sats a Hs Hc ltac:(lia)) as [Hfc Hf]. pose proof Hv as [[Hcu Hu] _].
  assert (Hpos : 0 < u.(amount)).
  { destruct (decide (u.(amount) = 0)) as [E|]; [|lia]. exfalso. revert Hr. unfold walletAddressReceiver. direct_calls.
    destruct (decide _); cbn [mbind result_bind]; unfold WalletPriceRatio.make, PriceRatio.make; by rewrite E. }
  pose proof (address_receipt_conserves wd a (Some (deposit_fee fees a)) (fun _ => Ok u) (fun _ => Ok u) u
    ltac:(lia) Hc Hf ltac:(by case_decide) Hpos) as Hd.
  assert (Hcur : r.(rcv_btcToCreditReceiver).(currency) = Btc ∧ r.(rcv_usdToCreditReceiver).(currency) = Usd ∧
    r.(rcv_usdBankFee).(currency) = Usd).
  { revert Hr. clear -Hc Hcu. unfold walletAddressReceiver. direct_calls. destruct (decide _); cbn [mbind result_bind];
      destruct (WalletPriceRatio.make u a); cbn [mbind result_bind]; try done; destruct (_ || _); intros [= <-]; done. }
  cbn in Hd. rewrite Hr in Hd. destruct Hd as ([Eb Eu Ef Hfu Eamt] & Hwd & Hb & Hus & _). exists u.
  destruct Hcur as (C1 & C2 & C3). rewrite <- Ef in Hfc, Hf. pose proof Hfu as Hfu'. rewrite <- Ef in Hfu'.
  assert (0 <= r.(rcv_usdBankFee).(amount)) by nia.
  split_and!; try done; [by repeat split; cbn; try lia|].
  intros f [= <-]. split; [by repeat split; cbn; try lia|]. cbn. nia.
Qed.

Lemma wp_receivedDeposit wd a (Q : Result Received -> World X -> Prop) w : sound_fees -> fairly_valued a -> a.(currency) = Btc ->
  0 < a.(amount) < 2 ^ 53 ->
  (∀ r w', same_books w w' -> (∀ rcv, r = Ok rcv -> deposit wd a rcv) -> Q r w') ->
  wp (receivedDeposit precision hedge wd a (deposit_fee fees a)) Q w.
Proof.
  intros Hs Hf Hc Ha HQ. unfold receivedDeposit, walletAddressReceiver.
  assert (Hrest : ∀ r w', same_books w w' -> (∀ u, r = Ok u -> valued wd a u) ->
    Q (u ← r; worth wd a u) w').
  { intros r w' S Hu. apply HQ; [done|]. intros rcv Hr. destruct r as [u|]; [|done]. eapply worth_deposit; eauto. }
  unfold walletAddressReceiver in Hrest. direct_calls. cbn zeta in *.
  apply wp_async_bind. case_decide as Hw; [apply (wp_mid precision hedge); [done|]; intros r w' S Hu|apply wp_ext; intros r x E];
    (destruct r as [u|e]; [|by apply (Hrest (Err e))]); (apply wp_async_bind, wp_returns);
    match goal with |- context [Q (Err _) ?w'] => specialize (Hrest (Ok u) w') end.
  all: cbn [mbind result_bind] in Hrest; destruct (WalletPriceRatio.make u a); cbn [mbind result_bind] in Hrest;
    [destruct (_ || _); apply wp_returns|]; apply Hrest; try done; intros ? [= <-]; (split; [|try by rewrite Hw]);
    first [by apply Hu | by eapply (proj1 Hf) | intros _; by eexists _, _].
Qed.

(** A change of an account has a document of it. *)
Lemma labelled_document txs new acc c : labels txs new -> book_account_net acc c new ≠ 0 ->
  ∃ tx d, tx ∈ txs ∧ d ∈ new ∧ labelled tx d ∧ d.(raw_accounts) = acc.
Proof.
  unfold book_account_net. intros Hl Hn. destruct (filter _ new) as [|d l] eqn:E; [done|].
  assert (Hd : d ∈ d :: l) by by left. rewrite <- E in Hd. apply list_elem_of_filter in Hd as [Ha Hd].
  apply list_elem_of_lookup in Hd as [i Hi]. eapply Forall2_lookup_r in Hl as (tx & Htx & Hlab); [|exact Hi].
  exists tx, d. split_and!; try done; by eapply list_elem_of_lookup_2.
Qed.

(** What is credited to the wallet. *)
Definition credited_amount (r : Received) : Z := (settlementAmounts r).1.(amount).

Definition credit_of wd a (r : Received) (D : Change) : Prop :=
  D (toLedgerAccountId wd.(w_id)) wd.(w_currency) = - credited_amount r ∧ D onChainLedgerAccountId Btc = a.(amount).

Lemma wp_record_deposit wd h v a r d address req w : all_ready w -> deposit wd a r -> user wd -> num_eqb v v = true ->
  a.(amount) < 2 ^ 53 ->
  let md := OnChainReceiveLedgerMetadata h v (received_amounts r) d [address] req in
  wp (recordReceiveOnChain (M := M) "" wd {| usd := r.(rcv_usdToCreditReceiver); btc := r.(rcv_btcToCreditReceiver) |}
        (Some {| usd := r.(rcv_usdBankFee); btc := r.(rcv_btcBankFee) |}) md.(metadata)
        md.(creditAccountAdditionalMetadata) md.(internalAccountsAdditionalMetadata) None None)
    (fun res w' => match res with
                   | Ok _ => recorded wd.(w_id) h v w' ∧ (journals_balanced w.(ledger) -> journals_balanced w'.(ledger)) ∧
                       ∃ D, moved D w w' ∧ credit_of wd a r D
                   | Err _ => same_books w w'
                   end) w.
Proof using MediciLaws0 MediciBookLaws0.
  intros Hr (u & [[_ Hu] _] & [Eb Eu _ _ _] & Hwd & Hp & Hfee & Hpb & Hpu) Huser Hv Hlt md.
  match goal with |- context [recordReceiveOnChain ?a ?b ?c ?d ?e ?f ?g] =>
    destruct (receive_nets (MainBook_entry (X := X)) bankOwner dealerBtc dealerUsd entry_empty false a b c d None e f g)
      as (Hbal & HR & HA) end; [done|done|done| |].
  { intros []; cbn; lia. }
  assert (Hc : credited_amount r = amount_in {| usd := r.(rcv_usdToCreditReceiver); btc := r.(rcv_btcToCreditReceiver) |} wd.(w_currency)).
  { unfold credited_amount, settlementAmounts. rewrite Hwd. by destruct wd.(w_currency). }
  assert (Hpos : 0 < credited_amount r).
  { rewrite Hc. by destruct wd.(w_currency). }
  unfold recordReceiveOnChain. apply wp_bind_or, (wp_staticAccountIds bankOwner dealerBtc dealerUsd); [apply Hr|].
  apply wp_persistAndReturnEntry; [|done]. intros j w' (new & Hl & Hfr & Hj & Hn & Ha & Hlab) Hb'.
  assert (Hz : ∀ c, book_net c new = 0) by (intros c; rewrite Hn; apply Hbal). split_and!.
  - destruct (labelled_document _ _ (toLedgerAccountId wd.(w_id)) wd.(w_currency) Hlab) as (tx & doc & Htx & Hd & [_ Eh _ Et Ev _ _] & Eacc).
    { rewrite Ha. intros E. assert (- credited_amount r = 0); [|lia]. rewrite Hc. etransitivity; [symmetry; exact HR|exact E]. }
    assert (Hmeta : ∀ key x, key ≠ "currency" -> key ≠ "external_id" -> md.(metadata) !! key = Some x ->
      md.(creditAccountAdditionalMetadata) !! key = None -> md.(internalAccountsAdditionalMetadata) !! key = None ->
      tx.(tx_meta) !! key = Some x).
    { intros key x K1 K2 M1 M2 M3. revert Htx. apply (proj1 (Forall_forall (fun tx => tx.(tx_meta) !! key = Some x) _)).
      by apply (receive_field _ entry_empty). }
    unfold meta_string, meta_number in *. rewrite (Hmeta "hash" (MString h)) in Eh by done.
    rewrite (Hmeta "vout" (MNumber v)) in Ev by done. rewrite (Hmeta "type" (MString "onchain_receipt")) in Et by done.
    exists doc. split; [rewrite Hl; apply elem_of_app; by left|]. split_and!; [done| |done|by rewrite Ev]. by injection Et.
  - rewrite Hl. by eapply journals_balanced_new.
  - eexists. split; [split_and!; [done|..]; rewrite Hl|].
    + intros c. rewrite book_net_app, Hz. lia.
    + intros acc c. rewrite book_account_net_app, Ha. apply Z.add_comm.
    + split; [rewrite Hc; exact HR|]. etransitivity; [exact HA|]. exact Eb.
Qed.

(** The books are the same, or the deposit, which was not recorded before, is recorded and credited. *)
Definition deposited wd h v a w w' : Prop :=
  (journals_balanced w.(ledger) -> journals_balanced w'.(ledger)) ∧ ∃ D, moved D w w' ∧
    ((∀ x c, D x c = 0) ∨
     ¬ recorded wd.(w_id) h v w ∧ recorded wd.(w_id) h v w' ∧ ∃ r, deposit wd a r ∧ credit_of wd a r D).

Lemma deposited_nothing wd h v a w w' : same_books w w' -> deposited wd h v a w w'.
Proof.
  intros S. split; [by destruct S as [-> _]|]. exists nothing. split; [by apply shifted_moved, same_shifted|by left].
Qed.

Lemma deposited_same wd h v a w w1 w2 : deposited wd h v a w w1 -> same_books w1 w2 -> deposited wd h v a w w2.
Proof.
  intros (Hj & D & Hm & HD) S. split; [by destruct S as [-> _]|]. exists D.
  split; [eapply moved_shifted; [exact Hm|by apply same_shifted]|].
  destruct HD as [HD|(Hn & Hr & HD)]; [by left|right]. split_and!; [done| |done]. destruct S as [Sl _].
  by apply (recorded_same _ _ _ w1).
Qed.

Lemma wp_notify_deposit wd acc j req w : all_ready w ->
  wp (notify_deposit (M := M) cfg wd acc j req) (fun r w' => same_books w w' ∧ ∀ p, r = Ok p -> p.1 = wd) w.
Proof.
  intros Hr. unfold notify_deposit, findUserById. apply wp_bind_or, wp_repo; [done|]. intros x.
  apply wp_bind_or, (wp_getWalletTransactionByJournalId bankOwner dealerBtc dealerUsd funder); [done|].
  intros [tx|e] w1 S1; [|done]. apply wp_bind, wp_modify, wp_ret. split; [exact S1|]. by intros ? [= <-].
Qed.

Lemma wp_settled_steps wd h v a address w : all_ready w -> user wd -> sound_fees -> fairly_valued a -> a.(currency) = Btc ->
  0 < a.(amount) < 2 ^ 53 -> num_eqb v v = true ->
  wp (settled_steps (M := M) precision hedge cfg briaConfig addressLimits fees h v a address wd)
    (fun r w' => deposited wd h v a w w' ∧ ∀ p, r = Ok p -> p.1 = wd ∧ recorded wd.(w_id) h v w') w.
Proof using MediciLaws0 MediciBookLaws0.
  intros Hr Hu Hs Hf Hc Ha Hv. unfold settled_steps.
  assert (Hno : ∀ w' (e : ApplicationError), same_books w w' -> deposited wd h v a w w' ∧
    ∀ p : WalletDescriptor * option string, Err e = Ok p -> p.1 = wd ∧ recorded wd.(w_id) h v w').
  { intros w' e S. split; [by apply deposited_nothing|done]. }
  apply wp_bind_or, wp_isRecorded; [intros; by apply Hno|]. intros b req x1 Hb.
  destruct b; cbn [fst snd].
  { apply wp_ret. split; [by apply deposited_nothing|]. intros ? [= <-]. split; [done|]. by apply Hb. }
  unfold findAccountById. apply wp_bind_or, (wp_keeps same_books); [solve_keeps|]. intros [acc|e] w2 S2; [|by apply Hno].
  assert (S : same_books w w2) by done.
  apply wp_bind_or, wp_receivedDeposit; [done..|]. intros [r|e] w3 S3 Hd; [|apply Hno; by etrans]. specialize (Hd r eq_refl).
  apply wp_bind_or, (wp_keeps same_books); [auto with keeps|]. intros [dr|e] w4 S4;
    (assert (S' : same_books w w4) by (by do 2 (etrans; [|eassumption]))); [|by apply Hno].
  apply wp_or_return; [intros display _|intros e _; by apply Hno].
  apply wp_bind, (wp_keeps same_books); [apply keeps_new_address_request; [apply _|intros; by apply keeps_persistNewAddress; [apply _|]]|]. intros nreq w5 S5.
  assert (S'' : same_books w w5) by (by etrans). cbn zeta.
  apply wp_bind_or. eapply wp_mono; [apply (wp_record_deposit wd h v a r); [by eapply all_ready_same|done|done|done|lia]|].
  intros [j|e] w6 HQ; [|apply Hno; by etrans]. destruct HQ as (Hrec & Hjb & D & Hm & HD).
  eapply wp_mono; [apply wp_notify_deposit|].
  { destruct Hm as [Hb' _]. destruct S'' as [_ Hb'']. unfold Money.all_ready in *. by rewrite Hb', Hb''. }
  intros res w7 [S7 Hp]. assert (Hrec7 : recorded wd.(w_id) h v w7) by (destruct S7; by apply (recorded_same _ _ _ w6)).
  split; [|intros p Hok; split; [by apply Hp|done]]. eapply deposited_same; [|exact S7].
  split; [by destruct S'' as [<- _]|]. exists D. split; [eapply shifted_then; [by apply same_shifted|exact Hm]|]. right. split_and!; [|done|by exists r].
  intros Hx. by apply Hb in Hx.
Qed.

(** *** The pending record *)

Definition same_pending (w w' : World X) : Prop := w'.(pendingReceives) = w.(pendingReceives).

#[local] Instance same_pending_reads : Reads same_pending.
Proof using. split; [|done]. split; [done|]. unfold same_pending. congruence. Qed.
#[local] Instance same_pending_cache : CacheFrame same_pending.
Proof using. done. Qed.
#[local] Hint Resolve same_pending_reads same_pending_cache : keeps.

(** A relation that does not mind what a settled deposit writes. *)
Lemma keeps_settled_steps (R : relation (World X)) `{!Reads R} `{!CacheFrame R} wd h v a address :
  (∀ w l, R w (with_ledger w l)) -> (∀ w l, R w (with_txMetadata w l)) -> (∀ w l, R w (with_notified w l)) ->
  (∀ id x, keeps R (persistNewAddress id x)) -> keeps R
  (settled_steps (M := M) precision hedge cfg briaConfig addressLimits fees h v a address wd).
Proof using.
  intros Rl Rm Rn Rw. unfold settled_steps. apply keeps_bind_or; [apply _|unfold isOnChainReceiptTxRecordedForWallet, findOne; solve_keeps|intros [b req]].
  destruct b; [solve_keeps|]. apply keeps_bind_or; [apply _|unfold findAccountById; solve_keeps|intros acc].
  apply keeps_bind_or; [apply _| |intros r].
  { unfold receivedDeposit, walletAddressReceiver. cbn zeta. apply keeps_async_bind; [apply _| |intros u; solve_keeps].
    case_decide; [auto with keeps|solve_keeps]. }
  apply keeps_bind_or; [apply _|auto with keeps|intros dr]. apply keeps_or_return; [apply _|intros display].
  apply keeps_bind; [apply _|by apply keeps_new_address_request; [apply _|]|intros nreq]. cbn zeta.
  apply keeps_bind_or; [apply _| |intros j].
  - apply keeps_bind_or; [apply _|auto with keeps|]. intros ids. apply keeps_bind_or; [apply _| |intros s].
    + apply keeps_catch; [apply _|]. intros w. unfold wp, entry_commit. destruct (commit _ _ _) as [[[sv L]|] x]; [etrans; [apply (Rl w L)|]|]; apply reads_outside.
    + apply keeps_bind; [apply _| |intros ?; solve_keeps]. unfold persistAll. case_match; [solve_keeps|].
      apply keeps_catch, keeps_db; [apply _..|]. apply keeps_bind; [apply _|by apply keeps_modify|intros ?; solve_keeps].
  - unfold notify_deposit, findUserById. apply keeps_bind_or; [apply _|solve_keeps|intros u].
    apply keeps_bind_or; [apply _|auto with keeps|intros tx].
    apply keeps_bind; [apply _|by apply keeps_modify|intros ?; solve_keeps].
Qed.

(** The pending record of the output for the wallet. *)
Definition pending_output (id : WalletId) h v (p : WalletOnChainPendingReceiveRecord) : Prop :=
  p.(pr_walletId) = id ∧ same_output h v p = true.

(** The unique index of the collection: no output has two records. *)
Definition unique_outputs w : Prop :=
  ∀ h v, (length (filter (fun p => same_output h v p = true) w.(pendingReceives)) <= 1)%nat.

Definition removed_or_missing (r : Result unit) : Prop :=
  match r with Ok _ => True | Err e => is_CouldNotFindError e = true end.

Lemma wp_removePending id h v (Q : Result unit -> World X -> Prop) w :
  (∀ r w', same_data w w' ->
     (unique_outputs w -> unique_outputs w' ∧
        (removed_or_missing r -> ∀ p, p ∈ w'.(pendingReceives) -> ¬ pending_output id h v p)) -> Q r w') ->
  wp (removePending id h v) Q w.
Proof using.
  intros HQ. unfold removePending. apply wp_bind_or, wp_catch, wp_db; [intros; apply HQ; [done|]; done|].
  intros x. apply wp_bind, wp_gets. cbn [pendingReceives with_outside]. set (f := fun r => _).
  assert (Hf : ∀ p, f p = true <-> pending_output id h v p).
  { intros p. unfold f, pending_output. by rewrite andb_true_iff, bool_decide_eq_true. }
  pose proof (update_first_found f (fun _ => None) w.(pendingReceives)) as Hd. destruct (update_first _ _ _) as [l' [p'|]].
  - destruct Hd as (l1 & p0 & l2 & El & Hp0 & _ & ->). apply wp_bind, wp_modify, wp_ret, wp_ret, HQ; [done|]. intros Hun.
    cbn [pendingReceives with_pendingReceives]. split.
    + intros h' v'. specialize (Hun h' v'). rewrite El, filter_app, filter_cons, length_app in Hun.
      cbn [pendingReceives with_pendingReceives with_outside]. rewrite filter_app, length_app. case_decide; cbn in Hun; lia.
    + intros _ p Hp [Hid Hso]. specialize (Hun h v). rewrite El, filter_app, filter_cons, length_app in Hun.
      apply Hf in Hp0 as [_ Hp0]. rewrite decide_True in Hun by done. cbn in Hun.
      apply elem_of_app in Hp as [Hp|Hp]; [destruct (filter _ l1) as [|? ?] eqn:E|destruct (filter _ l2) as [|? ?] eqn:E];
        cbn in Hun; try lia; apply (not_elem_of_nil p); rewrite <- E; by apply list_elem_of_filter.
  - destruct Hd as [-> Hd]. apply wp_bind, wp_modify, wp_ret, wp_ret, HQ; [done|]. intros Hun. split; [done|].
    intros _ p Hp Hpo%Hf. rewrite Forall_forall in Hd.
    specialize (Hd p Hp). congruence.
Qed.

(** ** A settled deposit *)

Record depositable w : Prop := {
  dp_ready : all_ready w;
  dp_wallets : ∀ wl : Wallet, wl ∈ w.(wallets) -> user wl;
}.

Lemma wp_addSettledBeforeFinally h v a address w : depositable w -> sound_fees -> fairly_valued a -> a.(currency) = Btc ->
  0 < a.(amount) < 2 ^ 53 -> num_eqb v v = true ->
  wp (addSettledTransactionBeforeFinally (M := M) precision hedge cfg briaConfig addressLimits dust fees h v a address)
    (fun r w' => same_pending w w' ∧
       (same_books w w' ∧ (∃ e, r = Err e) ∨
        ∃ wl, address_of address w wl ∧ num_gtb_bigint dust a.(amount) = false ∧ deposited wl h v a w w' ∧
          ∀ p, r = Ok p -> p.1 = wl.(wl_descriptor) ∧ recorded wl.(w_id) h v w')) w.
Proof using MediciLaws0 MediciBookLaws0.
  intros [Hr Hus] Hs Hf Hc Ha Hv. unfold addSettledTransactionBeforeFinally.
  destruct (num_gtb_bigint dust (amount a)) eqn:Ed; [apply wp_ret; split; [done|left; split; [done|by eexists]]|].
  apply wp_bind_or, wp_findByAddress; [intros; split; [done|left; split; [done|by eexists]]|]. intros wl x Hwl.
  assert (Hw : ∀ w', same_books w w' -> ∀ e : ApplicationError, deposited wl h v a w w' ∧
    ∀ p : WalletDescriptor * option string, Err e = Ok p -> p.1 = wl.(wl_descriptor) ∧ recorded wl.(w_id) h v w').
  { intros w' S e. split; [by apply deposited_nothing|done]. }
  apply wp_bind, wp_redlock; [intros; apply wp_ret; split; [done|right; exists wl; split_and!; try done; by apply Hw]|].
  intros x1. eapply wp_mono; [apply wp_and; [apply (keeps_settled_steps same_pending wl); try done|apply (wp_settled_steps wl); try done]|].
  { intros. by apply keeps_persistNewAddress; [apply _|]. }
  { apply Hus, (address_of_elem _ _ _ Hwl). }
  intros r w' [Sp [Hd Hok]] x2. split; [|intros e]; apply wp_ret; (split; [exact Sp|right; exists wl; split_and!; try done]).
Qed.

(** What [addSettledTransaction] does. *)
Definition settled h v a address w (r : Result unit) w' : Prop :=
  same_books w w' ∧ r ≠ Ok tt ∨
  ∃ wl : Wallet, address_of address w wl ∧ num_gtb_bigint dust a.(amount) = false ∧ deposited wl h v a w w' ∧
    (r = Ok tt -> recorded wl.(w_id) h v w' ∧
       (unique_outputs w -> ∀ p, p ∈ w'.(pendingReceives) -> ¬ pending_output wl.(w_id) h v p)).

Lemma wp_addSettledTransaction h v a address w : depositable w -> sound_fees -> fairly_valued a -> a.(currency) = Btc ->
  0 < a.(amount) < 2 ^ 53 -> num_eqb v v = true ->
  wp (addSettledTransaction (M := M) precision hedge cfg briaConfig addressLimits dust fees h v a address)
    (settled h v a address w) w.
Proof using MediciLaws0 MediciBookLaws0.
  intros Hw Hs Hf Hc Ha Hv. unfold addSettledTransaction. apply wp_bind_or. eapply wp_mono; [by apply wp_addSettledBeforeFinally|].
  intros r w1 [Sp [[S [e ->]]|(wl & Hwl & Hd & Hdep & Hok)]]; [by left|].
  destruct r as [[wd req]|e]; [|right; by exists wl]. destruct (Hok _ eq_refl) as [Ewd Hrec]. cbn [fst] in Ewd. subst wd.
  apply wp_bind, wp_removePending. intros r2 w2 S2 Hun. assert (Sb : same_books w1 w2) by apply S2.
  assert (Hdone : ∀ r w', same_books w2 w' -> same_pending w2 w' -> (r = Ok tt -> removed_or_missing r2) ->
    settled h v a address w r w').
  { intros r w' Sb' Sp' Hr. right. exists wl. split_and!; [done|done|eapply deposited_same; [exact Hdep|by etrans]|].
    intros Er. split; [apply (recorded_same _ _ _ w1); [|done]; destruct Sb, Sb'; unfold same_ledger; congruence|].
    intros Hu p Hp. eapply Hun; [|by apply Hr|by rewrite <- Sp'].
    intros h' v'. unfold same_pending in Sp. rewrite Sp. apply Hu. }
  assert (Hcreate : removed_or_missing r2 -> ∀ req', wp (_ ←? createOnChainAddress briaConfig addressLimits wl.(w_id) (Some req'); mret (Ok tt))
    (settled h v a address w) w2).
  { intros Hr req'. eapply wp_mono; [apply wp_and; [apply (keeps_create_next _ _ same_books)|apply (keeps_create_next _ _ same_pending)]; intros; by apply keeps_persistNewAddress; [apply _|]|].
    intros r w' [Sb' Sp']. by apply Hdone. }
  destruct r2 as [[]|e]; cbn [is_CouldNotFindError]; [|destruct (is_CouldNotFindError e) eqn:Ee; [|by apply wp_ret, Hdone]].
  all: destruct (js_or_opt req None); [by apply Hcreate|by apply wp_ret, Hdone].
Qed.

(** C5. What a settled on-chain deposit does to the books.  Whatever fails, the books stay balanced, journal by journal,
    and either nothing is moved or the deposit, which was not in the ledger, is recorded there: the on-chain account is debited all its
    satoshis, and the wallet that the address belongs to is credited with them less the deposit fee, a dollar wallet
    with the dealer's price of the satoshis less the fee's part of it rounded up; the credit is positive and the
    deposit is not dust.  Where the call succeeds the deposit is in the ledger, and it is no longer listed as pending. *)
Theorem deposit_credited h v a address w (Hw : depositable w) (Hs : sound_fees) (Hf : fairly_valued a)
    (Hc : a.(currency) = Btc) (Ha : 0 < a.(amount) < 2 ^ 53) (Hv : num_eqb v v = true) :
  wp (addSettledTransaction (M := M) precision hedge cfg briaConfig addressLimits dust fees h v a address)
    (settled h v a address w) w.
Proof using MediciLaws0 MediciBookLaws0. by apply wp_addSettledTransaction. Qed.

(** C9. A deposit that is reported again is not credited again: once it is in the ledger, nothing that the call does
    changes the ledger, whatever amount is reported and whatever fails. *)
Theorem deposit_redelivered h v a address w (wl : Wallet) (Hwl : address_of address w wl) (Hr : recorded wl.(w_id) h v w) :
  wp (addSettledTransaction (M := M) precision hedge cfg briaConfig addressLimits dust fees h v a address)
    (fun _ w' => w'.(ledger) = w.(ledger)) w.
Proof using.
  unfold addSettledTransaction, addSettledTransactionBeforeFinally. destruct (num_gtb_bigint dust (amount a)); [done|].
  apply wp_bind_or, wp_bind_or, wp_findByAddress; [done|]. intros wl' x [rest E]. destruct Hwl as [rest' E'].
  rewrite E in E'. injection E' as -> ->. apply wp_bind, wp_redlock; [done|]. intros x1. unfold settled_steps.
  apply wp_bind_or, wp_isRecorded; [done|]. intros b req x2 Hb. destruct Hb as [_ Hb]. rewrite Hb by done.
  apply wp_ret. intros x3. split; [|done]. apply wp_ret. cbn [mbind result_bind].
  eapply (wp_keeps same_ledger); [|by intros r w' S]. apply keeps_bind; [apply _|unfold removePending; solve_keeps|].
  intros [[]|e]; cbn zeta; [|destruct (is_CouldNotFindError e); [|solve_keeps]].
  all: case_match; [|solve_keeps]; apply (keeps_create_next _ _ same_ledger); intros; by apply keeps_persistNewAddress; [apply _|].
Qed.

(** ** A pending deposit *)

Lemma same_output_twice h h' v v' p q : same_output h v p = true -> same_output h' v' p = true -> same_output h' v' q = true ->
  same_output h v q = true.
Proof using.
  unfold same_output. rewrite !andb_true_iff, !bool_decide_eq_true. intros [<- E1] [<- E2] [E3 E4]. split; [done|].
  eapply num_eqb_trans; [exact E4|]. eapply num_eqb_trans; [apply num_eqb_sym; exact E2|exact E1].
Qed.

Lemma stored_vout v : num_eqb v v = true -> num_eqb (js_or (Some v) (Number 0)) v = true.
Proof using. unfold js_or. destruct (truthy v) eqn:E; [done|]. destruct v as [[]| | |]; done. Qed.

Lemma wp_persistNewPending (tx : WalletOnChainPendingTransaction) (Q : Result WalletTransaction -> World X -> Prop) w :
  num_eqb tx.(pt_vout) tx.(pt_vout) = true ->
  (∀ r w', same_data w w' -> (unique_outputs w -> unique_outputs w') ->
     (match r with Ok _ | Err DuplicateKeyForPersistError => True | _ => False end ->
      ∃ p, p ∈ w'.(pendingReceives) ∧ same_output tx.(pt_transactionHash) tx.(pt_vout) p = true) -> Q r w') ->
  wp (persistNewPending getUuidByString tx) Q w.
Proof using.
  intros Hv HQ. unfold persistNewPending. cbn zeta. destruct (negb _); [by apply wp_ret, HQ|].
  set (r := translateToDbRecord tx). assert (Hr : same_output tx.(pt_transactionHash) tx.(pt_vout) r = true).
  { unfold same_output. rewrite bool_decide_true by done. by apply stored_vout. }
  assert (Hsame : ∀ p, same_output r.(pr_transactionHash) r.(pr_vout) p = true <-> same_output tx.(pt_transactionHash) tx.(pt_vout) p = true).
  { intros p. unfold same_output. rewrite !andb_true_iff, !bool_decide_eq_true. pose proof (stored_vout _ Hv) as Hs.
    split; (intros [? ?]; split; [done|]); (eapply num_eqb_trans; [done|]); [exact Hs|by apply num_eqb_sym]. }
  apply wp_bind_or, wp_catch, wp_db; [intros; by apply HQ|]. intros x. apply wp_bind, wp_gets.
  cbn [pendingReceives with_outside]. destruct (existsb _ _) eqn:E.
  - apply wp_ret, wp_ret, HQ; [done..|]. intros _. apply existsb_exists in E as (p & Hp & Hs). exists p.
    split; [by apply list_elem_of_In|by apply Hsame].
  - apply wp_bind, wp_modify, wp_ret, wp_ret, HQ; [done| |].
    + intros Hun h' v'. specialize (Hun h' v'). cbn [pendingReceives with_pendingReceives with_outside].
      rewrite filter_app, length_app, filter_cons. case_decide as Hd; [|cbn; lia].
      assert (filter (fun p => same_output h' v' p = true) (pendingReceives w) = []) as ->; [|cbn; lia].
      apply filter_none, Forall_forall. intros p Hp Hs. apply not_true_iff_false in E. apply E, existsb_exists. exists p.
      split; [by apply list_elem_of_In|]. by apply Hsame, (same_output_twice _ h' _ v' r).
    + intros _. exists r. split; [|done]. apply elem_of_app. right. by left.
Qed.

(** What is stored but for the outside is the same. *)
Definition quiet (w w' : World X) : Prop := same_data w w' ∧ same_pending w w'.

#[local] Instance quiet_reads : Reads quiet.
Proof using.
  split; [|by intros w x]. split; [done|]. intros w1 w2 w3 [S1 E1] [S2 E2]. split; [by etrans|by etrans].
Qed.
#[local] Hint Resolve quiet_reads : keeps.

(** Listing a deposit writes nothing else, and the deposit is in the ledger or listed. *)
Definition pending_listed (wl : WalletDescriptor) h v w (r : Result unit) w' : Prop :=
  same_data w w' ∧ (unique_outputs w -> unique_outputs w') ∧
  (r = Ok tt -> recorded wl.(w_id) h v w ∨ ∃ p, p ∈ w'.(pendingReceives) ∧ same_output h v p = true).

Lemma pending_listed_error wl h v w e w' : quiet w w' -> pending_listed wl h v w (Err e) w'.
Proof using. intros [S E]. split_and!; [done| |done]. unfold unique_outputs. by rewrite E. Qed.

Lemma wp_pending_steps wl h v a address acc fee w : num_eqb v v = true ->
  wp (pending_steps precision hedge getUuidByString h v a address wl acc fee) (pending_listed wl h v w) w.
Proof using.
  intros Hv. unfold pending_steps. apply wp_bind_or, wp_isRecorded; [intros; by apply pending_listed_error|].
  intros b req x1 Hb. destruct b; cbn [fst].
  { apply wp_bind, wp_removePending. intros r w' S Hun. apply wp_ret. split_and!; [done|by intros Hu; apply Hun|].
    intros _. left. by apply Hb. }
  apply wp_bind_or, (wp_keeps quiet).
  { unfold receivedDeposit, walletAddressReceiver. cbn zeta. apply keeps_async_bind; [apply _| |intros u; solve_keeps].
    case_decide; [auto with keeps|solve_keeps]. }
  intros [r|e] w2 S2; [|by apply pending_listed_error]. destruct (settlementAmounts r) as [sa sf].
  apply wp_bind_or, (wp_keeps quiet); [auto with keeps|]. intros [dr|e] w3 S3; (assert (S : quiet w w3) by (by etrans; [|eassumption]));
    [|by apply pending_listed_error].
  apply wp_or_return; [intros display _|intros; by apply pending_listed_error]. apply wp_bind, wp_ext. intros now x4 _.
  apply wp_bind, wp_persistNewPending; [done|]. cbn [pt_transactionHash pt_vout]. intros res w5 S5 Hun Hin.
  assert (Hdone : ∀ r w', same_data w5 w' -> same_pending w5 w' -> (r = Ok tt ->
    match res with Ok _ | Err DuplicateKeyForPersistError => True | _ => False end) -> pending_listed wl h v w r w').
  { intros r' w' Sd Sp Hr. destruct S as [Sd3 Sp3]. split_and!.
    - etrans; [exact Sd3|]. etrans; [|exact Sd]. exact S5.
    - intros Hu. unfold unique_outputs. rewrite Sp. apply Hun. intros h' v'. cbn [pendingReceives with_outside]. rewrite Sp3. apply Hu.
    - intros Er. right. rewrite Sp. by apply Hin, Hr. }
  destruct res as [tx|e]; [|by destruct e; apply wp_ret, Hdone].
  unfold findUserById. apply wp_bind_or, wp_repo; [intros; by apply Hdone|]. intros x6.
  apply wp_bind, wp_modify, wp_ret. by apply Hdone.
Qed.

(** C27. Listing a pending deposit moves no money: the ledger, the wallets and the accounts stay as they were, whatever
    fails.  No output is listed twice, however often it is reported, and where the call succeeds the address belongs
    to a wallet and the deposit is listed, or is in the ledger already. *)
Theorem pending_deposit_listed h v a address w (Hv : num_eqb v v = true) :
  wp (addPendingTransaction precision hedge getUuidByString dust fees h v a address) (fun r w' =>
    same_data w w' ∧ (unique_outputs w -> unique_outputs w') ∧
    (r = Ok tt -> ∃ wl : Wallet, address_of address w wl ∧
       (recorded wl.(w_id) h v w ∨ ∃ p, p ∈ w'.(pendingReceives) ∧ same_output h v p = true))) w.
Proof using.
  unfold addPendingTransaction. destruct (num_gtb_bigint dust (amount a)); [done|].
  apply wp_bind_or, wp_findByAddress; [done|]. intros wl x1 Hwl.
  apply wp_bind_or, wp_findAccountById; [done|]. intros acc x2 _. cbn zeta.
  apply wp_bind, wp_redlock; [intros; by apply wp_ret|]. intros x3. eapply wp_mono; [by apply wp_pending_steps|].
  intros r w' (S & Hu & Hr) x4. split; [|intros e]; apply wp_ret; (split_and!; [exact S|exact Hu|]); [|done].
  intros E. exists wl. split; [done|]. by apply Hr.
Qed.

End Credit.

Module DepositExamples.
Import BookExamples.

#[local] Existing Instance ReceiveExamples.free_locks.
#[local] Existing Instance ReceiveExamples.fixed_prices.
#[local] Existing Instance ReceiveExamples.two_digits.

(** A service that has the address of no request and gives new ones, a limiter with points left. *)
#[local] Instance new_addresses : BriaClient nat := {
  newAddress _ n := (Ok ("new-" ++ pretty n)%string, S n);
  getAddress _ n := (Ok None, n); getPayout _ n := (Ok None, n);
  getWalletBalanceSummary _ n := (Ok (Number 0), n);
  submitPayout _ n := (Err (mkGrpcError None ""), n); estimatePayoutFee _ n := (Ok (Number 0), n);
}.
#[local] Instance points_left : RateLimiterRedis nat := {
  limiter_consume _ _ _ n := (Ok tt, n); limiter_delete _ _ _ n := (Ok tt, n); limiter_reward _ _ _ n := (Ok tt, n);
}.
#[local] Instance counted_ids : RandomUUID nat := fun n => (("id-" ++ pretty n)%string, S n).

Definition limits : RateLimitOptions := mkRateLimitOptions 10 3600 60.
Definition bria : BriaConfig := mkBriaConfig "hot" (fun _ => "queue") "cold" "rebalance".
Definition fees : DepositFeesConfig := mkDepositFees (BtcPaymentAmount 3000) (BtcPaymentAmount 1000000) 30.

Definition bobs : World nat :=
  with_wallets ReceiveExamples.asked
    [mkWalletRecord LedgerExamples.bob ["bob-address"]; mkWalletRecord {| w_id := "bob-usd"; w_currency := Usd; w_accountId := "b" |} []].

Abbreviation settle := (addSettledTransaction (M := L0) (X := nat) (Number 1000000) true ReceiveExamples.cfg bria limits
  (Number 5000) fees "tx" (Number 1) (BtcPaymentAmount 10000) "bob-address").
Abbreviation list_deposit := (addPendingTransaction (X := nat) (Number 1000000) true (fun s => s)
  (Number 5000) fees "tx" (Number 1) (BtcPaymentAmount 10000) "bob-address").

Lemma bobs_depositable : depositable "bank" "dealer-btc" "dealer-usd" "funder" bobs.
Proof.
  split; [by repeat split|]. intros wl. cbn [bobs wallets with_wallets]. rewrite !elem_of_cons, elem_of_nil.
  intros [->|[->|[]]]; [apply LedgerExamples.user_bob|]. unfold user_wallet. cbn. set_solver.
Qed.

Lemma fees_sound : sound_fees fees.
Proof. by repeat split. Qed.

(** Bob is credited with the 10000 satoshis less the fee of 3000, and gets a new address. *)
Lemma deposit_credited_witness :
  (settle bobs).1 = Ok tt ∧ recorded "bob" "tx" (Number 1) (settle bobs).2 ∧
  ∃ D, moved D bobs (settle bobs).2 ∧ D "Liabilities:bob" Btc = -7000 ∧ D onChainLedgerAccountId Btc = 10000.
Proof.
  assert (E : (settle bobs).1 = Ok tt) by (vm_compute; reflexivity).
  assert (Eb : book_account_net "Liabilities:bob" Btc (settle bobs).2.(ledger) = -7000) by (vm_compute; reflexivity).
  assert (El : book_account_net onChainLedgerAccountId Btc (settle bobs).2.(ledger) = 10000) by (vm_compute; reflexivity).
  destruct (wp_run _ _ _ _ (deposit_credited (M := L0) (Number 1000000) true ReceiveExamples.cfg bria limits (Number 5000)
    fees "bank" "dealer-btc" "dealer-usd" "funder" "tx" (Number 1) (BtcPaymentAmount 10000) "bob-address" bobs
    bobs_depositable fees_sound (ReceiveExamples.prices_fair (BtcPaymentAmount 10000) eq_refl ltac:(cbn; lia)) eq_refl
    ltac:(cbn; lia) ltac:(vm_compute; reflexivity)) E) as [[_ []]|(wl & [rest Hwl] & _ & (_ & D & Hm & HD) & Hr)]; [done|].
  assert (Ewl : wl = mkWalletRecord LedgerExamples.bob ["bob-address"]) by (vm_compute in Hwl; by injection Hwl).
  subst wl. destruct (Hr eq_refl) as [Hrec _]. split; [exact E|]. split; [exact Hrec|]. exists D. split; [exact Hm|].
  destruct Hm as (_ & _ & Ha). pose proof (eq_trans (eq_sym Eb) (Ha "Liabilities:bob" Btc)) as Hd.
  pose proof (eq_trans (eq_sym El) (Ha onChainLedgerAccountId Btc)) as Hd'.
  change (book_account_net _ _ (ledger bobs)) with 0 in Hd, Hd'. split; [lia|]. lia.
Defined.

(** Reported again, with another amount, it is not credited again. *)
Lemma deposit_redelivered_witness :
  let w := (settle bobs).2 in
  (addSettledTransaction (M := L0) (X := nat) (Number 1000000) true ReceiveExamples.cfg bria limits
     (Number 5000) fees "tx" (Number 1) (BtcPaymentAmount 20000) "bob-address" w).2.(ledger) = w.(ledger).
Proof.
  cbn zeta. apply (deposit_redelivered (M := L0) (Number 1000000) true ReceiveExamples.cfg bria limits (Number 5000) fees
    "tx" (Number 1) (BtcPaymentAmount 20000) "bob-address" (settle bobs).2 (mkWalletRecord LedgerExamples.bob ["bob-address"; "new-2"])).
  - eexists. vm_compute. reflexivity.
  - apply Exists_exists, (bool_decide_unpack _). vm_compute. exact I.
Defined.

Lemma pending_deposit_listed_witness :
  (list_deposit bobs).1 = Ok tt ∧ same_data bobs (list_deposit bobs).2 ∧
  length (list_deposit (list_deposit bobs).2).2.(pendingReceives) = 1%nat.
Proof.
  split; [vm_compute; reflexivity|]. split; [|vm_compute; reflexivity].
  apply (pending_deposit_listed (Number 1000000) true (fun s => s) (Number 5000) fees "tx" (Number 1)
    (BtcPaymentAmount 10000) "bob-address" bobs). vm_compute. reflexivity.
Defined.

End DepositExamples.
