(* ===== verification/EventStream.v ===== *)
(** * A stream that reconnects

    Models [utils/grpc-stream-client]: the series of delays ([backoff.ts]) and the stream over a gRPC call that
    connects again, after a delay, when the call ends ([stream.ts]); [stream-builder.ts] only collects the
    arguments of its constructor.  What gRPC calls is an input: an event of the call, or the timer.  The delays are whole
    milliseconds, far below what a float holds exactly, so they are integers here. *)

From S2P Require Import Prelude JsNumber.

(** ** Delays *)

Record FibonacciBackoff := mkBackoff {
  initial : Z;
  fibMaxIndex : Z;
  index : Z;
  current : Z;
  previous : Z;
}.

Definition new_FibonacciBackoff (initial fibMaxIndex : Z) : FibonacciBackoff := mkBackoff initial fibMaxIndex 0 initial 0.

Definition backoff_next (b : FibonacciBackoff) : Z * FibonacciBackoff :=
  let b' := if b.(index) <? b.(fibMaxIndex)
            then mkBackoff b.(initial) b.(fibMaxIndex) (b.(index) + 1) (b.(previous) + b.(current)) b.(current)
            else b in
  (b'.(current), b').

Definition backoff_reset (b : FibonacciBackoff) : FibonacciBackoff :=
  mkBackoff b.(initial) b.(fibMaxIndex) 0 b.(initial) 0.

(** ** Listeners *)

Inductive StreamEvents := EvMetadata | EvData | EvError | EvEnd | EvRetry.

(** A listener is known by its identity, an object of options too. *)
Inductive ListenerOptions := OptionsBool (b : bool) | OptionsObject (ref : nat) (once : bool).

Record EventListener := mkListener {
  listener : nat;
  listener_options : option ListenerOptions;
}.

#[export] Instance ListenerOptions_eq_dec : EqDecision ListenerOptions.
Proof. solve_decision. Defined.
#[export] Instance EventListener_eq_dec : EqDecision EventListener.
Proof. solve_decision. Defined.

Definition addEventListener (l : nat) (options : option ListenerOptions) (ls : list EventListener) : list EventListener :=
  ls ++ [mkListener l options].

Definition removeEventListener (l : nat) (options : option ListenerOptions) (ls : list EventListener) : list EventListener :=
  filter (fun e => e.(listener) ≠ l ∧ (e.(listener_options) = None ∨ e.(listener_options) ≠ options)) ls.

Definition once (e : EventListener) : bool :=
  match e.(listener_options) with Some (OptionsObject _ once) => once | _ => false end.

(** The listeners that are called, in order, and those that are left. *)
Definition dispatchEvent (ls : list EventListener) : list nat * list EventListener :=
  (map listener ls,
   foldl (fun ls e => removeEventListener e.(listener) e.(listener_options) ls) ls (filter (fun e => once e = true) ls)).

(** ** The stream *)

Record StreamOptions := mkStreamOptions {
  opt_retry : bool;
  opt_acceptDataOnReconnect : bool;
}.

(** A call of the method: the request it was made with, and whether it is listened to: its data, and its other events. *)
Record Call (R : Type) := mkCall {
  call_request : R;
  call_data : bool;
  call_events : bool;
}.
Arguments mkCall {R}.
Arguments call_request {R}.
Arguments call_data {R}.
Arguments call_events {R}.

(** [reconnectId] is the delay of the timer that is set. *)
Record Stream (R : Type) := mkStream {
  stream_call : option (Call R);
  request : R;
  options : option StreamOptions;
  backoff : option FibonacciBackoff;
  retries : Z;
  reconnectId : option Z;
}.
Arguments mkStream {R}.
Arguments stream_call {R}.
Arguments request {R}.
Arguments options {R}.
Arguments backoff {R}.
Arguments retries {R}.
Arguments reconnectId {R}.

Section Streams.
Context {R : Type}.
Implicit Types (s : Stream R).

Definition with_request s (r : R) : Stream R :=
  mkStream s.(stream_call) r s.(options) s.(backoff) s.(retries) s.(reconnectId).

Definition cancel s : Stream R :=
  mkStream ((fun c => mkCall c.(call_request) false false) <$> s.(stream_call)) s.(request) s.(options) s.(backoff)
    s.(retries) None.

(** The call reads the request when it is made. *)
Definition connect s : Stream R :=
  let s := cancel s in
  mkStream (Some (mkCall s.(request) true true)) s.(request) s.(options) s.(backoff) s.(retries) s.(reconnectId).

Definition new_Stream (r : R) (b : option FibonacciBackoff) (o : option StreamOptions) : Stream R :=
  connect (mkStream None r o b 0 None).

Definition option_retry s : bool := match s.(options) with Some o => o.(opt_retry) | None => false end.
Definition option_acceptData s : bool := match s.(options) with Some o => o.(opt_acceptDataOnReconnect) | None => false end.

Definition reconnect s : Stream R :=
  match s.(backoff), s.(reconnectId) with
  | None, _ | _, Some _ => s
  | Some b, None =>
      let call := if option_acceptData s then s.(stream_call)
                  else (fun c => mkCall c.(call_request) false c.(call_events)) <$> s.(stream_call) in
      let '(delay, b') := backoff_next b in
      mkStream call s.(request) s.(options) (Some b') s.(retries) (Some delay)
  end.

(** The body of the timer, which dispatches [retry] with the count and connects. *)
Definition timer_fires s : Stream R :=
  connect (mkStream s.(stream_call) s.(request) s.(options) s.(backoff) (s.(retries) + 1) s.(reconnectId)).

(** What is done before the event is dispatched. *)
Definition handleEvent s (type : StreamEvents) : Stream R :=
  match type with
  | EvEnd | EvError => if option_retry s then reconnect s else s
  | EvData => mkStream s.(stream_call) s.(request) s.(options) (backoff_reset <$> s.(backoff)) 0 None
  | EvMetadata | EvRetry => s
  end.

(** Whether an event of the call is heard. *)
Definition heard s (type : StreamEvents) : bool :=
  match s.(stream_call) with
  | Some c => match type with EvData => c.(call_data) | EvMetadata | EvError | EvEnd => c.(call_events) | EvRetry => false end
  | None => false
  end.

End Streams.

(** ** The series of delays *)

(** The Fibonacci numbers, from 1 and 1, with the one before. *)
Fixpoint fib (n : nat) : Z * Z :=
  match n with O => (1, 0) | S n => let '(a, b) := fib n in (a + b, a) end.

Fixpoint delays (n : nat) (b : FibonacciBackoff) : list Z :=
  match n with O => [] | S n => let '(d, b') := backoff_next b in d :: delays n b' end.

(** After [n] delays the state is at the Fibonacci number of [n], or of the limit. *)
Lemma backoff_state i m n : 0 <= m -> let k := Nat.min n (Z.to_nat m) in
  Nat.iter n (fun b => (backoff_next b).2) (new_FibonacciBackoff i m)
    = mkBackoff i m (Z.of_nat k) (i * (fib k).1) (i * (fib k).2).
Proof.
  intros Hm. cbn zeta. induction n as [|n IH].
  { unfold new_FibonacciBackoff. cbn [Nat.min Nat.iter nat_rect fib fst snd]. f_equal; lia. }
  cbn [Nat.iter nat_rect]. change (nat_rect _ _ _ n) with (Nat.iter n (fun b => (backoff_next b).2) (new_FibonacciBackoff i m)).
  rewrite IH. unfold backoff_next. cbn [index fibMaxIndex]. destruct (Z.ltb_spec (Z.of_nat (Nat.min n (Z.to_nat m))) m); cbn [snd].
  - replace (Nat.min (S n) (Z.to_nat m)) with (S (Nat.min n (Z.to_nat m))) by lia. cbn [fib initial previous current].
    destruct (fib (Nat.min n (Z.to_nat m))) as [a b]. cbn [fst snd]. f_equal; lia.
  - by replace (Nat.min (S n) (Z.to_nat m)) with (Nat.min n (Z.to_nat m)) by lia.
Qed.

(** C28. The delays between attempts are the Fibonacci numbers times the first delay, up to the limit, and stay there;
    a reset starts the series again. *)
Theorem backoff_fibonacci i m n (Hm : 0 <= m) :
  let b := Nat.iter n (fun b => (backoff_next b).2) (new_FibonacciBackoff i m) in
  (backoff_next b).1 = i * (fib (Nat.min (S n) (Z.to_nat m))).1 ∧ backoff_reset b = new_FibonacciBackoff i m.
Proof.
  cbn zeta. split.
  - pose proof (backoff_state i m (S n) Hm) as E. cbn zeta in E. cbn [Nat.iter nat_rect] in E.
    change (nat_rect _ _ _ n) with (Nat.iter n (fun b => (backoff_next b).2) (new_FibonacciBackoff i m)) in E.
    unfold backoff_next in *. cbn [fst snd] in *. rewrite E. done.
  - by rewrite backoff_state.
Qed.

Module StreamExamples.

(** The series of the comment. *)
Example documented_delays : delays 9 (new_FibonacciBackoff 100 7) = [100; 200; 300; 500; 800; 1300; 2100; 2100; 2100].
Proof. reflexivity. Qed.

Lemma backoff_fibonacci_witness :
  (backoff_next (Nat.iter 6 (fun b => (backoff_next b).2) (new_FibonacciBackoff 100 7))).1 = 2100.
Proof. exact (proj1 (backoff_fibonacci 100 7 6 ltac:(lia))). Defined.

(** Removing a listener removes another one that was added with the same options, too. *)
Example removes_another_listener :
  removeEventListener 1 (Some (OptionsBool true))
    (addEventListener 2 (Some (OptionsBool true)) (addEventListener 1 (Some (OptionsBool true)) [])) = [].
Proof. reflexivity. Qed.

End StreamExamples.
