(* ===== verification/BriaEvents.v ===== *)
(** * The events of Bria

    Models how the events of the on-chain service are handled: [services/bria/event-handler.ts] (the translation of an
    event, and the listener of the stream), [services/bria/event-repository.ts], [BriaSubscriber] of
    [services/bria/index.ts], the handlers of [servers/event-handlers/bria.ts], and what they call:
    [app/wallets/settle-payout-txn.ts], [app/wallets/register-broadcasted-payout-txn.ts],
    [app/on-chain/record-hot-to-cold-transfer.ts] with [addColdStorageTxReceive] and its converse of
    [services/ledger/admin.ts]; and the rest of [app/on-chain].  Handling an event keeps the books balanced; one handler
    at a time, no event is passed over whose listener did not throw, but two handlers that fail together can pass one over.  Span attributes and
    logs are left out. *)

From Corelib Require Import SpecFloat.
From Stdlib Require Import Ascii Sorted.
From S2P Require Import Prelude JsNumber Shared Prices Fees Lightning PaymentFlow LedgerEntry TxMetadata.
From S2P Require Import LedgerTx TxHistory Limits Invoices OnChainTx World LedgerBook LedgerService Services.
From S2P Require Import Repositories WalletInvoices Money Accounts SendIntraledger ReceiveLightning OnChainService.
From S2P Require Import OnChainReceive EventStream.

(** ** Events *)

(** [PayoutMetadata], the JavaScript of the metadata of a payout: [galoy?.rebalanceToColdWallet?] *)
Record PayoutMetadata := mkPayoutMetadata { pm_galoy : option (option bool) }.

Record AddressAugmentation := mkAddressInfo {
  ai_address : OnChainAddress;
  ai_externalId : string;
}.

Record PayoutAugmentation := mkPayoutInfo {
  pi_id : string;
  pi_externalId : string;
  pi_metadata : option PayoutMetadata;
}.

(** [BriaEventAugmentation], where the info of a payout replaces that of an address *)
Inductive BriaEventAugmentation :=
| AddressInfo (info : AddressAugmentation)
| PayoutInfo (info : PayoutAugmentation).

(** What the setters of the payload of an utxo and of a payout were given. *)
Record RawUtxo := mkRawUtxo {
  ru_txId : string;
  ru_vout : number;
  ru_satoshis : number;
  ru_blockHeight : number;
}.

Record RawPayout := mkRawPayout {
  rp_id : string;
  rp_satoshis : number;
  rp_proportionalFeeSats : number;
  rp_txId : string;
  rp_vout : number;
  rp_onchainAddress : OnChainAddress;
}.

(** [PayloadCase] with its payload, which [getX] gives. *)
Inductive RawPayload :=
| PAYLOAD_NOT_SET
| UTXO_DETECTED (payload : option RawUtxo)
| UTXO_DROPPED (payload : option RawUtxo)
| UTXO_SETTLED (payload : option RawUtxo)
| PAYOUT_SUBMITTED (payload : option RawPayout)
| PAYOUT_COMMITTED (payload : option RawPayout)
| PAYOUT_BROADCAST (payload : option RawPayout)
| PAYOUT_SETTLED (payload : option RawPayout)
| PAYOUT_CANCELLED (payload : option RawPayout).

Record RawAugmentation := mkRawAugmentation {
  ra_addressInfo : option AddressAugmentation;
  ra_payoutInfo : option PayoutAugmentation;
}.

Record RawBriaEvent := mkRawEvent {
  re_sequence : Z;
  re_augmentation : option RawAugmentation;
  re_payload : RawPayload;
}.

Record Utxo := mkUtxo {
  u_txId : string;
  u_vout : number;
  u_address : OnChainAddress;
  u_satoshis : Amount;
}.

Record Payout := mkPayout {
  p_id : string;
  p_satoshis : Amount;
}.

(** [PayoutBroadcast] and [PayoutSettled] *)
Record SentPayout := mkSentPayout {
  sent_payout :> Payout;
  p_proportionalFee : Amount;
  p_txId : string;
  p_vout : number;
  p_address : OnChainAddress;
}.

Inductive BriaPayload :=
| UtxoDetected (u : Utxo)
| UtxoDropped (u : Utxo)
| UtxoSettled (u : Utxo) (blockNumber : number)
| PayoutSubmitted (p : Payout)
| PayoutCommitted (p : Payout)
| PayoutBroadcast (p : SentPayout)
| PayoutSettled (p : SentPayout)
| PayoutCancelled (p : Payout) (address : OnChainAddress).

Record BriaEvent := mkEvent {
  ev_payload : BriaPayload;
  ev_augmentation : BriaEventAugmentation;
  ev_sequence : Z;
}.

(** [BigInt(x)], which throws on a number that is not an integer *)
Definition toSatoshis (x : number) : Result Amount :=
  match BigInt x with Some z => Ok (BtcPaymentAmount z) | None => Err (JsThrow "RangeError") end.

Definition found {A} (payload : option A) (missing : ApplicationError) : Result A :=
  match payload with Some p => Ok p | None => Err missing end.

Definition translate_augmentation (raw : option RawAugmentation) : Result BriaEventAugmentation :=
  match raw with
  | None => Err EventAugmentationMissingError
  | Some raw =>
      match raw.(ra_payoutInfo), raw.(ra_addressInfo) with
      | Some info, _ => Ok (PayoutInfo info)
      | None, Some info => Ok (AddressInfo info)
      | None, None => Err EventAugmentationMissingError
      end
  end.

Definition translate_utxo (augmentation : BriaEventAugmentation) (payload : option RawUtxo) (missing : ApplicationError)
    : Result (Utxo * RawUtxo) :=
  match augmentation with
  | PayoutInfo _ => Err ExpectedAddressInfoMissingInEventError
  | AddressInfo info =>
      rawPayload ← found payload missing;
      satoshis ← toSatoshis rawPayload.(ru_satoshis);
      Ok (mkUtxo rawPayload.(ru_txId) rawPayload.(ru_vout) info.(ai_address) satoshis, rawPayload)
  end.

Definition translate_payout (rawPayload : RawPayout) : Result Payout :=
  satoshis ← toSatoshis rawPayload.(rp_satoshis);
  Ok (mkPayout rawPayload.(rp_id) satoshis).

Definition translate_sent (rawPayload : RawPayout) : Result SentPayout :=
  proportionalFee ← paymentAmountFromNumber rawPayload.(rp_proportionalFeeSats) Btc;
  payout ← translate_payout rawPayload;
  Ok (mkSentPayout payout proportionalFee rawPayload.(rp_txId) rawPayload.(rp_vout) rawPayload.(rp_onchainAddress)).

Definition translate_payload (augmentation : BriaEventAugmentation) (raw : RawPayload) : Result BriaPayload :=
  match raw with
  | PAYLOAD_NOT_SET => Err NoPayloadFoundError
  | UTXO_DETECTED payload =>
      '(u, _) ← translate_utxo augmentation payload ExpectedUtxoDetectedPayloadNotFoundError; Ok (UtxoDetected u)
  | UTXO_DROPPED payload =>
      '(u, _) ← translate_utxo augmentation payload ExpectedUtxoDroppedPayloadNotFoundError; Ok (UtxoDropped u)
  | UTXO_SETTLED payload =>
      '(u, raw) ← translate_utxo augmentation payload ExpectedUtxoSettledPayloadNotFoundError;
      Ok (UtxoSettled u raw.(ru_blockHeight))
  | PAYOUT_SUBMITTED payload =>
      raw ← found payload ExpectedPayoutSubmittedPayloadNotFoundError; p ← translate_payout raw; Ok (PayoutSubmitted p)
  | PAYOUT_COMMITTED payload =>
      raw ← found payload ExpectedPayoutCommittedPayloadNotFoundError; p ← translate_payout raw; Ok (PayoutCommitted p)
  | PAYOUT_BROADCAST payload =>
      raw ← found payload ExpectedPayoutBroadcastPayloadNotFoundError; p ← translate_sent raw; Ok (PayoutBroadcast p)
  | PAYOUT_SETTLED payload =>
      raw ← found payload ExpectedPayoutSettledPayloadNotFoundError; p ← translate_sent raw; Ok (PayoutSettled p)
  | PAYOUT_CANCELLED payload =>
      raw ← found payload ExpectedPayoutCancelledPayloadNotFoundError; p ← translate_payout raw;
      Ok (PayoutCancelled p raw.(rp_onchainAddress))
  end.

Definition translate (rawEvent : RawBriaEvent) : Result BriaEvent :=
  augmentation ← translate_augmentation rawEvent.(re_augmentation);
  payload ← translate_payload augmentation rawEvent.(re_payload);
  Ok (mkEvent payload augmentation rawEvent.(re_sequence)).

(** ** Stored events *)

Section EventRepo.
Context {X : Type} `{Database X}.

(** [BriaEventRepo().persistEvent], of which only the sequence is ever read *)
Definition persistEvent (event : BriaEvent) : IO X (Result unit) :=
  catch_as RepositoryError (db (modify (fun w => with_briaSequences w (w.(briaSequences) ++ [event.(ev_sequence)])))).

Definition latest (l : list Z) : Z := match l with [] => 0 | n :: l => foldr Z.max n l end.

Definition getLatestSequence : IO X (Result Z) :=
  catch_as RepositoryError (db (gets (fun w => latest w.(briaSequences)))).

End EventRepo.

(** ** Cold storage *)

(** The digits of a decimal, with the number of those after the point. *)
Fixpoint decimal_value (acc : Z) (point : option nat) (s : string) : option (Z * nat) :=
  match s with
  | EmptyString => Some (acc, default O point)
  | String c s' =>
      if bool_decide (c = "."%char) then
        match point with None => decimal_value acc (Some O) s' | Some _ => None end
      else d ← digit_value c; decimal_value (10 * acc + d) (S <$> point) s'
  end.

(** [Number(s)], where [s] is a decimal as [displayInMajor] is; a quotient of integers that floats hold is rounded once. *)
Definition Number_of_decimal (s : string) : number :=
  let '(neg, s) := match s with String "-"%char s' => (true, s') | _ => (false, s) end in
  match decimal_value 0 None s with
  | None => S754_nan
  | Some (m, k) =>
      let v := num_div (Number m) (Number (10 ^ Z.of_nat k)) in
      if neg then num_neg v else v
  end.

(** [AddColdStorageReceiveLedgerMetadata] and [AddColdStorageSendLedgerMetadata] *)
Definition cold_storage_metadata (type : LedgerTransactionType) (txHash : string) (payeeAddress : OnChainAddress) (fee : number)
    (amountDisplayCurrency feeDisplayCurrency : DisplayAmount) : TxMetadata :=
  obj [type_field type; ("pending", MBool false); ("hash", MString txHash); ("payee_addresses", MStrings [payeeAddress]);
       ("fee", MNumber fee); ("feeUsd", MNumber (Number_of_decimal feeDisplayCurrency.(displayInMajor)));
       ("usd", MNumber (Number_of_decimal amountDisplayCurrency.(displayInMajor))); ("currency", MString (currency_code Btc))].

Section ColdStorage.
Context {M X : Type} `{MediciEntry M} `{!MediciBook M X} `{Database X} `{Resolvers X} `{PriceServices X} `{Intl}.
Context (RATIO_PRECISION : number).

Definition isToHotWalletTxRecorded (txHash : string) : IO X (Result bool) :=
  result ←? catch_as UnknownLedgerError (db (gets (fun w => length (filter (fun d : Doc =>
    d.(raw_type) = ToHotWallet ∧ d.(raw_hash) = Some txHash) w.(ledger)))));
  mret (Ok (0 <? result)%nat).

(** The entry: what leaves the first account is the amount and the fee, the bank pays the fee. *)
Definition cold_storage_entry (from to : LedgerAccountId) (bankOwnerWalletId : WalletId) (description : string) (sats fee : number)
    (metadata : TxMetadata) : M :=
  debit to sats metadata
    (debit (toLiabilitiesWalletId bankOwnerWalletId) fee metadata
       (credit from (num_add sats fee) metadata (MainBook_entry (X := X) description))).

(** [entry.commit()], without metadata of its transactions *)
Definition commit_entry (entry : WalletId -> M) : IO X (Result LedgerJournal) :=
  bankOwnerWalletId ←? catch_as UnknownLedgerError getBankOwnerWalletId;
  savedEntry ←? catch_as UnknownLedgerError (entry_commit (entry bankOwnerWalletId));
  mret (Ok (translateToLedgerJournal savedEntry)).

Definition addColdStorageTxReceive (txHash : string) (payeeAddress : OnChainAddress) (description : string) (sats fee : number)
    (feeDisplayCurrency amountDisplayCurrency : DisplayAmount) : IO X (Result LedgerJournal) :=
  commit_entry (fun bankOwnerWalletId =>
    cold_storage_entry lndLedgerAccountId coldStorageAccountId bankOwnerWalletId description sats fee
      (cold_storage_metadata ToColdStorage txHash payeeAddress fee amountDisplayCurrency feeDisplayCurrency)).

Definition addColdStorageTxSend (txHash : string) (payeeAddress : OnChainAddress) (description : string) (sats fee : number)
    (amountDisplayCurrency feeDisplayCurrency : DisplayAmount) : IO X (Result LedgerJournal) :=
  commit_entry (fun bankOwnerWalletId =>
    cold_storage_entry coldStorageAccountId lndLedgerAccountId bankOwnerWalletId description sats fee
      (cold_storage_metadata ToHotWallet txHash payeeAddress fee amountDisplayCurrency feeDisplayCurrency)).

Definition recordHotToColdTransfer (satoshis : Amount) (txId : string) (proportionalFee : Amount) (address : OnChainAddress)
    : IO X (Result unit) :=
  let description := ("deposit of " ++ pretty satoshis.(amount) ++ " sats to the cold storage wallet")%string in
  displayPriceRatio ←? getCurrentPriceAsDisplayPriceRatio RATIO_PRECISION UsdDisplayCurrency;
  let amountDisplayCurrency := DisplayPriceRatio.convertFromWallet displayPriceRatio satoshis in
  let feeDisplayCurrency := DisplayPriceRatio.convertFromWallet displayPriceRatio proportionalFee in
  _ ←? addColdStorageTxReceive txId address description (toSats satoshis.(amount)) (toSats proportionalFee.(amount))
         feeDisplayCurrency amountDisplayCurrency;
  mret (Ok tt).

End ColdStorage.

(** ** Payouts *)

Section Payouts.
Context {M X : Type} `{MediciEntry M} `{!MediciBook M X} `{Database X} `{Resolvers X} `{Intl}.
Context (memoSharingConfig : MemoSharingConfig).

Definition registerBroadcastedPayout (payoutId : string) (proportionalFee : Amount) (txId : string) (vout : number)
    : IO X (Result unit) :=
  estimatedProtocolFee ←? setOnChainTxIdByPayoutId payoutId txId vout;
  if estimatedProtocolFee.(amount) =? proportionalFee.(amount) then mret (Ok tt) else
  isRecorded ←? isOnChainFeeReconciliationRecorded payoutId;
  if (isRecorded : bool) then mret (Ok tt) else
  _ ←? recordReceiveOnChainFeeReconciliation (M := M) estimatedProtocolFee proportionalFee
         (OnChainFeeReconciliationLedgerMetadata payoutId txId true);
  mret (Ok tt).

Definition defined {A} (o : option A) : Result A :=
  match o with Some a => Ok a | None => Err InvalidLedgerTransactionStateError end.

(** "Send notification to end user" *)
Definition notify_payout (ledgerTxn : LedgerTransaction) : IO X (Result unit) :=
  walletId ←! defined ledgerTxn.(lt_walletId);
  wallet ←? findWalletById walletId;
  account ←? findAccountById wallet.(w_accountId);
  user ←? findUserById account.(acc_kratosUserId);
  amountForPaymentAmount ←! defined (if decide (wallet.(w_currency) = Btc) then ledgerTxn.(lt_satsAmount)
                                     else ledgerTxn.(lt_centsAmount));
  _ ←! paymentAmountFromNumber amountForPaymentAmount wallet.(w_currency);
  displayCurrency ←! defined ledgerTxn.(lt_displayCurrency);
  _ ←! displayAmountFromNumber (js_or ledgerTxn.(lt_displayAmount) (Number 0)) displayCurrency;
  _ ←! defined ledgerTxn.(lt_txHash);
  walletTransaction ←? getWalletTransactionByJournalId (M := M) memoSharingConfig wallet.(w_id) ledgerTxn.(lt_journalId);
  _ ← sendTransaction (deposit_recipient wallet user account) walletTransaction;
  mret (Ok tt).

Definition settlePayout (payoutId : string) : IO X (Result unit) :=
  ledgerTxn ←? settlePendingOnChainPayment payoutId;
  match ledgerTxn with
  | None => mret (Ok tt)
  | Some ledgerTxn => notify_payout ledgerTxn
  end.

End Payouts.

(** ** The handlers *)

Section Handlers.
Context {M X : Type} `{MediciEntry M} `{!MediciBook M X} `{Database X} `{Resolvers X} `{Redlock X} `{PriceServices X}.
Context `{BriaClient X} `{RateLimiterRedis X} `{RandomUUID X} `{Intl}.
Context (RATIO_PRECISION : number) (usdHedgeEnabled : bool) (memoSharingConfig : MemoSharingConfig).
Context (briaConfig : BriaConfig) (addressLimits : RateLimitOptions) (getUuidByString : string -> string).
Context (dustThreshold : number) (feesConfig : DepositFeesConfig).

(** The errors of a deposit that is not for us or too small: the event is done. *)
Definition ignored_deposit (e : ApplicationError) : bool :=
  match e with
  | AmountLessThanFeeError _ | LessThanDustThresholdError _ | CouldNotFindWalletFromOnChainAddressError => true
  | _ => false
  end.

Definition ignoring {A} (ignored : ApplicationError -> bool) (m : IO X (Result A)) : IO X (Result unit) :=
  res ← m;
  mret (match res with Ok _ => Ok tt | Err e => if ignored e then Ok tt else Err e end).

Definition utxoDetectedEventHandler (event : Utxo) : IO X (Result unit) :=
  ignoring ignored_deposit
    (addPendingTransaction RATIO_PRECISION usdHedgeEnabled getUuidByString dustThreshold feesConfig
       event.(u_txId) event.(u_vout) event.(u_satoshis) event.(u_address)).

Definition utxoDroppedEventHandler (event : Utxo) : IO X (Result unit) :=
  ignoring (fun e => match e with CouldNotFindWalletFromOnChainAddressError => true | _ => false end)
    (removePendingTransaction event.(u_txId) event.(u_vout) event.(u_address)).

Definition utxoSettledEventHandler (event : Utxo) : IO X (Result unit) :=
  ignoring ignored_deposit
    (addSettledTransaction (M := M) RATIO_PRECISION usdHedgeEnabled memoSharingConfig briaConfig addressLimits dustThreshold
       feesConfig event.(u_txId) event.(u_vout) event.(u_satoshis) event.(u_address)).

Definition no_transaction (e : ApplicationError) : bool :=
  match e with NoTransactionToUpdateError _ => true | _ => false end.

Definition payoutSubmittedEventHandler (event : Payout) (payoutInfo : PayoutAugmentation) : IO X (Result unit) :=
  ignoring no_transaction (setOnChainTxPayoutId (M := M) payoutInfo.(pi_externalId) event.(p_id)).

Definition payoutCancelledEventHandler (event : Payout) (payoutInfo : PayoutAugmentation) : IO X (Result unit) :=
  ignoring no_transaction (recordOnChainSendRevert (M := M) payoutInfo.(pi_externalId) event.(p_id)).

(** [payoutInfo.metadata?.galoy?.rebalanceToColdWallet] *)
Definition is_rebalance (payoutInfo : PayoutAugmentation) : bool :=
  match payoutInfo.(pi_metadata) with
  | Some m => match m.(pm_galoy) with Some (Some true) => true | _ => false end
  | None => false
  end.

Definition payoutBroadcastEventHandler (event : SentPayout) (payoutInfo : PayoutAugmentation) : IO X (Result unit) :=
  if is_rebalance payoutInfo
  then recordHotToColdTransfer (M := M) RATIO_PRECISION event.(p_satoshis) event.(p_txId) event.(p_proportionalFee) event.(p_address)
  else ignoring no_transaction
         (registerBroadcastedPayout (M := M) event.(p_id) event.(p_proportionalFee) event.(p_txId) event.(p_vout)).

Definition payoutSettledEventHandler (event : SentPayout) : IO X (Result unit) :=
  ignoring (fun e => match e with NoTransactionToSettleError => true | _ => false end)
    (settlePayout (M := M) memoSharingConfig event.(p_id)).

Definition with_payoutInfo (event : BriaEvent) (k : PayoutAugmentation -> IO X (Result unit)) : IO X (Result unit) :=
  match event.(ev_augmentation) with
  | PayoutInfo payoutInfo => k payoutInfo
  | AddressInfo _ => mret (Err EventAugmentationMissingError)
  end.

Definition briaEventHandler (event : BriaEvent) : IO X (Result unit) :=
  match event.(ev_payload) with
  | UtxoDetected u => utxoDetectedEventHandler u
  | UtxoDropped u => utxoDroppedEventHandler u
  | UtxoSettled u _ => utxoSettledEventHandler u
  | PayoutSubmitted p => with_payoutInfo event (payoutSubmittedEventHandler p)
  | PayoutCommitted _ => mret (Ok tt)
  | PayoutCancelled p _ => with_payoutInfo event (payoutCancelledEventHandler p)
  | PayoutBroadcast p => with_payoutInfo event (payoutBroadcastEventHandler p)
  | PayoutSettled p => payoutSettledEventHandler p
  end.

(** ** The listener *)

(** What the listener does to the stream: nothing, a new call after a sequence, or an exception. *)
Inductive StreamAction :=
| Continue
| ReconnectAfter (sequence : Z)
| Threw (error : ApplicationError).

Definition eventDataHandler (data : RawBriaEvent) : IO X StreamAction :=
  match translate data with
  | Err error => mret (Threw error)
  | Ok event =>
      result ← briaEventHandler event;
      match result with
      | Err (JsThrow msg) => mret (Threw (JsThrow msg))
      | Err _ => mret (ReconnectAfter (event.(ev_sequence) - 1))
      | Ok _ =>
          persisted ← persistEvent event;
          mret (match persisted with
                | Err _ => ReconnectAfter (event.(ev_sequence) - 1)
                | Ok _ => Continue
                end)
      end
  end.

End Handlers.

(** ** The rest of [app/on-chain] *)

(** [Lightning.getTotalBalance()] of [app/lightning/get-balances.ts], which asks the nodes *)
Class LightningBalance (X : Type) := getTotalBalance : X -> Result number * X.

Section OnChainApp.
Context {M X : Type} `{MediciEntry M} `{!MediciBook M X} `{Database X} `{PriceServices X} `{BriaClient X} `{ILightningService X}.
Context `{LightningBalance X} `{Intl} (RATIO_PRECISION : number) (briaConfig : BriaConfig) (coldStorageConfig : RebalanceCheckerConfig).

Definition getBatchInclusionEstimatedAt (ledgerTransactionId : string) : IO X (Result (option number)) :=
  ledgerTransaction ←? getTransactionById (M := M) ledgerTransactionId;
  payout ←? findPayoutByLedgerJournalId ledgerTransaction.(lt_journalId);
  mret (Ok payout.(po_batchInclusionEstimatedAt)).

Definition rebalanceToColdWallet : IO X (Result bool) :=
  _ ←? ext LndService;
  _ ←? getCurrentPriceAsDisplayPriceRatio RATIO_PRECISION UsdDisplayCurrency;
  onChainBalance ←? getHotBalance briaConfig;
  offChainBalance ←? ext getTotalBalance;
  let rebalanceAmount := getWithdrawFromHotWalletAmount coldStorageConfig (toSats onChainBalance.(amount)) offChainBalance in
  if num_leb rebalanceAmount (Number 0) then mret (Ok false) else
  amt ←! paymentAmountFromNumber rebalanceAmount Btc;
  _ ←? bria_rebalanceToColdWallet briaConfig amt;
  mret (Ok true).

End OnChainApp.

(** ** The subscription

    [BriaSubscriber().subscribeToAll]: the stream of the events after a sequence, with the listener above.  The listener is
    not awaited, so the next event can arrive while it runs: the listeners that run are part of the state, and how
    each of them ends is an input, as are the calls of gRPC and the timer.  A call gives, in order, the events of the log
    of Bria that come after the sequence of its request. *)

Record Subscriber := mkSubscriber {
  sub_stream : Stream Z; (* the request is the sequence after which events are asked for *)
  sub_cursor : Z;        (* the sequence of the last event that the call gave *)
  sub_running : list Z;
  sub_stored : list Z;
}.

Definition subscribeToAll (stored : list Z) : Subscriber :=
  let lastSequence := latest stored in
  mkSubscriber (new_Stream lastSequence (Some (new_FibonacciBackoff 30000 7)) (Some (mkStreamOptions true false)))
    lastSequence [] stored.

Inductive SubscriberInput :=
| NextEvent                       (* the call gives its next event *)
| ListenerContinues (sequence : Z)
| ListenerReconnects (sequence : Z)
| ListenerThrows (sequence : Z)
| CallEnds
| CallFails (read : bool)         (* with an error; whether the latest sequence could be read *)
| TimerFires.

Definition delete_one (n : Z) (l : list Z) : list Z := (update_first (fun m => m =? n) (fun _ => None) l).1.

Definition subscriber_step (log : list Z) (s : Subscriber) (i : SubscriberInput) : option Subscriber :=
  let st := s.(sub_stream) in
  match i with
  | NextEvent =>
      if heard st EvData then
        n ← head (filter (fun n => s.(sub_cursor) < n) log);
        Some (mkSubscriber (handleEvent st EvData) n (s.(sub_running) ++ [n]) s.(sub_stored))
      else None
  | ListenerContinues n =>
      if decide (n ∈ s.(sub_running))
      then Some (mkSubscriber st s.(sub_cursor) (delete_one n s.(sub_running)) (s.(sub_stored) ++ [n]))
      else None
  | ListenerReconnects n =>
      if decide (n ∈ s.(sub_running))
      then Some (mkSubscriber (reconnect (with_request st (n - 1))) s.(sub_cursor) (delete_one n s.(sub_running)) s.(sub_stored))
      else None
  | ListenerThrows n =>
      if decide (n ∈ s.(sub_running))
      then Some (mkSubscriber st s.(sub_cursor) (delete_one n s.(sub_running)) s.(sub_stored))
      else None
  | CallEnds =>
      if heard st EvEnd then Some (mkSubscriber (handleEvent st EvEnd) s.(sub_cursor) s.(sub_running) s.(sub_stored)) else None
  | CallFails read =>
      if heard st EvError then
        let st := handleEvent st EvError in
        let st := if read then with_request st (latest s.(sub_stored)) else st in
        Some (mkSubscriber st s.(sub_cursor) s.(sub_running) s.(sub_stored))
      else None
  | TimerFires =>
      match st.(reconnectId) with
      | Some _ => let st := timer_fires st in Some (mkSubscriber st st.(request) s.(sub_running) s.(sub_stored))
      | None => None
      end
  end.

Fixpoint subscriber_run (log : list Z) (s : Subscriber) (inputs : list SubscriberInput) : option Subscriber :=
  match inputs with
  | [] => Some s
  | i :: inputs => s' ← subscriber_step log s i; subscriber_run log s' inputs
  end.

(** The runs in which no event arrives while a listener runs, with the events at which a listener threw. *)
Inductive one_at_a_time (log stored : list Z) : Subscriber -> list Z -> Prop :=
| one_start : one_at_a_time log stored (subscribeToAll stored) []
| one_step s thrown i s' : one_at_a_time log stored s thrown -> subscriber_step log s i = Some s' ->
    (i = NextEvent -> s.(sub_running) = []) ->
    one_at_a_time log stored s' (match i with ListenerThrows n => n :: thrown | _ => thrown end).

Lemma latest_bound l n : n ∈ l -> n <= latest l.
Proof.
  destruct l as [|m l]; [by intros ?%elem_of_nil|]. cbn. revert n. induction l as [|k l IH]; intros n; rewrite ?elem_of_cons; cbn.
  - intros [->|[]%elem_of_nil]. lia.
  - intros [->|[->|Hn]]; [|lia|]; [specialize (IH m ltac:(by left))|specialize (IH n ltac:(by right))]; lia.
Qed.

Lemma latest_elem l : l ≠ [] -> latest l ∈ l.
Proof.
  destruct l as [|m l]; [done|]. intros _. cbn. induction l as [|k l IH]; cbn; [by left|].
  destruct (Z.max_spec k (foldr Z.max m l)) as [[_ ->]|[_ ->]]; [|right; by left].
  apply elem_of_cons in IH as [->|IH]; [by left|by do 2 right].
Qed.

Lemma delete_one_elem n m l : m ∈ delete_one n l -> m ∈ l.
Proof.
  unfold delete_one. pose proof (update_first_found (fun m => m =? n) (fun _ => None) l) as Hu.
  destruct (update_first _ _ l) as [l' [y|]]; cbn.
  - destruct Hu as (l1 & a & l2 & -> & _ & _ & ->). rewrite !elem_of_app, elem_of_cons. tauto.
  - by destruct Hu as [-> _].
Qed.

Lemma delete_one_other n m l : m ∈ l -> m ≠ n -> m ∈ delete_one n l.
Proof.
  unfold delete_one. pose proof (update_first_found (fun m => m =? n) (fun _ => None) l) as Hu.
  destruct (update_first _ _ l) as [l' [y|]]; cbn.
  - destruct Hu as (l1 & a & l2 & -> & Ha%Z.eqb_eq & _ & ->). rewrite !elem_of_app, elem_of_cons. naive_solver.
  - by destruct Hu as [-> _].
Qed.

Lemma reconnect_deaf (st : Stream Z) : st.(backoff) ≠ None -> option_acceptData st = false ->
  (st.(reconnectId) ≠ None -> heard st EvData = false) -> heard (reconnect st) EvData = false.
Proof.
  unfold reconnect, heard. destruct (backoff st) as [b|]; [|done]. intros _ Ha. destruct (reconnectId st); [intros H; by apply H|].
  intros _. rewrite Ha. destruct (backoff_next b). cbn. by destruct (stream_call st).
Qed.

Lemma reconnect_same (st : Stream Z) : (reconnect st).(request) = st.(request) ∧ (reconnect st).(options) = st.(options) ∧
  (st.(backoff) ≠ None -> (reconnect st).(backoff) ≠ None).
Proof.
  unfold reconnect. destruct (backoff st) as [b|] eqn:E, (reconnectId st); cbn; rewrite ?E; try done.
Qed.

Lemma next_event log cursor n n' : StronglySorted Z.lt log -> head (filter (fun n => cursor < n) log) = Some n -> n' ∈ log -> n' < n -> n' <= cursor.
Proof.
  intros Hsorted Hh Hn' Hlt. destruct (decide (cursor < n')) as [Hc|]; [|lia]. exfalso.
  induction Hsorted as [|m log' Hs IH Hall]; [done|]. rewrite filter_cons in Hh. apply elem_of_cons in Hn'.
  case_decide.
  - cbn in Hh. injection Hh as ->. destruct Hn' as [->|Hn']; [lia|]. rewrite Forall_forall in Hall. specialize (Hall n' Hn'). lia.
  - destruct Hn' as [->|Hn']; [done|]. by apply IH.
Qed.

(** The events that are not stored, and at which no listener threw, come after those that are stored and after where the
    next call starts. *)
Section OneAtATime.
Context (log stored0 : list Z) (Hsorted : StronglySorted Z.lt log).
Abbreviation start := (latest stored0).
Implicit Types (thrown : list Z).

Definition stored_below (s : Subscriber) thrown (bound : Z) : Prop :=
  ∀ n, n ∈ log -> start < n <= bound -> n ∈ s.(sub_stored) ∨ n ∈ thrown.

Record in_order (s : Subscriber) thrown : Prop := {
  io_running : ∀ r, r ∈ s.(sub_running) -> stored_below s thrown (r - 1);
  io_request : stored_below s thrown s.(sub_stream).(request);
  io_cursor : heard s.(sub_stream) EvData = true -> ∀ n, n ∈ log -> start < n <= s.(sub_cursor) ->
    (n ∈ s.(sub_stored) ∨ n ∈ thrown) ∨ n ∈ s.(sub_running);
  io_stored : ∀ m, m ∈ s.(sub_stored) -> stored_below s thrown m;
  io_timer : s.(sub_stream).(reconnectId) ≠ None -> heard s.(sub_stream) EvData = false;
  io_stream : s.(sub_stream).(backoff) ≠ None ∧ s.(sub_stream).(options) = Some (mkStreamOptions true false);
  io_start : s.(sub_stored) = [] -> start = 0;
}.

Lemma in_order_start : in_order (subscribeToAll stored0) [].
Proof using.
  split; cbn; try done.
  - by intros r ?%elem_of_nil.
  - intros n _ ?. cbn in *. lia.
  - intros _ n _ ?. lia.
  - intros m Hm n _ ?. apply latest_bound in Hm. lia.
  - by intros ->.
Qed.

Lemma stored_below_mono s s' thrown thrown' b : (∀ n, n ∈ s.(sub_stored) -> n ∈ s'.(sub_stored)) -> (∀ n, n ∈ thrown -> n ∈ thrown') ->
  stored_below s thrown b -> stored_below s' thrown' b.
Proof using. intros Hm Ht Hb n Hn Hle. destruct (Hb n Hn Hle); auto. Qed.

(** After a step that only makes the stream wait for its timer. *)
Lemma in_order_waiting s thrown st running : in_order s thrown -> (∀ r, r ∈ running -> r ∈ s.(sub_running)) ->
  heard st EvData = false -> stored_below s thrown st.(request) -> st.(backoff) ≠ None -> st.(options) = s.(sub_stream).(options) ->
  in_order (mkSubscriber st s.(sub_cursor) running s.(sub_stored)) thrown.
Proof using.
  intros [Hr Hq Hc Hs Ht [Hb Ho] H0] Hrun Hh Hst Hbk Hop. split; cbn; try done.
  - intros r Hin. by apply Hr, Hrun.
  - by rewrite Hh.
  - by rewrite Hop.
Qed.

(** A listener that ends, with its event stored or thrown at. *)
Lemma in_order_ended s thrown n stored' thrown' (s' := mkSubscriber s.(sub_stream) s.(sub_cursor) (delete_one n s.(sub_running)) stored') :
  in_order s thrown -> n ∈ s.(sub_running) -> (∀ m, m ∈ s.(sub_stored) -> m ∈ stored') -> (∀ m, m ∈ thrown -> m ∈ thrown') ->
  (∀ m, m ∈ stored' -> m ∈ s.(sub_stored) ∨ m = n) -> n ∈ stored' ∨ n ∈ thrown' -> in_order s' thrown'.
Proof using.
  intros [Hr Hq Hc Hs Ht Hb H0] Hn Hm Hth Hnew Hend. split; cbn; try done.
  - intros r Hin%delete_one_elem. by eapply stored_below_mono, Hr.
  - by eapply stored_below_mono, Hq.
  - intros Hh n' Hn' Hb'. destruct (Hc Hh n' Hn' Hb') as [[?|?]|Hrun]; [left; auto..|].
    destruct (decide (n' = n)) as [->|]; [by left|right; by apply delete_one_other].
  - intros m [Hin| ->]%Hnew; [by eapply stored_below_mono, Hs|].
    intros n' Hn' Hb'. destruct (decide (n' = n)) as [->|]; [done|].
    eapply (stored_below_mono s); [exact Hm|exact Hth|by apply Hr|done|lia].
  - intros ->. apply H0. destruct (sub_stored s) as [|m l]; [done|]. by destruct (not_elem_of_nil m (Hm m ltac:(by left))).
Qed.

Lemma in_order_step s thrown i s' : in_order s thrown -> subscriber_step log s i = Some s' -> (i = NextEvent -> s.(sub_running) = []) ->
  in_order s' (match i with ListenerThrows n => n :: thrown | _ => thrown end).
Proof using Hsorted.
  intros Hin Hstep Hone. pose proof Hin as [Hr Hq Hc Hs Ht [Hb Ho] H0]. assert (Ha : option_acceptData (sub_stream s) = false).
  { unfold option_acceptData. by rewrite Ho. }
  destruct i as [|n|n|n| |read|]; cbn in Hstep.
  - destruct (heard (sub_stream s) EvData) eqn:Eh; [|done].
    destruct (head (filter _ log)) as [n|] eqn:En; [|done]. injection Hstep as <-. specialize (Hone eq_refl). rewrite Hone in *.
    assert (Hn : stored_below s thrown (n - 1)).
    { intros n' Hn' Hb'. destruct (Hc eq_refl n' Hn') as [|[]%elem_of_nil]; [|done].
      pose proof (next_event _ _ _ _ Hsorted En Hn'). lia. }
    split; cbn; try done.
    + intros r ->%list_elem_of_singleton. exact Hn.
    + intros _ n' Hn' Hb'. destruct (decide (n' = n)) as [->|]; [right; by left|left]. apply Hn; [done|lia].
    + split; [|done]. by destruct (backoff (sub_stream s)).
  - destruct (decide (n ∈ sub_running s)) as [Hn|]; [|done]. injection Hstep as <-.
    apply (in_order_ended s thrown); set_solver.
  - destruct (decide (n ∈ sub_running s)) as [Hn|]; [|done]. injection Hstep as <-.
    destruct (reconnect_same (with_request (sub_stream s) (n - 1))) as (Eq & Eo & Eb).
    apply in_order_waiting; [done|by intros r ?%delete_one_elem|by apply reconnect_deaf| |by apply Eb|done]. rewrite Eq. by apply Hr.
  - destruct (decide (n ∈ sub_running s)) as [Hn|]; [|done]. injection Hstep as <-.
    apply (in_order_ended s thrown); set_solver.
  - destruct (heard (sub_stream s) EvEnd); [|done]. injection Hstep as <-. unfold option_retry. rewrite Ho. cbn.
    destruct (reconnect_same (sub_stream s)) as (Eq & Eo & Eb).
    apply in_order_waiting; [done|done|by apply reconnect_deaf|by rewrite Eq|by apply Eb|done].
  - destruct (heard (sub_stream s) EvError); [|done]. injection Hstep as <-. unfold option_retry. rewrite Ho. cbn.
    destruct (reconnect_same (sub_stream s)) as (Eq & Eo & Eb).
    apply in_order_waiting; [done|done| | |by destruct read; apply Eb|by destruct read].
    + by destruct read; apply (reconnect_deaf (sub_stream s)).
    + destruct read; [|by rewrite Eq]. cbn. destruct (decide (sub_stored s = [])) as [E|E].
      * intros n _ Hb'. rewrite (H0 E), E in Hb'. cbn in Hb'. lia.
      * by apply Hs, latest_elem.
  - destruct (reconnectId (sub_stream s)); [|done]. injection Hstep as <-. split; cbn; try done. intros _ n Hn Hb'. left. by apply Hq.
Qed.

(** C8. One listener at a time, an event of Bria is passed over only if its listener threw.  However the listeners end, and whatever
    happens to the calls, an event that came after the subscription started, is not stored and at which no listener has thrown comes
    after every event that is stored, and after the sequence from which the next call asks for events: it will be delivered
    again. *)
Theorem events_in_order s thrown n (Hs : one_at_a_time log stored0 s thrown) (Hn : n ∈ log) (Hnew : latest stored0 < n) :
  n ∈ s.(sub_stored) ∨ n ∈ thrown ∨ latest s.(sub_stored) < n ∧ s.(sub_stream).(request) < n.
Proof using Hsorted.
  assert (Hi : in_order s thrown).
  { induction Hs as [|s thrown i s' _ IH Hstep Hone]; [apply in_order_start|by eapply in_order_step]. }
  destruct (decide (n ∈ s.(sub_stored))) as [|Hno]; [by left|right]. destruct (decide (n ∈ thrown)) as [|Hth]; [by left|right].
  destruct Hi as [_ Hq _ Hst _ _ H0]. split.
  - destruct (decide (sub_stored s = [])) as [E|E]; [rewrite E; rewrite (H0 E) in Hnew; exact Hnew|].
    destruct (decide (latest (sub_stored s) < n)) as [|Hge]; [done|].
    destruct (Hst _ (latest_elem _ E) n Hn); [lia|done..].
  - destruct (decide (request (sub_stream s) < n)) as [|Hge]; [done|]. destruct (Hq n Hn); [lia|done..].
Qed.

End OneAtATime.

Module SubscriptionExamples.

(** Two listeners that run together and fail one after the other: the second asks for the events after the first one,
    which is never delivered again, although the second is. *)
Example concurrent_failures_skip_event :
  match subscriber_run [1; 2] (subscribeToAll [])
          [NextEvent; NextEvent; ListenerReconnects 1; ListenerReconnects 2; TimerFires; NextEvent; ListenerContinues 2] with
  | Some s => s.(sub_stored) = [2] ∧ s.(sub_running) = [] ∧ s.(sub_cursor) = 2 ∧ s.(sub_stream).(request) = 1
  | None => False
  end.
Proof. by vm_compute. Qed.

(** A listener that fails while a later event was stored: where the call then fails too, the events are asked for after
    the latest that is stored, and the failed one is passed over. *)
Example failed_call_skips_event :
  match subscriber_run [1; 2] (subscribeToAll [])
          [NextEvent; NextEvent; ListenerContinues 2; ListenerReconnects 1; CallFails true; TimerFires] with
  | Some s => s.(sub_stored) = [2] ∧ s.(sub_running) = [] ∧ s.(sub_cursor) = 2
  | None => False
  end.
Proof. by vm_compute. Qed.

(** A listener that throws leaves its event, and the next one is stored. *)
Example throw_skips_event :
  match subscriber_run [1; 2] (subscribeToAll []) [NextEvent; ListenerThrows 1; NextEvent; ListenerContinues 2; CallFails true; TimerFires] with
  | Some s => s.(sub_stored) = [2] ∧ s.(sub_running) = [] ∧ s.(sub_stream).(request) = 2
  | None => False
  end.
Proof. by vm_compute. Qed.

(** A run in which no event arrives while a listener runs, with the events at which one threw. *)
Fixpoint orderly_run (log : list Z) (s : Subscriber) (thrown : list Z) (inputs : list SubscriberInput) : option (Subscriber * list Z) :=
  match inputs with
  | [] => Some (s, thrown)
  | i :: inputs =>
      if match i with NextEvent => bool_decide (s.(sub_running) = []) | _ => true end then
        s' ← subscriber_step log s i; orderly_run log s' (match i with ListenerThrows n => n :: thrown | _ => thrown end) inputs
      else None
  end.

Lemma orderly_one log stored inputs s thrown s' thrown' : one_at_a_time log stored s thrown ->
  orderly_run log s thrown inputs = Some (s', thrown') -> one_at_a_time log stored s' thrown'.
Proof.
  revert s thrown. induction inputs as [|i inputs IH]; intros s thrown Hs Hrun; cbn in Hrun; [by injection Hrun as <- <-|].
  destruct (match i with NextEvent => _ | _ => true end) eqn:Ei; [|done]. destruct (subscriber_step log s i) as [s1|] eqn:E1; [|done].
  eapply IH; [|exact Hrun]. eapply one_step; [done|done|]. intros ->. by apply bool_decide_eq_true in Ei.
Qed.

(** The listener threw at the first event, stored the second one and failed at the third one. *)
Definition inputs : list SubscriberInput :=
  [NextEvent; ListenerThrows 1; NextEvent; ListenerContinues 2; NextEvent; ListenerReconnects 3; CallFails true; TimerFires].
Definition retried : Subscriber * list Z := default (subscribeToAll [], []) (orderly_run [1; 2; 3] (subscribeToAll []) [] inputs).

Lemma events_in_order_witness : retried.2 = [1] ∧ retried.1.(sub_stored) = [2] ∧
  latest retried.1.(sub_stored) < 3 ∧ retried.1.(sub_stream).(request) < 3.
Proof.
  assert (Hr : one_at_a_time [1; 2; 3] [] retried.1 retried.2)
    by (eapply (orderly_one _ _ inputs); [apply one_start|vm_compute; reflexivity]).
  split; [vm_compute; reflexivity|]. split; [vm_compute; reflexivity|].
  destruct (events_in_order [1; 2; 3] [] ltac:(by repeat constructor) retried.1 retried.2 3 Hr ltac:(by do 2 right; left) ltac:(done))
    as [H|[H|H]]; [exfalso; vm_compute in H; set_solver..|exact H].
Defined.

End SubscriptionExamples.

(** ** What the handlers do to the books *)

(** A transaction of the bank owner that reconciles the fee of the payout. *)
Definition reconciled {X} (bankOwner : WalletId) (payoutId : string) (w : World X) : Prop :=
  ∃ d : Doc, d ∈ w.(ledger) ∧ d.(raw_payout_id) = Some payoutId ∧ in_account (toLedgerAccountId bankOwner) d ∧
    isOnChainFeeReconciliationTxn (translateToLedgerTx d) = true.

Section Books.
Context {M X : Type} `{MediciEntry M} `{!MediciLaws M} `{!MediciBook M X} `{!MediciBookLaws M X}
  `{Database X} `{Resolvers X}.
Context (bankOwner dealerBtc dealerUsd funder : WalletId).
Implicit Types (w : World X).

Abbreviation all_ready := (all_ready bankOwner dealerBtc dealerUsd funder).
Abbreviation reconciled := (reconciled bankOwner).

Lemma set_doc_relabels payoutId txId vout L : relabels L (map (set_doc payoutId txId vout) L).
Proof using.
  apply (relabels_update (fun d => bool_decide (d.(raw_payout_id) = Some payoutId)) (set_txid txId vout)). done.
Qed.

Lemma set_doc_reconciled payoutId txId vout p w w' : w'.(ledger) = map (set_doc payoutId txId vout) w.(ledger) ->
  reconciled p w <-> reconciled p w'.
Proof using.
  intros Hl. unfold BriaEvents.reconciled. rewrite Hl. split.
  - intros (d & Hd & Hp & Ha & Ht). exists (set_doc payoutId txId vout d). split; [by apply list_elem_of_fmap_2|].
    unfold set_doc. by case_bool_decide.
  - intros (d' & (d & -> & Hd)%list_elem_of_fmap & Hp & Ha & Ht). exists d. split; [done|].
    unfold set_doc in *. by case_bool_decide.
Qed.

(** The network fee that was estimated for the payout, from the bank owner's transaction. *)
Definition estimated payoutId txId vout w : Result Amount :=
  estimated_protocol_fee bankOwner (payout_txns payoutId (map (set_doc payoutId txId vout) w.(ledger))).

Lemma estimated_btc payoutId txId vout w est : estimated payoutId txId vout w = Ok est -> est.(currency) = Btc.
Proof using.
  unfold estimated, estimated_protocol_fee. intros E. repeat case_match; simplify_eq; try done.
  apply bind_Ok in E as (z & _ & [= <-]). done.
Qed.

(** Setting the transaction of a payout moves nothing. *)
Lemma wp_setTx payoutId txId vout (Q : Result Amount -> World X -> Prop) w : all_ready w ->
  (∀ r w', shifted w w' -> (∀ p, reconciled p w <-> reconciled p w') ->
     (∀ est, r = Ok est -> estimated payoutId txId vout w = Ok est) -> Q r w') ->
  wp (setOnChainTxIdByPayoutId payoutId txId vout) Q w.
Proof using.
  intros ((Hb & _ & _ & Tb & _) & _) HQ. apply (wp_setOnChainTxId bankOwner); [done|done| |].
  - intros msg w' [Hl|Hl] Hb'; apply HQ; try done.
    + by apply same_shifted.
    + intros p. unfold BriaEvents.reconciled. by rewrite Hl.
    + split; [done|]. rewrite Hl. apply set_doc_relabels.
    + intros p. by apply (set_doc_reconciled payoutId txId vout).
  - intros w' Hl Hb'. cbn zeta. apply HQ.
    + split; [done|]. rewrite Hl. apply set_doc_relabels.
    + intros p. by apply (set_doc_reconciled payoutId txId vout).
    + intros est E. apply bind_Ok in E as (_ & _ & E). unfold estimated. by rewrite <- Hl.
Qed.

Lemma wp_isReconciled payoutId (Q : Result bool -> World X -> Prop) w : all_ready w ->
  (∀ e x, Q (Err e) (with_outside w x)) -> (∀ b x, b = true <-> reconciled payoutId w -> Q (Ok b) (with_outside w x)) ->
  wp (isOnChainFeeReconciliationRecorded payoutId) Q w.
Proof using.
  intros ((Hb & _ & _ & Tb & _) & _) HErr HOk. unfold isOnChainFeeReconciliationRecorded, MainBook_ledger.
  apply wp_bind_or. unfold wp at 1, catch_as, getBankOwnerWalletId, mbind, IO_bind. rewrite (cached_hit _ _ _ bankOwner) by done.
  cbn [fst snd]. apply wp_bind_or, wp_catch, wp_db; [intros; by apply HErr|]. intros x. apply wp_gets, wp_ret, HOk.
  cbn [ledger with_outside]. unfold BriaEvents.reconciled. rewrite existsb_exists. unfold translated. split.
  - intros (t & (d & -> & [Hd Hin]%list_elem_of_filter)%list_elem_of_In%list_elem_of_fmap & Ht). exists d.
    apply andb_true_iff in Hd as [Hp%bool_decide_eq_true Hw]. split_and!; try done.
    unfold in_wallets in Hw. cbn in Hw. rewrite orb_false_r in Hw. by apply bool_decide_eq_true in Hw.
  - intros (d & Hin & Hp & Ha & Ht). exists (translateToLedgerTx d). split; [|done].
    apply list_elem_of_In, (list_elem_of_fmap_2 (fun d : Doc => translateToLedgerTx d)), list_elem_of_filter. split; [|done].
    rewrite bool_decide_true by done. unfold in_wallets. cbn. rewrite orb_false_r. by apply bool_decide_eq_true.
Qed.

Lemma fee_metadata_lookup md f key : key ≠ "currency" -> fee_metadata md f !! key = md !! key.
Proof using. intros Hk. unfold fee_metadata, spread. rewrite lookup_union_r; [done|]. by rewrite lookup_singleton_ne. Qed.

Lemma fee_entry_bank est fee md :
  ∃ tx f, tx ∈ transactions (fee_reconciliation_entry (MainBook_entry (X := X) : _ -> M) (ids bankOwner dealerBtc dealerUsd) est fee md) ∧
    tx.(tx_account) = toLedgerAccountId bankOwner ∧ tx.(tx_meta) = fee_metadata md f.
Proof using MediciLaws0 MediciBookLaws0.
  unfold fee_reconciliation_entry. destruct (_ <? _);
    unfold fee_creditOnChain, fee_debitBankOwner, fee_creditBankOwner, fee_debitOnChain, fee_creditAccount, fee_debitAccount;
    rewrite credit_transactions, debit_transactions, entry_empty; cbn [app]; eexists.
  - exists (AmountCalculator.sub fee est). split; [apply list_elem_of_here|]. split; reflexivity.
  - exists (AmountCalculator.sub est fee). split; [apply list_elem_of_further, list_elem_of_here|]. split; reflexivity.
Qed.

(** The record of the difference of the fees, a transaction of which is the bank owner's. *)
Lemma wp_record_reconciliation payoutId txId est fee w : all_ready w -> est.(currency) = Btc -> fee.(currency) = Btc ->
  est.(amount) ≠ fee.(amount) ->
  wp (recordReceiveOnChainFeeReconciliation (M := M) est fee (OnChainFeeReconciliationLedgerMetadata payoutId txId true))
    (fun r w' => match r with
                 | Ok _ => (journals_balanced w.(ledger) -> journals_balanced w'.(ledger)) ∧ reconciled payoutId w' ∧
                     ∃ D, moved D w w' ∧ (safe_integer (fee.(amount) - est.(amount)) ->
                       D (toLedgerAccountId bankOwner) Btc = fee.(amount) - est.(amount) ∧
                       D onChainLedgerAccountId Btc = est.(amount) - fee.(amount))
                 | Err _ => same_books w w'
                 end) w.
Proof using MediciLaws0 MediciBookLaws0.
  intros [Hb _] Hce Hcf Hne. set (md := OnChainFeeReconciliationLedgerMetadata payoutId txId true).
  destruct (fee_reconciliation_nets (MainBook_entry (X := X)) bankOwner dealerBtc dealerUsd entry_empty est fee md Hce Hcf) as [Hn HD].
  unfold recordReceiveOnChainFeeReconciliation. apply wp_bind_or, (wp_staticAccountIds bankOwner dealerBtc dealerUsd); [done|].
  apply wp_persistAndReturnEntry; [|done]. intros j w' (new & Hl & Hfr & Hj & Hnew & Ha & Hlab) Hb'.
  assert (Hz : ∀ c, book_net c new = 0) by (intros c; rewrite Hnew; apply Hn).
  split_and!.
  - rewrite Hl. by eapply journals_balanced_new.
  - destruct (fee_entry_bank est fee md) as (tx & f & Htx & Hacc & Hmeta). apply list_elem_of_lookup in Htx as [i Hi].
    eapply Forall2_lookup_l in Hlab as (d & Hd & [Ea _ _ Et _ Ep Epa]); [|exact Hi]. rewrite Hmeta in Et, Ep, Epa.
    unfold meta_string, meta_strings in *. rewrite fee_metadata_lookup in Et, Ep, Epa by done.
    exists d. split; [rewrite Hl; apply elem_of_app; left; by eapply list_elem_of_lookup_2|].
    split; [exact Ep|]. split; [unfold in_account; by rewrite Ea, Hacc|].
    change (Some OnchainPayment = Some (raw_type d)) in Et. change (raw_payee_addresses d = Some []) in Epa.
    unfold isOnChainFeeReconciliationTxn, translateToLedgerTx. cbn [lt_type lt_address]. rewrite Epa. injection Et as <-. done.
  - eexists. split; [split_and!; [done|..]; rewrite Hl|].
    + intros c. rewrite book_net_app, Hz. lia.
    + intros acc c. rewrite book_account_net_app, Ha. apply Z.add_comm.
    + exact HD.
Qed.

(** What registering the transaction of a payout does: the difference of the fees is recorded once. *)
Definition registered payoutId fee txId vout (r : Result unit) w w' : Prop :=
  (journals_balanced w.(ledger) -> journals_balanced w'.(ledger)) ∧ (reconciled payoutId w -> reconciled payoutId w') ∧
  ∃ D, moved D w w' ∧
    ((∀ x c, D x c = 0) ∧
       (r = Ok tt -> reconciled payoutId w ∨ ∃ est, estimated payoutId txId vout w = Ok est ∧ est.(amount) = fee) ∨
     ¬ reconciled payoutId w ∧ reconciled payoutId w' ∧
       ∃ est, estimated payoutId txId vout w = Ok est ∧ est.(amount) ≠ fee ∧
         (safe_integer (fee - est.(amount)) ->
          D (toLedgerAccountId bankOwner) Btc = fee - est.(amount) ∧ D onChainLedgerAccountId Btc = est.(amount) - fee)).

Lemma registered_nothing payoutId fee txId vout r w w' : shifted w w' -> (∀ p, reconciled p w <-> reconciled p w') ->
  (r = Ok tt -> reconciled payoutId w ∨ ∃ est, estimated payoutId txId vout w = Ok est ∧ est.(amount) = fee) ->
  registered payoutId fee txId vout r w w'.
Proof using.
  intros S Hr Hok. split_and!; [by apply journals_balanced_relabels, S|by apply Hr|].
  exists nothing. split; [by apply shifted_moved|by left].
Qed.

Lemma wp_registerBroadcastedPayout payoutId fee txId vout w : all_ready w -> fee.(currency) = Btc ->
  wp (registerBroadcastedPayout (M := M) payoutId fee txId vout)
    (fun r w' => registered payoutId fee.(amount) txId vout r w w') w.
Proof using MediciLaws0 MediciBookLaws0.
  intros Hw Hc. unfold registerBroadcastedPayout. apply wp_bind_or, wp_setTx; [done|]. intros [est|e] w1 S1 R1 Hest;
    [|by apply registered_nothing]. specialize (Hest est eq_refl).
  destruct (Z.eqb_spec est.(amount) fee.(amount)); [by apply wp_ret, registered_nothing; eauto|].
  assert (Hw1 : all_ready w1) by (destruct S1 as [Hb _]; unfold Money.all_ready in *; by rewrite Hb).
  apply wp_bind_or, wp_isReconciled; [done|intros; by apply registered_nothing|]. intros b x Hb.
  destruct b; [apply wp_ret, registered_nothing; [done|done|]; intros _; left; by apply R1, Hb|].
  apply wp_bind_or. eapply wp_mono; [apply wp_record_reconciliation; [done|by eapply estimated_btc|done|done]|].
  intros [j|e] w2 HQ.
  - destruct HQ as (Hj & Hrec & D & Hm & HD). apply wp_ret. split_and!; [|done|].
    + intros HL. apply Hj. by eapply journals_balanced_relabels; [apply S1|].
    + exists D. split; [by eapply shifted_then|]. right. split_and!; [|done|by exists est].
      intros Hr. apply R1, Hb in Hr. done.
  - apply registered_nothing; [by eapply shifted_same| |done]. intros p. rewrite R1. destruct HQ as [Hl _].
    unfold BriaEvents.reconciled. by rewrite Hl.
Qed.

(** C7. The fee of a payout is reconciled exactly once.  Registering the transaction of a payout, whatever fails, keeps
    every journal balanced.  It moves nothing unless the difference between the fee that was paid and the estimate was
    never recorded for the payout: then the difference is recorded, from the bank owner's wallet to the on-chain account,
    and an event that is delivered again finds it.  When it succeeds and moves nothing, the difference was recorded before
    or there is none. *)
Theorem payout_fee_reconciled_once payoutId fee txId vout w (Hw : all_ready w) (Hc : fee.(currency) = Btc) :
  wp (registerBroadcastedPayout (M := M) payoutId fee txId vout)
    (fun r w' => registered payoutId fee.(amount) txId vout r w w') w.
Proof using MediciLaws0 MediciBookLaws0. by apply wp_registerBroadcastedPayout. Qed.

End Books.

Module PayoutExamples.
Import BookExamples.

Abbreviation register := (registerBroadcastedPayout (M := L0) (X := nat) "payout" (BtcPaymentAmount 160) "txid" (Number 0)).

(** A payout whose fee was estimated at 100 satoshis and that paid 160: the bank owner pays the 60, and a second event
    records nothing. *)
Lemma payout_fee_reconciled_once_witness :
  (register ServiceExamples.paid).1 = Ok tt ∧
  (∃ D, moved D ServiceExamples.paid (register ServiceExamples.paid).2 ∧ D "Liabilities:bank" Btc = 60) ∧
  length (register (register ServiceExamples.paid).2).2.(ledger) = length (register ServiceExamples.paid).2.(ledger).
Proof.
  assert (E : (register ServiceExamples.paid).1 = Ok tt) by (vm_compute; reflexivity).
  split; [exact E|]. split; [|vm_compute; reflexivity].
  destruct (wp_run _ _ _ _ (payout_fee_reconciled_once (M := L0) "bank" "dealer-btc" "dealer-usd" "funder" "payout"
    (BtcPaymentAmount 160) "txid" (Number 0) ServiceExamples.paid ltac:(by repeat split) eq_refl) E)
    as (_ & _ & D & Hm & HD). exists D. split; [exact Hm|].
  destruct Hm as (_ & _ & Ha). specialize (Ha "Liabilities:bank" Btc).
  assert (Eb : book_account_net "Liabilities:bank" Btc (register ServiceExamples.paid).2.(ledger)
               = book_account_net "Liabilities:bank" Btc ServiceExamples.paid.(ledger) + 60) by (vm_compute; reflexivity).
  pose proof (eq_trans (eq_sym Eb) Ha). lia.
Defined.

End PayoutExamples.
