(* ===== verification/BriaBooks.v ===== *)
(** What the events of Bria do to the books, whichever they are: every journal stays balanced, the bank's wallets and
    the owners of the users' wallets stay the same, so that the next event finds the books as it needs them; and an event is
    passed only if its handler succeeded and its sequence was stored. *)
From S2P Require Import Prelude JsNumber Shared Prices Fees Lightning PaymentFlow LedgerEntry TxMetadata.
From S2P Require Import LedgerTx TxHistory Limits Invoices OnChainTx World LedgerBook LedgerService Services.
From S2P Require Import Repositories WalletInvoices Money Accounts SendIntraledger ReceiveLightning OnChainService.
From S2P Require Import OnChainReceive EventStream BriaEvents.

Open Scope Z_scope.

(** The wallets belong to the accounts that they belonged to, whatever their addresses, and no further event is stored. *)
Definition same_owners {X} (w w' : World X) : Prop :=
  map wl_descriptor w'.(wallets) = map wl_descriptor w.(wallets) ∧ w'.(briaSequences) = w.(briaSequences).

#[export] Instance same_owners_frame X : Frame (@same_owners X).
Proof.
  split; [split; [|done]|done..]. split; [done|]. intros w1 w2 w3 [E1 E2] [E3 E4]. split; congruence.
Qed.
#[export] Instance same_owners_cache X : CacheFrame (@same_owners X).
Proof. done. Qed.
#[export] Hint Resolve same_owners_frame same_owners_cache : keeps.

Lemma update_first_map {A B} (g : A -> B) (p : A -> bool) (u : A -> option A) l :
  (∀ a a', u a = Some a' -> g a' = g a) -> (∀ a, is_Some (u a)) -> map g (update_first p u l).1 = map g l.
Proof.
  intros Hg Hs. induction l as [|a l IH]; [done|]. cbn. destruct (p a).
  - destruct (Hs a) as [a' Ha]. rewrite Ha. cbn. by rewrite (Hg _ _ Ha).
  - destruct (update_first p u l). cbn in *. by rewrite IH.
Qed.

Section Owners.
Context {M X : Type} `{MediciEntry M} `{!MediciBook M X}
  `{Database X} `{Resolvers X} `{Redlock X} `{PriceServices X} `{BriaClient X} `{RateLimiterRedis X} `{RandomUUID X} `{Intl}.
Context (precision : number) (hedge : bool) (cfg : MemoSharingConfig) (briaConfig : BriaConfig)
  (addressLimits : RateLimitOptions) (getUuidByString : string -> string) (dust : number) (fees : DepositFeesConfig).
Implicit Types (w : World X).

Lemma owners_persistNewAddress id a : keeps same_owners (persistNewAddress (X := X) id a).
Proof using.
  unfold persistNewAddress. apply keeps_bind_or; [apply _| |intros ?; solve_keeps]. apply keeps_catch, keeps_db; [apply _..|].
  intros w. apply wp_bind, wp_gets. unfold wp. cbn.
  pose proof (update_first_map wl_descriptor (fun wl : Wallet => bool_decide (wl.(w_id) = id))
    (fun wl => Some (push_address a wl)) w.(wallets)) as Hm.
  destruct (update_first _ _ _) as [l' o]. cbn. split; [|done]. apply Hm; [|by eexists]. by intros ? ? [= <-].
Qed.

Lemma owners_updateMany f u : keeps same_owners (updateMany (X := X) f u).
Proof using. unfold updateMany. solve_keeps. by apply keeps_modify. Qed.

Lemma owners_commit e : keeps same_owners (entry_commit (M := M) (X := X) e).
Proof using. intros w. unfold wp, entry_commit. by destruct (commit _ _ _) as [[[]|] ?]. Qed.

Lemma owners_void j reason : keeps same_owners (MainBook_void (M := M) (X := X) j reason).
Proof using. intros w. unfold wp, MainBook_void. by destruct (void _ _ _ _) as [[[]|] ?]. Qed.

Lemma owners_addSettledTransaction h v a address :
  keeps same_owners (addSettledTransaction (M := M) precision hedge cfg briaConfig addressLimits dust fees h v a address).
Proof using.
  unfold addSettledTransaction, addSettledTransactionBeforeFinally. apply keeps_bind_or; [apply _| |intros [wd req]].
  - destruct (num_gtb_bigint _ _); [solve_keeps|]. apply keeps_bind_or; [apply _|unfold findByAddress; solve_keeps|intros wl].
    intros w. apply wp_bind, wp_redlock; [done|]. intros x1.
    eapply wp_mono; [apply (keeps_settled_steps precision hedge cfg briaConfig addressLimits fees same_owners); try done; apply owners_persistNewAddress|].
    intros r w' S x2. by split; [|intros e].
  - apply keeps_bind; [apply _|unfold removePending; solve_keeps|intros r].
    assert (Hc : ∀ q, keeps same_owners (_ ←? createOnChainAddress (X := X) briaConfig addressLimits wd.(w_id) (Some q); mret (Ok tt)))
      by (intros; apply keeps_create_next; [apply _|apply owners_persistNewAddress]).
    destruct r as [u|e]; [|destruct (is_CouldNotFindError e); [|solve_keeps]]; (destruct (js_or_opt req None); [apply Hc|solve_keeps]).
Qed.

End Owners.

(** ** The books *)

(** The cache of the bank's wallets is as it was, and balanced journals stay so. *)
Definition booked {X} (w w' : World X) : Prop :=
  w'.(bankWallets) = w.(bankWallets) ∧ (journals_balanced w.(ledger) -> journals_balanced w'.(ledger)).

#[export] Instance booked_frame X : Frame (@booked X).
Proof.
  split; [split; [|done]|done..]. split; [done|]. intros w1 w2 w3 [E1 J1] [E2 J2]. split; [congruence|auto].
Qed.
#[export] Hint Resolve booked_frame : keeps.

Lemma booked_shifted {X} (w w' : World X) : shifted w w' -> booked w w'.
Proof. intros [Hb Hl]. split; [done|by apply journals_balanced_relabels]. Qed.

Lemma booked_moved {X} D (w w' : World X) : moved D w w' -> (journals_balanced w.(ledger) -> journals_balanced w'.(ledger)) -> booked w w'.
Proof. by intros [Hb _]. Qed.

Section Booked.
Context {M X : Type} `{MediciEntry M} `{!MediciLaws M} `{!MediciBook M X} `{!MediciBookLaws M X}
  `{Database X} `{Resolvers X} `{PriceServices X} `{Intl}.
Context (bankOwner dealerBtc dealerUsd funder : WalletId).
Implicit Types (w : World X).

Abbreviation all_ready := (all_ready bankOwner dealerBtc dealerUsd funder).

Lemma booked_ready w w' : booked w w' -> all_ready w -> all_ready w'.
Proof using. intros [Hb _]. unfold Money.all_ready. by rewrite Hb. Qed.

(** Documents that are updated in place keep their amounts. *)
Lemma booked_updateMany (f : Doc -> bool) (u : Doc -> Doc) : (∀ d : Doc, (u d).(raw_journal) = d.(raw_journal) ∧ (u d).(raw_accounts) = d.(raw_accounts) ∧
  ∀ c, doc_net c (u d) = doc_net c d) -> keeps booked (updateMany (X := X) f u).
Proof using.
  intros Hu w. apply wp_updateMany.
  - intros msg w' Hl Hb. by apply booked_shifted, same_shifted.
  - intros w' Hl Hb. apply booked_shifted. split; [done|]. rewrite Hl. by apply relabels_update.
Qed.

(** An entry is committed under a journal of its own. *)
Lemma booked_commit (e : M) : (∀ c, net c (transactions e) = 0) -> keeps booked (entry_commit (X := X) e).
Proof using MediciBookLaws0.
  intros Hn w. unfold wp, entry_commit. destruct (commit e _ _) as [[[saved L']|msg] x] eqn:E; cbn [fst snd]; [|done].
  apply commit_stores in E as (Hf & memo & dt & t & new & -> & Hd). apply docs_nets in Hd as (Hj & Hd & _).
  split; [done|]. apply (journals_balanced_new saved.(saved_id)); [done|done|]. intros c. by rewrite Hd.
Qed.

(** A journal that is voided was balanced, and so is the one that reverts it. *)
Lemma booked_void j reason : keeps booked (MainBook_void (M := M) (X := X) j reason).
Proof using MediciBookLaws0.
  intros w. apply wp_void.
  - intros s w' new Hl Hb Hf Hj Hr. apply reverts_nets in Hr as [Hn _]. split; [done|]. intros HL. rewrite Hl.
    eapply journals_balanced_new; [done|done| |done]. intros c. rewrite Hn, HL. done.
  - intros msg w' Hl Hb. by apply booked_shifted, same_shifted.
Qed.

Lemma booked_setOnChainTxPayoutId j p : keeps booked (setOnChainTxPayoutId (M := M) (X := X) j p).
Proof using.
  unfold setOnChainTxPayoutId. destruct (negb _); [solve_keeps|]. apply keeps_bind_or; [apply _| |intros ?; solve_keeps].
  apply keeps_catch; [apply _|]. by apply booked_updateMany.
Qed.

Lemma booked_recordOnChainSendRevert j p : keeps booked (recordOnChainSendRevert (M := M) (X := X) j p).
Proof using MediciBookLaws0.
  unfold recordOnChainSendRevert. destruct (negb _); [solve_keeps|]. apply keeps_bind; [apply _|apply booked_void|].
  intros [s|msg]; [|solve_keeps]. apply keeps_bind; [apply _|unfold persistAll; solve_keeps|intros ?; solve_keeps].
Qed.

Lemma wp_settlePending payoutId w : all_ready w ->
  wp (settlePendingOnChainPayment (X := X) payoutId) (fun _ w' => booked w w') w.
Proof using.
  intros Hw. unfold settlePendingOnChainPayment, getTransactionsByPayoutId, MainBook_ledger.
  apply wp_bind_or. eapply wp_keeps; [apply keeps_catch; [apply booked_frame|by apply booked_updateMany]|].
  intros [n|e] w1 S1; [|exact S1]. apply wp_or_return; [intros _ _|intros; exact S1].
  apply wp_bind_or, wp_bind_or, wp_catch, wp_db; [intros; exact S1|]. intros x. apply wp_gets, wp_ret.
  apply wp_bind_or, (wp_getNonEndUserWalletIds bankOwner dealerBtc dealerUsd funder); [by apply (booked_ready w)|].
  intros nonUsers. apply wp_ret. exact S1.
Qed.

Lemma wp_settlePayout cfg payoutId w : all_ready w ->
  wp (settlePayout (M := M) cfg payoutId) (fun _ w' => booked w w') w.
Proof using.
  intros Hw. unfold settlePayout. apply wp_bind_or. eapply wp_mono; [by apply wp_settlePending|].
  intros [[t|]|e] w1 S1; [|exact S1..]. unfold notify_payout, findWalletById, findAccountById, findUserById.
  repeat first [apply wp_or_return; [intros ? _|intros; exact S1] | apply wp_bind_or, wp_repo; [intros; exact S1|intros ?];
    try match goal with |- match ?r with Ok _ => _ | Err _ => _ end => destruct r; [|exact S1] end].
  apply wp_bind_or, (wp_getWalletTransactionByJournalId bankOwner dealerBtc dealerUsd funder); [by apply (booked_ready w)|].
  intros [tx|e] w2 S2; (assert (S : booked w w2) by (etrans; [exact S1|by apply booked_shifted, same_shifted])); [|exact S].
  apply wp_bind, wp_modify, wp_ret. exact S.
Qed.

(** ** Cold storage *)

Lemma cold_storage_net (from to : LedgerAccountId) description sats fee md :
  0 <= sats -> 0 <= fee -> sats + fee < 2 ^ 53 -> md !! "currency" = Some (MString (currency_code Btc)) ->
  let txs := transactions (cold_storage_entry (M := M) (X := X) from to bankOwner description (Number sats) (Number fee) md) in
  (∀ c, net c txs = 0) ∧
  ∀ a, account_net a Btc txs = (if decide (from = a) then - (sats + fee) else 0) +
         (if decide (toLiabilitiesWalletId bankOwner = a) then fee else 0) + (if decide (to = a) then sats else 0).
Proof using MediciLaws0 MediciBookLaws0.
  intros Hs Hf Hsum Hmd. cbn zeta. unfold cold_storage_entry.
  assert (Hn : ∀ a d k c, tx_net c {| tx_account := a; tx_debit := d; tx_credit := k; tx_meta := md |}
    = if decide (c = Btc) then amount_of d - amount_of k else 0).
  { intros a d k c. unfold tx_net, in_currency. cbn [tx_meta tx_debit tx_credit]. rewrite Hmd. by destruct c. }
  assert (Hz : ∀ z, 0 <= z < 2 ^ 53 -> amount_of (Number z) = z) by (intros; apply amount_of_Number; unfold safe_integer; lia).
  rewrite !debit_transactions, credit_transactions, entry_empty, num_add_Number by (unfold safe_integer; lia).
  split; [intros c|intros a]; rewrite ?net_app, ?account_net_app, ?net_single, ?account_net_single, !Hn; cbn [tx_account];
    rewrite !Hz by lia; unfold net, account_net, sumZ; cbn; repeat case_decide; simplify_eq; lia.
Qed.

(** What a transfer to the cold wallet moves, wherever the journal ends up. *)
Definition to_cold (sats fee : Z) (D : Change) : Prop :=
  ∀ a, D a Btc = (if decide (lndLedgerAccountId = a) then - (sats + fee) else 0) +
         (if decide (toLiabilitiesWalletId bankOwner = a) then fee else 0) + (if decide (coldStorageAccountId = a) then sats else 0).

Lemma wp_commit_entry (entry : WalletId -> M) (Q : Result LedgerJournal -> World X -> Prop) w : all_ready w ->
  (∀ c, net c (transactions (entry bankOwner)) = 0) ->
  (∀ r w', booked w w' -> (∀ j, r = Ok j -> moved (fun a c => account_net a c (transactions (entry bankOwner))) w w') ->
     (∀ e, r = Err e -> same_books w w') -> Q r w') ->
  wp (commit_entry entry) Q w.
Proof using MediciBookLaws0.
  intros ((Hb & _ & _ & Tb & _) & _) Hn HQ. unfold commit_entry. apply wp_bind_or, wp_catch.
  unfold wp at 1, getBankOwnerWalletId. rewrite (cached_hit _ _ _ bankOwner) by done. cbn [fst snd].
  apply wp_bind_or, wp_catch. unfold wp at 1, entry_commit. destruct (commit _ _ _) as [[[saved L']|msg] x] eqn:E; cbn [fst snd];
    [|by apply HQ].
  apply commit_stores in E as (Hf & memo & dt & t & new & -> & Hd). apply docs_nets in Hd as (Hj & Hdn & Hda).
  apply wp_ret, HQ; [|intros j _|done].
  - split; [done|]. apply (journals_balanced_new saved.(saved_id)); [done|done|]. intros c. by rewrite Hdn.
  - split; [done|]. split; [intros c|intros a c]; cbn [ledger with_outside with_ledger].
    + rewrite book_net_app, Hdn, Hn. lia.
    + rewrite book_account_net_app, Hda. lia.
Qed.

Lemma wp_recordHotToColdTransfer precision (sats fee : Amount) txId address w : all_ready w ->
  0 <= sats.(amount) -> 0 <= fee.(amount) -> sats.(amount) + fee.(amount) < 2 ^ 53 ->
  wp (recordHotToColdTransfer (M := M) precision sats txId fee address)
    (fun r w' => booked w w' ∧ match r with
                               | Ok _ => ∃ D, moved D w w' ∧ to_cold sats.(amount) fee.(amount) D
                               | Err _ => same_books w w'
                               end) w.
Proof using MediciLaws0 MediciBookLaws0.
  intros Hw Hs Hf Hsum. unfold recordHotToColdTransfer. cbn zeta.
  apply wp_bind_or, (wp_keeps same_books); [auto with keeps|]. intros [ratio|e] w1 S1; [|split; [by apply booked_shifted, same_shifted|done]].
  destruct (cold_storage_net lndLedgerAccountId coldStorageAccountId
    ("deposit of " ++ pretty sats.(amount) ++ " sats to the cold storage wallet") sats.(amount) fee.(amount)
    (cold_storage_metadata ToColdStorage txId address (toSats fee.(amount)) (DisplayPriceRatio.convertFromWallet ratio sats)
      (DisplayPriceRatio.convertFromWallet ratio fee)) Hs Hf Hsum eq_refl) as [Hn Ha].
  apply wp_bind_or. eapply wp_commit_entry; [by eapply all_ready_same|exact Hn|]. intros r w2 S2 Hok Herr.
  assert (S : booked w w2) by (etrans; [by apply booked_shifted, same_shifted|exact S2]).
  destruct r as [j|e]; [apply wp_ret|]; (split; [exact S|]).
  - eexists. split; [eapply shifted_then; [by apply same_shifted|by eapply Hok]|]. intros a. apply Ha.
  - change (same_books w w2). transitivity w1; [exact S1|]. by eapply Herr.
Qed.

End Booked.

(** ** Events *)

Section Events.
Context {M X : Type} `{MediciEntry M} `{!MediciLaws M} `{!MediciBook M X} `{!MediciBookLaws M X}
  `{Database X} `{Resolvers X} `{Redlock X} `{PriceServices X} `{BriaClient X} `{RateLimiterRedis X} `{RandomUUID X} `{Intl}.
Context (precision : number) (hedge : bool) (cfg : MemoSharingConfig) (briaConfig : BriaConfig)
  (addressLimits : RateLimitOptions) (getUuidByString : string -> string) (dust : number) (fees : DepositFeesConfig).
Context (bankOwner dealerBtc dealerUsd funder : WalletId).
Implicit Types (w : World X).

Abbreviation all_ready := (all_ready bankOwner dealerBtc dealerUsd funder).
Abbreviation depositable := (depositable bankOwner dealerBtc dealerUsd funder).
Abbreviation briaEventHandler := (briaEventHandler (M := M) precision hedge cfg briaConfig addressLimits getUuidByString dust fees).
Abbreviation eventDataHandler := (eventDataHandler (M := M) precision hedge cfg briaConfig addressLimits getUuidByString dust fees).

(** The bank's wallets are known, no other wallet is one of them, and every journal is balanced. *)
Record sound_books w : Prop := {
  sb_depositable : depositable w;
  sb_balanced : journals_balanced w.(ledger);
}.

Lemma sound_after w w' : sound_books w -> booked w w' ->
  map wl_descriptor w'.(wallets) = map wl_descriptor w.(wallets) -> sound_books w'.
Proof using.
  intros [[Hr Hu] Hj] [Hb Hj'] Ho. split; [split|auto]; [unfold Money.all_ready; by rewrite Hb|].
  intros wl Hwl. apply (list_elem_of_fmap_2 wl_descriptor) in Hwl.
  change (wl_descriptor <$> wallets w') with (map wl_descriptor w'.(wallets)) in Hwl. rewrite Ho in Hwl.
  apply list_elem_of_fmap in Hwl as (wl0 & E & Hwl0). specialize (Hu wl0 Hwl0). by rewrite <- E in Hu.
Qed.

(** The amounts of an event are those of a chain of 21 million coins, and the prices that are asked for them fair. *)
Definition plausible (p : BriaPayload) : Prop :=
  match p with
  | UtxoSettled u _ => fairly_valued (X := X) precision hedge u.(u_satoshis) ∧ 0 < u.(u_satoshis).(amount) < 2 ^ 53 ∧
      num_eqb u.(u_vout) u.(u_vout) = true
  | PayoutBroadcast p => 0 <= p.(p_satoshis).(amount) ∧ 0 <= p.(p_proportionalFee).(amount) ∧
      p.(p_satoshis).(amount) + p.(p_proportionalFee).(amount) < 2 ^ 53
  | _ => True
  end.

(** The amounts that the code translates are satoshis. *)
Definition in_satoshis (p : BriaPayload) : Prop :=
  match p with
  | UtxoSettled u _ => u.(u_satoshis).(currency) = Btc
  | PayoutBroadcast p => p.(p_proportionalFee).(currency) = Btc
  | _ => True
  end.

Lemma translate_utxo_satoshis aug payload missing u raw :
  translate_utxo aug payload missing = Ok (u, raw) -> u.(u_satoshis).(currency) = Btc.
Proof using.
  unfold translate_utxo, toSatoshis. destruct aug as [info|]; [|done]. intros E. apply bind_Ok in E as (r & _ & E).
  apply bind_Ok in E as (s & Es & [= <- _]). by destruct (BigInt _); simplify_eq.
Qed.

Lemma translate_sent_satoshis raw p : translate_sent raw = Ok p -> p.(p_proportionalFee).(currency) = Btc.
Proof using.
  unfold translate_sent, paymentAmountFromNumber. intros E. apply bind_Ok in E as (f & Ef & E).
  apply bind_Ok in Ef as (z & _ & [= <-]). apply bind_Ok in E as (q & _ & [= <-]). done.
Qed.

Lemma translate_satoshis data event : translate data = Ok event -> in_satoshis event.(ev_payload).
Proof using.
  unfold translate. intros E. apply bind_Ok in E as (aug & _ & E). apply bind_Ok in E as (p & E & [= <-]). cbn [ev_payload].
  destruct (re_payload data); cbn [translate_payload] in E; [done|..]; apply bind_Ok in E as (u & Eu & E).
  1-3: destruct u as [u raw]; injection E as <-; by apply translate_utxo_satoshis in Eu.
  all: apply bind_Ok in E as (q & Eq & [= <-]); try done; by apply translate_sent_satoshis in Eq.
Qed.

Lemma booked_ignoring {A} ignored (m : IO X (Result A)) w :
  wp m (fun _ w' => booked w w') w -> wp (ignoring ignored m) (fun _ w' => booked w w') w.
Proof using. intros Hm. unfold ignoring. apply wp_bind. eapply wp_mono; [exact Hm|]. intros r w' S. by apply wp_ret. Qed.

Lemma owners_ignoring {A} ignored (m : IO X (Result A)) : keeps same_owners m -> keeps same_owners (ignoring ignored m).
Proof using. intros Hm. unfold ignoring. apply keeps_bind; [apply _|exact Hm|intros ?; solve_keeps]. Qed.

(** Listing a deposit as pending, or no longer, writes only that. *)
Lemma keeps_pending_steps R `{!Frame R} h v a address wd acc fee :
  keeps R (pending_steps (X := X) precision hedge getUuidByString h v a address wd acc fee).
Proof using.
  unfold pending_steps. apply keeps_bind_or; [apply _|unfold isOnChainReceiptTxRecordedForWallet, findOne; solve_keeps|intros [b req]].
  destruct b; [unfold removePending; solve_keeps|]. apply keeps_bind_or; [apply _| |intros r].
  { unfold receivedDeposit, walletAddressReceiver. cbn zeta. apply keeps_async_bind; [apply _| |intros u; solve_keeps].
    case_decide; [auto with keeps|solve_keeps]. }
  destruct (settlementAmounts r). apply keeps_bind_or; [apply _|auto with keeps|intros dr].
  unfold persistNewPending, findUserById, sendTransaction. solve_keeps.
Qed.

Lemma keeps_addPending R `{!Frame R} h v a address :
  keeps R (addPendingTransaction (X := X) precision hedge getUuidByString dust fees h v a address).
Proof using.
  unfold addPendingTransaction. destruct (num_gtb_bigint _ _); [solve_keeps|].
  apply keeps_bind_or; [apply _|unfold findByAddress; solve_keeps|intros wl].
  apply keeps_bind_or; [apply _|unfold findAccountById; solve_keeps|intros acc]. cbn zeta.
  intros w. apply wp_bind, wp_redlock; [intros; apply wp_ret, reads_outside|]. intros x1.
  eapply wp_mono; [by apply (keeps_pending_steps R)|]. intros r w' S x2.
  assert (S' : R w (with_outside w' x2)) by (etrans; [apply reads_outside|etrans; [exact S|apply reads_outside]]).
  split; [|intros e]; by apply wp_ret.
Qed.

Lemma keeps_removePending R `{!Frame R} h v address : keeps R (removePendingTransaction (X := X) h v address).
Proof using. unfold removePendingTransaction, removePending, findByAddress. solve_keeps. Qed.

(** The owners of the wallets, whichever the event. *)
Lemma owners_fee_reconciliation est fee md : keeps same_owners (recordReceiveOnChainFeeReconciliation (M := M) (X := X) est fee md).
Proof using.
  unfold recordReceiveOnChainFeeReconciliation, persistAndReturnEntry. apply keeps_bind_or; [apply _|auto with keeps|intros ids].
  apply keeps_bind_or; [apply _|apply keeps_catch; [apply _|apply owners_commit]|intros s].
  apply keeps_bind; [apply _|unfold persistAll; solve_keeps|intros ?; solve_keeps].
Qed.

Lemma owners_bankOwner : keeps same_owners (getBankOwnerWalletId (X := X)).
Proof using. by apply keeps_cached; apply _. Qed.

Lemma owners_setTx p txId vout : keeps same_owners (setOnChainTxIdByPayoutId (X := X) p txId vout).
Proof using.
  unfold setOnChainTxIdByPayoutId, getTransactionsByPayoutId, MainBook_ledger.
  apply keeps_bind_or; [apply _|apply keeps_catch; [apply _|apply owners_updateMany]|intros n].
  apply keeps_bind_or; [apply _|solve_keeps|intros txns]. apply keeps_or_return; [apply _|intros _].
  apply keeps_bind_or; [apply _|apply keeps_catch; [apply _|apply owners_bankOwner]|intros id]. solve_keeps.
Qed.

Lemma owners_registerBroadcastedPayout p fee txId vout :
  keeps same_owners (registerBroadcastedPayout (M := M) (X := X) p fee txId vout).
Proof using.
  unfold registerBroadcastedPayout, isOnChainFeeReconciliationRecorded, MainBook_ledger.
  apply keeps_bind_or; [apply _|apply owners_setTx|intros est]. destruct (_ =? _); [solve_keeps|].
  apply keeps_bind_or; [apply _| |intros b].
  - apply keeps_bind_or; [apply _|apply keeps_catch; [apply _|apply owners_bankOwner]|intros id]. solve_keeps.
  - destruct b; [solve_keeps|]. apply keeps_bind_or; [apply _|apply owners_fee_reconciliation|intros ?; solve_keeps].
Qed.

Lemma owners_recordHotToCold sats txId fee address :
  keeps same_owners (recordHotToColdTransfer (M := M) (X := X) precision sats txId fee address).
Proof using.
  unfold recordHotToColdTransfer, addColdStorageTxReceive, commit_entry. apply keeps_bind_or; [apply _|auto with keeps|intros r].
  apply keeps_bind_or; [apply _| |intros ?; solve_keeps].
  apply keeps_bind_or; [apply _|apply keeps_catch; [apply _|apply owners_bankOwner]|intros id].
  apply keeps_bind_or; [apply _|apply keeps_catch; [apply _|apply owners_commit]|intros ?; solve_keeps].
Qed.

Lemma owners_settlePayout p : keeps same_owners (settlePayout (M := M) (X := X) cfg p).
Proof using.
  unfold settlePayout, settlePendingOnChainPayment, getTransactionsByPayoutId, MainBook_ledger.
  apply keeps_bind_or; [apply _| |intros [t|]; [|solve_keeps]].
  - apply keeps_bind_or; [apply _|apply keeps_catch; [apply _|apply owners_updateMany]|intros n].
    apply keeps_or_return; [apply _|intros _]. apply keeps_bind_or; [apply _|solve_keeps|intros txns].
    apply keeps_bind_or; [apply _|auto with keeps|intros ids]. solve_keeps.
  - unfold notify_payout, findWalletById, findAccountById, findUserById.
    repeat first [apply keeps_or_return; [apply _|intros ?] | apply keeps_bind_or; [apply _|apply keeps_repo; apply _|intros ?]].
    apply keeps_bind_or; [apply _|auto with keeps|intros tx]. unfold sendTransaction. solve_keeps.
Qed.

Lemma owners_payout_handlers event info :
  keeps same_owners (payoutSubmittedEventHandler (M := M) (X := X) event info) ∧
  keeps same_owners (payoutCancelledEventHandler (M := M) (X := X) event info).
Proof using.
  split; apply owners_ignoring; unfold setOnChainTxPayoutId, recordOnChainSendRevert; (destruct (negb _); [solve_keeps|]).
  - apply keeps_bind_or; [apply _|apply keeps_catch; [apply _|apply owners_updateMany]|intros ?; solve_keeps].
  - apply keeps_bind; [apply _|apply owners_void|]. intros [s|msg]; [|solve_keeps].
    apply keeps_bind; [apply _|unfold persistAll; solve_keeps|intros ?; solve_keeps].
Qed.

Lemma owners_handler event : keeps same_owners (briaEventHandler event).
Proof using.
  unfold BriaEvents.briaEventHandler, with_payoutInfo. destruct (ev_payload event) as [u|u|u b|p|p|p|p|p a].
  - apply owners_ignoring. apply keeps_addPending, _.
  - apply owners_ignoring. apply keeps_removePending, _.
  - apply owners_ignoring, owners_addSettledTransaction.
  - destruct (ev_augmentation event); [solve_keeps|apply owners_payout_handlers].
  - solve_keeps.
  - destruct (ev_augmentation event); [solve_keeps|]. unfold payoutBroadcastEventHandler.
    destruct (is_rebalance info); [apply owners_recordHotToCold|apply owners_ignoring, owners_registerBroadcastedPayout].
  - apply owners_ignoring, owners_settlePayout.
  - destruct (ev_augmentation event); [solve_keeps|apply owners_payout_handlers].
Qed.

Lemma wp_handler_booked event w : sound_fees fees -> depositable w -> plausible event.(ev_payload) -> in_satoshis event.(ev_payload) ->
  wp (briaEventHandler event) (fun _ w' => booked w w') w.
Proof using MediciLaws0 MediciBookLaws0.
  intros Hs Hw Hp Hc. pose proof (dp_ready _ _ _ _ _ Hw) as Hr.
  unfold BriaEvents.briaEventHandler, with_payoutInfo. destruct (ev_payload event) as [u|u|u b|p|p|p|p|p a].
  - apply booked_ignoring. apply (keeps_addPending booked).
  - apply booked_ignoring. apply (keeps_removePending booked).
  - destruct Hp as (Hf & Ha & Hv). apply booked_ignoring.
    eapply wp_mono; [by apply (wp_addSettledTransaction precision hedge cfg briaConfig addressLimits dust fees bankOwner dealerBtc dealerUsd funder)|].
    intros r w' [[S _]|(wl & _ & _ & (Hj & D & Hm & _) & _)]; [by apply booked_shifted, same_shifted|by eapply booked_moved].
  - destruct (ev_augmentation event); [by apply wp_ret|]. apply booked_ignoring, booked_setOnChainTxPayoutId.
  - by apply wp_ret.
  - destruct (ev_augmentation event); [by apply wp_ret|]. unfold payoutBroadcastEventHandler. destruct Hp as (H1' & H2' & H3').
    destruct (is_rebalance info).
    + eapply wp_mono; [by apply (wp_recordHotToColdTransfer bankOwner dealerBtc dealerUsd funder)|]. by intros r w' [S _].
    + apply booked_ignoring. eapply wp_mono; [by apply (wp_registerBroadcastedPayout bankOwner dealerBtc dealerUsd funder)|].
      intros r w' (Hj & _ & D & Hm & _). by eapply booked_moved.
  - apply booked_ignoring. by apply (wp_settlePayout bankOwner dealerBtc dealerUsd funder).
  - destruct (ev_augmentation event); [by apply wp_ret|]. apply booked_ignoring, booked_recordOnChainSendRevert.
Qed.

(** The events that a listener was given, whose amounts are plausible. *)
Definition plausible_event (data : RawBriaEvent) : Prop :=
  ∀ event, translate data = Ok event -> plausible event.(ev_payload).

(** How the listener treats an event.  It passes an event whose handler answered without an error, and stores its sequence; it asks
    again for one that it could not handle or store; and an event that it throws at is not stored either. *)
Definition treated (data : RawBriaEvent) (action : StreamAction) w w' : Prop :=
  match action with
  | Continue => ∃ event u w1, translate data = Ok event ∧ briaEventHandler event w = (Ok u, w1) ∧
      w'.(ledger) = w1.(ledger) ∧ w'.(briaSequences) = w.(briaSequences) ++ [data.(re_sequence)]
  | ReconnectAfter n => n = data.(re_sequence) - 1 ∧ w'.(briaSequences) = w.(briaSequences)
  | Threw _ => w'.(briaSequences) = w.(briaSequences)
  end.

(** Events that are treated one after another. *)
Inductive listened : list RawBriaEvent -> list StreamAction -> World X -> World X -> Prop :=
| listened_none w : listened [] [] w w
| listened_next data action events actions w w1 w2 :
    treated data action w w1 -> listened events actions w1 w2 -> listened (data :: events) (action :: actions) w w2.

(** If every event is passed, then their sequences are stored in that order. *)
Lemma all_passed events actions w w' : listened events actions w w' -> Forall (eq Continue) actions ->
  w'.(briaSequences) = w.(briaSequences) ++ map re_sequence events.
Proof using.
  induction 1 as [w|data action events actions w w1 w2 Ht _ IH]; [by rewrite app_nil_r|]. intros Ha.
  apply Forall_cons_1 in Ha as [<- Ha]. destruct Ht as (event & u & w0 & _ & _ & _ & E). rewrite IH by done. rewrite E. cbn. by rewrite <- app_assoc.
Qed.

Lemma wp_eventDataHandler data w : sound_fees fees -> plausible_event data -> sound_books w ->
  wp (eventDataHandler data) (fun action w' => sound_books w' ∧ treated data action w w') w.
Proof using MediciLaws0 MediciBookLaws0.
  intros Hs Hp Hw. unfold BriaEvents.eventDataHandler. destruct (translate data) as [event|e] eqn:E; [|by apply wp_ret].
  assert (Es : event.(ev_sequence) = data.(re_sequence)).
  { unfold translate in E. apply bind_Ok in E as (aug & _ & E). apply bind_Ok in E as (p & _ & [= <-]). done. }
  apply wp_bind, wp_trace. eapply wp_mono; [apply wp_and; [apply (wp_handler_booked event)|apply owners_handler]|].
  { done. } { apply Hw. } { by apply Hp. } { by eapply translate_satoshis. }
  intros r w1 [Sb [Ho So]] Hrun. assert (Hw1 : sound_books w1) by (by eapply sound_after).
  destruct r as [u|e]; [|destruct e; apply wp_ret; (split; [done|]); first [done|by rewrite Es]]. apply wp_bind. unfold persistEvent.
  apply wp_catch, wp_db; [intros msg x; apply wp_ret; split; [by eapply sound_after; [exact Hw1|..]|by rewrite Es]|].
  intros x. apply wp_modify, wp_ret. split; [by eapply sound_after; [exact Hw1|..]|].
  exists event, u, w1. split_and!; [done..|]. cbn. by rewrite So, Es.
Qed.


End Events.

(** ** Examples *)
Module EventExamples.
Import BookExamples DepositExamples.

#[local] Existing Instance ReceiveExamples.free_locks.
#[local] Existing Instance ReceiveExamples.fixed_prices.
#[local] Existing Instance ReceiveExamples.two_digits.
#[local] Existing Instance new_addresses.
#[local] Existing Instance points_left.
#[local] Existing Instance counted_ids.

Abbreviation handle := (eventDataHandler (M := L0) (X := nat) (Number 1000000) true ReceiveExamples.cfg bria limits
  (fun s => s) (Number 5000) fees).

(** A deposit for Bob, and a transfer to the cold wallet. *)
Definition deposit_event : RawBriaEvent :=
  mkRawEvent 1 (Some (mkRawAugmentation (Some (mkAddressInfo "bob-address" "")) None))
    (UTXO_SETTLED (Some (mkRawUtxo "tx" (Number 1) (Number 10000) (Number 0)))).
Definition rebalance_event : RawBriaEvent :=
  mkRawEvent 2 (Some (mkRawAugmentation None (Some (mkPayoutInfo "rebalance" "" (Some (mkPayoutMetadata (Some (Some true))))))))
    (PAYOUT_BROADCAST (Some (mkRawPayout "rebalance" (Number 50000) (Number 200) "cold-tx" (Number 0) "cold-address"))).

Lemma deposit_plausible : plausible_event (X := nat) (Number 1000000) true deposit_event.
Proof.
  intros event [= <-]. split; [|by vm_compute]. by apply ReceiveExamples.prices_fair.
Qed.

Lemma rebalance_plausible : plausible_event (X := nat) (Number 1000000) true rebalance_event.
Proof. intros event [= <-]. vm_compute. repeat split; discriminate. Qed.

Lemma bobs_sound : sound_books "bank" "dealer-btc" "dealer-usd" "funder" bobs.
Proof. split; [apply bobs_depositable|]. by intros j c. Qed.

Abbreviation books := (mapM handle [deposit_event; rebalance_event; rebalance_event] bobs).


(** A transfer to the cold wallet whose event is delivered again is recorded again: nothing looks for the first record. *)
Example rebalance_recorded_twice :
  (mapM handle [rebalance_event; rebalance_event] bobs).1 = [Continue; Continue] ∧
  book_account_net coldStorageAccountId Btc (handle rebalance_event bobs).2.(ledger) = 50000 ∧
  book_account_net coldStorageAccountId Btc (mapM handle [rebalance_event; rebalance_event] bobs).2.(ledger) = 100000.
Proof. split_and!; vm_compute; reflexivity. Qed.

End EventExamples.
